(** * City-Road3d-Generator: the generation pipeline and its exports

    A shallow embedding of [city_generator/config.py], [zones.py],
    [roads.py] and [generator.py].  Python integers are [Z]; the floats the
    pipeline stores (road widths, densities, heights, the Bresenham error
    term) are exact rationals [Q]; the modified distances the partitioner
    compares are floats with their infinities and nans; lists are lists; the
    intersection dict is an insertion-ordered association list; exceptions
    are an error sum, and the two import flags [HAS_NUMPY] and [HAS_NOISE]
    are parameters. *)

From Stdlib Require Import ZArith QArith Qround Lqa List Bool Lia String.
From Stdlib Require Import DecimalString Sorted.
Import ListNotations.
Open Scope Z_scope.

(** ** Python preliminaries *)

(** The exceptions the modelled code can raise.  [OutOfFuel] is not a Python
    exception: it marks a loop bound of the model being reached, and is shown
    never to happen. *)
Inductive exn : Type :=
| ValueError
| IndexError
| ZeroDivisionError
| NameError
| TypeError
| OverflowError
| OutOfFuel.

Inductive result (A : Type) : Type :=
| Ok (a : A)
| Raise (e : exn).
Arguments Ok {A} a.
Arguments Raise {A} e.

Definition rbind {A B : Type} (m : result A) (k : A -> result B) : result B :=
  match m with
  | Ok a => k a
  | Raise e => Raise e
  end.

(** [range(start, stop, step)] for a positive step (Python raises on a zero
    step; the steps used here are positive constants or the positive grid
    sizes of the configuration). *)
Definition py_range (start stop step : Z) : list Z :=
  if step <=? 0 then []
  else map (fun k => start + Z.of_nat k * step)
           (seq 0 (Z.to_nat ((stop - start + step - 1) / step))).

(** [l[i]] with Python's negative indices; [None] is an IndexError. *)
Definition py_index {A : Type} (l : list A) (i : Z) : option A :=
  let n := Z.of_nat (List.length l) in
  let j := if i <? 0 then i + n else i in
  if (0 <=? j) && (j <? n) then nth_error l (Z.to_nat j) else None.

(** [g[y][x]] (or [g[y, x]] on the numpy array). *)
Definition grid_get {A : Type} (g : list (list A)) (y x : Z) : option A :=
  match py_index g y with
  | Some row => py_index row x
  | None => None
  end.

Fixpoint list_set {A : Type} (l : list A) (n : nat) (v : A) : list A :=
  match l, n with
  | [], _ => []
  | _ :: t, O => v :: t
  | h :: t, S n' => h :: list_set t n' v
  end.

(** [g[y][x] = v] for indices already tested to be non-negative. *)
Definition grid_set {A : Type} (g : list (list A)) (y x : Z) (v : A)
  : list (list A) :=
  match nth_error g (Z.to_nat y) with
  | Some row => list_set g (Z.to_nat y) (list_set row (Z.to_nat x) v)
  | None => g
  end.

(** A loop that computes one value per element, in order, and stops at the
    first exception. *)
Fixpoint rmap {A B : Type} (f : A -> result B) (l : list A)
  : result (list B) :=
  match l with
  | [] => Ok []
  | a :: rest =>
    rbind (f a) (fun b => rbind (rmap f rest) (fun bs => Ok (b :: bs)))
  end.

(** A statement-level [for] loop over a list, threading the state. *)
Definition for_each {S A : Type} (l : list A) (body : A -> S -> S) (s : S) : S :=
  fold_left (fun s a => body a s) l s.

(** A float as a comparison sees it: a finite value, an infinity or a nan. *)
Inductive fval : Type :=
| Fin (q : Q)
| PInf
| NInf
| NaN.

(** [a < b] and [a <= b] on floats; both are false as soon as one side is a
    nan. *)
Definition fval_lt (a b : fval) : bool :=
  match a, b with
  | NaN, _ | _, NaN => false
  | _, NInf => false
  | NInf, _ => true
  | PInf, _ => false
  | Fin _, PInf => true
  | Fin p, Fin q => negb (Qle_bool q p)
  end.

Definition fval_le (a b : fval) : bool :=
  match a, b with
  | NaN, _ | _, NaN => false
  | NInf, _ => true
  | _, NInf => false
  | _, PInf => true
  | PInf, _ => false
  | Fin p, Fin q => Qle_bool p q
  end.

Definition cell : Type := (Z * Z)%type.

Definition cell_eqb (a b : cell) : bool :=
  (fst a =? fst b) && (snd a =? snd b).

Definition mem_cell (c : cell) (l : list cell) : bool :=
  existsb (cell_eqb c) l.

(** ** config.py *)

Inductive ZoneType : Type :=
| RESIDENTIAL | COMMERCIAL | BUSINESS | LEISURE | PARKS | INDUSTRIAL.

(** [CityConfig].  The four per-type dicts are total on [ZoneType] (the
    defaults of [__post_init__] cover the six types). *)
Record CityConfig : Type := {
  cfg_width : Z;
  cfg_height : Z;
  main_road_width : Q;
  secondary_road_width : Q;
  local_road_width : Q;
  main_grid_size : Z;
  secondary_grid_size : Z;
  zone_densities : ZoneType -> Q;
  max_building_height : ZoneType -> Z;
  min_building_height : ZoneType -> Z
}.

Definition default_zone_densities (t : ZoneType) : Q :=
  match t with
  | RESIDENTIAL => 6 # 10 | COMMERCIAL => 8 # 10 | BUSINESS => 9 # 10
  | LEISURE => 4 # 10 | PARKS => 1 # 10 | INDUSTRIAL => 7 # 10
  end.

Definition default_max_building_height (t : ZoneType) : Z :=
  match t with
  | RESIDENTIAL => 25 | COMMERCIAL => 40 | BUSINESS => 80
  | LEISURE => 15 | PARKS => 5 | INDUSTRIAL => 20
  end.

Definition default_min_building_height (t : ZoneType) : Z :=
  match t with
  | RESIDENTIAL => 6 | COMMERCIAL => 8 | BUSINESS => 20
  | LEISURE => 3 | PARKS => 0 | INDUSTRIAL => 8
  end.

(** [CityConfig(width=w, height=h, main_grid_size=mg, secondary_grid_size=sg)] *)
Definition make_config (w h mg sg : Z) : CityConfig :=
  {| cfg_width := w; cfg_height := h;
     main_road_width := 20; secondary_road_width := 12; local_road_width := 8;
     main_grid_size := mg; secondary_grid_size := sg;
     zone_densities := default_zone_densities;
     max_building_height := default_max_building_height;
     min_building_height := default_min_building_height |}.

(** The invariant the configuration is documented to satisfy.  The model
    follows the code on such configurations; Python's [range] raises on a
    zero grid size. *)
Definition valid_config (cfg : CityConfig) : Prop :=
  0 < cfg_width cfg /\ 0 < cfg_height cfg /\
  0 < main_grid_size cfg /\ 0 < secondary_grid_size cfg.

(** ** generator.py: Building (declared here because a Zone holds them) *)

Record Building : Type := {
  b_x : Z;
  b_y : Z;
  b_width : Z;
  b_height : Z;
  floors : Z;
  b_zone_type : ZoneType;
  building_height : Q
}.

(** [Building.__init__]: the height is derived, [floors * 3.5]. *)
Definition new_Building (x y w h fl : Z) (t : ZoneType) : Building :=
  {| b_x := x; b_y := y; b_width := w; b_height := h; floors := fl;
     b_zone_type := t; building_height := (inject_Z fl * (7 # 2))%Q |}.

(** ** zones.py *)

Record Zone : Type := {
  zone_type : ZoneType;
  z_x : Z;
  z_y : Z;
  z_width : Z;
  z_height : Z;
  density : Q;
  z_buildings : list Building
}.

Definition new_Zone (t : ZoneType) (x y w h : Z) (d : Q) : Zone :=
  {| zone_type := t; z_x := x; z_y := y; z_width := w; z_height := h;
     density := d; z_buildings := [] |}.

(** A seed [(x, y, zone_type)]; the seed dict is the list of
    [(zone_id, seed)] in insertion order. *)
Definition Seed : Type := (Z * Z * ZoneType)%type.

(** [zone_grid[y][x]]; every read is behind a bounds test, so the default (the
    0 of [np.zeros]) is only met on a grid of another shape. *)
Definition zone_at (g : list (list Z)) (x y : Z) : Z :=
  match grid_get g y x with
  | Some v => v
  | None => 0
  end.

(** The cells in the order of [for y in range(height): for x in range(width)]. *)
Definition scan_cells (cfg : CityConfig) : list cell :=
  flat_map (fun y => map (fun x => (x, y)) (py_range 0 (cfg_width cfg) 1))
           (py_range 0 (cfg_height cfg) 1).

(** The [while stack:] loop of [_find_connected_cells].  The head of [stack]
    is the element [stack.pop()] returns, so the four neighbours are pushed
    in reverse. *)
Fixpoint flood_fill (fuel : nat) (cfg : CityConfig) (g : list (list Z))
  (zone_id : Z) (stack visited cells : list cell) {struct fuel}
  : result (list cell) :=
  match stack with
  | [] => Ok cells
  | (x, y) :: stack' =>
    match fuel with
    | O => Raise OutOfFuel
    | S fuel' =>
      if mem_cell (x, y) visited then
        flood_fill fuel' cfg g zone_id stack' visited cells
      else if (x <? 0) || (x >=? cfg_width cfg)
              || (y <? 0) || (y >=? cfg_height cfg) then
        flood_fill fuel' cfg g zone_id stack' visited cells
      else if negb (zone_at g x y =? zone_id) then
        flood_fill fuel' cfg g zone_id stack' visited cells
      else
        flood_fill fuel' cfg g zone_id
          ((x - 1, y) :: (x + 1, y) :: (x, y - 1) :: (x, y + 1) :: stack')
          ((x, y) :: visited) (cells ++ [(x, y)])
    end
  end.

Definition flood_fuel (cfg : CityConfig) : nat :=
  S (4 * List.length (scan_cells cfg)).

Definition find_connected_cells (cfg : CityConfig) (g : list (list Z))
  (zone_id : Z) : result (list cell) :=
  match find (fun c => zone_at g (fst c) (snd c) =? zone_id) (scan_cells cfg) with
  | None => Ok []
  | Some start_pos =>
    flood_fill (flood_fuel cfg) cfg g zone_id [start_pos] [] []
  end.

Definition list_min (d : Z) (l : list Z) : Z := fold_left Z.min l d.
Definition list_max (d : Z) (l : list Z) : Z := fold_left Z.max l d.

(** [min(x for x, y in zone_cells)] and its three siblings, on a non-empty
    list. *)
Definition min_x (cells : list cell) : Z :=
  match cells with [] => 0 | c :: t => list_min (fst c) (map fst t) end.
Definition max_x (cells : list cell) : Z :=
  match cells with [] => 0 | c :: t => list_max (fst c) (map fst t) end.
Definition min_y (cells : list cell) : Z :=
  match cells with [] => 0 | c :: t => list_min (snd c) (map snd t) end.
Definition max_y (cells : list cell) : Z :=
  match cells with [] => 0 | c :: t => list_max (snd c) (map snd t) end.

(** The zone built from a non-empty connected cell list. *)
Definition zone_of_cells (cfg : CityConfig) (t : ZoneType) (cells : list cell)
  : Zone :=
  new_Zone t (min_x cells) (min_y cells)
    (max_x cells - min_x cells + 1) (max_y cells - min_y cells + 1)
    (zone_densities cfg t).

(** [_create_zone_objects]: the loop over [seeds.keys()], with the
    [processed] set and the zone list threaded.  [zone_type_map[zone_id]] is
    the type stored in the seed of the same id. *)
Fixpoint create_zone_loop (cfg : CityConfig) (g : list (list Z))
  (seeds : list (Z * Seed)) (processed : list Z) (zones : list Zone)
  : result (list Zone) :=
  match seeds with
  | [] => Ok zones
  | (zone_id, (_, _, t)) :: rest =>
    if existsb (Z.eqb zone_id) processed then
      create_zone_loop cfg g rest processed zones
    else
      rbind (find_connected_cells cfg g zone_id) (fun zone_cells =>
        match zone_cells with
        | [] => create_zone_loop cfg g rest processed zones
        | _ :: _ =>
          create_zone_loop cfg g rest (zone_id :: processed)
            (zones ++ [zone_of_cells cfg t zone_cells])
        end)
  end.

Definition create_zone_objects (cfg : CityConfig) (g : list (list Z))
  (seeds : list (Z * Seed)) : result (list Zone) :=
  create_zone_loop cfg g seeds [] [].

Section Partitioner.

(** Whether [import numpy] and [from noise import pnoise2] succeeded. *)
Variable HAS_NUMPY : bool.
Variable HAS_NOISE : bool.

(** The float [distance * (1 + noise_val * 0.3) * zone_preference] evaluates
    to for a cell and a seed, when the three factors are computed.  It
    depends on the noise library and is left open; it is a nan or an infinity
    where the preference is one. *)
Variable modified_distance : Z -> Z -> Seed -> fval.

(** The call [pnoise2(...)].  Without the noise package the fallback defined
    in zones.py runs; it calls [math.sin], and zones.py imports [math] only
    when numpy is missing. *)
Definition pnoise2 : result unit :=
  if HAS_NOISE then Ok tt
  else if HAS_NUMPY then Raise NameError
  else Ok tt.

(** The call [_get_zone_preference(x, y, zone_type)].  It divides by
    [max_distance], the square root of [center_x**2 + center_y**2], which is
    [0.0] when both halves of the plane are 0: Python floats raise, numpy
    floats give a nan or an infinity. *)
Definition get_zone_preference (cfg : CityConfig) : result unit :=
  let center_x := cfg_width cfg / 2 in
  let center_y := cfg_height cfg / 2 in
  if negb HAS_NUMPY && (center_x ^ 2 + center_y ^ 2 =? 0)
  then Raise ZeroDivisionError
  else Ok tt.

(** The loop of [_find_closest_zone] over [seeds.items()]. *)
Fixpoint find_closest_loop (cfg : CityConfig) (x y : Z)
  (seeds : list (Z * Seed)) (min_distance : fval) (closest_zone_id : Z)
  : result Z :=
  match seeds with
  | [] => Ok closest_zone_id
  | (zone_id, seed) :: rest =>
    rbind (get_zone_preference cfg) (fun _ =>
      let d := modified_distance x y seed in
      if fval_lt d min_distance
      then find_closest_loop cfg x y rest d zone_id
      else find_closest_loop cfg x y rest min_distance closest_zone_id)
  end.

(** [_find_closest_zone], from [float('inf')] and the id 1. *)
Definition find_closest_zone (cfg : CityConfig) (x y : Z)
  (seeds : list (Z * Seed)) : result Z :=
  find_closest_loop cfg x y seeds PInf 1.

(** The body of the assignment loop at the cell [(x, y)]. *)
Definition assign_cell (cfg : CityConfig) (seeds : list (Z * Seed))
  (x y : Z) : result Z :=
  rbind pnoise2 (fun _ => find_closest_zone cfg x y seeds).

(** The nested assignment loop of [generate_zones]; the first exception
    ends it. *)
Definition assign_zone_grid (cfg : CityConfig) (seeds : list (Z * Seed))
  : result (list (list Z)) :=
  rmap (fun y => rmap (fun x => assign_cell cfg seeds x y)
                      (py_range 0 (cfg_width cfg) 1))
       (py_range 0 (cfg_height cfg) 1).

Definition generate_zones (cfg : CityConfig) (seeds : list (Z * Seed))
  : result (list Zone) :=
  rbind (assign_zone_grid cfg seeds) (fun g =>
    create_zone_objects cfg g seeds).

End Partitioner.

(** ** roads.py *)

(** A float computed as [sqrt(n)] of an integer [n >= 0], kept by its
    radicand.  The only tests made on such a value are [> 0] and [< 150];
    the square root being monotone and exact on perfect squares, both are
    decided on [n]. *)
Record root : Type := { radicand : Z }.

Definition root_pos (s : root) : bool := 0 <? radicand s.

(** [s < k] for an integer [k >= 0]. *)
Definition root_lt (s : root) (k : Z) : bool := radicand s <? k * k.

Record Road : Type := {
  r_start : cell;
  r_end : cell;
  r_width : Q;
  road_type : string
}.

Definition new_Road (s e : cell) (w : Q) (t : string) : Road :=
  {| r_start := s; r_end := e; r_width := w; road_type := t |}.

(** [Road.get_length]: the float it returns, where the square root is
    computed; [get_length_call] below is the call with the exceptions of the
    square root. *)
Definition get_length (r : Road) : root :=
  {| radicand := (fst (r_end r) - fst (r_start r)) ^ 2
                 + (snd (r_end r) - snd (r_start r)) ^ 2 |}.

Record Intersection : Type := {
  position : cell;
  connected_roads : list Road
}.

Definition new_Intersection (p : cell) : Intersection :=
  {| position := p; connected_roads := [] |}.

Definition add_road (i : Intersection) (r : Road) : Intersection :=
  {| position := position i; connected_roads := connected_roads i ++ [r] |}.

(** The [intersections] dict, in insertion order. *)
Definition IntersectionMap : Type := list (cell * Intersection).

Fixpoint dict_get (d : IntersectionMap) (p : cell) : option Intersection :=
  match d with
  | [] => None
  | (k, v) :: t => if cell_eqb p k then Some v else dict_get t p
  end.

Fixpoint dict_update (p : cell) (f : Intersection -> Intersection)
  (d : IntersectionMap) : IntersectionMap :=
  match d with
  | [] => []
  | (k, v) :: t =>
    if cell_eqb p k then (k, f v) :: t else (k, v) :: dict_update p f t
  end.

Record RoadNetwork : Type := {
  roads : list Road;
  intersections : IntersectionMap;
  road_grid : list (list bool)
}.

(** [RoadNetwork.__init__] *)
Definition new_RoadNetwork (cfg : CityConfig) : RoadNetwork :=
  {| roads := [];
     intersections := [];
     road_grid := map (fun _ => map (fun _ => false)
                                    (py_range 0 (cfg_width cfg) 1))
                      (py_range 0 (cfg_height cfg) 1) |}.

(** [self.roads.append(road)] *)
Definition append_road (road : Road) (net : RoadNetwork) : RoadNetwork :=
  {| roads := roads net ++ [road];
     intersections := intersections net;
     road_grid := road_grid net |}.

Definition add_intersection_point (road : Road) (point : cell)
  (d : IntersectionMap) : IntersectionMap :=
  let d' := match dict_get d point with
            | None => d ++ [(point, new_Intersection point)]
            | Some _ => d
            end in
  dict_update point (fun i => add_road i road) d'.

(** [_add_intersections_for_road] *)
Definition add_intersections_for_road (road : Road) (net : RoadNetwork)
  : RoadNetwork :=
  {| roads := roads net;
     intersections :=
       for_each [r_start road; r_end road] (add_intersection_point road)
                (intersections net);
     road_grid := road_grid net |}.

Definition generate_main_roads (cfg : CityConfig) (net : RoadNetwork)
  : RoadNetwork :=
  let net :=
    for_each (py_range 0 (cfg_width cfg) (main_grid_size cfg))
      (fun x net =>
         if x <? cfg_width cfg then
           let road := new_Road (x, 0) (x, cfg_height cfg - 1)
                                (main_road_width cfg) "main" in
           add_intersections_for_road road (append_road road net)
         else net) net in
  for_each (py_range 0 (cfg_height cfg) (main_grid_size cfg))
    (fun y net =>
       if y <? cfg_height cfg then
         let road := new_Road (0, y) (cfg_width cfg - 1, y)
                              (main_road_width cfg) "main" in
         add_intersections_for_road road (append_road road net)
       else net) net.

Definition generate_secondary_roads (cfg : CityConfig) (net : RoadNetwork)
  : RoadNetwork :=
  let net :=
    for_each (py_range (secondary_grid_size cfg) (cfg_width cfg)
                       (secondary_grid_size cfg))
      (fun x net =>
         if negb (x mod main_grid_size cfg =? 0) then
           let road := new_Road (x, 0) (x, cfg_height cfg - 1)
                                (secondary_road_width cfg) "secondary" in
           add_intersections_for_road road (append_road road net)
         else net) net in
  for_each (py_range (secondary_grid_size cfg) (cfg_height cfg)
                     (secondary_grid_size cfg))
    (fun y net =>
       if negb (y mod main_grid_size cfg =? 0) then
         let road := new_Road (0, y) (cfg_width cfg - 1, y)
                              (secondary_road_width cfg) "secondary" in
         add_intersections_for_road road (append_road road net)
       else net) net.

Definition generate_residential_roads (cfg : CityConfig) (zone : Zone)
  (net : RoadNetwork) : RoadNetwork :=
  let local_grid_size := 50 in
  for_each (py_range (z_x zone) (z_x zone + z_width zone) local_grid_size)
    (fun x net =>
       for_each (py_range (z_y zone) (z_y zone + z_height zone) local_grid_size)
         (fun y net =>
            let net :=
              if x + local_grid_size <=? z_x zone + z_width zone then
                append_road (new_Road (x, y) (x + local_grid_size, y)
                                      (local_road_width cfg) "local") net
              else net in
            if y + local_grid_size <=? z_y zone + z_height zone then
              append_road (new_Road (x, y) (x, y + local_grid_size)
                                    (local_road_width cfg) "local") net
            else net) net) net.

Definition generate_commercial_roads (cfg : CityConfig) (zone : Zone)
  (net : RoadNetwork) : RoadNetwork :=
  let local_grid_size := 40 in
  for_each (py_range (z_x zone) (z_x zone + z_width zone) local_grid_size)
    (fun x net =>
       if x + local_grid_size <=? z_x zone + z_width zone then
         for_each (py_range (z_y zone) (z_y zone + z_height zone)
                            (local_grid_size * 2))
           (fun y net =>
              if y + local_grid_size <=? z_y zone + z_height zone then
                append_road (new_Road (x, y) (x + local_grid_size, y)
                                      (local_road_width cfg) "local") net
              else net) net
       else net) net.

Definition generate_business_roads (cfg : CityConfig) (zone : Zone)
  (net : RoadNetwork) : RoadNetwork :=
  let local_grid_size := 60 in
  let net :=
    for_each (py_range (z_x zone) (z_x zone + z_width zone) local_grid_size)
      (fun x net =>
         if x <? z_x zone + z_width zone then
           append_road (new_Road (x, z_y zone) (x, z_y zone + z_height zone)
                                 (secondary_road_width cfg) "local") net
         else net) net in
  for_each (py_range (z_y zone) (z_y zone + z_height zone) local_grid_size)
    (fun y net =>
       if y <? z_y zone + z_height zone then
         append_road (new_Road (z_x zone, y) (z_x zone + z_width zone, y)
                               (secondary_road_width cfg) "local") net
       else net) net.

Definition generate_industrial_roads (cfg : CityConfig) (zone : Zone)
  (net : RoadNetwork) : RoadNetwork :=
  let local_grid_size := 80 in
  for_each (py_range (z_x zone) (z_x zone + z_width zone) local_grid_size)
    (fun x net =>
       if x <? z_x zone + z_width zone then
         append_road (new_Road (x, z_y zone) (x, z_y zone + z_height zone)
                               (local_road_width cfg * (3 # 2))%Q "local") net
       else net) net.

Definition generate_park_roads (cfg : CityConfig) (zone : Zone)
  (net : RoadNetwork) : RoadNetwork :=
  if (100 <? z_width zone) || (100 <? z_height zone) then
    let perimeter_points :=
      [ (z_x zone, z_y zone);
        (z_x zone + z_width zone, z_y zone);
        (z_x zone + z_width zone, z_y zone + z_height zone);
        (z_x zone, z_y zone + z_height zone);
        (z_x zone, z_y zone) ] in
    for_each (seq 0 (List.length perimeter_points - 1))
      (fun i net =>
         append_road (new_Road (nth i perimeter_points (0, 0))
                               (nth (S i) perimeter_points (0, 0))
                               (local_road_width cfg * (8 # 10))%Q "local") net)
      net
  else net.

Definition generate_leisure_roads (cfg : CityConfig) (zone : Zone)
  (net : RoadNetwork) : RoadNetwork :=
  let local_grid_size := 45 in
  for_each (py_range (z_x zone) (z_x zone + z_width zone) local_grid_size)
    (fun x net =>
       for_each (py_range (z_y zone) (z_y zone + z_height zone)
                          (local_grid_size * 2))
         (fun y net =>
            if (x + local_grid_size <=? z_x zone + z_width zone)
               && (y + local_grid_size <=? z_y zone + z_height zone) then
              append_road (new_Road (x, y) (x + local_grid_size, y)
                                    (local_road_width cfg) "local") net
            else net) net) net.

Definition generate_zone_roads (cfg : CityConfig) (zone : Zone)
  (net : RoadNetwork) : RoadNetwork :=
  match zone_type zone with
  | RESIDENTIAL => generate_residential_roads cfg zone net
  | COMMERCIAL => generate_commercial_roads cfg zone net
  | BUSINESS => generate_business_roads cfg zone net
  | INDUSTRIAL => generate_industrial_roads cfg zone net
  | PARKS => generate_park_roads cfg zone net
  | LEISURE => generate_leisure_roads cfg zone net
  end.

Definition generate_local_roads (cfg : CityConfig) (zones : list Zone)
  (net : RoadNetwork) : RoadNetwork :=
  for_each zones (generate_zone_roads cfg) net.

Definition zone_center (zone : Zone) : cell :=
  (z_x zone + z_width zone / 2, z_y zone + z_height zone / 2).

Definition zone_distance (zone1 zone2 : Zone) : root :=
  let center1 := zone_center zone1 in
  let center2 := zone_center zone2 in
  {| radicand := (fst center1 - fst center2) ^ 2
                 + (snd center1 - snd center2) ^ 2 |}.

Definition add_zone_connector (cfg : CityConfig) (zone1 zone2 : Zone)
  (net : RoadNetwork) : RoadNetwork :=
  append_road (new_Road (zone_center zone1) (zone_center zone2)
                        (local_road_width cfg) "local") net.

(** [_connect_zones]: [for i, zone1 in enumerate(zones): for zone2 in
    zones[i + 1:]]. *)
Fixpoint connect_zones (cfg : CityConfig) (zones : list Zone)
  (net : RoadNetwork) : RoadNetwork :=
  match zones with
  | [] => net
  | zone1 :: rest =>
    connect_zones cfg rest
      (for_each rest
         (fun zone2 net =>
            if root_lt (zone_distance zone1 zone2) 150 then
              add_zone_connector cfg zone1 zone2 net
            else net) net)
  end.

(** [_mark_road_point]; [int(width // 2)] is the floor of half the width. *)
Definition mark_road_point (cfg : CityConfig) (x y : Z) (width : Q)
  (g : list (list bool)) : list (list bool) :=
  let half_width := Qfloor (width / 2) in
  for_each (py_range (- half_width) (half_width + 1) 1)
    (fun dx g =>
       for_each (py_range (- half_width) (half_width + 1) 1)
         (fun dy g =>
            let nx := x + dx in
            let ny := y + dy in
            if (0 <=? nx) && (nx <? cfg_width cfg)
               && (0 <=? ny) && (ny <? cfg_height cfg) then
              grid_set g ny nx true
            else g) g) g.

Definition Qltb (a b : Q) : bool := negb (Qle_bool b a).

(** The loop [while x != x1] of [_draw_line_on_grid]; it yields the final
    [(x, y)] and the grid. *)
Fixpoint draw_major_x (fuel : nat) (cfg : CityConfig) (x1 dx dy sx sy : Z)
  (width : Q) (x y : Z) (err : Q) (g : list (list bool))
  : result (Z * Z * list (list bool)) :=
  if x =? x1 then Ok (x, y, g)
  else
    match fuel with
    | O => Raise OutOfFuel
    | S fuel' =>
      let g := mark_road_point cfg x y width g in
      let err := (err - inject_Z dy)%Q in
      let '(y, err) :=
        if Qltb err 0 then (y + sy, (err + inject_Z dx)%Q) else (y, err) in
      draw_major_x fuel' cfg x1 dx dy sx sy width (x + sx) y err g
    end.

(** The loop [while y != y1]. *)
Fixpoint draw_major_y (fuel : nat) (cfg : CityConfig) (y1 dx dy sx sy : Z)
  (width : Q) (x y : Z) (err : Q) (g : list (list bool))
  : result (Z * Z * list (list bool)) :=
  if y =? y1 then Ok (x, y, g)
  else
    match fuel with
    | O => Raise OutOfFuel
    | S fuel' =>
      let g := mark_road_point cfg x y width g in
      let err := (err - inject_Z dx)%Q in
      let '(x, err) :=
        if Qltb err 0 then (x + sx, (err + inject_Z dy)%Q) else (x, err) in
      draw_major_y fuel' cfg y1 dx dy sx sy width x (y + sy) err g
    end.

Definition draw_line_on_grid (cfg : CityConfig) (start end_ : cell)
  (width : Q) (g : list (list bool)) : result (list (list bool)) :=
  let '(x0, y0) := start in
  let '(x1, y1) := end_ in
  let dx := Z.abs (x1 - x0) in
  let dy := Z.abs (y1 - y0) in
  let sx := if x0 <? x1 then 1 else -1 in
  let sy := if y0 <? y1 then 1 else -1 in
  rbind
    (if dy <? dx then
       draw_major_x (Z.to_nat dx) cfg x1 dx dy sx sy width x0 y0
                    (inject_Z dx / 2)%Q g
     else
       draw_major_y (Z.to_nat dy) cfg y1 dx dy sx sy width x0 y0
                    (inject_Z dy / 2)%Q g)
    (fun '(x, y, g) => Ok (mark_road_point cfg x y width g)).

Fixpoint update_road_grid_loop (cfg : CityConfig) (rs : list Road)
  (g : list (list bool)) : result (list (list bool)) :=
  match rs with
  | [] => Ok g
  | road :: rest =>
    rbind (draw_line_on_grid cfg (r_start road) (r_end road) (r_width road) g)
          (update_road_grid_loop cfg rest)
  end.

Definition update_road_grid (cfg : CityConfig) (net : RoadNetwork)
  : result RoadNetwork :=
  rbind (update_road_grid_loop cfg (roads net) (road_grid net))
        (fun g => Ok {| roads := roads net;
                        intersections := intersections net;
                        road_grid := g |}).

(** Steps 1 to 4 of [generate_road_network]: the road list and the
    intersection map. *)
Definition generate_roads (cfg : CityConfig) (zones : list Zone)
  (net : RoadNetwork) : RoadNetwork :=
  connect_zones cfg zones
    (generate_local_roads cfg zones
       (generate_secondary_roads cfg (generate_main_roads cfg net))).

Definition generate_road_network (cfg : CityConfig) (zones : list Zone)
  (net : RoadNetwork) : result RoadNetwork :=
  update_road_grid cfg (generate_roads cfg zones net).

(** [is_road]: the grid is read only behind the bounds test. *)
Definition is_road (cfg : CityConfig) (net : RoadNetwork) (x y : Z)
  : result bool :=
  if (0 <=? x) && (x <? cfg_width cfg) && (0 <=? y) && (y <? cfg_height cfg)
  then match grid_get (road_grid net) y x with
       | Some v => Ok v
       | None => Raise IndexError
       end
  else Ok false.

(** ** generator.py *)

(** The random source: an arbitrary sequence of raw draws and the number
    already consumed. *)
Record Rng : Type := { rng_src : nat -> Z; rng_pos : nat }.

(** Computations that draw random numbers and may raise. *)
Definition M (A : Type) : Type := Rng -> result (A * Rng).

Definition ret {A : Type} (a : A) : M A := fun r => Ok (a, r).

Definition bind {A B : Type} (m : M A) (k : A -> M B) : M B :=
  fun r => match m r with
           | Ok (a, r') => k a r'
           | Raise e => Raise e
           end.

Definition lift {A : Type} (m : result A) : M A :=
  fun r => match m with
           | Ok a => Ok (a, r)
           | Raise e => Raise e
           end.

Notation "x <- c ;; k" := (bind c (fun x => k))
  (at level 61, c at next level, right associativity).

Definition draw : M Z :=
  fun r => Ok (rng_src r (rng_pos r),
               {| rng_src := rng_src r; rng_pos := S (rng_pos r) |}).

(** [random.randint(lo, hi)], and with numpy [np.random.randint(lo, hi + 1)]:
    an integer of [lo..hi]; a ValueError on an empty interval and, with
    numpy, on bounds outside the int64 range. *)
Definition randint (numpy : bool) (lo hi : Z) : M Z :=
  if hi <? lo then lift (Raise ValueError)
  else if numpy && ((lo <? - 2 ^ 63) || (2 ^ 63 <? hi + 1))
  then lift (Raise ValueError)
  else v <- draw ;; ret (lo + v mod (hi - lo + 1)).

(** [random.random()] and [np.random.random()]: a float of [[0, 1)]. *)
Definition random_unit : M Q :=
  v <- draw ;; ret (Qmake (v mod 2 ^ 53) (2 ^ 53)).

(** [np.random.exponential(scale)] and [random.expovariate(lambd)]: some
    non-negative float. *)
Definition random_nonneg : M Q :=
  a <- draw ;; b <- draw ;; ret (Qmake (Z.abs a) (Z.to_pos (1 + Z.abs b))).

Fixpoint mfold {S A : Type} (l : list A) (body : A -> S -> M S) (s : S)
  : M S :=
  match l with
  | [] => ret s
  | a :: t => s' <- body a s ;; mfold t body s'
  end.

Definition get_min_building_size (t : ZoneType) : Z * Z :=
  match t with
  | RESIDENTIAL => (8, 10) | COMMERCIAL => (12, 15) | BUSINESS => (20, 25)
  | LEISURE => (10, 12) | INDUSTRIAL => (25, 30) | PARKS => (5, 5)
  end.

Definition get_max_building_size (t : ZoneType) : Z * Z :=
  match t with
  | RESIDENTIAL => (15, 20) | COMMERCIAL => (25, 30) | BUSINESS => (40, 50)
  | LEISURE => (20, 25) | INDUSTRIAL => (50, 60) | PARKS => (8, 8)
  end.

Definition get_building_spacing (t : ZoneType) : Z :=
  match t with
  | RESIDENTIAL => 5 | COMMERCIAL => 3 | BUSINESS => 8
  | LEISURE => 6 | INDUSTRIAL => 10 | PARKS => 20
  end.

(** The offsets visited by [for dx in range(a, b): for dy in range(c, d)]. *)
Definition offsets (a b c d : Z) : list (Z * Z) :=
  flat_map (fun dx => map (fun dy => (dx, dy)) (py_range c d 1))
           (py_range a b 1).

(** A scan that stops at the first offset where [test] holds. *)
Fixpoint any_offset (test : Z * Z -> result bool) (l : list (Z * Z))
  : result bool :=
  match l with
  | [] => Ok false
  | o :: t => rbind (test o) (fun b => if b then Ok true else any_offset test t)
  end.

Definition can_place_building (cfg : CityConfig) (net : RoadNetwork)
  (x y : Z) (size : Z * Z) : result bool :=
  rbind
    (any_offset (fun o => is_road cfg net (x + fst o) (y + snd o))
                (offsets 0 (fst size) 0 (snd size)))
    (fun overlap =>
       if overlap then Ok false
       else
         let min_distance_to_road := 5 in
         rbind
           (any_offset
              (fun o =>
                 rbind (is_road cfg net (x + fst o) (y + snd o))
                       (fun b => Ok (b && (Z.abs (fst o) <? min_distance_to_road)
                                       && (Z.abs (snd o) <? min_distance_to_road))))
              (offsets (- min_distance_to_road)
                       (fst size + min_distance_to_road)
                       (- min_distance_to_road)
                       (snd size + min_distance_to_road)))
           (fun near => Ok (negb near))).

Section Generator.

(** Whether [import numpy] succeeded. *)
Variable HAS_NUMPY : bool.

Definition generate_building_floors (cfg : CityConfig) (t : ZoneType) : M Z :=
  let min_floors := Qfloor (inject_Z (min_building_height cfg t) / (7 # 2)) in
  let max_floors := Qfloor (inject_Z (max_building_height cfg t) / (7 # 2)) in
  let min_floors := Z.max 1 min_floors in
  let max_floors := Z.max min_floors max_floors in
  match t with
  | BUSINESS =>
    e <- random_nonneg ;;
    if HAS_NUMPY then ret (Qfloor e + min_floors)
    else ret (Z.min max_floors
                    (min_floors + Qfloor (e * inject_Z max_floors)))
  | RESIDENTIAL => randint HAS_NUMPY min_floors (Z.min max_floors 8)
  | _ => randint HAS_NUMPY min_floors max_floors
  end.

(** The body of the inner [while] loop at the candidate origin [(x, y)];
    the state is the city's building list and the zone. *)
Definition place_candidate (cfg : CityConfig) (net : RoadNetwork)
  (x y : Z) (st : list Building * Zone) : M (list Building * Zone) :=
  let '(bs, zone) := st in
  let min_building_size := get_min_building_size (zone_type zone) in
  let max_building_size := get_max_building_size (zone_type zone) in
  ok <- lift (can_place_building cfg net x y min_building_size) ;;
  if ok then
    width <- randint HAS_NUMPY (fst min_building_size)
               (fst max_building_size) ;;
    height <- randint HAS_NUMPY (snd min_building_size)
                (snd max_building_size) ;;
    let width := Z.min width (z_x zone + z_width zone - x) in
    let height := Z.min height (z_y zone + z_height zone - y) in
    fl <- generate_building_floors cfg (zone_type zone) ;;
    u <- random_unit ;;
    if Qltb u (density zone) then
      let building := new_Building x y width height fl (zone_type zone) in
      ret (bs ++ [building],
           {| zone_type := zone_type zone; z_x := z_x zone; z_y := z_y zone;
              z_width := z_width zone; z_height := z_height zone;
              density := density zone;
              z_buildings := z_buildings zone ++ [building] |})
    else ret (bs, zone)
  else ret (bs, zone).

(** [_generate_zone_buildings].  The two [while] loops advance their
    variable by a positive constant at the end of the body, so they visit
    [range(start, bound, step)]. *)
Definition generate_zone_buildings (cfg : CityConfig) (net : RoadNetwork)
  (st : list Building * Zone) : M (list Building * Zone) :=
  let zone := snd st in
  match zone_type zone with
  | PARKS => ret st
  | t =>
    let min_building_size := get_min_building_size t in
    let max_building_size := get_max_building_size t in
    let building_spacing := get_building_spacing t in
    mfold (py_range (z_y zone + building_spacing)
                    (z_y zone + z_height zone - snd min_building_size)
                    (snd max_building_size + building_spacing))
      (fun y st =>
         mfold (py_range (z_x zone + building_spacing)
                         (z_x zone + z_width zone - fst min_building_size)
                         (fst max_building_size + building_spacing))
           (fun x st => place_candidate cfg net x y st) st) st
  end.

(** [_generate_buildings]: the zones are visited in order; each is put
    back, with its grown building list, where it was. *)
Fixpoint generate_buildings (cfg : CityConfig) (net : RoadNetwork)
  (todo : list Zone) (bs : list Building) : M (list Building * list Zone) :=
  match todo with
  | [] => ret (bs, [])
  | zone :: rest =>
    st <- generate_zone_buildings cfg net (bs, zone) ;;
    out <- generate_buildings cfg net rest (fst st) ;;
    ret (fst out, snd st :: snd out)
  end.

Record CityGenerator : Type := {
  config : CityConfig;
  zones : list Zone;
  road_network : RoadNetwork;
  buildings : list Building;
  generation_complete : bool
}.

(** [CityGenerator.__init__] *)
Definition new_CityGenerator (cfg : CityConfig) : CityGenerator :=
  {| config := cfg; zones := []; road_network := new_RoadNetwork cfg;
     buildings := []; generation_complete := false |}.

(** [generate_city] on a fresh generator.  [seeds] is what
    [_generate_zone_seeds] drew, [modified_distance] what the noise and the
    preference made of each distance; [HAS_NOISE] is the flag of zones.py,
    whose [HAS_NUMPY] is the one of this module. *)
Definition generate_city (HAS_NOISE : bool)
  (modified_distance : Z -> Z -> Seed -> fval)
  (seeds : list (Z * Seed)) (cfg : CityConfig) : M CityGenerator :=
  let city := new_CityGenerator cfg in
  zs <- lift (generate_zones HAS_NUMPY HAS_NOISE modified_distance cfg
                seeds) ;;
  net <- lift (generate_road_network cfg zs (road_network city)) ;;
  out <- generate_buildings cfg net zs (buildings city) ;;
  ret {| config := cfg; zones := snd out; road_network := net;
         buildings := fst out; generation_complete := true |}.

End Generator.

(** ** The exports *)

(** A float of the mesh export.  Those derived from a road's length involve a
    square root and are kept as terms. *)
Inductive flt : Type :=
| FZ (z : Z)
| FQ (q : Q)
| FRoot (s : root)
| FNeg (a : flt)
| FAdd (a b : flt)
| FSub (a b : flt)
| FMul (a b : flt)
| FDiv (a b : flt).

(** [a / length]: a ZeroDivisionError when the length is [0.0]. *)
Definition div_length (a : flt) (length : root) : result flt :=
  if radicand length =? 0 then Raise ZeroDivisionError
  else Ok (FDiv a (FRoot length)).

Inductive ObjLine : Type :=
| Comment (s : string)
| Blank
| V (x y z : flt)
| F (indices : list Z).

Definition zone_type_value (t : ZoneType) : string :=
  match t with
  | RESIDENTIAL => "residential" | COMMERCIAL => "commercial"
  | BUSINESS => "business" | LEISURE => "leisure" | PARKS => "parks"
  | INDUSTRIAL => "industrial"
  end.

Definition get_zone_color (t : ZoneType) : Q * Q * Q :=
  match t with
  | RESIDENTIAL => (8 # 10, 8 # 10, 6 # 10)
  | COMMERCIAL => (6 # 10, 6 # 10, 9 # 10)
  | BUSINESS => (5 # 10, 5 # 10, 8 # 10)
  | LEISURE => (9 # 10, 7 # 10, 6 # 10)
  | PARKS => (4 # 10, 8 # 10, 4 # 10)
  | INDUSTRIAL => (7 # 10, 7 # 10, 7 # 10)
  end.

Record ZoneData : Type := {
  zd_type : string; zd_x : Z; zd_y : Z; zd_width : Z; zd_height : Z;
  zd_density : Q; zd_color : Q * Q * Q
}.

Record BuildingData : Type := {
  bd_x : Z; bd_y : Z; bd_width : Z; bd_height : Z; bd_floors : Z;
  bd_building_height : Q; bd_zone_type : string
}.

Record IntersectionData : Type := {
  id_position : cell; id_connected_roads : Z
}.

(** The dict [export_to_json] builds. *)
Record CityData : Type := {
  cd_width : Z; cd_height : Z;
  cd_main_road_width : Q; cd_secondary_road_width : Q; cd_local_road_width : Q;
  cd_zones : list ZoneData;
  cd_roads : list Road;
  cd_buildings : list BuildingData;
  cd_intersections : list IntersectionData
}.

Inductive FileContent : Type :=
| ObjFile (lines : list ObjLine)
| JsonFile (data : CityData).

(** The files, by name; every write is accepted. *)
Definition FileSystem : Type := string -> option FileContent.

Definition fs_write (name : string) (c : FileContent) (fs : FileSystem)
  : FileSystem :=
  fun n => if String.eqb n name then Some c else fs n.

Definition to_dict (b : Building) : BuildingData :=
  {| bd_x := b_x b; bd_y := b_y b; bd_width := b_width b;
     bd_height := b_height b; bd_floors := floors b;
     bd_building_height := building_height b;
     bd_zone_type := zone_type_value (b_zone_type b) |}.

Definition city_data (city : CityGenerator) : CityData :=
  let cfg := config city in
  {| cd_width := cfg_width cfg; cd_height := cfg_height cfg;
     cd_main_road_width := main_road_width cfg;
     cd_secondary_road_width := secondary_road_width cfg;
     cd_local_road_width := local_road_width cfg;
     cd_zones :=
       map (fun zone =>
              {| zd_type := zone_type_value (zone_type zone);
                 zd_x := z_x zone; zd_y := z_y zone;
                 zd_width := z_width zone; zd_height := z_height zone;
                 zd_density := density zone;
                 zd_color := get_zone_color (zone_type zone) |})
           (zones city);
     cd_roads := roads (road_network city);
     cd_buildings := map to_dict (buildings city);
     cd_intersections :=
       map (fun kv =>
              {| id_position := fst kv;
                 id_connected_roads :=
                   Z.of_nat (List.length (connected_roads (snd kv))) |})
           (intersections (road_network city)) |}.

(** [export_to_json]: the value returned or the exception raised, and the
    files afterwards.  [if filename:] skips the write for [None] and for the
    empty name. *)
Definition export_to_json (city : CityGenerator) (filename : option string)
  (fs : FileSystem) : result CityData * FileSystem :=
  if negb (generation_complete city) then (Raise ValueError, fs)
  else
    let data := city_data city in
    match filename with
    | Some name =>
      if (name =? "")%string then (Ok data, fs)
      else (Ok data, fs_write name (JsonFile data) fs)
    | None => (Ok data, fs)
    end.

(** The lines one building adds, [base] being [vertex_count]. *)
Definition building_lines (b : Building) (base : Z) : list ObjLine :=
  let x := b_x b in
  let y := b_y b in
  let w := b_width b in
  let h := b_height b in
  let height := FQ (building_height b) in
  [ V (FZ x) (FZ 0) (FZ y);
    V (FZ (x + w)) (FZ 0) (FZ y);
    V (FZ (x + w)) (FZ 0) (FZ (y + h));
    V (FZ x) (FZ 0) (FZ (y + h));
    V (FZ x) height (FZ y);
    V (FZ (x + w)) height (FZ y);
    V (FZ (x + w)) height (FZ (y + h));
    V (FZ x) height (FZ (y + h));
    F [base; base + 1; base + 2; base + 3];
    F [base + 4; base + 7; base + 6; base + 5];
    F [base; base + 4; base + 5; base + 1];
    F [base + 1; base + 5; base + 6; base + 2];
    F [base + 2; base + 6; base + 7; base + 3];
    F [base + 3; base + 7; base + 4; base] ].

(** The loop over the buildings: the counter and the lines written. *)
Definition export_buildings (bs : list Building) (st : Z * list ObjLine)
  : Z * list ObjLine :=
  for_each bs
    (fun building st =>
       let '(vertex_count, out) := st in
       (vertex_count + 8, out ++ building_lines building vertex_count)) st.

(** The body of the loop over the roads: the lines it writes and the new
    counter.  Both divisions come before the first write. *)
Definition export_road (road : Road) (vertex_count : Z)
  : result (list ObjLine * Z) :=
  let '(x1, y1) := r_start road in
  let '(x2, y2) := r_end road in
  let width := FQ (r_width road / 2) in
  let length := get_length road in
  if root_pos length then
    rbind (div_length (FZ (x2 - x1)) length) (fun dx =>
    rbind (div_length (FZ (y2 - y1)) length) (fun dy =>
      let px := FMul (FNeg dy) width in
      let py := FMul dx width in
      let base := vertex_count in
      Ok ([ V (FAdd (FZ x1) px) (FQ (1 # 10)) (FAdd (FZ y1) py);
            V (FSub (FZ x1) px) (FQ (1 # 10)) (FSub (FZ y1) py);
            V (FSub (FZ x2) px) (FQ (1 # 10)) (FSub (FZ y2) py);
            V (FAdd (FZ x2) px) (FQ (1 # 10)) (FAdd (FZ y2) py);
            F [base; base + 1; base + 2; base + 3] ],
          vertex_count + 4)))
  else Ok ([], vertex_count).

(** The loop over the roads; an exception leaves what was written before. *)
Fixpoint export_roads (rs : list Road) (st : Z * list ObjLine)
  : option exn * (Z * list ObjLine) :=
  match rs with
  | [] => (None, st)
  | road :: rest =>
    match export_road road (fst st) with
    | Ok (lines, vertex_count) =>
      export_roads rest (vertex_count, snd st ++ lines)
    | Raise e => (Some e, st)
    end
  end.

Definition obj_header : list ObjLine :=
  [ Comment "# 3D City Model";
    Comment "# Generated by City-Road3d-Generator";
    Blank ].

(** [export_to_obj]: [Ok tt] or the exception raised, and the files
    afterwards. *)
Definition export_to_obj (city : CityGenerator) (filename : string)
  (fs : FileSystem) : result unit * FileSystem :=
  if negb (generation_complete city) then (Raise ValueError, fs)
  else
    let st := export_buildings (buildings city) (1, obj_header) in
    let '(err, (_, out)) := export_roads (roads (road_network city)) st in
    (match err with None => Ok tt | Some e => Raise e end,
     fs_write filename (ObjFile out) fs).

(** What a reader of the written file sees. *)
Definition is_vertex (l : ObjLine) : bool :=
  match l with V _ _ _ => true | _ => false end.

Definition is_face (l : ObjLine) : bool :=
  match l with F _ => true | _ => false end.

Definition count_vertices (out : list ObjLine) : Z :=
  Z.of_nat (List.length (filter is_vertex out)).

Definition count_faces (out : list ObjLine) : Z :=
  Z.of_nat (List.length (filter is_face out)).

(** Every face line refers to vertices [1..n], [n] being the number of vertex
    lines before it; [seen] is the number of vertex lines already read. *)
Fixpoint faces_valid (seen : Z) (out : list ObjLine) : Prop :=
  match out with
  | [] => True
  | V _ _ _ :: rest => faces_valid (seen + 1) rest
  | F indices :: rest =>
    Forall (fun i => 1 <= i <= seen) indices /\ faces_valid seen rest
  | _ :: rest => faces_valid seen rest
  end.

(** The six face lines of a box whose eight vertex lines are numbered from
    [first], the four of the bottom before the four of the top: the
    bottom, the top and the four sides. *)
Definition box_faces (first : Z) : list ObjLine :=
  [ F [first; first + 1; first + 2; first + 3];
    F [first + 4; first + 7; first + 6; first + 5];
    F [first; first + 4; first + 5; first + 1];
    F [first + 1; first + 5; first + 6; first + 2];
    F [first + 2; first + 6; first + 7; first + 3];
    F [first + 3; first + 7; first + 4; first] ].

(** The face line of a ribbon whose four vertex lines are numbered from
    [first]. *)
Definition ribbon_face (first : Z) : ObjLine :=
  F [first; first + 1; first + 2; first + 3].

Definition nonzero_length (r : Road) : bool :=
  negb (cell_eqb (r_start r) (r_end r)).

(** ** Predicates used in the statements *)

(** The occupancy grid has [height] rows of [width] cells. *)
Definition grid_shape (cfg : CityConfig) (g : list (list bool)) : Prop :=
  List.length g = Z.to_nat (cfg_height cfg) /\
  Forall (fun row => List.length row = Z.to_nat (cfg_width cfg)) g.

(** A point of [[0, width] x [0, height]], both ends included. *)
Definition in_closed_plane (cfg : CityConfig) (p : cell) : Prop :=
  0 <= fst p <= cfg_width cfg /\ 0 <= snd p <= cfg_height cfg.

(** A point of [[0, width) x [0, height)]. *)
Definition in_open_plane (cfg : CityConfig) (p : cell) : Prop :=
  0 <= fst p < cfg_width cfg /\ 0 <= snd p < cfg_height cfg.

(** The bounding rectangle of a zone lies in the plane. *)
Definition zone_in_plane (cfg : CityConfig) (z : Zone) : Prop :=
  0 <= z_x z /\ 0 <= z_y z /\ 1 <= z_width z /\ 1 <= z_height z /\
  z_x z + z_width z <= cfg_width cfg /\ z_y z + z_height z <= cfg_height cfg.

(** The rectangles [[x, x + width) x [y, y + height)] of two zones share a
    cell. *)
Definition zones_overlap (z1 z2 : Zone) : Prop :=
  exists x y : Z,
    (z_x z1 <= x < z_x z1 + z_width z1 /\ z_y z1 <= y < z_y z1 + z_height z1) /\
    (z_x z2 <= x < z_x z2 + z_width z2 /\ z_y z2 <= y < z_y z2 + z_height z2).

(** The pairs [(zones[i], zones[j])], [i < j]. *)
Fixpoint zone_pairs (zones : list Zone) : list (Zone * Zone) :=
  match zones with
  | [] => []
  | z :: rest => map (fun z' => (z, z')) rest ++ zone_pairs rest
  end.

(** ** Further predicates, and the cities used as examples *)

(** [net'] is [net] with roads satisfying [Q] appended; the grid is the
    same. *)
Definition grows (Q : Road -> Prop) (net net' : RoadNetwork) : Prop :=
  road_grid net' = road_grid net /\
  exists rs, roads net' = roads net ++ rs /\ Forall Q rs.

Definition road_in_closed_plane (cfg : CityConfig) (r : Road) : Prop :=
  in_closed_plane cfg (r_start r) /\ in_closed_plane cfg (r_end r).

(** A cell of the plane that bears [zone_id]. *)
Definition bears (cfg : CityConfig) (g : list (list Z)) (zone_id : Z)
  (c : cell) : Prop :=
  (0 <= fst c < cfg_width cfg /\ 0 <= snd c < cfg_height cfg) /\
  zone_at g (fst c) (snd c) = zone_id.

(** [Zone.contains_point] *)
Definition contains_point (z : Zone) (x y : Z) : bool :=
  (z_x z <=? x) && (x <? z_x z + z_width z)
  && (z_y z <=? y) && (y <? z_y z + z_height z).

(** A seed id, its type and the connected cells found for it. *)
Definition Part : Type := (Z * ZoneType * list cell)%type.

Definition part_id (p : Part) : Z := fst (fst p).
Definition part_cells (p : Part) : list cell := snd p.

Definition zone_of_part (cfg : CityConfig) (p : Part) : Zone :=
  zone_of_cells cfg (snd (fst p)) (part_cells p).

(** The cells of a part are the non-empty result of the flood fill for its
    id. *)
Definition part_ok (cfg : CityConfig) (g : list (list Z)) (p : Part) : Prop :=
  part_cells p <> [] /\
  find_connected_cells cfg g (part_id p) = Ok (part_cells p) /\
  Forall (bears cfg g (part_id p)) (part_cells p).

(** Where the assignment loop of [generate_zones] raises nothing: the noise
    package is there when numpy is, and without numpy a half of the plane is
    not 0 as soon as there is a seed. *)
Definition partition_defined (HAS_NUMPY HAS_NOISE : bool) (cfg : CityConfig)
  (seeds : list (Z * Seed)) : Prop :=
  (HAS_NUMPY = true -> HAS_NOISE = true)
  /\ (HAS_NUMPY = false -> seeds <> [] ->
      cfg_width cfg / 2 <> 0 \/ cfg_height cfg / 2 <> 0).

(** No two zones of the list have rectangles that share a cell. *)
Definition zones_non_overlapping (zs : list Zone) : Prop :=
  forall (i j : nat) (z1 z2 : Zone),
    i <> j -> nth_error zs i = Some z1 -> nth_error zs j = Some z2 ->
    ~ zones_overlap z1 z2.

(** A 4 x 4 city with a residential seed at (2, 2) and a parks seed at
    (0, 0).  Both types have the constant preference 1.0 and the noise factor
    [1 + noise * 0.3] of a cell is positive and common to its seeds, so the
    modified distances of a cell are ordered as the distances, given here by
    their squares. *)
Definition overlap_cfg : CityConfig := make_config 4 4 200 100.

Definition overlap_seeds : list (Z * Seed) :=
  [ (1, (2, 2, RESIDENTIAL)); (2, (0, 0, PARKS)) ].

(** The zone grid of that city: the parks seed takes the three cells of the
    corner. *)
Definition overlap_zone_grid : list (list Z) :=
  [ [2; 2; 1; 1]; [2; 1; 1; 1]; [1; 1; 1; 1]; [1; 1; 1; 1] ].

Definition squared_distance (x y : Z) (s : Seed) : fval :=
  Fin (inject_Z ((x - fst (fst s)) ^ 2 + (y - snd (fst s)) ^ 2)).

(** The generator with all its draws equal to 0. *)
Definition rng0 : Rng := {| rng_src := fun _ => 0; rng_pos := 0 |}.

(** A 20 x 20 city made of one residential zone, with roads one cell wide:
    a main road along each axis, no local road, one building at (5, 5). *)
Definition village_cfg : CityConfig :=
  {| cfg_width := 20; cfg_height := 20;
     main_road_width := 1; secondary_road_width := 1; local_road_width := 1;
     main_grid_size := 200; secondary_grid_size := 100;
     zone_densities := default_zone_densities;
     max_building_height := default_max_building_height;
     min_building_height := default_min_building_height |}.

Definition village_seeds : list (Z * Seed) := [ (1, (10, 10, RESIDENTIAL)) ].

(** A 4 x 4 city made of one business zone. *)
Definition block_cfg : CityConfig := make_config 4 4 200 100.

Definition block_seeds : list (Z * Seed) := [ (1, (2, 2, BUSINESS)) ].

(** Every road starts and ends in [[0, width) x [0, height)]. *)
Definition roads_in_open_plane (cfg : CityConfig) (net : RoadNetwork) : Prop :=
  forall r, In r (roads net) ->
    in_open_plane cfg (r_start r) /\ in_open_plane cfg (r_end r).

(** The road [_add_zone_connector] appends for a pair of zones. *)
Definition connector (cfg : CityConfig) (pr : Zone * Zone) : Road :=
  new_Road (zone_center (fst pr)) (zone_center (snd pr))
           (local_road_width cfg) "local".

(** The test [distance < 150] of [_connect_zones] on a pair. *)
Definition near (pr : Zone * Zone) : bool :=
  root_lt (zone_distance (fst pr) (snd pr)) 150.

(** The entry of [point] lists the road. *)
Definition listed (d : IntersectionMap) (point : cell) (road : Road) : Prop :=
  exists i, dict_get d point = Some i /\ In road (connected_roads i).

(** Both endpoints of the road have an entry that lists the road. *)
Definition indexed (net : RoadNetwork) (road : Road) : Prop :=
  forall point, point = r_start road \/ point = r_end road ->
    listed (intersections net) point road.

(** Every road that is not a local road is indexed. *)
Definition arterials_indexed (net : RoadNetwork) : Prop :=
  forall road, In road (roads net) -> road_type road <> "local"%string ->
    indexed net road.

(** A 3 x 1 city: its vertical main road runs from (0, 0) to (0, 0). *)
Definition strip_cfg : CityConfig := make_config 3 1 200 100.

Definition strip_seeds : list (Z * Seed) := [ (1, (1, 0, PARKS)) ].

(** [min_floors] of [_generate_building_floors], after its clamp. *)
Definition min_floors (cfg : CityConfig) (t : ZoneType) : Z :=
  Z.max 1 (Qfloor (inject_Z (min_building_height cfg t) / (7 # 2))).


(** What holds of a building when it is appended: no cell under the minimum
    footprint of its type is a road, it has at least [min_floors] floors, and
    its height is its floor count times 3.5. *)
Definition building_ok (cfg : CityConfig) (net : RoadNetwork) (b : Building)
  : Prop :=
  (forall dx dy,
     0 <= dx < fst (get_min_building_size (b_zone_type b)) ->
     0 <= dy < snd (get_min_building_size (b_zone_type b)) ->
     is_road cfg net (b_x b + dx) (b_y b + dy) = Ok false)
  /\ 1 <= min_floors cfg (b_zone_type b) <= floors b
  /\ building_height b = (inject_Z (floors b) * (7 # 2))%Q.

(** ** Reading the grids *)

(** The value of the occupancy grid at a cell; on a grid of the configured
    shape the read is in range for every cell of the plane. *)
Definition grid_value (g : list (list bool)) (q : cell) : bool :=
  match grid_get g (snd q) (fst q) with
  | Some b => b
  | None => false
  end.

(** The test of [_mark_road_point] and [is_road] on a cell. *)
Definition in_bounds (cfg : CityConfig) (q : cell) : bool :=
  (0 <=? fst q) && (fst q <? cfg_width cfg)
  && (0 <=? snd q) && (snd q <? cfg_height cfg).

(** The square [_mark_road_point] stamps around [(x, y)]. *)
Definition in_stamp (x y : Z) (width : Q) (q : cell) : bool :=
  let half_width := Qfloor (width / 2) in
  (Z.abs (fst q - x) <=? half_width) && (Z.abs (snd q - y) <=? half_width).

(** One grid is the other with more cells set. *)
Definition grid_le (cfg : CityConfig) (g g' : list (list bool)) : Prop :=
  forall q, in_bounds cfg q = true ->
    grid_value g q = true -> grid_value g' q = true.

(** Some point of the rectangle spanned by two points has [q] in its
    stamp. *)
Definition near_box (x0 y0 x1 y1 : Z) (width : Q) (q : cell) : Prop :=
  exists px py,
    Z.min x0 x1 <= px <= Z.max x0 x1 /\ Z.min y0 y1 <= py <= Z.max y0 y1
    /\ in_stamp px py width q = true.

(** Every cell set in [g'] was set in [g] or satisfies [P]. *)
Definition grid_adds (cfg : CityConfig) (P : cell -> Prop)
  (g g' : list (list bool)) : Prop :=
  forall q, in_bounds cfg q = true ->
    grid_value g' q = true -> grid_value g q = true \/ P q.

(** ** Predicates on networks, zones and placements *)

(** No road width of the configuration is negative. *)
Definition widths_nonneg (cfg : CityConfig) : Prop :=
  (0 <= main_road_width cfg)%Q /\ (0 <= secondary_road_width cfg)%Q
  /\ (0 <= local_road_width cfg)%Q.

(** The cell is at most half the road's width away, on each axis, from the
    rectangle spanned by the road's ends. *)
Definition near_road (r : Road) (q : cell) : Prop :=
  near_box (fst (r_start r)) (snd (r_start r)) (fst (r_end r)) (snd (r_end r))
           (r_width r) q.

(** The empty occupancy grid of the village. *)
Definition village_grid : list (list bool) :=
  road_grid (new_RoadNetwork village_cfg).

(** Two cells that share a side. *)
Definition adjacent (a b : cell) : Prop :=
  Z.abs (fst a - fst b) + Z.abs (snd a - snd b) = 1.

(** [c] is linked to [s] by a chain of cells that bear [zone_id], each
    sharing a side with the next. *)
Inductive reaches (cfg : CityConfig) (g : list (list Z)) (zone_id : Z)
  (s : cell) : cell -> Prop :=
| reaches_start : bears cfg g zone_id s -> reaches cfg g zone_id s s
| reaches_step (c c' : cell) :
    reaches cfg g zone_id s c -> adjacent c c' -> bears cfg g zone_id c' ->
    reaches cfg g zone_id s c'.

(** A point of the border of the plane. *)
Definition on_border (cfg : CityConfig) (p : cell) : Prop :=
  fst p = 0 \/ snd p = 0
  \/ fst p = cfg_width cfg - 1 \/ snd p = cfg_height cfg - 1.

(** A road that is not a local road. *)
Definition is_arterial (r : Road) : bool :=
  negb (String.eqb (road_type r) "local").

(** The number of road listings of the intersection dict:
    [sum(len(i.connected_roads) for i in intersections.values())]. *)
Definition listings (d : IntersectionMap) : nat :=
  fold_right (fun e n => (List.length (connected_roads (snd e)) + n)%nat)
             0%nat d.

(** An entry of the dict of a network: it is stored under its own position,
    lists at least one road, and lists only roads of the network that are
    not local roads, run between two border points and end at the entry's
    position. *)
Definition entry_sound (cfg : CityConfig) (net : RoadNetwork)
  (e : cell * Intersection) : Prop :=
  position (snd e) = fst e
  /\ connected_roads (snd e) <> []
  /\ forall r, In r (connected_roads (snd e)) ->
       In r (roads net) /\ is_arterial r = true
       /\ on_border cfg (r_start r) /\ on_border cfg (r_end r)
       /\ (fst e = r_start r \/ fst e = r_end r).

Definition index_sound (cfg : CityConfig) (net : RoadNetwork) : Prop :=
  NoDup (map fst (intersections net))
  /\ Forall (entry_sound cfg net) (intersections net)
  /\ listings (intersections net)
     = (2 * List.length (filter is_arterial (roads net)))%nat.

(** The zone but for its building list. *)
Definition same_zone (z z' : Zone) : Prop :=
  zone_type z' = zone_type z /\ z_x z' = z_x z /\ z_y z' = z_y z
  /\ z_width z' = z_width z /\ z_height z' = z_height z
  /\ density z' = density z.

(** The building stands in the zone as [_generate_zone_buildings] places
    it: it has the zone's type, which is not PARKS; its origin is at least
    the spacing of the type away from the zone's origin; its sides lie
    between the minimum and the maximum size of the type; and it ends inside
    the zone's rectangle. *)
Definition stands_in (zone : Zone) (b : Building) : Prop :=
  b_zone_type b = zone_type zone /\ zone_type zone <> PARKS
  /\ z_x zone + get_building_spacing (zone_type zone) <= b_x b
  /\ z_y zone + get_building_spacing (zone_type zone) <= b_y b
  /\ fst (get_min_building_size (zone_type zone)) <= b_width b
     <= fst (get_max_building_size (zone_type zone))
  /\ snd (get_min_building_size (zone_type zone)) <= b_height b
     <= snd (get_max_building_size (zone_type zone))
  /\ b_x b + b_width b <= z_x zone + z_width zone
  /\ b_y b + b_height b <= z_y zone + z_height zone.

(** No cell less than five cells away from the building's origin, on both
    axes, is a road cell. *)
Definition origin_clear (cfg : CityConfig) (net : RoadNetwork) (b : Building)
  : Prop :=
  forall dx dy, -5 < dx < 5 -> -5 < dy < 5 ->
    is_road cfg net (b_x b + dx) (b_y b + dy) = Ok false.

Definition placed_in (cfg : CityConfig) (net : RoadNetwork) (zone : Zone)
  (b : Building) : Prop :=
  stands_in zone b /\ origin_clear cfg net b.

(** What the state of the placement loops has become: buildings placed in
    the zone were appended to the city's list and to the zone's list
    alike. *)
Definition extends (cfg : CityConfig) (net : RoadNetwork)
  (st st' : list Building * Zone) : Prop :=
  exists added,
    fst st' = fst st ++ added
    /\ z_buildings (snd st') = z_buildings (snd st) ++ added
    /\ same_zone (snd st) (snd st')
    /\ Forall (placed_in cfg net (snd st)) added.

(** The state of the loop of [_find_closest_zone] after the seeds [done].
    Either no seed was below the initial infinity, and the state is the
    initial one; or it holds the id and the distance of a seed below
    infinity such that no earlier seed is as near and no later seed is
    nearer. *)
Definition closest_so_far (md : Z -> Z -> Seed -> fval) (x y : Z)
  (done : list (Z * Seed)) (min_distance : fval) (closest_zone_id : Z)
  : Prop :=
  (min_distance = PInf /\ closest_zone_id = 1
   /\ forall e, In e done -> fval_lt (md x y (snd e)) PInf = false)
  \/ exists before s after,
       done = before ++ (closest_zone_id, s) :: after
       /\ min_distance = md x y s
       /\ fval_lt (md x y s) PInf = true
       /\ (forall e, In e before ->
             fval_le (md x y (snd e)) (md x y s) = false)
       /\ (forall e, In e after ->
             fval_lt (md x y (snd e)) (md x y s) = false).

(** The roads of the two grids: a column [x] from row 0 to the last row, a
    row [y] from column 0 to the last column. *)
Definition vertical_road (cfg : CityConfig) (x : Z) (w : Q) (t : string)
  : Road :=
  new_Road (x, 0) (x, cfg_height cfg - 1) w t.

Definition horizontal_road (cfg : CityConfig) (y : Z) (w : Q) (t : string)
  : Road :=
  new_Road (0, y) (cfg_width cfg - 1, y) w t.

(** A multiple of the main grid size below [bound]. *)
Definition on_main_grid (cfg : CityConfig) (e bound : Z) : Prop :=
  0 <= e < bound /\ e mod main_grid_size cfg = 0.

(** A positive multiple of the secondary grid size below [bound] that is not
    a multiple of the main grid size. *)
Definition on_secondary_grid (cfg : CityConfig) (e bound : Z) : Prop :=
  secondary_grid_size cfg <= e < bound
  /\ e mod secondary_grid_size cfg = 0 /\ e mod main_grid_size cfg <> 0.

(** A road is a road of the main grid, a road of the secondary grid, or a
    local road. *)
Definition classified (cfg : CityConfig) (r : Road) : Prop :=
  (exists x, on_main_grid cfg x (cfg_width cfg)
             /\ r = vertical_road cfg x (main_road_width cfg) "main")
  \/ (exists y, on_main_grid cfg y (cfg_height cfg)
                /\ r = horizontal_road cfg y (main_road_width cfg) "main")
  \/ (exists x, on_secondary_grid cfg x (cfg_width cfg)
                /\ r = vertical_road cfg x (secondary_road_width cfg)
                                     "secondary")
  \/ (exists y, on_secondary_grid cfg y (cfg_height cfg)
                /\ r = horizontal_road cfg y (secondary_road_width cfg)
                                       "secondary")
  \/ road_type r = "local"%string.

(** ** zones.py, roads.py, generator.py: the queries and the statistics *)

Definition ZoneType_eqb (a b : ZoneType) : bool :=
  match a, b with
  | RESIDENTIAL, RESIDENTIAL | COMMERCIAL, COMMERCIAL | BUSINESS, BUSINESS
  | LEISURE, LEISURE | PARKS, PARKS | INDUSTRIAL, INDUSTRIAL => true
  | _, _ => false
  end.

(** [for zone_type in ZoneType]: the members in the order of their
    definition. *)
Definition ZoneType_members : list ZoneType :=
  [RESIDENTIAL; COMMERCIAL; BUSINESS; LEISURE; PARKS; INDUSTRIAL].

(** [ZoneManager.get_zone_at]: the first zone of the list whose rectangle
    holds the point; [None] is Python's [None]. *)
Definition get_zone_at (zs : list Zone) (x y : Z) : option Zone :=
  find (fun zone => contains_point zone x y) zs.

(** [ZoneManager.get_zones_by_type] *)
Definition get_zones_by_type (zs : list Zone) (t : ZoneType) : list Zone :=
  filter (fun zone => ZoneType_eqb (zone_type zone) t) zs.

(** The first integer that rounds to no finite float. *)
Definition float_overflow : Z := 2 ^ 1024 - 2 ^ 970.

(** The call [road.get_length()]: [get_length] where the square root is
    computed.  [np.sqrt] has no loop for a Python integer of 2^64 or more
    and raises TypeError; [math.sqrt] raises OverflowError on an integer
    that rounds to no finite float. *)
Definition get_length_call (HAS_NUMPY : bool) (r : Road) : result root :=
  let length := get_length r in
  if HAS_NUMPY then
    if 2 ^ 64 <=? radicand length then Raise TypeError else Ok length
  else
    if float_overflow <=? radicand length then Raise OverflowError
    else Ok length.

(** [Road.get_direction].  The length is the square root of an integer, so
    [length == 0] is decided on the radicand. *)
Definition get_direction (HAS_NUMPY : bool) (r : Road)
  : result (flt * flt) :=
  let dx := fst (r_end r) - fst (r_start r) in
  let dy := snd (r_end r) - snd (r_start r) in
  rbind (get_length_call HAS_NUMPY r) (fun length =>
    if radicand length =? 0 then Ok (FZ 0, FZ 0)
    else
      rbind (div_length (FZ dx) length) (fun a =>
      rbind (div_length (FZ dy) length) (fun b => Ok (a, b)))).

(** One entry of ["zone_stats"]. *)
Record ZoneStats : Type := {
  zs_zones : Z;
  zs_buildings : Z;
  zs_total_area : Z;
  zs_avg_building_height : flt
}.

(** The dict [get_city_stats] returns for a complete city; ["zone_stats"] is
    kept in insertion order. *)
Record CityStats : Type := {
  total_zones : Z;
  total_buildings : Z;
  total_roads : Z;
  total_intersections : Z;
  city_size : string;
  zone_stats : list (string * ZoneStats)
}.

Inductive StatsDict : Type :=
| StatsError (error : string)
| Stats (s : CityStats).

(** [sum(...)] of integers, from the left and from 0. *)
Definition py_sum (l : list Z) : Z := fold_left Z.add l 0.

(** [sum(...)] of floats, from the left and from the integer 0. *)
Definition py_fsum (l : list Q) : flt :=
  fold_left (fun acc q => FAdd acc (FQ q)) l (FZ 0).

(** [f"{n}"] for an integer. *)
Definition format_int (n : Z) : string := NilZero.string_of_int (Z.to_int n).

Definition zone_type_stats (city : CityGenerator) (t : ZoneType) : ZoneStats :=
  let zs := get_zones_by_type (zones city) t in
  let bs := filter (fun b => ZoneType_eqb (b_zone_type b) t) (buildings city) in
  {| zs_zones := Z.of_nat (List.length zs);
     zs_buildings := Z.of_nat (List.length bs);
     zs_total_area := py_sum (map (fun z => z_width z * z_height z) zs);
     zs_avg_building_height :=
       match bs with
       | [] => FZ 0
       | _ :: _ => FDiv (py_fsum (map building_height bs))
                        (FZ (Z.of_nat (List.length bs)))
       end |}.

(** [CityGenerator.get_city_stats] *)
Definition get_city_stats (city : CityGenerator) : StatsDict :=
  if negb (generation_complete city) then
    StatsError "City generation not complete"
  else
    Stats
      {| total_zones := Z.of_nat (List.length (zones city));
         total_buildings := Z.of_nat (List.length (buildings city));
         total_roads := Z.of_nat (List.length (roads (road_network city)));
         total_intersections :=
           Z.of_nat (List.length (intersections (road_network city)));
         city_size :=
           (format_int (cfg_width (config city)) ++ "x"
            ++ format_int (cfg_height (config city)))%string;
         zone_stats :=
           map (fun t => (zone_type_value t, zone_type_stats city t))
               ZoneType_members |}.

(** ** Predicates on buildings, roads and lines *)

(** The rectangles [[x, x + width) x [y, y + height)] of two buildings share
    no cell. *)
Definition buildings_apart (a b : Building) : Prop :=
  b_x a + b_width a <= b_x b \/ b_x b + b_width b <= b_x a
  \/ b_y a + b_height a <= b_y b \/ b_y b + b_height b <= b_y a.

(** The building was placed at a candidate of the rows [ys], or of the row
    [y] at one of the columns [xs], and is no larger than the maximum size
    of the type [t]. *)
Definition placed_before (t : ZoneType) (ys : list Z) (y : Z) (xs : list Z)
  (b : Building) : Prop :=
  b_width b <= fst (get_max_building_size t)
  /\ b_height b <= snd (get_max_building_size t)
  /\ (In (b_y b) ys \/ (b_y b = y /\ In (b_x b) xs)).

(** A 40 x 20 city made of one residential zone, with roads one cell wide
    along the two axes and room for two buildings. *)
Definition hamlet_cfg : CityConfig :=
  {| cfg_width := 40; cfg_height := 20;
     main_road_width := 1; secondary_road_width := 1; local_road_width := 1;
     main_grid_size := 200; secondary_grid_size := 100;
     zone_densities := default_zone_densities;
     max_building_height := default_max_building_height;
     min_building_height := default_min_building_height |}.

Definition hamlet_seeds : list (Z * Seed) := [ (1, (20, 10, RESIDENTIAL)) ].

(** A point of the rectangle of a zone, its right and bottom sides
    included. *)
Definition in_closed_rect (z : Zone) (p : cell) : Prop :=
  z_x z <= fst p <= z_x z + z_width z
  /\ z_y z <= snd p <= z_y z + z_height z.

(** A horizontal or vertical road inside the closed rectangle of one of the
    zones. *)
Definition zone_road (zs : list Zone) (r : Road) : Prop :=
  exists z,
    In z zs /\ in_closed_rect z (r_start r) /\ in_closed_rect z (r_end r)
    /\ (fst (r_start r) = fst (r_end r) \/ snd (r_start r) = snd (r_end r)).

(** A road between the centres of two of the zones. *)
Definition link_road (zs : list Zone) (r : Road) : Prop :=
  exists z1 z2,
    In z1 zs /\ In z2 zs
    /\ r_start r = zone_center z1 /\ r_end r = zone_center z2.

(** [a] comes before [b] in the order of the scan, row by row. *)
Definition scan_lt (a b : cell) : Prop :=
  snd a < snd b \/ (snd a = snd b /\ fst a < fst b).

(** [v] lies between [a] and [b], whichever is the smaller. *)
Definition between (a b v : Z) : Prop := Z.min a b <= v <= Z.max a b.

(** The line from [start] to [end_] has a set cell in every column between
    its ends when it is wider than tall, and in every row otherwise. *)
Definition gapless (cfg : CityConfig) (start end_ : cell)
  (g : list (list bool)) : Prop :=
  (Z.abs (snd end_ - snd start) < Z.abs (fst end_ - fst start) ->
   forall x, between (fst start) (fst end_) x ->
     exists y, between (snd start) (snd end_) y
               /\ (in_bounds cfg (x, y) = true -> grid_value g (x, y) = true))
  /\ (Z.abs (fst end_ - fst start) <= Z.abs (snd end_ - snd start) ->
      forall y, between (snd start) (snd end_) y ->
        exists x, between (fst start) (fst end_) x
                  /\ (in_bounds cfg (x, y) = true ->
                      grid_value g (x, y) = true)).

(** A straight road: horizontal or vertical. *)
Definition straight (r : Road) : Prop :=
  fst (r_start r) = fst (r_end r) \/ snd (r_start r) = snd (r_end r).

(** A point of the rectangle spanned by the ends of the road; for a straight
    road, a point of the road. *)
Definition along (r : Road) (p : cell) : Prop :=
  between (fst (r_start r)) (fst (r_end r)) (fst p)
  /\ between (snd (r_start r)) (snd (r_end r)) (snd p).

(** * Properties *)

(** ** Loops and ranges *)

Lemma for_each_inv {S A : Type} (P : S -> Prop) (l : list A)
  (body : A -> S -> S) (s : S) :
  P s -> (forall a s, In a l -> P s -> P (body a s)) -> P (for_each l body s).
Proof.
  unfold for_each. revert s.
  induction l as [|a l IH]; simpl; intros s Hs Hb; [exact Hs|].
  apply IH.
  - apply Hb; [left; reflexivity | exact Hs].
  - intros a' s' Ha'. apply Hb. right. exact Ha'.
Qed.

Lemma py_range_In (start stop step e : Z) :
  In e (py_range start stop step) -> 0 < step /\ start <= e < stop.
Proof.
  unfold py_range. destruct (step <=? 0) eqn:E; [intros []|].
  apply Z.leb_gt in E. rewrite in_map_iff. intros [k [<- Hk]].
  apply in_seq in Hk. split; [lia|].
  assert (Hq : Z.of_nat k + 1 <= (stop - start + step - 1) / step) by lia.
  pose proof (Z.mul_div_le (stop - start + step - 1) step E) as Hm.
  nia.
Qed.

Lemma py_range_unit_length (n : Z) :
  List.length (py_range 0 n 1) = Z.to_nat n.
Proof.
  unfold py_range. simpl. rewrite length_map, length_seq.
  f_equal. rewrite Z.div_1_r. lia.
Qed.

Lemma py_range_unit_In (n e : Z) : 0 <= e < n -> In e (py_range 0 n 1).
Proof.
  intros H. unfold py_range. simpl. apply in_map_iff.
  exists (Z.to_nat e). split; [lia|].
  apply in_seq. rewrite Z.div_1_r. lia.
Qed.

(** ** The occupancy grid keeps its shape *)

Lemma list_set_length {A : Type} (l : list A) (n : nat) (v : A) :
  List.length (list_set l n v) = List.length l.
Proof.
  revert n. induction l as [|h t IH]; intros [|n]; simpl; auto.
Qed.

Lemma list_set_Forall {A : Type} (P : A -> Prop) (l : list A) (n : nat) (v : A) :
  Forall P l -> P v -> Forall P (list_set l n v).
Proof.
  intros Hl Hv. revert n.
  induction Hl as [|h t Hh Ht IH]; intros [|n]; simpl; auto.
Qed.

Lemma grid_set_shape (cfg : CityConfig) (g : list (list bool)) (y x : Z)
  (v : bool) :
  grid_shape cfg g -> grid_shape cfg (grid_set g y x v).
Proof.
  intros [Hl Hr]. unfold grid_set.
  destruct (nth_error g (Z.to_nat y)) as [row|] eqn:E; [|split; auto].
  split.
  - rewrite list_set_length. exact Hl.
  - apply list_set_Forall; auto.
    rewrite list_set_length.
    rewrite Forall_forall in Hr. apply Hr.
    eapply nth_error_In; eauto.
Qed.

Lemma mark_road_point_shape (cfg : CityConfig) (x y : Z) (width : Q)
  (g : list (list bool)) :
  grid_shape cfg g -> grid_shape cfg (mark_road_point cfg x y width g).
Proof.
  intros H. unfold mark_road_point.
  apply for_each_inv; auto. intros dx g1 _ H1.
  apply for_each_inv; auto. intros dy g2 _ H2.
  destruct (_ && _); auto using grid_set_shape.
Qed.

Lemma new_grid_shape (cfg : CityConfig) :
  grid_shape cfg (road_grid (new_RoadNetwork cfg)).
Proof.
  split; simpl.
  - rewrite length_map. apply py_range_unit_length.
  - apply Forall_forall. intros row Hrow.
    apply in_map_iff in Hrow. destruct Hrow as [y [<- _]].
    rewrite length_map. apply py_range_unit_length.
Qed.

Lemma draw_major_x_ok (cfg : CityConfig) (x1 dx dy sx sy : Z) (width : Q) :
  forall (fuel : nat) (x y : Z) (err : Q) (g : list (list bool)),
    grid_shape cfg g ->
    (sx = 1 /\ 0 <= x1 - x <= Z.of_nat fuel) \/
    (sx = -1 /\ 0 <= x - x1 <= Z.of_nat fuel) ->
    exists x' y' g',
      draw_major_x fuel cfg x1 dx dy sx sy width x y err g = Ok (x', y', g')
      /\ grid_shape cfg g'.
Proof.
  induction fuel as [|fuel IH]; intros x y err g Hg Hx; simpl.
  - destruct (x =? x1) eqn:E; [eauto|].
    apply Z.eqb_neq in E. lia.
  - destruct (x =? x1) eqn:E; [eauto|].
    apply Z.eqb_neq in E.
    destruct (Qltb (err - inject_Z dy) 0);
      (apply IH; [apply mark_road_point_shape; exact Hg | lia]).
Qed.

Lemma draw_major_y_ok (cfg : CityConfig) (y1 dx dy sx sy : Z) (width : Q) :
  forall (fuel : nat) (x y : Z) (err : Q) (g : list (list bool)),
    grid_shape cfg g ->
    (sy = 1 /\ 0 <= y1 - y <= Z.of_nat fuel) \/
    (sy = -1 /\ 0 <= y - y1 <= Z.of_nat fuel) ->
    exists x' y' g',
      draw_major_y fuel cfg y1 dx dy sx sy width x y err g = Ok (x', y', g')
      /\ grid_shape cfg g'.
Proof.
  induction fuel as [|fuel IH]; intros x y err g Hg Hy; simpl.
  - destruct (y =? y1) eqn:E; [eauto|].
    apply Z.eqb_neq in E. lia.
  - destruct (y =? y1) eqn:E; [eauto|].
    apply Z.eqb_neq in E.
    destruct (Qltb (err - inject_Z dx) 0);
      (apply IH; [apply mark_road_point_shape; exact Hg | lia]).
Qed.

(** The two [while] loops of the line rasterizer end by their own test. *)
Lemma draw_line_on_grid_ok (cfg : CityConfig) (start end_ : cell) (width : Q)
  (g : list (list bool)) :
  grid_shape cfg g ->
  exists g', draw_line_on_grid cfg start end_ width g = Ok g'
             /\ grid_shape cfg g'.
Proof.
  intros Hg. destruct start as [x0 y0], end_ as [x1 y1].
  unfold draw_line_on_grid.
  destruct (Z.abs (y1 - y0) <? Z.abs (x1 - x0)) eqn:E.
  - apply Z.ltb_lt in E.
    destruct (draw_major_x_ok cfg x1 (Z.abs (x1 - x0)) (Z.abs (y1 - y0))
                (if x0 <? x1 then 1 else -1) (if y0 <? y1 then 1 else -1)
                width (Z.to_nat (Z.abs (x1 - x0))) x0 y0
                (inject_Z (Z.abs (x1 - x0)) / 2)%Q g Hg)
      as (x' & y' & g' & Hr & Hg').
    { destruct (x0 <? x1) eqn:Ex;
        [apply Z.ltb_lt in Ex; left | apply Z.ltb_ge in Ex; right]; lia. }
    rewrite Hr. simpl. eexists. split; [reflexivity|].
    apply mark_road_point_shape. exact Hg'.
  - apply Z.ltb_ge in E.
    destruct (draw_major_y_ok cfg y1 (Z.abs (x1 - x0)) (Z.abs (y1 - y0))
                (if x0 <? x1 then 1 else -1) (if y0 <? y1 then 1 else -1)
                width (Z.to_nat (Z.abs (y1 - y0))) x0 y0
                (inject_Z (Z.abs (y1 - y0)) / 2)%Q g Hg)
      as (x' & y' & g' & Hr & Hg').
    { destruct (y0 <? y1) eqn:Ey;
        [apply Z.ltb_lt in Ey; left | apply Z.ltb_ge in Ey; right]; lia. }
    rewrite Hr. simpl. eexists. split; [reflexivity|].
    apply mark_road_point_shape. exact Hg'.
Qed.

Lemma update_road_grid_loop_ok (cfg : CityConfig) (rs : list Road) :
  forall g, grid_shape cfg g ->
    exists g', update_road_grid_loop cfg rs g = Ok g' /\ grid_shape cfg g'.
Proof.
  induction rs as [|road rest IH]; intros g Hg; simpl; [eauto|].
  destruct (draw_line_on_grid_ok cfg (r_start road) (r_end road)
              (r_width road) g Hg) as (g1 & Hr & Hg1).
  rewrite Hr. simpl. apply IH. exact Hg1.
Qed.

(** ** What the road generators do to the network *)

Lemma grows_refl (Q : Road -> Prop) (net : RoadNetwork) : grows Q net net.
Proof.
  split; [reflexivity|]. exists []. rewrite app_nil_r. auto.
Qed.

Lemma grows_trans (Q : Road -> Prop) (a b c : RoadNetwork) :
  grows Q a b -> grows Q b c -> grows Q a c.
Proof.
  intros [Hg1 (r1 & Hr1 & Hq1)] [Hg2 (r2 & Hr2 & Hq2)]. split.
  - congruence.
  - exists (r1 ++ r2). rewrite Hr2, Hr1, app_assoc. split; [reflexivity|].
    apply Forall_app. auto.
Qed.

Lemma grows_append (Q : Road -> Prop) (road : Road) (net : RoadNetwork) :
  Q road -> grows Q net (append_road road net).
Proof.
  intros H. split; [reflexivity|]. exists [road]. auto.
Qed.

Lemma grows_intersections (Q : Road -> Prop) (road : Road) (net : RoadNetwork) :
  grows Q net (add_intersections_for_road road net).
Proof.
  split; [reflexivity|]. exists []. simpl. rewrite app_nil_r. auto.
Qed.

Lemma grows_for_each {A : Type} (Q : Road -> Prop) (l : list A)
  (body : A -> RoadNetwork -> RoadNetwork) (net : RoadNetwork) :
  (forall a s, In a l -> grows Q s (body a s)) ->
  grows Q net (for_each l body net).
Proof.
  intros H. apply for_each_inv; [apply grows_refl|].
  intros a s Ha Hs. eapply grows_trans; [exact Hs | apply H; exact Ha].
Qed.

Lemma grows_for_each_from {A : Type} (Q : Road -> Prop) (l : list A)
  (body : A -> RoadNetwork -> RoadNetwork) (net s : RoadNetwork) :
  grows Q net s ->
  (forall a s', In a l -> grows Q s' (body a s')) ->
  grows Q net (for_each l body s).
Proof.
  intros Hs H. eapply grows_trans; [exact Hs | apply grows_for_each; exact H].
Qed.

Lemma grows_append_from (Q : Road -> Prop) (road : Road)
  (net s : RoadNetwork) :
  grows Q net s -> Q road -> grows Q net (append_road road s).
Proof.
  intros Hs H. eapply grows_trans; [exact Hs | apply grows_append; exact H].
Qed.

Lemma grows_intersections_from (Q : Road -> Prop) (road : Road)
  (net s : RoadNetwork) :
  grows Q net s -> grows Q net (add_intersections_for_road road s).
Proof.
  intros Hs. eapply grows_trans; [exact Hs | apply grows_intersections].
Qed.

(** Walks down a generator; what is left is [Q] of each road it appends. *)
Ltac grow :=
  lazymatch goal with
  | |- grows _ _ (for_each _ _ _) =>
    apply grows_for_each_from; [grow | intros ? ? ?; grow]
  | |- grows _ _ (append_road _ _) => apply grows_append_from; [grow | ]
  | |- grows _ _ (add_intersections_for_road _ _) =>
    apply grows_intersections_from; grow
  | |- grows _ _ (if ?b then _ else _) => destruct b eqn:?; grow
  | |- grows _ ?n ?n => apply grows_refl
  | |- _ => idtac
  end.

(** Turns range memberships and boolean tests into arithmetic. *)
Ltac arith_hyps :=
  repeat match goal with
         | H : In _ (py_range _ _ _) |- _ => apply py_range_In in H
         | H : (_ <? _) = true |- _ => apply Z.ltb_lt in H
         | H : (_ <? _) = false |- _ => apply Z.ltb_ge in H
         | H : (_ <=? _) = true |- _ => apply Z.leb_le in H
         | H : (_ <=? _) = false |- _ => apply Z.leb_gt in H
         | H : (_ && _) = true |- _ => apply andb_true_iff in H; destruct H
         | H : (_ || _) = false |- _ => apply orb_false_iff in H; destruct H
         end.

Ltac road_bounds :=
  arith_hyps;
  unfold road_in_closed_plane, in_closed_plane, zone_in_plane, valid_config in *;
  simpl; lia.

Lemma generate_main_roads_grows (cfg : CityConfig) (net : RoadNetwork) :
  valid_config cfg ->
  grows (road_in_closed_plane cfg) net (generate_main_roads cfg net).
Proof.
  intros Hc. unfold generate_main_roads; cbv zeta. grow; road_bounds.
Qed.

Lemma generate_secondary_roads_grows (cfg : CityConfig) (net : RoadNetwork) :
  valid_config cfg ->
  grows (road_in_closed_plane cfg) net (generate_secondary_roads cfg net).
Proof.
  intros Hc. unfold generate_secondary_roads; cbv zeta. grow; road_bounds.
Qed.

Lemma generate_zone_roads_grows (cfg : CityConfig) (zone : Zone)
  (net : RoadNetwork) :
  zone_in_plane cfg zone ->
  grows (road_in_closed_plane cfg) net (generate_zone_roads cfg zone net).
Proof.
  intros Hz. unfold generate_zone_roads.
  destruct (zone_type zone).
  - unfold generate_residential_roads; cbv zeta. grow; road_bounds.
  - unfold generate_commercial_roads; cbv zeta. grow; road_bounds.
  - unfold generate_business_roads; cbv zeta. grow; road_bounds.
  - unfold generate_leisure_roads; cbv zeta. grow; road_bounds.
  - unfold generate_park_roads; cbv zeta.
    destruct (_ || _); [|apply grows_refl].
    unfold for_each; simpl. grow; road_bounds.
  - unfold generate_industrial_roads; cbv zeta. grow; road_bounds.
Qed.

Lemma connect_zones_grows (cfg : CityConfig) (zones : list Zone) :
  Forall (zone_in_plane cfg) zones ->
  forall net, grows (road_in_closed_plane cfg) net (connect_zones cfg zones net).
Proof.
  induction 1 as [|zone1 rest Hz Hrest IH]; intros net; simpl.
  - apply grows_refl.
  - eapply grows_trans; [|apply IH].
    apply grows_for_each. intros zone2 s Hin.
    rewrite Forall_forall in Hrest. specialize (Hrest zone2 Hin).
    destruct (root_lt _ _); [|apply grows_refl].
    unfold add_zone_connector. apply grows_append.
    unfold road_in_closed_plane, in_closed_plane, zone_center,
      zone_in_plane in *.
    cbn [fst snd r_start r_end new_Road].
    pose proof (Z.div_pos (z_width zone1) 2).
    pose proof (Z.div_pos (z_width zone2) 2).
    pose proof (Z.div_pos (z_height zone1) 2).
    pose proof (Z.div_pos (z_height zone2) 2).
    pose proof (Z.div_le_upper_bound (z_width zone1) 2 (z_width zone1)).
    pose proof (Z.div_le_upper_bound (z_width zone2) 2 (z_width zone2)).
    pose proof (Z.div_le_upper_bound (z_height zone1) 2 (z_height zone1)).
    pose proof (Z.div_le_upper_bound (z_height zone2) 2 (z_height zone2)).
    lia.
Qed.

Lemma generate_roads_grows (cfg : CityConfig) (zones : list Zone)
  (net : RoadNetwork) :
  valid_config cfg ->
  Forall (zone_in_plane cfg) zones ->
  grows (road_in_closed_plane cfg) net (generate_roads cfg zones net).
Proof.
  intros Hc Hz. unfold generate_roads.
  eapply grows_trans; [|apply connect_zones_grows; exact Hz].
  eapply grows_trans.
  - eapply grows_trans; [apply generate_main_roads_grows; exact Hc|].
    apply generate_secondary_roads_grows. exact Hc.
  - unfold generate_local_roads. apply grows_for_each.
    intros zone s Hin. apply generate_zone_roads_grows.
    rewrite Forall_forall in Hz. auto.
Qed.

(** ** The flood fill *)

Lemma cell_eqb_eq (a b : cell) : cell_eqb a b = true <-> a = b.
Proof.
  destruct a as [ax ay], b as [bx by_]. unfold cell_eqb. simpl.
  rewrite andb_true_iff, !Z.eqb_eq. split.
  - intros [-> ->]. reflexivity.
  - intros E. inversion E. auto.
Qed.

Lemma mem_cell_In (c : cell) (l : list cell) : mem_cell c l = true <-> In c l.
Proof.
  unfold mem_cell. rewrite existsb_exists. split.
  - intros [d [Hd E]]. apply cell_eqb_eq in E. subst. exact Hd.
  - intros H. exists c. split; [exact H | apply cell_eqb_eq; reflexivity].
Qed.

Lemma scan_cells_In (cfg : CityConfig) (x y : Z) :
  In (x, y) (scan_cells cfg) <->
  (0 <= x < cfg_width cfg /\ 0 <= y < cfg_height cfg).
Proof.
  unfold scan_cells. rewrite in_flat_map. split.
  - intros [y' [Hy Hx]]. apply in_map_iff in Hx.
    destruct Hx as [x' [E Hx]]. inversion E; subst.
    apply py_range_In in Hy, Hx. lia.
  - intros [Hx Hy]. exists y. split; [apply py_range_unit_In; exact Hy|].
    apply in_map_iff. exists x. split; [reflexivity|].
    apply py_range_unit_In. exact Hx.
Qed.

(** The loop ends with the stack empty before its fuel is spent, and collects
    only cells that bear the id. *)
Lemma flood_fill_ok (cfg : CityConfig) (g : list (list Z)) (zone_id : Z) :
  forall (fuel : nat) (stack visited cells : list cell),
    NoDup visited ->
    incl visited (scan_cells cfg) ->
    Forall (bears cfg g zone_id) cells ->
    (4 * (List.length (scan_cells cfg) - List.length visited)
     + List.length stack <= fuel)%nat ->
    exists out, flood_fill fuel cfg g zone_id stack visited cells = Ok out
                /\ Forall (bears cfg g zone_id) out.
Proof.
  remember (List.length (scan_cells cfg)) as n eqn:En.
  induction fuel as [|fuel IH]; intros stack visited cells Hnd Hin Hc Hf.
  - destruct stack as [|[x y] stack]; [simpl; eauto|].
    cbn [List.length] in Hf. lia.
  - destruct stack as [|[x y] stack]; [simpl; eauto|].
    cbn [List.length] in Hf. cbn [flood_fill].
    destruct (mem_cell (x, y) visited) eqn:Ev;
      [apply IH; auto; lia|].
    destruct ((x <? 0) || (x >=? cfg_width cfg)
              || (y <? 0) || (y >=? cfg_height cfg)) eqn:Eb;
      [apply IH; auto; lia|].
    destruct (zone_at g x y =? zone_id) eqn:Ez; cbn [negb];
      [|apply IH; auto; lia].
    apply Z.eqb_eq in Ez.
    repeat (apply orb_false_iff in Eb; destruct Eb as [Eb ?]).
    assert (Hp : 0 <= x < cfg_width cfg /\ 0 <= y < cfg_height cfg) by lia.
    assert (Hnew : ~ In (x, y) visited).
    { intros Hi. apply mem_cell_In in Hi. congruence. }
    assert (Hnd' : NoDup ((x, y) :: visited)) by (constructor; auto).
    assert (Hin' : incl ((x, y) :: visited) (scan_cells cfg)).
    { intros c [<-|Hc']; [apply scan_cells_In; exact Hp | auto]. }
    pose proof (NoDup_incl_length Hnd' Hin') as Hlen.
    assert (Hlen' : (S (List.length visited) <= n)%nat)
      by (rewrite En; exact Hlen).
    apply IH; auto.
    + apply Forall_app. split; [exact Hc|].
      constructor; [|constructor]. split; simpl; auto.
    + cbn [List.length]. lia.
Qed.

Lemma find_connected_cells_ok (cfg : CityConfig) (g : list (list Z))
  (zone_id : Z) :
  exists cells, find_connected_cells cfg g zone_id = Ok cells
                /\ Forall (bears cfg g zone_id) cells.
Proof.
  unfold find_connected_cells.
  match goal with
  | |- context [find ?f ?l] => destruct (find f l) as [start_pos|]
  end; [|eauto].
  apply flood_fill_ok; auto using NoDup_nil, incl_nil_l.
  unfold flood_fuel. cbn [List.length]. lia.
Qed.

(** ** Bounding boxes *)

Lemma list_min_spec (l : list Z) :
  forall d, list_min d l <= d /\ (forall e, In e l -> list_min d l <= e)
            /\ (forall b, b <= d -> (forall e, In e l -> b <= e) ->
                          b <= list_min d l).
Proof.
  unfold list_min.
  induction l as [|h t IH]; intros d; simpl.
  - repeat split; try lia; intros e [].
  - destruct (IH (Z.min d h)) as (H1 & H2 & H3). repeat split.
    + lia.
    + intros e [<-|He]; [lia | auto].
    + intros b Hb Hall. apply H3.
      * specialize (Hall h (or_introl eq_refl)). lia.
      * intros e He. apply Hall. right. exact He.
Qed.

Lemma list_max_spec (l : list Z) :
  forall d, d <= list_max d l /\ (forall e, In e l -> e <= list_max d l)
            /\ (forall b, d <= b -> (forall e, In e l -> e <= b) ->
                          list_max d l <= b).
Proof.
  unfold list_max.
  induction l as [|h t IH]; intros d; simpl.
  - repeat split; try lia; intros e [].
  - destruct (IH (Z.max d h)) as (H1 & H2 & H3). repeat split.
    + lia.
    + intros e [<-|He]; [lia | auto].
    + intros b Hb Hall. apply H3.
      * specialize (Hall h (or_introl eq_refl)). lia.
      * intros e He. apply Hall. right. exact He.
Qed.

(** The rectangle of [zone_of_cells] holds every cell it was made from. *)
Lemma zone_of_cells_contains (cfg : CityConfig) (t : ZoneType)
  (cells : list cell) (c : cell) :
  In c cells -> contains_point (zone_of_cells cfg t cells) (fst c) (snd c) = true.
Proof.
  intros Hc. destruct cells as [|c0 rest]; [destruct Hc|].
  unfold contains_point, zone_of_cells, min_x, max_x, min_y, max_y. simpl.
  destruct (list_min_spec (map fst rest) (fst c0)) as (A1 & A2 & _).
  destruct (list_max_spec (map fst rest) (fst c0)) as (B1 & B2 & _).
  destruct (list_min_spec (map snd rest) (snd c0)) as (C1 & C2 & _).
  destruct (list_max_spec (map snd rest) (snd c0)) as (D1 & D2 & _).
  assert (list_min (fst c0) (map fst rest) <= fst c
          <= list_max (fst c0) (map fst rest)).
  { destruct Hc as [<-|Hc]; [lia|].
    split; [apply A2 | apply B2]; apply in_map; exact Hc. }
  assert (list_min (snd c0) (map snd rest) <= snd c
          <= list_max (snd c0) (map snd rest)).
  { destruct Hc as [<-|Hc]; [lia|].
    split; [apply C2 | apply D2]; apply in_map; exact Hc. }
  rewrite !andb_true_iff, !Z.leb_le, !Z.ltb_lt. lia.
Qed.

(** The rectangle of cells of the plane lies in the plane. *)
Lemma zone_of_cells_in_plane (cfg : CityConfig) (g : list (list Z))
  (zone_id : Z) (t : ZoneType) (cells : list cell) :
  cells <> [] ->
  Forall (bears cfg g zone_id) cells ->
  zone_in_plane cfg (zone_of_cells cfg t cells).
Proof.
  intros Hne Hall. destruct cells as [|c0 rest]; [congruence|].
  inversion Hall as [|? ? [[Hx0 Hy0] _] Hrest]; subst.
  rewrite Forall_forall in Hrest.
  unfold zone_in_plane, zone_of_cells, min_x, max_x, min_y, max_y. simpl.
  destruct (list_min_spec (map fst rest) (fst c0)) as (A1 & _ & A3).
  destruct (list_max_spec (map fst rest) (fst c0)) as (B1 & _ & B3).
  destruct (list_min_spec (map snd rest) (snd c0)) as (C1 & _ & C3).
  destruct (list_max_spec (map snd rest) (snd c0)) as (D1 & _ & D3).
  assert (Hfst : forall e, In e (map fst rest) -> 0 <= e <= cfg_width cfg - 1).
  { intros e He. apply in_map_iff in He. destruct He as [c [<- Hc]].
    destruct (Hrest c Hc) as [[? ?] _]. lia. }
  assert (Hsnd : forall e, In e (map snd rest) -> 0 <= e <= cfg_height cfg - 1).
  { intros e He. apply in_map_iff in He. destruct He as [c [<- Hc]].
    destruct (Hrest c Hc) as [[? ?] _]. lia. }
  specialize (A3 0). specialize (B3 (cfg_width cfg - 1)).
  specialize (C3 0). specialize (D3 (cfg_height cfg - 1)).
  assert (0 <= list_min (fst c0) (map fst rest))
    by (apply A3; [lia | intros e He; apply Hfst; exact He]).
  assert (list_max (fst c0) (map fst rest) <= cfg_width cfg - 1)
    by (apply B3; [lia | intros e He; apply Hfst; exact He]).
  assert (0 <= list_min (snd c0) (map snd rest))
    by (apply C3; [lia | intros e He; apply Hsnd; exact He]).
  assert (list_max (snd c0) (map snd rest) <= cfg_height cfg - 1)
    by (apply D3; [lia | intros e He; apply Hsnd; exact He]).
  lia.
Qed.

(** ** The zones and the cells they were made from *)

Lemma create_zone_loop_ok (cfg : CityConfig) (g : list (list Z)) :
  forall (seeds : list (Z * Seed)) (processed : list Z) (parts0 : list Part),
    (forall p, In p parts0 -> In (part_id p) processed) ->
    NoDup (map part_id parts0) ->
    Forall (part_ok cfg g) parts0 ->
    exists parts,
      create_zone_loop cfg g seeds processed (map (zone_of_part cfg) parts0)
      = Ok (map (zone_of_part cfg) parts)
      /\ NoDup (map part_id parts)
      /\ Forall (part_ok cfg g) parts.
Proof.
  induction seeds as [|[zone_id [[sx sy] t]] rest IH];
    intros processed parts0 Hproc Hnd Hok; simpl.
  - exists parts0. auto.
  - destruct (existsb (Z.eqb zone_id) processed) eqn:Ep; [apply IH; auto|].
    destruct (find_connected_cells_ok cfg g zone_id) as (cells & Hf & Hb).
    rewrite Hf. simpl.
    destruct cells as [|c0 cells']; [apply IH; auto|].
    assert (Hfresh : ~ In zone_id processed).
    { intros Hi.
      assert (existsb (Z.eqb zone_id) processed = true)
        by (apply existsb_exists; exists zone_id; split; [exact Hi | apply Z.eqb_refl]).
      congruence. }
    pose (p := ((zone_id, t, c0 :: cells') : Part)).
    change (zone_of_cells cfg t (c0 :: cells')) with (zone_of_part cfg p).
    change [zone_of_part cfg p] with (map (zone_of_part cfg) [p]).
    rewrite <- map_app.
    apply IH.
    + intros q Hq. apply in_app_or in Hq.
      destruct Hq as [Hq|[<-|[]]]; [right; auto | left; reflexivity].
    + rewrite map_app. simpl.
      apply NoDup_app; [exact Hnd | constructor; [intros [] | constructor] |].
      intros a Ha [<-|[]]. apply in_map_iff in Ha.
      destruct Ha as [q [Eq Hq]]. apply Hfresh.
      change zone_id with (part_id p). rewrite <- Eq. auto.
    + apply Forall_app. split; [exact Hok|].
      constructor; [|constructor].
      split; [discriminate|]. split; [exact Hf | exact Hb].
Qed.

Lemma create_zone_objects_ok (cfg : CityConfig) (g : list (list Z))
  (seeds : list (Z * Seed)) :
  exists parts,
    create_zone_objects cfg g seeds = Ok (map (zone_of_part cfg) parts)
    /\ NoDup (map part_id parts)
    /\ Forall (part_ok cfg g) parts.
Proof.
  unfold create_zone_objects.
  apply (create_zone_loop_ok cfg g seeds [] []);
    [intros p [] | apply NoDup_nil | constructor].
Qed.

Lemma parts_in_plane (cfg : CityConfig) (g : list (list Z))
  (parts : list Part) :
  Forall (part_ok cfg g) parts ->
  Forall (zone_in_plane cfg) (map (zone_of_part cfg) parts).
Proof.
  intros H. apply Forall_map. eapply Forall_impl; [|exact H].
  intros p (Hne & _ & Hb). unfold zone_of_part.
  eapply zone_of_cells_in_plane; eauto.
Qed.

(** ** The assignment loop *)

Lemma rmap_Ok {A B : Type} (f : A -> result B) (d : B) :
  forall (l : list A) (bs : list B),
    rmap f l = Ok bs ->
    bs = map (fun a => match f a with Ok b => b | Raise _ => d end) l
    /\ forall a, In a l -> exists b, f a = Ok b.
Proof.
  induction l as [|a rest IH]; intros bs H; cbn [rmap] in H.
  - inversion H. split; [reflexivity | intros a []].
  - destruct (f a) as [b|] eqn:Ea; [|discriminate]. cbn [rbind] in H.
    destruct (rmap f rest) as [bs'|] eqn:Er; [|discriminate].
    cbn [rbind] in H. inversion H; subst bs.
    destruct (IH bs' eq_refl) as [E Hall]. split.
    + cbn [map]. rewrite Ea, <- E. reflexivity.
    + intros a' [<-|Hin]; [eauto | auto].
Qed.

Lemma rmap_total {A B : Type} (f : A -> result B) :
  forall l : list A,
    (forall a, In a l -> exists b, f a = Ok b) ->
    exists bs, rmap f l = Ok bs.
Proof.
  induction l as [|a rest IH]; intros H; cbn [rmap]; [eauto|].
  destruct (H a (or_introl eq_refl)) as [b Eb]. rewrite Eb.
  destruct IH as [bs Ebs]; [intros a' Ha'; apply H; right; exact Ha'|].
  rewrite Ebs. cbn [rbind]. eauto.
Qed.

(** Where the loop is defined the preference is computed. *)
Lemma get_zone_preference_defined (numpy noise : bool) (cfg : CityConfig)
  (seeds : list (Z * Seed)) :
  partition_defined numpy noise cfg seeds -> seeds <> [] ->
  get_zone_preference numpy cfg = Ok tt.
Proof.
  intros [_ Hp] Hne. unfold get_zone_preference. cbv zeta.
  destruct numpy; [reflexivity|]. cbn [negb andb].
  destruct (_ =? 0) eqn:E; [|reflexivity].
  apply Z.eqb_eq in E. destruct (Hp eq_refl Hne); nia.
Qed.

Lemma find_closest_loop_total (numpy : bool) (md : Z -> Z -> Seed -> fval)
  (cfg : CityConfig) (x y : Z) :
  forall (seeds : list (Z * Seed)) (m : fval) (k : Z),
    (seeds <> [] -> get_zone_preference numpy cfg = Ok tt) ->
    exists r, find_closest_loop numpy md cfg x y seeds m k = Ok r.
Proof.
  induction seeds as [|[zone_id seed] rest IH]; intros m k Hp;
    cbn [find_closest_loop]; [eauto|].
  rewrite Hp by discriminate. cbn [rbind].
  destruct (fval_lt (md x y seed) m); apply IH; intros _; apply Hp;
    discriminate.
Qed.

Lemma assign_cell_total (numpy noise : bool) (md : Z -> Z -> Seed -> fval)
  (cfg : CityConfig) (seeds : list (Z * Seed)) (x y : Z) :
  partition_defined numpy noise cfg seeds ->
  exists k, assign_cell numpy noise md cfg seeds x y = Ok k.
Proof.
  intros Hp. unfold assign_cell, pnoise2.
  assert (E : (if noise then Ok tt else if numpy then Raise NameError
               else Ok tt) = Ok tt).
  { destruct Hp as [Hn _]. destruct noise; [reflexivity|].
    destruct numpy; [|reflexivity]. discriminate (Hn eq_refl). }
  rewrite E. cbn [rbind]. apply find_closest_loop_total.
  intros Hne. eapply get_zone_preference_defined; eauto.
Qed.

(** The assignment loop returns where it is defined. *)
Lemma assign_zone_grid_total (numpy noise : bool)
  (md : Z -> Z -> Seed -> fval) (cfg : CityConfig) (seeds : list (Z * Seed)) :
  partition_defined numpy noise cfg seeds ->
  exists g, assign_zone_grid numpy noise md cfg seeds = Ok g.
Proof.
  intros Hp. unfold assign_zone_grid.
  apply rmap_total. intros y _. apply rmap_total. intros x _.
  apply assign_cell_total. exact Hp.
Qed.

Lemma generate_zones_inv (numpy noise : bool) (md : Z -> Z -> Seed -> fval)
  (cfg : CityConfig) (seeds : list (Z * Seed)) (zs : list Zone) :
  generate_zones numpy noise md cfg seeds = Ok zs ->
  exists g, assign_zone_grid numpy noise md cfg seeds = Ok g
            /\ create_zone_objects cfg g seeds = Ok zs.
Proof.
  unfold generate_zones.
  destruct (assign_zone_grid numpy noise md cfg seeds) as [g|];
    [|discriminate].
  cbn [rbind]. eauto.
Qed.

(** The zones of the partitioner lie in the plane. *)
Lemma generate_zones_in_plane (numpy noise : bool)
  (md : Z -> Z -> Seed -> fval) (cfg : CityConfig) (seeds : list (Z * Seed))
  (zs : list Zone) :
  generate_zones numpy noise md cfg seeds = Ok zs ->
  Forall (zone_in_plane cfg) zs.
Proof.
  intros H. apply generate_zones_inv in H. destruct H as (g & _ & H).
  destruct (create_zone_objects_ok cfg g seeds) as (parts & Hr & _ & Hok).
  rewrite Hr in H. inversion H; subst zs.
  eapply parts_in_plane; eauto.
Qed.

(** The partitioner returns where the assignment loop is defined. *)
Lemma generate_zones_total (numpy noise : bool)
  (md : Z -> Z -> Seed -> fval) (cfg : CityConfig) (seeds : list (Z * Seed)) :
  partition_defined numpy noise cfg seeds ->
  exists g parts,
    assign_zone_grid numpy noise md cfg seeds = Ok g
    /\ generate_zones numpy noise md cfg seeds
       = Ok (map (zone_of_part cfg) parts)
    /\ NoDup (map part_id parts)
    /\ Forall (part_ok cfg g) parts.
Proof.
  intros Hp.
  destruct (assign_zone_grid_total numpy noise md cfg seeds Hp) as [g Eg].
  destruct (create_zone_objects_ok cfg g seeds) as (parts & Hr & Hnd & Hok).
  exists g, parts. unfold generate_zones. rewrite Eg. cbn [rbind]. auto.
Qed.

Lemma NoDup_nth_error_neq {A B : Type} (f : A -> B) (l : list A)
  (i j : nat) (a b : A) :
  NoDup (map f l) -> i <> j ->
  nth_error l i = Some a -> nth_error l j = Some b -> f a <> f b.
Proof.
  intros Hnd Hij Ha Hb E.
  apply Hij. rewrite NoDup_nth_error in Hnd. apply Hnd.
  - rewrite length_map. apply nth_error_Some. congruence.
  - rewrite !nth_error_map, Ha, Hb. simpl. congruence.
Qed.

(** ** C3: the zones of the partitioner *)

Example overlap_grid :
  assign_zone_grid true true squared_distance overlap_cfg overlap_seeds
  = Ok overlap_zone_grid.
Proof. vm_compute. reflexivity. Qed.

(** C3, as stated, fails: in the city above the residential zone is the
    rectangle (0, 0, 4, 4) and the parks zone the rectangle (0, 0, 2, 2),
    which lies inside it. *)
Lemma zones_overlap_counterexample :
  exists zs,
    generate_zones true true squared_distance overlap_cfg overlap_seeds
    = Ok zs
    /\ ~ zones_non_overlapping zs.
Proof.
  eexists. split; [vm_compute; reflexivity|].
  intros H.
  refine (H 0%nat 1%nat _ _ _ eq_refl eq_refl _); [discriminate|].
  exists 0, 0. simpl. lia.
Qed.

(** ** The road network of a generated city *)

Lemma generate_roads_grid (cfg : CityConfig) (zones : list Zone)
  (net : RoadNetwork) :
  road_grid (generate_roads cfg zones net) = road_grid net.
Proof.
  enough (H : grows (fun _ => True) net (generate_roads cfg zones net))
    by apply H.
  unfold generate_roads.
  apply grows_trans with
    (generate_local_roads cfg zones
       (generate_secondary_roads cfg (generate_main_roads cfg net))).
  - apply grows_trans with
      (generate_secondary_roads cfg (generate_main_roads cfg net)).
    + apply grows_trans with (generate_main_roads cfg net).
      * unfold generate_main_roads; cbv zeta. grow; exact I.
      * unfold generate_secondary_roads; cbv zeta. grow; exact I.
    + unfold generate_local_roads. apply grows_for_each. intros zone s _.
      unfold generate_zone_roads, generate_residential_roads,
        generate_commercial_roads, generate_business_roads,
        generate_industrial_roads, generate_park_roads,
        generate_leisure_roads; cbv zeta.
      destruct (zone_type zone); grow; exact I.
  - generalize (generate_local_roads cfg zones
                  (generate_secondary_roads cfg (generate_main_roads cfg net))).
    induction zones as [|zone1 rest IH]; intros s; simpl; [apply grows_refl|].
    eapply grows_trans; [|apply IH].
    unfold add_zone_connector. grow; exact I.
Qed.

(** The rasterization returns: the network of a city is the generated roads
    and intersections, with a grid of the configured shape. *)
Lemma generate_road_network_ok (cfg : CityConfig) (zones : list Zone) :
  exists net,
    generate_road_network cfg zones (new_RoadNetwork cfg) = Ok net
    /\ roads net = roads (generate_roads cfg zones (new_RoadNetwork cfg))
    /\ intersections net
       = intersections (generate_roads cfg zones (new_RoadNetwork cfg))
    /\ grid_shape cfg (road_grid net).
Proof.
  unfold generate_road_network, update_road_grid.
  destruct (update_road_grid_loop_ok cfg
              (roads (generate_roads cfg zones (new_RoadNetwork cfg)))
              (road_grid (generate_roads cfg zones (new_RoadNetwork cfg))))
    as (g' & Hr & Hg').
  { rewrite generate_roads_grid. apply new_grid_shape. }
  rewrite Hr. simpl. eexists. split; [reflexivity|]. simpl. auto.
Qed.

Lemma generate_city_inv (numpy noise : bool) (md : Z -> Z -> Seed -> fval)
  (seeds : list (Z * Seed)) (cfg : CityConfig) (rng rng' : Rng)
  (city : CityGenerator) :
  generate_city numpy noise md seeds cfg rng = Ok (city, rng') ->
  exists zs net out,
    generate_zones numpy noise md cfg seeds = Ok zs
    /\ generate_road_network cfg zs (new_RoadNetwork cfg) = Ok net
    /\ generate_buildings numpy cfg net zs [] rng = Ok (out, rng')
    /\ city = {| config := cfg; zones := snd out; road_network := net;
                 buildings := fst out; generation_complete := true |}.
Proof.
  unfold generate_city, bind, lift, ret. simpl.
  destruct (generate_zones numpy noise md cfg seeds) as [zs|] eqn:Ez; [|discriminate].
  destruct (generate_road_network cfg zs (new_RoadNetwork cfg)) as [net|] eqn:En;
    [|discriminate].
  destruct (generate_buildings numpy cfg net zs [] rng) as [[out r1]|] eqn:Eb;
    [|discriminate].
  intros E. inversion E; subst. exists zs, net, out. auto.
Qed.

Lemma py_index_in_range {A : Type} (l : list A) (i : Z) :
  0 <= i < Z.of_nat (List.length l) -> exists v, py_index l i = Some v.
Proof.
  intros H. unfold py_index.
  destruct (i <? 0) eqn:E; [apply Z.ltb_lt in E; lia|].
  replace ((0 <=? i) && (i <? Z.of_nat (List.length l))) with true
    by (symmetry; apply andb_true_iff; split;
        [apply Z.leb_le | apply Z.ltb_lt]; lia).
  destruct (nth_error l (Z.to_nat i)) eqn:En; [eauto|].
  apply nth_error_None in En. lia.
Qed.

Lemma py_index_In {A : Type} (l : list A) (i : Z) (v : A) :
  py_index l i = Some v -> In v l.
Proof.
  unfold py_index. destruct (_ && _); [|discriminate].
  apply nth_error_In.
Qed.

Lemma grid_get_in_range (cfg : CityConfig) (g : list (list bool)) (x y : Z) :
  grid_shape cfg g ->
  0 <= x < cfg_width cfg -> 0 <= y < cfg_height cfg ->
  exists v, grid_get g y x = Some v.
Proof.
  intros [Hl Hr] Hx Hy. unfold grid_get.
  destruct (py_index_in_range g y) as [row Hrow]; [lia|].
  rewrite Hrow. apply py_index_in_range.
  rewrite Forall_forall in Hr.
  rewrite (Hr row (py_index_In _ _ _ Hrow)). lia.
Qed.

(** ** C1: where the roads lie *)

(** C1, as stated, fails: the single business zone of the 4 x 4 city is the
    rectangle (0, 0, 4, 4), and its first avenue runs from (0, 0) to (0, 4),
    whose y is the height. *)
Lemma road_end_on_border_counterexample :
  exists city rng',
    generate_city true true squared_distance block_seeds block_cfg rng0
    = Ok (city, rng')
    /\ In (new_Road (0, 0) (0, 4) 12 "local") (roads (road_network city))
    /\ ~ roads_in_open_plane block_cfg (road_network city).
Proof.
  eexists. eexists. split; [vm_compute; reflexivity|].
  assert (Hin : In (new_Road (0, 0) (0, 4) 12 "local")
                   (roads (generate_roads block_cfg
                             [new_Zone BUSINESS 0 0 4 4 (9 # 10)]
                             (new_RoadNetwork block_cfg))))
    by (vm_compute; tauto).
  split; [exact Hin|].
  intros H. destruct (H _ Hin) as [_ [_ Hy]].
  simpl in Hy. lia.
Qed.

(** C1 (amended): every road of a generated city starts and ends in
    [[0, width] x [0, height]], both bounds included; nothing clips a road
    that runs along the far edge of its zone. *)
Theorem roads_in_closed_plane (numpy noise : bool) (md : Z -> Z -> Seed -> fval)
  (seeds : list (Z * Seed)) (cfg : CityConfig) (rng rng' : Rng)
  (city : CityGenerator) :
  valid_config cfg ->
  generate_city numpy noise md seeds cfg rng = Ok (city, rng') ->
  forall r, In r (roads (road_network city)) ->
    in_closed_plane cfg (r_start r) /\ in_closed_plane cfg (r_end r).
Proof.
  intros Hc Hgen r Hr.
  apply generate_city_inv in Hgen.
  destruct Hgen as (zs & net & out & Hz & Hn & _ & ->). simpl in Hr.
  pose proof (generate_zones_in_plane numpy noise md cfg seeds zs Hz)
    as Hplane.
  destruct (generate_road_network_ok cfg zs) as (net' & Hn' & Hroads & _).
  rewrite Hn in Hn'. inversion Hn'; subst net'.
  rewrite Hroads in Hr.
  destruct (generate_roads_grows cfg zs (new_RoadNetwork cfg) Hc Hplane)
    as [_ (rs & Ers & Hall)].
  rewrite Ers in Hr. simpl in Hr.
  rewrite Forall_forall in Hall. apply (Hall r Hr).
Qed.

Lemma roads_in_closed_plane_witness :
  valid_config village_cfg /\
  exists city rng',
    generate_city true true squared_distance village_seeds village_cfg rng0
    = Ok (city, rng')
    /\ forall r, In r (roads (road_network city)) ->
         in_closed_plane village_cfg (r_start r)
         /\ in_closed_plane village_cfg (r_end r).
Proof.
  assert (Hc : valid_config village_cfg) by (unfold valid_config; simpl; lia).
  split; [exact Hc|].
  eexists. eexists. split; [vm_compute; reflexivity|].
  eapply (roads_in_closed_plane true true squared_distance village_seeds
            village_cfg rng0); [exact Hc | vm_compute; reflexivity].
Defined.

(** ** C8: the occupancy query *)

(** C8: in a generated city, [is_road(x, y)] is the grid value at (x, y) when
    the point is in the plane (the read is in range, there is no IndexError)
    and [False] everywhere else. *)
Theorem is_road_contract (numpy noise : bool) (md : Z -> Z -> Seed -> fval)
  (seeds : list (Z * Seed)) (cfg : CityConfig) (rng rng' : Rng)
  (city : CityGenerator) :
  valid_config cfg ->
  generate_city numpy noise md seeds cfg rng = Ok (city, rng') ->
  forall x y : Z,
    (0 <= x < cfg_width cfg /\ 0 <= y < cfg_height cfg ->
     exists v, grid_get (road_grid (road_network city)) y x = Some v
               /\ is_road cfg (road_network city) x y = Ok v)
    /\ (~ (0 <= x < cfg_width cfg /\ 0 <= y < cfg_height cfg) ->
        is_road cfg (road_network city) x y = Ok false).
Proof.
  intros _ Hgen x y.
  apply generate_city_inv in Hgen.
  destruct Hgen as (zs & net & out & _ & Hn & _ & ->). simpl.
  destruct (generate_road_network_ok cfg zs) as (net' & Hn' & _ & _ & Hshape).
  rewrite Hn in Hn'. inversion Hn'; subst net'.
  unfold is_road. split.
  - intros [Hx Hy].
    destruct (grid_get_in_range cfg (road_grid net) x y Hshape Hx Hy)
      as [v Hv].
    exists v. split; [exact Hv|].
    replace ((0 <=? x) && (x <? cfg_width cfg)
             && (0 <=? y) && (y <? cfg_height cfg)) with true.
    + rewrite Hv. reflexivity.
    + symmetry. rewrite !andb_true_iff, !Z.leb_le, !Z.ltb_lt. lia.
  - intros Hout.
    destruct ((0 <=? x) && (x <? cfg_width cfg)
              && (0 <=? y) && (y <? cfg_height cfg)) eqn:E; [|reflexivity].
    exfalso. apply Hout.
    rewrite !andb_true_iff, !Z.leb_le, !Z.ltb_lt in E. lia.
Qed.

Lemma is_road_contract_witness :
  valid_config village_cfg /\
  exists city rng',
    generate_city true true squared_distance village_seeds village_cfg rng0
    = Ok (city, rng')
    /\ is_road village_cfg (road_network city) 0 7 = Ok true
    /\ is_road village_cfg (road_network city) 7 7 = Ok false
    /\ forall x y : Z,
         (0 <= x < cfg_width village_cfg /\ 0 <= y < cfg_height village_cfg ->
          exists v, grid_get (road_grid (road_network city)) y x = Some v
                    /\ is_road village_cfg (road_network city) x y = Ok v)
         /\ (~ (0 <= x < cfg_width village_cfg
                /\ 0 <= y < cfg_height village_cfg) ->
             is_road village_cfg (road_network city) x y = Ok false).
Proof.
  assert (Hc : valid_config village_cfg) by (unfold valid_config; simpl; lia).
  split; [exact Hc|].
  eexists. eexists. split; [vm_compute; reflexivity|].
  split; [vm_compute; reflexivity|].
  split; [vm_compute; reflexivity|].
  eapply (is_road_contract true true squared_distance village_seeds
            village_cfg rng0); [exact Hc | vm_compute; reflexivity].
Defined.

(** ** C9: the zone connectors *)

Lemma connect_inner_roads (cfg : CityConfig) (zone1 : Zone) :
  forall (rest : list Zone) (net : RoadNetwork),
    roads (for_each rest
             (fun zone2 net =>
                if root_lt (zone_distance zone1 zone2) 150 then
                  add_zone_connector cfg zone1 zone2 net
                else net) net)
    = roads net
      ++ map (connector cfg) (filter near (map (fun z' => (zone1, z')) rest)).
Proof.
  unfold for_each.
  induction rest as [|zone2 rest IH]; intros net; simpl.
  - rewrite app_nil_r. reflexivity.
  - rewrite IH. unfold near at 2. simpl.
    destruct (root_lt (zone_distance zone1 zone2) 150); simpl.
    + rewrite <- app_assoc. reflexivity.
    + reflexivity.
Qed.

(** The connectors appended are those of the near pairs, in pair order. *)
Lemma connect_zones_roads (cfg : CityConfig) :
  forall (zones : list Zone) (net : RoadNetwork),
    roads (connect_zones cfg zones net)
    = roads net ++ map (connector cfg) (filter near (zone_pairs zones)).
Proof.
  intros zs. induction zs as [|zone1 rest IH]; intros net; simpl.
  - rewrite app_nil_r. reflexivity.
  - rewrite IH, connect_inner_roads, filter_app, map_app, app_assoc.
    reflexivity.
Qed.

(** The pairs of the list are the pairs of its positions [i < j]. *)
Lemma zone_pairs_In (z1 z2 : Zone) :
  forall zs : list Zone,
    In (z1, z2) (zone_pairs zs)
    <-> exists i j : nat,
          (i < j)%nat /\ nth_error zs i = Some z1
          /\ nth_error zs j = Some z2.
Proof.
  intros zs. induction zs as [|z rest IH]; cbn [zone_pairs].
  - cbn [In]. split; [intros [] | intros (i & j & _ & H & _)].
    destruct i; discriminate H.
  - rewrite in_app_iff, in_map_iff, IH. split.
    + intros [(z' & E & Hin)|(i & j & Hij & Hi & Hj)].
      * inversion E; subst z z'.
        apply In_nth_error in Hin. destruct Hin as [n Hn].
        exists 0%nat, (S n). split; [lia|]. split; [reflexivity | exact Hn].
      * exists (S i), (S j). split; [lia|]. split; assumption.
    + intros (i & j & Hij & Hi & Hj).
      destruct j as [|j]; [lia|]. cbn [nth_error] in Hj.
      destruct i as [|i]; cbn [nth_error] in Hi.
      * left. inversion Hi; subst z. exists z2.
        split; [reflexivity|]. eapply nth_error_In. exact Hj.
      * right. exists i, j. split; [lia|]. split; assumption.
Qed.

(** C9: [_connect_zones] only appends roads, each a connector.  For every
    pair of zones of the list, at the positions [i < j], the straight local
    road from the center of the first, [(x + width // 2, y + height // 2)],
    to the center of the second is among the roads appended exactly when the
    squared Euclidean distance of the two centers is below 150 squared, that
    is when the distance is strictly below 150; at exactly 150 there is
    none.  And every road appended is the connector of such a pair, whose
    centers are less than 150 apart. *)
Theorem connector_iff_near (cfg : CityConfig) (zones : list Zone)
  (net : RoadNetwork) :
  exists added : list Road,
    roads (connect_zones cfg zones net) = roads net ++ added
    /\ (forall (i j : nat) (z1 z2 : Zone),
          (i < j)%nat ->
          nth_error zones i = Some z1 -> nth_error zones j = Some z2 ->
          let x1 := z_x z1 + z_width z1 / 2 in
          let y1 := z_y z1 + z_height z1 / 2 in
          let x2 := z_x z2 + z_width z2 / 2 in
          let y2 := z_y z2 + z_height z2 / 2 in
          let d2 := (x1 - x2) ^ 2 + (y1 - y2) ^ 2 in
          let road :=
            {| r_start := (x1, y1); r_end := (x2, y2);
               r_width := local_road_width cfg; road_type := "local" |} in
          (In road added <-> d2 < 150 ^ 2)
          /\ (d2 = 150 ^ 2 -> ~ In road added))
    /\ (forall road : Road,
          In road added ->
          exists (i j : nat) (z1 z2 : Zone),
            (i < j)%nat
            /\ nth_error zones i = Some z1 /\ nth_error zones j = Some z2
            /\ road
               = {| r_start := (z_x z1 + z_width z1 / 2,
                                z_y z1 + z_height z1 / 2);
                    r_end := (z_x z2 + z_width z2 / 2,
                              z_y z2 + z_height z2 / 2);
                    r_width := local_road_width cfg;
                    road_type := "local" |}
            /\ (z_x z1 + z_width z1 / 2 - (z_x z2 + z_width z2 / 2)) ^ 2
               + (z_y z1 + z_height z1 / 2 - (z_y z2 + z_height z2 / 2)) ^ 2
               < 150 ^ 2).
Proof.
  exists (map (connector cfg) (filter near (zone_pairs zones))).
  split; [apply connect_zones_roads|]. split.
  - intros i j z1 z2 Hij Hi Hj x1 y1 x2 y2 d2 road.
    assert (Hpair : In (z1, z2) (zone_pairs zones))
      by (apply zone_pairs_In; exists i, j; auto).
    assert (Hiff : In road
                      (map (connector cfg) (filter near (zone_pairs zones)))
                   <-> d2 < 150 ^ 2).
    { split.
      - intros Hin. apply in_map_iff in Hin.
        destruct Hin as [[a b] [Econ Hf]].
        apply filter_In in Hf. destruct Hf as [_ Hnear].
        unfold connector, new_Road, zone_center in Econ.
        cbn [fst snd] in Econ. subst road.
        inversion Econ as [[E1 E2 E3 E4]].
        unfold near, root_lt, zone_distance, zone_center in Hnear.
        cbn [fst snd radicand] in Hnear.
        apply Z.ltb_lt in Hnear.
        subst d2 x1 y1 x2 y2. rewrite <- E1, <- E2, <- E3, <- E4.
        exact Hnear.
      - intros Hd. apply in_map_iff. exists (z1, z2).
        split; [reflexivity|].
        apply filter_In. split; [exact Hpair|].
        unfold near, root_lt, zone_distance, zone_center.
        cbn [fst snd radicand].
        apply Z.ltb_lt. exact Hd. }
    split; [exact Hiff|].
    intros Heq Hin. apply Hiff in Hin. lia.
  - intros road Hin. apply in_map_iff in Hin.
    destruct Hin as [[z1 z2] [<- Hf]].
    apply filter_In in Hf. destruct Hf as [Hpair Hnear].
    apply zone_pairs_In in Hpair. destruct Hpair as (i & j & Hij & Hi & Hj).
    exists i, j, z1, z2.
    split; [exact Hij|]. split; [exact Hi|]. split; [exact Hj|].
    split; [reflexivity|].
    unfold near, root_lt, zone_distance, zone_center in Hnear.
    cbn [fst snd radicand] in Hnear.
    apply Z.ltb_lt in Hnear. exact Hnear.
Qed.

(** Two zones whose centers (1, 1) and (151, 1) are 150 apart get no
    connector; at 149 they get one. *)
Example connector_at_150 :
  roads (connect_zones (make_config 300 300 200 100)
           [ new_Zone RESIDENTIAL 0 0 2 2 (6 # 10);
             new_Zone PARKS 150 0 2 2 (1 # 10) ]
           (new_RoadNetwork (make_config 0 0 200 100))) = []
  /\ roads (connect_zones (make_config 300 300 200 100)
              [ new_Zone RESIDENTIAL 0 0 2 2 (6 # 10);
                new_Zone PARKS 149 0 2 2 (1 # 10) ]
              (new_RoadNetwork (make_config 0 0 200 100)))
     = [ new_Road (1, 1) (150, 1) 8 "local" ].
Proof. split; vm_compute; reflexivity. Qed.

(** ** C2: the intersection index *)

Lemma cell_eqb_refl (p : cell) : cell_eqb p p = true.
Proof. apply cell_eqb_eq. reflexivity. Qed.

Lemma dict_get_update (p q : cell) (f : Intersection -> Intersection)
  (d : IntersectionMap) :
  dict_get (dict_update p f d) q
  = match dict_get d q with
    | Some i => if cell_eqb q p then Some (f i) else Some i
    | None => None
    end.
Proof.
  induction d as [|[k v] d IH]; simpl; [reflexivity|].
  destruct (cell_eqb p k) eqn:Epk; simpl.
  - apply cell_eqb_eq in Epk. subst k.
    destruct (cell_eqb q p) eqn:Eqp; [reflexivity|].
    destruct (dict_get d q); reflexivity.
  - destruct (cell_eqb q k) eqn:Eqk; [|exact IH].
    apply cell_eqb_eq in Eqk. subst k.
    destruct (cell_eqb q p) eqn:Eqp; [|reflexivity].
    apply cell_eqb_eq in Eqp. subst q.
    rewrite cell_eqb_refl in Epk. discriminate.
Qed.

Lemma dict_get_app (d : IntersectionMap) (p q : cell) (v : Intersection) :
  dict_get (d ++ [(p, v)]) q
  = match dict_get d q with
    | Some i => Some i
    | None => if cell_eqb q p then Some v else None
    end.
Proof.
  induction d as [|[k w] d IH]; simpl; [reflexivity|].
  destruct (cell_eqb q k); [reflexivity | exact IH].
Qed.

(** Registering a road at a point lists it there. *)
Lemma add_intersection_point_lists (road : Road) (p : cell)
  (d : IntersectionMap) :
  listed (add_intersection_point road p d) p road.
Proof.
  unfold listed, add_intersection_point.
  rewrite dict_get_update, cell_eqb_refl.
  destruct (dict_get d p) as [i|] eqn:E.
  - rewrite E. eexists. split; [reflexivity|].
    simpl. apply in_or_app. right. left. reflexivity.
  - rewrite dict_get_app, E, cell_eqb_refl.
    eexists. split; [reflexivity|]. simpl. left. reflexivity.
Qed.

(** Registering a road removes nothing from the index. *)
Lemma add_intersection_point_keeps (road road' : Road) (p q : cell)
  (d : IntersectionMap) :
  listed d q road' -> listed (add_intersection_point road p d) q road'.
Proof.
  unfold listed, add_intersection_point. intros (i & Hi & Hin).
  rewrite dict_get_update.
  destruct (dict_get d p) as [j|] eqn:E.
  - rewrite Hi. destruct (cell_eqb q p); eexists; (split; [reflexivity|]);
      [simpl; apply in_or_app; left; exact Hin | exact Hin].
  - rewrite dict_get_app, Hi.
    destruct (cell_eqb q p); eexists; (split; [reflexivity|]);
      [simpl; apply in_or_app; left; exact Hin | exact Hin].
Qed.

Lemma arterials_indexed_register (road : Road) (net : RoadNetwork) :
  arterials_indexed net ->
  arterials_indexed (add_intersections_for_road road (append_road road net)).
Proof.
  intros H road' Hin Htype point Hpoint. simpl in *.
  unfold for_each. simpl.
  apply in_app_or in Hin. destruct Hin as [Hin|[<-|[]]].
  - apply add_intersection_point_keeps, add_intersection_point_keeps.
    apply (H road' Hin Htype point Hpoint).
  - destruct Hpoint as [-> | ->].
    + apply add_intersection_point_keeps, add_intersection_point_lists.
    + apply add_intersection_point_lists.
Qed.

Lemma arterials_indexed_local (road : Road) (net : RoadNetwork) :
  road_type road = "local"%string ->
  arterials_indexed net -> arterials_indexed (append_road road net).
Proof.
  intros Hlocal H road' Hin Htype. simpl in Hin.
  apply in_app_or in Hin. destruct Hin as [Hin|[<-|[]]]; [|congruence].
  exact (H road' Hin Htype).
Qed.

(** Walks down a generator that registers what it appends or appends local
    roads. *)
Ltac keep_index :=
  lazymatch goal with
  | |- arterials_indexed (for_each _ _ _) =>
    apply for_each_inv; [keep_index | intros ? ? ? ?; keep_index]
  | |- arterials_indexed (add_intersections_for_road ?r (append_road ?r _)) =>
    apply arterials_indexed_register; keep_index
  | |- arterials_indexed (append_road _ _) =>
    apply arterials_indexed_local; [reflexivity | keep_index]
  | |- arterials_indexed (if ?b then _ else _) => destruct b; keep_index
  | |- _ => try assumption
  end.

(** The sibling paths: every main and secondary road of a generated network
    is registered at both its endpoints. *)
Lemma arterial_roads_indexed (cfg : CityConfig) (zs : list Zone) :
  arterials_indexed (generate_roads cfg zs (new_RoadNetwork cfg)).
Proof.
  assert (H0 : arterials_indexed (new_RoadNetwork cfg))
    by (intros road []).
  assert (H1 : arterials_indexed (generate_main_roads cfg (new_RoadNetwork cfg)))
    by (unfold generate_main_roads; cbv zeta; keep_index).
  assert (H2 : arterials_indexed
                 (generate_secondary_roads cfg
                    (generate_main_roads cfg (new_RoadNetwork cfg))))
    by (unfold generate_secondary_roads; cbv zeta; keep_index).
  assert (H3 : arterials_indexed
                 (generate_local_roads cfg zs
                    (generate_secondary_roads cfg
                       (generate_main_roads cfg (new_RoadNetwork cfg))))).
  { unfold generate_local_roads. apply for_each_inv; [exact H2|].
    intros zone s _ Hs.
    unfold generate_zone_roads, generate_residential_roads,
      generate_commercial_roads, generate_business_roads,
      generate_industrial_roads, generate_park_roads, generate_leisure_roads;
      cbv zeta.
    destruct (zone_type zone); keep_index. }
  unfold generate_roads. revert H3.
  generalize (generate_local_roads cfg zs
                (generate_secondary_roads cfg
                   (generate_main_roads cfg (new_RoadNetwork cfg)))).
  induction zs as [|zone1 rest IH]; intros s Hs; simpl; [exact Hs|].
  apply IH. unfold add_zone_connector. keep_index.
Qed.

(** C2 fails on the 4 x 4 business city: its main road from (0, 0) to (0, 3)
    is indexed at both ends, but the avenue from (0, 0) to (0, 4) is a road
    of the city that no intersection lists, and its end (0, 4) has no entry
    at all. *)
Lemma local_road_not_indexed :
  exists city rng',
    generate_city true true squared_distance block_seeds block_cfg rng0
    = Ok (city, rng')
    /\ In (new_Road (0, 0) (0, 3) 20 "main") (roads (road_network city))
    /\ indexed (road_network city) (new_Road (0, 0) (0, 3) 20 "main")
    /\ In (new_Road (0, 0) (0, 4) 12 "local") (roads (road_network city))
    /\ dict_get (intersections (road_network city)) (0, 4) = None
    /\ ~ indexed (road_network city) (new_Road (0, 0) (0, 4) 12 "local").
Proof.
  eexists. eexists. split; [vm_compute; reflexivity|].
  split; [vm_compute; tauto|].
  split.
  { intros point [-> | ->]; eexists;
      (split; [vm_compute; reflexivity | vm_compute; tauto]). }
  split; [vm_compute; tauto|].
  split; [vm_compute; reflexivity|].
  intros H. destruct (H (0, 4)) as [i [Hi _]]; [right; reflexivity|].
  vm_compute in Hi. discriminate Hi.
Qed.

(** ** C5: the exports before generation is complete *)

(** C5: while [generation_complete] is false both exports raise a
    ValueError, return no data and leave every file as it was. *)
Theorem exports_need_complete_generation (city : CityGenerator)
  (json_name : option string) (obj_name : string) (fs : FileSystem) :
  generation_complete city = false ->
  export_to_json city json_name fs = (Raise ValueError, fs)
  /\ export_to_obj city obj_name fs = (Raise ValueError, fs).
Proof.
  intros H. unfold export_to_json, export_to_obj. rewrite H. simpl. auto.
Qed.

Lemma exports_need_complete_generation_witness :
  generation_complete (new_CityGenerator village_cfg) = false
  /\ export_to_json (new_CityGenerator village_cfg) (Some "city.json"%string)
                    (fun _ => None)
     = (Raise ValueError, fun _ => None)
  /\ export_to_obj (new_CityGenerator village_cfg) "city.obj" (fun _ => None)
     = (Raise ValueError, fun _ => None).
Proof.
  split; [reflexivity|].
  apply (exports_need_complete_generation (new_CityGenerator village_cfg)
           (Some "city.json"%string) "city.obj" (fun _ => None)).
  reflexivity.
Defined.

(** ** C6 and C7: the mesh export *)

Lemma fs_write_at (name : string) (c : FileContent) (fs : FileSystem) :
  fs_write name c fs name = Some c.
Proof. unfold fs_write. rewrite String.eqb_refl. reflexivity. Qed.

Lemma fs_write_other (name : string) (c : FileContent) (fs : FileSystem) :
  forall n, n <> name -> fs_write name c fs n = fs n.
Proof.
  intros n Hn. unfold fs_write.
  destruct (String.eqb_spec n name); [contradiction | reflexivity].
Qed.

Lemma count_vertices_app (a b : list ObjLine) :
  count_vertices (a ++ b) = count_vertices a + count_vertices b.
Proof.
  unfold count_vertices. rewrite filter_app, length_app. lia.
Qed.

Lemma count_faces_app (a b : list ObjLine) :
  count_faces (a ++ b) = count_faces a + count_faces b.
Proof.
  unfold count_faces. rewrite filter_app, length_app. lia.
Qed.

Lemma faces_valid_app (a b : list ObjLine) :
  forall seen,
    faces_valid seen a -> faces_valid (seen + count_vertices a) b ->
    faces_valid seen (a ++ b).
Proof.
  induction a as [|l a IH]; intros seen Ha Hb.
  - simpl. replace (seen + count_vertices []) with seen in Hb
      by (unfold count_vertices; simpl; lia).
    exact Hb.
  - destruct l as [s| |x y z|idx]; simpl in *.
    + apply IH; [exact Ha|].
      replace (count_vertices (Comment s :: a)) with (count_vertices a) in Hb
        by reflexivity.
      exact Hb.
    + apply IH; [exact Ha|].
      replace (count_vertices (Blank :: a)) with (count_vertices a) in Hb
        by reflexivity.
      exact Hb.
    + apply IH; [exact Ha|].
      replace (seen + 1 + count_vertices a)
        with (seen + count_vertices (V x y z :: a)); [exact Hb|].
      unfold count_vertices. simpl. lia.
    + destruct Ha as [Hi Ha]. split; [exact Hi|].
      apply IH; [exact Ha|].
      replace (count_vertices (F idx :: a)) with (count_vertices a) in Hb
        by reflexivity.
      exact Hb.
Qed.

Lemma building_lines_valid (b : Building) (base : Z) :
  1 <= base -> faces_valid (base - 1) (building_lines b base).
Proof.
  intros H. unfold building_lines. simpl.
  repeat split; repeat constructor; lia.
Qed.

(** The loop over the buildings writes 8 vertex lines and 6 face lines per
    building and advances the counter by 8. *)
Lemma export_buildings_spec (bs : list Building) :
  forall (vertex_count : Z) (out : list ObjLine),
    exists blk,
      export_buildings bs (vertex_count, out)
      = (vertex_count + 8 * Z.of_nat (List.length bs), out ++ blk)
      /\ count_vertices blk = 8 * Z.of_nat (List.length bs)
      /\ count_faces blk = 6 * Z.of_nat (List.length bs)
      /\ (1 <= vertex_count -> faces_valid (vertex_count - 1) blk).
Proof.
  unfold export_buildings, for_each.
  induction bs as [|b bs IH]; intros vc out.
  - exists []. simpl. rewrite app_nil_r, Z.add_0_r. auto.
  - cbn [fold_left].
    destruct (IH (vc + 8) (out ++ building_lines b vc))
      as (blk & Hr & Hv & Hf & Hvalid).
    exists (building_lines b vc ++ blk). rewrite Hr.
    split; [f_equal; [cbn [List.length]; lia | rewrite app_assoc; reflexivity]|].
    rewrite count_vertices_app, count_faces_app, Hv, Hf.
    replace (count_vertices (building_lines b vc)) with 8 by reflexivity.
    replace (count_faces (building_lines b vc)) with 6 by reflexivity.
    cbn [List.length].
    split; [lia|]. split; [lia|].
    intros Hvc. apply faces_valid_app.
    + apply building_lines_valid. exact Hvc.
    + replace (count_vertices (building_lines b vc)) with 8 by reflexivity.
      replace (vc - 1 + 8) with (vc + 8 - 1) by lia.
      apply Hvalid. lia.
Qed.

Lemma nonzero_length_pos (road : Road) :
  root_pos (get_length road) = nonzero_length road.
Proof.
  unfold root_pos, get_length, nonzero_length, cell_eqb.
  destruct (r_start road) as [x1 y1], (r_end road) as [x2 y2].
  cbn [radicand fst snd]. rewrite !Z.pow_2_r.
  destruct (Z.eqb_spec x1 x2) as [Hx|Hx], (Z.eqb_spec y1 y2) as [Hy|Hy];
    cbn [andb negb]; [apply Z.ltb_ge | apply Z.ltb_lt ..]; nia.
Qed.

(** What one road adds: nothing when its ends coincide, otherwise four vertex
    lines and one face line on them; never an exception. *)
Lemma export_road_spec (road : Road) (vertex_count : Z) :
  exists lines,
    export_road road vertex_count
    = Ok (lines, vertex_count + (if nonzero_length road then 4 else 0))
    /\ count_vertices lines = (if nonzero_length road then 4 else 0)
    /\ count_faces lines = (if nonzero_length road then 1 else 0)
    /\ (nonzero_length road = false -> lines = [])
    /\ (1 <= vertex_count -> faces_valid (vertex_count - 1) lines).
Proof.
  unfold export_road.
  rewrite nonzero_length_pos.
  destruct (r_start road) as [x1 y1] eqn:Es, (r_end road) as [x2 y2] eqn:Ee.
  destruct (nonzero_length road) eqn:En.
  - assert (Hrad : (radicand (get_length road) =? 0) = false).
    { rewrite <- nonzero_length_pos in En. unfold root_pos in En.
      apply Z.ltb_lt in En. apply Z.eqb_neq. lia. }
    unfold div_length. rewrite Hrad. simpl.
    eexists. split; [reflexivity|].
    split; [reflexivity|]. split; [reflexivity|].
    split; [discriminate|].
    intros Hvc. simpl. repeat split; repeat constructor; lia.
  - exists []. rewrite Z.add_0_r. simpl. auto.
Qed.

Lemma export_roads_spec (rs : list Road) :
  forall (vertex_count : Z) (out : list ObjLine),
    exists blk,
      export_roads rs (vertex_count, out)
      = (None,
         (vertex_count + 4 * Z.of_nat (List.length (filter nonzero_length rs)),
          out ++ blk))
      /\ count_vertices blk
         = 4 * Z.of_nat (List.length (filter nonzero_length rs))
      /\ count_faces blk = Z.of_nat (List.length (filter nonzero_length rs))
      /\ (1 <= vertex_count -> faces_valid (vertex_count - 1) blk).
Proof.
  induction rs as [|road rs IH]; intros vc out.
  - exists []. simpl. rewrite app_nil_r, Z.add_0_r. auto.
  - cbn [export_roads fst snd filter].
    destruct (export_road_spec road vc) as (lines & Hr & Hv & Hf & _ & Hvalid).
    rewrite Hr.
    destruct (IH (vc + (if nonzero_length road then 4 else 0)) (out ++ lines))
      as (blk & Hr' & Hv' & Hf' & Hvalid').
    rewrite Hr'. exists (lines ++ blk).
    rewrite count_vertices_app, count_faces_app, Hv, Hf, Hv', Hf'.
    destruct (nonzero_length road); cbn [List.length];
      (split; [f_equal; f_equal; [lia | rewrite app_assoc; reflexivity]|]);
      (split; [lia|]); (split; [lia|]);
      intros Hvc; (apply faces_valid_app; [apply Hvalid; exact Hvc|]);
      rewrite Hv.
    + replace (vc - 1 + 4) with (vc + 4 - 1) by lia. apply Hvalid'. lia.
    + replace (vc - 1 + 0) with (vc + 0 - 1) by lia. apply Hvalid'. lia.
Qed.

Lemma export_roads_app (a b : list Road) :
  forall st,
    export_roads (a ++ b) st
    = match export_roads a st with
      | (None, st') => export_roads b st'
      | (Some e, st') => (Some e, st')
      end.
Proof.
  induction a as [|road a IH]; intros st; simpl; [reflexivity|].
  destruct (export_road road (fst st)) as [[lines vc]|e]; [apply IH | reflexivity].
Qed.

Lemma generate_city_complete (numpy noise : bool) (md : Z -> Z -> Seed -> fval)
  (seeds : list (Z * Seed)) (cfg : CityConfig) (rng rng' : Rng)
  (city : CityGenerator) :
  generate_city numpy noise md seeds cfg rng = Ok (city, rng') ->
  generation_complete city = true.
Proof.
  intros H. apply generate_city_inv in H.
  destruct H as (zs & net & out & _ & _ & _ & ->). reflexivity.
Qed.

(** The export of a complete city raises nothing and writes one file. *)
Lemma export_to_obj_ok (city : CityGenerator) (filename : string)
  (fs : FileSystem) :
  generation_complete city = true ->
  exists out, export_to_obj city filename fs
              = (Ok tt, fs_write filename (ObjFile out) fs).
Proof.
  intros Hc. unfold export_to_obj. rewrite Hc. cbn [negb].
  destruct (export_buildings_spec (buildings city) 1 obj_header)
    as (out_b & Hb & _).
  rewrite Hb.
  destruct (export_roads_spec (roads (road_network city))
              (1 + 8 * Z.of_nat (List.length (buildings city)))
              (obj_header ++ out_b))
    as (out_r & Hr & _).
  rewrite Hr. eexists. reflexivity.
Qed.

(** What one road adds, line by line: nothing when its ends coincide,
    otherwise four vertex lines and the face of a ribbon on them, numbered
    by the counter. *)
Lemma export_road_block (road : Road) (vertex_count : Z) :
  exists lines,
    export_road road vertex_count
    = Ok (lines, vertex_count + (if nonzero_length road then 4 else 0))
    /\ if nonzero_length road
       then exists vs, lines = vs ++ [ribbon_face vertex_count]
                       /\ List.length vs = 4%nat
                       /\ forallb is_vertex vs = true
       else lines = [].
Proof.
  unfold export_road.
  rewrite nonzero_length_pos.
  destruct (r_start road) as [x1 y1] eqn:Es, (r_end road) as [x2 y2] eqn:Ee.
  destruct (nonzero_length road) eqn:En.
  - assert (Hrad : (radicand (get_length road) =? 0) = false).
    { rewrite <- nonzero_length_pos in En. unfold root_pos in En.
      apply Z.ltb_lt in En. apply Z.eqb_neq. lia. }
    unfold div_length. rewrite Hrad. cbn [rbind].
    eexists. split; [reflexivity|].
    eexists [_; _; _; _]. split; [reflexivity|]. split; reflexivity.
  - exists []. rewrite Z.add_0_r. split; reflexivity.
Qed.

(** The loop over the buildings writes one block per building: eight vertex
    lines, then the six faces of a box on them, numbered by the counter. *)
Lemma export_buildings_blocks (bs : list Building) :
  forall (vertex_count : Z) (out : list ObjLine),
    exists blocks : list (list ObjLine),
      export_buildings bs (vertex_count, out)
      = (vertex_count + 8 * Z.of_nat (List.length bs),
         out ++ List.concat blocks)
      /\ List.length blocks = List.length bs
      /\ forall (k : nat) (b : Building),
           nth_error bs k = Some b ->
           exists vs,
             nth_error blocks k
             = Some (vs ++ box_faces (vertex_count + 8 * Z.of_nat k))
             /\ List.length vs = 8%nat
             /\ forallb is_vertex vs = true.
Proof.
  unfold export_buildings, for_each.
  induction bs as [|b bs IH]; intros vc out.
  - exists []. cbn [fold_left List.concat List.length].
    rewrite app_nil_r, Z.add_0_r.
    split; [reflexivity|]. split; [reflexivity|].
    intros k b H. destruct k; discriminate H.
  - cbn [fold_left].
    destruct (IH (vc + 8) (out ++ building_lines b vc))
      as (blocks & Hr & Hlen & Hnth).
    exists (building_lines b vc :: blocks). rewrite Hr.
    split; [f_equal; [cbn [List.length]; lia
                     | cbn [List.concat]; rewrite app_assoc; reflexivity]|].
    split; [cbn [List.length]; rewrite Hlen; reflexivity|].
    intros [|k] b' H; cbn [nth_error] in *.
    + inversion H; subst b'.
      exists (firstn 8 (building_lines b vc)).
      split; [|split; reflexivity].
      change (Z.of_nat 0) with 0. rewrite Z.mul_0_r, Z.add_0_r.
      reflexivity.
    + destruct (Hnth k b' H) as (vs & E & Hl & Hv).
      exists vs. split; [|split; assumption].
      rewrite E. do 3 f_equal. lia.
Qed.

(** The loop over the roads writes one block per road, empty for a road
    whose ends coincide; the counter has advanced by 4 for each road of
    nonzero length before it. *)
Lemma export_roads_blocks (rs : list Road) :
  forall (vertex_count : Z) (out : list ObjLine),
    exists blocks : list (list ObjLine),
      export_roads rs (vertex_count, out)
      = (None,
         (vertex_count + 4 * Z.of_nat (List.length (filter nonzero_length rs)),
          out ++ List.concat blocks))
      /\ List.length blocks = List.length rs
      /\ forall (j : nat) (road : Road),
           nth_error rs j = Some road ->
           if nonzero_length road
           then exists vs,
                  nth_error blocks j
                  = Some (vs ++ [ribbon_face
                                   (vertex_count
                                    + 4 * Z.of_nat
                                            (List.length
                                               (filter nonzero_length
                                                       (firstn j rs))))])
                  /\ List.length vs = 4%nat
                  /\ forallb is_vertex vs = true
           else nth_error blocks j = Some [].
Proof.
  induction rs as [|road rs IH]; intros vc out.
  - exists []. cbn [export_roads filter List.concat List.length].
    rewrite app_nil_r, Z.add_0_r.
    split; [reflexivity|]. split; [reflexivity|].
    intros j r H. destruct j; discriminate H.
  - cbn [export_roads fst snd filter].
    destruct (export_road_block road vc) as (lines & Hr & Hlines).
    rewrite Hr.
    destruct (IH (vc + (if nonzero_length road then 4 else 0)) (out ++ lines))
      as (blocks & Hr' & Hlen & Hnth).
    rewrite Hr'. exists (lines :: blocks).
    split.
    { cbn [List.concat]. rewrite app_assoc.
      destruct (nonzero_length road); cbn [List.length];
        do 2 f_equal; lia. }
    split; [cbn [List.length]; rewrite Hlen; reflexivity|].
    intros [|j] r H; cbn [nth_error firstn] in *.
    + inversion H; subst r. cbn [filter List.length].
      change (Z.of_nat 0) with 0. rewrite Z.mul_0_r, Z.add_0_r.
      destruct (nonzero_length road).
      * destruct Hlines as (vs & -> & Hl & Hv). exists vs. auto.
      * rewrite Hlines. reflexivity.
    + specialize (Hnth j r H). cbn [filter].
      destruct (nonzero_length r).
      * destruct Hnth as (vs & E & Hl & Hv).
        exists vs. split; [|split; assumption].
        rewrite E. do 4 f_equal.
        destruct (nonzero_length road); cbn [List.length]; lia.
      * exact Hnth.
Qed.

(** C6: the export of a complete city raises nothing, and the file it has
    written reads: the header, then one block per building, then one block
    per road.  The block of the k-th building is eight vertex lines followed
    by the six faces of a box on the vertices numbered from [1 + 8 k], the
    eight just written.  The block of a road of nonzero length is four vertex
    lines followed by one face on the vertices numbered from 1 plus the
    number of vertex lines written before the block, the four just written;
    the block of a road whose ends coincide is empty.  So the file holds 8
    vertex lines and 6 face lines per building, 4 vertex lines and 1 face
    line per road of nonzero length, and every index of a face line is at
    least 1 and at most the number of vertex lines above it. *)
Theorem mesh_export_counts (city : CityGenerator) (filename : string)
  (fs : FileSystem) :
  generation_complete city = true ->
  let nb := Z.of_nat (List.length (buildings city)) in
  let nr := Z.of_nat (List.length (filter nonzero_length
                                          (roads (road_network city)))) in
  exists blocks_b blocks_r : list (list ObjLine),
    let out_b := List.concat blocks_b in
    let out_r := List.concat blocks_r in
    let lines := (obj_header ++ out_b) ++ out_r in
    fst (export_to_obj city filename fs) = Ok tt
    /\ snd (export_to_obj city filename fs) filename = Some (ObjFile lines)
    /\ (forall n, n <> filename ->
          snd (export_to_obj city filename fs) n = fs n)
    /\ List.length blocks_b = List.length (buildings city)
    /\ (forall (k : nat) (b : Building),
          nth_error (buildings city) k = Some b ->
          exists vs,
            nth_error blocks_b k
            = Some (vs ++ box_faces (1 + 8 * Z.of_nat k))
            /\ List.length vs = 8%nat
            /\ forallb is_vertex vs = true)
    /\ List.length blocks_r = List.length (roads (road_network city))
    /\ (forall (j : nat) (road : Road),
          nth_error (roads (road_network city)) j = Some road ->
          if nonzero_length road
          then exists vs,
                 nth_error blocks_r j
                 = Some (vs ++ [ribbon_face
                                  (1 + 8 * nb
                                   + 4 * Z.of_nat
                                           (List.length
                                              (filter nonzero_length
                                                 (firstn j
                                                    (roads
                                                       (road_network
                                                          city))))))])
                 /\ List.length vs = 4%nat
                 /\ forallb is_vertex vs = true
          else nth_error blocks_r j = Some [])
    /\ export_buildings (buildings city) (1, obj_header)
       = (1 + 8 * nb, obj_header ++ out_b)
    /\ export_roads (roads (road_network city))
                    (1 + 8 * nb, obj_header ++ out_b)
       = (None, (1 + 8 * nb + 4 * nr, lines))
    /\ count_vertices out_b = 8 * nb /\ count_faces out_b = 6 * nb
    /\ count_vertices out_r = 4 * nr /\ count_faces out_r = nr
    /\ count_vertices lines = 8 * nb + 4 * nr
    /\ count_faces lines = 6 * nb + nr
    /\ faces_valid 0 lines.
Proof.
  intros Hc nb nr.
  destruct (export_buildings_blocks (buildings city) 1 obj_header)
    as (blocks_b & Hb & Hlb & Hnb).
  destruct (export_roads_blocks (roads (road_network city))
              (1 + 8 * nb) (obj_header ++ List.concat blocks_b))
    as (blocks_r & Hr & Hlr & Hnr).
  destruct (export_buildings_spec (buildings city) 1 obj_header)
    as (out_b & Hb' & Hbv & Hbf & Hbvalid).
  destruct (export_roads_spec (roads (road_network city))
              (1 + 8 * nb) (obj_header ++ out_b))
    as (out_r & Hr' & Hrv & Hrf & Hrvalid).
  fold nb in Hb, Hb', Hbv, Hbf. fold nr in Hr, Hr', Hrv, Hrf.
  assert (Eb : out_b = List.concat blocks_b).
  { assert (E : obj_header ++ out_b = obj_header ++ List.concat blocks_b)
      by congruence.
    exact (app_inv_head _ _ _ E). }
  subst out_b.
  assert (Er : out_r = List.concat blocks_r).
  { assert (E : (obj_header ++ List.concat blocks_b) ++ out_r
                = (obj_header ++ List.concat blocks_b)
                  ++ List.concat blocks_r)
      by congruence.
    exact (app_inv_head _ _ _ E). }
  subst out_r.
  assert (He : export_to_obj city filename fs
               = (Ok tt,
                  fs_write filename
                    (ObjFile ((obj_header ++ List.concat blocks_b)
                              ++ List.concat blocks_r)) fs)).
  { unfold export_to_obj. rewrite Hc. cbn [negb]. rewrite Hb, Hr.
    reflexivity. }
  exists blocks_b, blocks_r. cbv zeta. rewrite He. cbn [fst snd].
  split; [reflexivity|].
  split; [apply fs_write_at|]. split; [apply fs_write_other|].
  split; [exact Hlb|]. split; [exact Hnb|].
  split; [exact Hlr|]. split; [exact Hnr|].
  split; [exact Hb|]. split; [exact Hr|].
  split; [exact Hbv|]. split; [exact Hbf|].
  split; [exact Hrv|]. split; [exact Hrf|].
  rewrite !count_vertices_app, !count_faces_app, Hbv, Hbf, Hrv, Hrf.
  replace (count_vertices obj_header) with 0 by reflexivity.
  replace (count_faces obj_header) with 0 by reflexivity.
  split; [lia|]. split; [lia|].
  apply faces_valid_app.
  - apply faces_valid_app; [simpl; exact I|].
    replace (0 + count_vertices obj_header) with (1 - 1) by reflexivity.
    apply Hbvalid. lia.
  - rewrite count_vertices_app, Hbv.
    replace (count_vertices obj_header) with 0 by reflexivity.
    replace (0 + (0 + 8 * nb)) with (1 + 8 * nb - 1) by lia.
    apply Hrvalid. lia.
Qed.

(** The village has one building and two roads of nonzero length: the file
    holds 16 vertex lines and 8 face lines; the faces of the building are on
    the vertices 1 to 8, the face of the first road on 9 to 12 and the face
    of the second on 13 to 16. *)
Lemma mesh_export_counts_witness :
  exists city rng',
    generate_city true true squared_distance village_seeds village_cfg rng0
    = Ok (city, rng')
    /\ generation_complete city = true
    /\ List.length (buildings city) = 1%nat
    /\ List.length (filter nonzero_length (roads (road_network city))) = 2%nat
    /\ exists lines,
         fst (export_to_obj city "city.obj" (fun _ => None)) = Ok tt
         /\ snd (export_to_obj city "city.obj" (fun _ => None))
                "city.obj"%string
            = Some (ObjFile lines)
         /\ filter is_face lines
            = box_faces 1 ++ [ribbon_face 9; ribbon_face 13]
         /\ count_vertices lines = 8 * 1 + 4 * 2
         /\ count_faces lines = 6 * 1 + 2
         /\ faces_valid 0 lines.
Proof.
  eexists. eexists. split; [vm_compute; reflexivity|].
  split; [reflexivity|]. split; [reflexivity|]. split; [reflexivity|].
  match goal with
  | |- context [export_to_obj ?c _ _] =>
    destruct (mesh_export_counts c "city.obj" (fun _ => None) eq_refl)
      as (blocks_b & blocks_r & Hok & Hfile & _ & _ & _ & _ & _ & _ & _
          & _ & _ & _ & _ & Hv & Hf & Hvalid)
  end.
  cbv zeta in Hfile, Hv, Hf, Hvalid.
  exists ((obj_header ++ List.concat blocks_b) ++ List.concat blocks_r).
  split; [exact Hok|]. split; [exact Hfile|].
  split; [|split; [exact Hv|split; [exact Hf | exact Hvalid]]].
  pose proof Hfile as Hcomp.
  match type of Hcomp with
  | ?lhs = _ =>
    let v := eval vm_compute in lhs in change lhs with v in Hcomp
  end.
  match type of Hcomp with
  | Some (ObjFile ?l) = Some (ObjFile ?e) =>
    assert (E : e = l) by congruence
  end.
  rewrite E. reflexivity.
Defined.

(** C7: in the export of a complete city, a road whose start is its end adds
    no line and leaves the counter as it was, so the file is the one written
    without that road; the export raises nothing, in particular no
    ZeroDivisionError. *)
Theorem zero_length_road_skipped (city : CityGenerator) (filename : string)
  (fs : FileSystem) (before after : list Road) (road : Road) :
  generation_complete city = true ->
  roads (road_network city) = before ++ road :: after ->
  r_start road = r_end road ->
  (forall vertex_count, export_road road vertex_count = Ok ([], vertex_count))
  /\ (forall st, export_roads (before ++ road :: after) st
                 = export_roads (before ++ after) st)
  /\ fst (export_to_obj city filename fs) = Ok tt.
Proof.
  intros Hc Hroads Hzero.
  assert (Hnz : nonzero_length road = false).
  { unfold nonzero_length. rewrite Hzero.
    replace (cell_eqb (r_end road) (r_end road)) with true; [reflexivity|].
    symmetry. apply cell_eqb_eq. reflexivity. }
  assert (Hstep : forall vc, export_road road vc = Ok ([], vc)).
  { intros vc.
    destruct (export_road_spec road vc) as (lines & Hr & _ & _ & Hnil & _).
    rewrite Hr, Hnz, (Hnil Hnz), Z.add_0_r. reflexivity. }
  split; [exact Hstep|]. split.
  - intros st. rewrite !export_roads_app.
    destruct (export_roads before st) as [[e|] st']; [reflexivity|].
    cbn [export_roads]. rewrite Hstep. cbn [fst snd].
    rewrite app_nil_r. destruct st'; reflexivity.
  - destruct (export_to_obj_ok city filename fs Hc) as (out & He).
    rewrite He. reflexivity.
Qed.

Lemma zero_length_road_skipped_witness :
  exists city rng',
    generate_city true true squared_distance strip_seeds strip_cfg rng0
    = Ok (city, rng')
    /\ roads (road_network city)
       = [] ++ new_Road (0, 0) (0, 0) 20 "main"
            :: [new_Road (0, 0) (2, 0) 20 "main"]
    /\ (forall vertex_count,
          export_road (new_Road (0, 0) (0, 0) 20 "main") vertex_count
          = Ok ([], vertex_count))
    /\ (forall st,
          export_roads ([] ++ new_Road (0, 0) (0, 0) 20 "main"
                           :: [new_Road (0, 0) (2, 0) 20 "main"]) st
          = export_roads ([] ++ [new_Road (0, 0) (2, 0) 20 "main"]) st)
    /\ fst (export_to_obj city "city.obj" (fun _ => None)) = Ok tt.
Proof.
  eexists. eexists. split; [vm_compute; reflexivity|].
  split; [reflexivity|].
  refine (zero_length_road_skipped _ "city.obj" (fun _ => None) [] _ _ _ _ _);
    reflexivity.
Defined.

(** ** C4 and C10: the buildings of a generated city *)

Lemma bind_Ok {A B : Type} (m : M A) (k : A -> M B) (r r' : Rng) (b : B) :
  bind m k r = Ok (b, r') ->
  exists a r1, m r = Ok (a, r1) /\ k a r1 = Ok (b, r').
Proof.
  unfold bind. destruct (m r) as [[a r1]|e]; [|discriminate].
  intros H. exists a, r1. auto.
Qed.

Lemma lift_Ok {A : Type} (m : result A) (r r' : Rng) (a : A) :
  lift m r = Ok (a, r') -> m = Ok a /\ r' = r.
Proof.
  unfold lift. destruct m; [|discriminate].
  intros H. inversion H. auto.
Qed.

Lemma ret_Ok {A : Type} (a b : A) (r r' : Rng) :
  ret a r = Ok (b, r') -> b = a /\ r' = r.
Proof.
  unfold ret. intros H. inversion H. auto.
Qed.

Lemma mfold_inv {S A : Type} (I : S -> Prop) (l : list A)
  (body : A -> S -> M S) :
  (forall a s r s' r', In a l -> body a s r = Ok (s', r') -> I s -> I s') ->
  forall s r s' r', mfold l body s r = Ok (s', r') -> I s -> I s'.
Proof.
  induction l as [|a l IH]; intros Hbody s r s' r' H Hs; simpl in H.
  - apply ret_Ok in H. destruct H as [-> _]. exact Hs.
  - apply bind_Ok in H. destruct H as (s1 & r1 & H1 & H2).
    apply (IH (fun a' s0 r0 s0' r0' Ha' => Hbody a' s0 r0 s0' r0' (or_intror Ha'))
              s1 r1 s' r' H2).
    apply (Hbody a s r s1 r1 (or_introl eq_refl) H1 Hs).
Qed.

Lemma any_offset_false (test : Z * Z -> result bool) (l : list (Z * Z)) :
  any_offset test l = Ok false -> forall o, In o l -> test o = Ok false.
Proof.
  induction l as [|o' l IH]; simpl; intros H o Ho; [destruct Ho|].
  destruct (test o') as [[|]|e] eqn:E; simpl in H; try discriminate.
  destruct Ho as [<-|Ho]; [exact E | apply IH; assumption].
Qed.

Lemma offsets_In (w h dx dy : Z) :
  0 <= dx < w -> 0 <= dy < h -> In (dx, dy) (offsets 0 w 0 h).
Proof.
  intros Hx Hy. unfold offsets. apply in_flat_map.
  exists dx. split; [apply py_range_unit_In; exact Hx|].
  apply in_map. apply py_range_unit_In. exact Hy.
Qed.

(** A candidate is accepted only when no cell under [size] is a road. *)
Lemma can_place_building_clear (cfg : CityConfig) (net : RoadNetwork)
  (x y : Z) (size : Z * Z) :
  can_place_building cfg net x y size = Ok true ->
  forall dx dy, 0 <= dx < fst size -> 0 <= dy < snd size ->
    is_road cfg net (x + dx) (y + dy) = Ok false.
Proof.
  unfold can_place_building. intros H dx dy Hx Hy.
  destruct (any_offset (fun o => is_road cfg net (x + fst o) (y + snd o))
                       (offsets 0 (fst size) 0 (snd size)))
    as [[|]|e] eqn:E; simpl in H; try discriminate.
  apply (any_offset_false _ _ E (dx, dy)).
  apply offsets_In; assumption.
Qed.

Lemma randint_range (numpy : bool) (lo hi v : Z) (r r' : Rng) :
  randint numpy lo hi r = Ok (v, r') -> lo <= v <= hi.
Proof.
  unfold randint. destruct (hi <? lo) eqn:E.
  - intros H. apply lift_Ok in H. destruct H as [H _]. discriminate H.
  - apply Z.ltb_ge in E. intros H.
    destruct (numpy && _);
      [apply lift_Ok in H; destruct H as [H _]; discriminate H|].
    apply bind_Ok in H. destruct H as (d & r1 & _ & H).
    apply ret_Ok in H. destruct H as [-> _].
    pose proof (Z.mod_pos_bound d (hi - lo + 1)). lia.
Qed.

Lemma random_nonneg_range (e : Q) (r r' : Rng) :
  random_nonneg r = Ok (e, r') -> (0 <= e)%Q.
Proof.
  unfold random_nonneg. intros H.
  apply bind_Ok in H. destruct H as (a & r1 & _ & H).
  apply bind_Ok in H. destruct H as (b & r2 & _ & H).
  apply ret_Ok in H. destruct H as [-> _].
  unfold Qle. simpl. lia.
Qed.

Lemma Qfloor_nonneg (q : Q) : (0 <= q)%Q -> 0 <= Qfloor q.
Proof.
  intros H. change 0 with (Qfloor 0). apply Qfloor_resp_le. exact H.
Qed.

(** Every branch of the floor sampler yields at least [min_floors], which is
    at least 1. *)
Lemma generate_building_floors_min (numpy : bool) (cfg : CityConfig)
  (t : ZoneType) (fl : Z) (r r' : Rng) :
  generate_building_floors numpy cfg t r = Ok (fl, r') ->
  1 <= min_floors cfg t <= fl.
Proof.
  unfold generate_building_floors, min_floors.
  set (lo := Z.max 1 (Qfloor (inject_Z (min_building_height cfg t) / (7 # 2)))).
  set (hi := Z.max lo (Qfloor (inject_Z (max_building_height cfg t) / (7 # 2)))).
  assert (Hlo : 1 <= lo) by (unfold lo; lia).
  assert (Hhi : lo <= hi) by (unfold hi; lia).
  intros H.
  destruct t;
    try (apply randint_range in H; lia).
  apply bind_Ok in H. destruct H as (e & r1 & He & H).
  apply random_nonneg_range in He.
  destruct numpy; apply ret_Ok in H; destruct H as [-> _].
  - pose proof (Qfloor_nonneg e He). lia.
  - assert (0 <= Qfloor (e * inject_Z hi)).
    { apply Qfloor_nonneg. apply Qmult_le_0_compat; [exact He|].
      unfold Qle. simpl. lia. }
    lia.
Qed.

Lemma place_candidate_inv (numpy : bool) (cfg : CityConfig)
  (net : RoadNetwork) (x y : Z) (st st' : list Building * Zone) (r r' : Rng) :
  place_candidate numpy cfg net x y st r = Ok (st', r') ->
  Forall (building_ok cfg net) (fst st) ->
  Forall (building_ok cfg net) (fst st').
Proof.
  destruct st as [bs zone]. unfold place_candidate. intros H Hbs.
  apply bind_Ok in H. destruct H as (ok & r1 & Hplace & H).
  apply lift_Ok in Hplace. destruct Hplace as [Hplace _].
  destruct ok; [|apply ret_Ok in H; destruct H as [-> _]; exact Hbs].
  apply bind_Ok in H. destruct H as (w & r2 & _ & H).
  apply bind_Ok in H. destruct H as (h & r3 & _ & H).
  apply bind_Ok in H. destruct H as (fl & r4 & Hfl & H).
  apply bind_Ok in H. destruct H as (u & r5 & _ & H).
  apply generate_building_floors_min in Hfl.
  destruct (Qltb u (density zone));
    apply ret_Ok in H; destruct H as [-> _]; [|exact Hbs].
  simpl. apply Forall_app. split; [exact Hbs|].
  constructor; [|constructor].
  split; [|split; [exact Hfl | reflexivity]].
  simpl. intros dx dy Hdx Hdy.
  apply (can_place_building_clear cfg net x y _ Hplace); assumption.
Qed.

Lemma generate_zone_buildings_inv (numpy : bool) (cfg : CityConfig)
  (net : RoadNetwork) (st st' : list Building * Zone) (r r' : Rng) :
  generate_zone_buildings numpy cfg net st r = Ok (st', r') ->
  Forall (building_ok cfg net) (fst st) ->
  Forall (building_ok cfg net) (fst st').
Proof.
  unfold generate_zone_buildings. intros H Hst.
  assert (Hloop : forall ys xs,
             mfold ys
               (fun y st0 =>
                  mfold xs (fun x st1 => place_candidate numpy cfg net x y st1)
                        st0) st r = Ok (st', r') ->
             Forall (building_ok cfg net) (fst st')).
  { intros ys xs Hm.
    apply (mfold_inv (fun s => Forall (building_ok cfg net) (fst s)) ys _
             (fun y s0 r0 s0' r0' _ Hy =>
                mfold_inv (fun s => Forall (building_ok cfg net) (fst s)) xs _
                  (fun x s1 r1 s1' r1' _ Hx =>
                     place_candidate_inv numpy cfg net x y s1 s1' r1 r1' Hx)
                  s0 r0 s0' r0' Hy)
             st r st' r' Hm Hst). }
  destruct (zone_type (snd st));
    try (eapply Hloop; exact H).
  apply ret_Ok in H. destruct H as [-> _]. exact Hst.
Qed.

Lemma generate_buildings_inv (numpy : bool) (cfg : CityConfig)
  (net : RoadNetwork) :
  forall (todo : list Zone) (bs : list Building)
         (out : list Building * list Zone) (r r' : Rng),
    generate_buildings numpy cfg net todo bs r = Ok (out, r') ->
    Forall (building_ok cfg net) bs ->
    Forall (building_ok cfg net) (fst out).
Proof.
  induction todo as [|zone rest IH]; intros bs out r r' H Hbs; simpl in H.
  - apply ret_Ok in H. destruct H as [-> _]. exact Hbs.
  - apply bind_Ok in H. destruct H as (st & r1 & Hz & H).
    apply bind_Ok in H. destruct H as (out1 & r2 & Hrest & H).
    apply ret_Ok in H. destruct H as [-> _]. simpl.
    apply (IH (fst st) out1 r1 r2 Hrest).
    apply (generate_zone_buildings_inv numpy cfg net (bs, zone) st r r1 Hz Hbs).
Qed.

(** Every building of a generated city was accepted by the placement
    test and built by [Building.__init__]. *)
Lemma generated_buildings_ok (numpy noise : bool) (md : Z -> Z -> Seed -> fval)
  (seeds : list (Z * Seed)) (cfg : CityConfig) (rng rng' : Rng)
  (city : CityGenerator) :
  generate_city numpy noise md seeds cfg rng = Ok (city, rng') ->
  Forall (building_ok cfg (road_network city)) (buildings city).
Proof.
  intros H. apply generate_city_inv in H.
  destruct H as (zs & net & out & _ & _ & Hb & ->). simpl.
  apply (generate_buildings_inv numpy cfg net zs [] out rng rng' Hb).
  constructor.
Qed.

(** C4: in a generated city, no cell under the minimum footprint of a placed
    building (the minimum width x height rectangle of its zone type, anchored
    at the building's origin) is a cell for which [is_road] is true: the
    query answers [False] on each of them. *)
Theorem placed_buildings_clear_of_roads (numpy noise : bool)
  (md : Z -> Z -> Seed -> fval) (seeds : list (Z * Seed)) (cfg : CityConfig)
  (rng rng' : Rng) (city : CityGenerator) :
  valid_config cfg ->
  generate_city numpy noise md seeds cfg rng = Ok (city, rng') ->
  forall b, In b (buildings city) ->
    forall dx dy,
      0 <= dx < fst (get_min_building_size (b_zone_type b)) ->
      0 <= dy < snd (get_min_building_size (b_zone_type b)) ->
      is_road cfg (road_network city) (b_x b + dx) (b_y b + dy) = Ok false.
Proof.
  intros _ H b Hb.
  pose proof (generated_buildings_ok numpy noise md seeds cfg rng rng' city H) as Hall.
  rewrite Forall_forall in Hall. apply (Hall b Hb).
Qed.

Lemma placed_buildings_clear_of_roads_witness :
  valid_config village_cfg /\
  exists city rng',
    generate_city true true squared_distance village_seeds village_cfg rng0
    = Ok (city, rng')
    /\ buildings city = [new_Building 5 5 8 10 1 RESIDENTIAL]
    /\ forall b, In b (buildings city) ->
         forall dx dy,
           0 <= dx < fst (get_min_building_size (b_zone_type b)) ->
           0 <= dy < snd (get_min_building_size (b_zone_type b)) ->
           is_road village_cfg (road_network city) (b_x b + dx) (b_y b + dy)
           = Ok false.
Proof.
  assert (Hc : valid_config village_cfg) by (unfold valid_config; simpl; lia).
  split; [exact Hc|].
  eexists. eexists. split; [vm_compute; reflexivity|].
  split; [reflexivity|].
  eapply (placed_buildings_clear_of_roads true true squared_distance village_seeds
            village_cfg rng0); [exact Hc | vm_compute; reflexivity].
Defined.

(** C10: every building of a generated city has at least [min_floors] floors
    for its type, hence at least one floor, and its height, the floor count
    times 3.5, is at least 3.5. *)
Theorem placed_buildings_have_a_floor (numpy noise : bool)
  (md : Z -> Z -> Seed -> fval) (seeds : list (Z * Seed)) (cfg : CityConfig)
  (rng rng' : Rng) (city : CityGenerator) :
  valid_config cfg ->
  generate_city numpy noise md seeds cfg rng = Ok (city, rng') ->
  forall b, In b (buildings city) ->
    1 <= min_floors cfg (b_zone_type b) <= floors b
    /\ building_height b = (inject_Z (floors b) * (7 # 2))%Q
    /\ (7 # 2 <= building_height b)%Q.
Proof.
  intros _ H b Hb.
  pose proof (generated_buildings_ok numpy noise md seeds cfg rng rng' city H) as Hall.
  rewrite Forall_forall in Hall.
  destruct (Hall b Hb) as (_ & Hfl & Hh).
  split; [exact Hfl|]. split; [exact Hh|].
  rewrite Hh. unfold Qle. simpl. lia.
Qed.

Lemma placed_buildings_have_a_floor_witness :
  valid_config village_cfg /\
  exists city rng',
    generate_city false false squared_distance village_seeds village_cfg rng0
    = Ok (city, rng')
    /\ buildings city = [new_Building 5 5 8 10 1 RESIDENTIAL]
    /\ forall b, In b (buildings city) ->
         1 <= min_floors village_cfg (b_zone_type b) <= floors b
         /\ building_height b = (inject_Z (floors b) * (7 # 2))%Q
         /\ (7 # 2 <= building_height b)%Q.
Proof.
  assert (Hc : valid_config village_cfg) by (unfold valid_config; simpl; lia).
  split; [exact Hc|].
  eexists. eexists. split; [vm_compute; reflexivity|].
  split; [reflexivity|].
  eapply (placed_buildings_have_a_floor false false squared_distance village_seeds
            village_cfg rng0); [exact Hc | vm_compute; reflexivity].
Defined.

(** ** The stamp of a road point *)

Lemma py_index_nonneg {A : Type} (l : list A) (i : Z) :
  0 <= i -> py_index l i = nth_error l (Z.to_nat i).
Proof.
  intros H. unfold py_index.
  destruct (i <? 0) eqn:E; [apply Z.ltb_lt in E; lia|].
  destruct ((0 <=? i) && (i <? Z.of_nat (List.length l))) eqn:Eb;
    [reflexivity|].
  symmetry. apply nth_error_None.
  apply andb_false_iff in Eb. destruct Eb as [Eb|Eb];
    [apply Z.leb_gt in Eb | apply Z.ltb_ge in Eb]; lia.
Qed.

Lemma list_set_nth_error {A : Type} (l : list A) (n m : nat) (v : A) :
  (n < List.length l)%nat ->
  nth_error (list_set l n v) m
  = if Nat.eqb m n then Some v else nth_error l m.
Proof.
  revert n m. induction l as [|h t IH]; intros n m Hn; simpl in Hn; [lia|].
  destruct n as [|n], m as [|m]; simpl; try reflexivity.
  apply IH. lia.
Qed.

(** A write in range changes the cell written and no other. *)
Lemma grid_set_value (cfg : CityConfig) (g : list (list bool)) (x y : Z)
  (v : bool) (q : cell) :
  grid_shape cfg g ->
  in_bounds cfg (x, y) = true -> in_bounds cfg q = true ->
  grid_value (grid_set g y x v) q
  = if cell_eqb q (x, y) then v else grid_value g q.
Proof.
  intros [Hl Hr] Hxy Hq. destruct q as [qx qy].
  unfold in_bounds in Hxy, Hq. simpl in Hxy, Hq.
  rewrite !andb_true_iff, !Z.leb_le, !Z.ltb_lt in Hxy, Hq.
  unfold grid_value, grid_get, grid_set, cell_eqb. simpl.
  rewrite !py_index_nonneg by lia.
  destruct (nth_error g (Z.to_nat y)) as [row|] eqn:Erow.
  2:{ apply nth_error_None in Erow. lia. }
  rewrite list_set_nth_error by lia.
  assert (Hrow : List.length row = Z.to_nat (cfg_width cfg)).
  { rewrite Forall_forall in Hr. apply Hr. eapply nth_error_In; eauto. }
  destruct (Nat.eqb_spec (Z.to_nat qy) (Z.to_nat y)) as [Ey|Ey].
  - assert (qy = y) by lia. subst qy. rewrite Z.eqb_refl, andb_true_r.
    rewrite py_index_nonneg by lia.
    rewrite list_set_nth_error by lia.
    destruct (Nat.eqb_spec (Z.to_nat qx) (Z.to_nat x)) as [Ex|Ex].
    + assert (qx = x) by lia. subst qx. rewrite Z.eqb_refl. reflexivity.
    + destruct (Z.eqb_spec qx x); [lia|].
      rewrite Erow, py_index_nonneg by lia. reflexivity.
  - destruct (Z.eqb_spec qy y); [lia|]. rewrite andb_false_r. reflexivity.
Qed.

(** A loop whose body sets cells: the cells set are those some iteration
    hits. *)
Lemma for_each_marks {A : Type} (cfg : CityConfig) (hit : A -> cell -> bool)
  (body : A -> list (list bool) -> list (list bool)) (l : list A) :
  (forall a g, grid_shape cfg g ->
     grid_shape cfg (body a g)
     /\ forall q, in_bounds cfg q = true ->
          grid_value (body a g) q = grid_value g q || hit a q) ->
  forall g, grid_shape cfg g ->
    grid_shape cfg (for_each l body g)
    /\ forall q, in_bounds cfg q = true ->
         grid_value (for_each l body g) q
         = grid_value g q || existsb (fun a => hit a q) l.
Proof.
  intros Hbody. unfold for_each.
  induction l as [|a l IH]; intros g Hg; simpl.
  - split; [exact Hg|]. intros q _. rewrite orb_false_r. reflexivity.
  - destruct (Hbody a g Hg) as [Hs Hv].
    destruct (IH (body a g) Hs) as [Hs' Hv'].
    split; [exact Hs'|]. intros q Hq.
    rewrite (Hv' q Hq), (Hv q Hq), orb_assoc. reflexivity.
Qed.

Lemma py_range_step1_In (a b e : Z) : a <= e < b -> In e (py_range a b 1).
Proof.
  intros H. unfold py_range. simpl. apply in_map_iff.
  exists (Z.to_nat (e - a)). split; [lia|].
  apply in_seq. rewrite Z.div_1_r. lia.
Qed.

(** [_mark_road_point] keeps the shape of the grid, sets the cells of the
    stamp that lie in the plane and leaves every other cell as it was. *)
Lemma mark_road_point_value (cfg : CityConfig) (x y : Z) (width : Q)
  (g : list (list bool)) :
  grid_shape cfg g ->
  forall q, in_bounds cfg q = true ->
    grid_value (mark_road_point cfg x y width g) q
    = grid_value g q || in_stamp x y width q.
Proof.
  intros Hg q Hq. unfold mark_road_point.
  set (hw := Qfloor (width / 2)).
  pose (hit_dy := fun (dx dy : Z) (c : cell) =>
                    in_bounds cfg (x + dx, y + dy)
                    && cell_eqb c (x + dx, y + dy)).
  pose (hit_dx := fun (dx : Z) (c : cell) =>
                    existsb (fun dy => hit_dy dx dy c)
                            (py_range (- hw) (hw + 1) 1)).
  assert (Hinner : forall dx g0, grid_shape cfg g0 ->
            grid_shape cfg
              (for_each (py_range (- hw) (hw + 1) 1)
                 (fun dy g1 =>
                    if (0 <=? x + dx) && (x + dx <? cfg_width cfg)
                       && (0 <=? y + dy) && (y + dy <? cfg_height cfg)
                    then grid_set g1 (y + dy) (x + dx) true else g1) g0)
            /\ forall c, in_bounds cfg c = true ->
                 grid_value
                   (for_each (py_range (- hw) (hw + 1) 1)
                      (fun dy g1 =>
                         if (0 <=? x + dx) && (x + dx <? cfg_width cfg)
                            && (0 <=? y + dy) && (y + dy <? cfg_height cfg)
                         then grid_set g1 (y + dy) (x + dx) true else g1) g0) c
                 = grid_value g0 c || hit_dx dx c).
  { intros dx g0 Hg0.
    apply (for_each_marks cfg (hit_dy dx)); [|exact Hg0].
    intros dy g1 Hg1. unfold hit_dy.
    change ((0 <=? x + dx) && (x + dx <? cfg_width cfg)
            && (0 <=? y + dy) && (y + dy <? cfg_height cfg))
      with (in_bounds cfg (x + dx, y + dy)).
    destruct (in_bounds cfg (x + dx, y + dy)) eqn:Eb.
    - split; [apply grid_set_shape; exact Hg1|].
      intros c Hc. rewrite (grid_set_value cfg g1 _ _ true c Hg1 Eb Hc).
      simpl. destruct (cell_eqb c (x + dx, y + dy));
        [rewrite orb_true_r | rewrite orb_false_r]; reflexivity.
    - split; [exact Hg1|]. intros c _. simpl.
      rewrite orb_false_r. reflexivity. }
  destruct (for_each_marks cfg hit_dx _ (py_range (- hw) (hw + 1) 1)
              Hinner g Hg) as [_ Hv].
  rewrite (Hv q Hq). f_equal.
  (* the cells hit are those of the stamp *)
  unfold hit_dx, hit_dy, in_stamp. fold hw. destruct q as [qx qy].
  unfold cell_eqb. cbn [fst snd].
  destruct ((Z.abs (qx - x) <=? hw) && (Z.abs (qy - y) <=? hw)) eqn:E.
  - apply andb_true_iff in E. destruct E as [E1 E2].
    apply Z.leb_le in E1, E2.
    apply existsb_exists. exists (qx - x).
    split; [apply py_range_step1_In; lia|].
    apply existsb_exists. exists (qy - y).
    split; [apply py_range_step1_In; lia|].
    replace (x + (qx - x)) with qx by lia.
    replace (y + (qy - y)) with qy by lia.
    rewrite Hq, !Z.eqb_refl. reflexivity.
  - match goal with |- ?lhs = false => destruct lhs eqn:Ex end; [|reflexivity].
    apply existsb_exists in Ex. destruct Ex as [dx [Hdx Ex]].
    apply existsb_exists in Ex. destruct Ex as [dy [Hdy Ex]].
    apply py_range_In in Hdx, Hdy.
    apply andb_true_iff in Ex. destruct Ex as [_ Ex].
    apply andb_true_iff in Ex. destruct Ex as [Ex Ey].
    apply Z.eqb_eq in Ex, Ey.
    apply andb_false_iff in E. destruct E as [E|E]; apply Z.leb_gt in E; lia.
Qed.

(** ** The line rasterizer *)

(** The error term is a half-integer: [2 * err == e2]. *)
Lemma half_step (err : Q) (e2 d : Z) :
  (2 * err == inject_Z e2)%Q ->
  (2 * (err - inject_Z d) == inject_Z (e2 - 2 * d))%Q.
Proof.
  intros H. unfold Z.sub.
  rewrite inject_Z_plus, inject_Z_opp, inject_Z_mult.
  change (inject_Z 2) with 2%Q. lra.
Qed.

Lemma half_back (err : Q) (e2 d : Z) :
  (2 * err == inject_Z e2)%Q ->
  (2 * (err + inject_Z d) == inject_Z (e2 + 2 * d))%Q.
Proof.
  intros H. rewrite inject_Z_plus, inject_Z_mult.
  change (inject_Z 2) with 2%Q. lra.
Qed.

Lemma half_start (d : Z) : (2 * (inject_Z d / 2) == inject_Z d)%Q.
Proof. field. Qed.

Lemma half_negative (err : Q) (e2 : Z) :
  (2 * err == inject_Z e2)%Q -> Qltb err 0 = (e2 <? 0).
Proof.
  intros H. unfold Qltb.
  destruct (e2 <? 0) eqn:E.
  - apply Z.ltb_lt in E. apply negb_true_iff.
    destruct (Qle_bool 0 err) eqn:Eq; [|reflexivity].
    apply Qle_bool_iff in Eq.
    assert (Hq : (inject_Z e2 < inject_Z 0)%Q) by (rewrite <- Zlt_Qlt; exact E).
    change (inject_Z 0) with 0%Q in Hq. lra.
  - apply Z.ltb_ge in E. apply negb_false_iff. apply Qle_bool_iff.
    assert (Hq : (inject_Z 0 <= inject_Z e2)%Q) by (rewrite <- Zle_Qle; exact E).
    change (inject_Z 0) with 0%Q in Hq. lra.
Qed.

Lemma grid_le_refl (cfg : CityConfig) (g : list (list bool)) : grid_le cfg g g.
Proof. intros q _ H. exact H. Qed.

Lemma grid_le_trans (cfg : CityConfig) (a b c : list (list bool)) :
  grid_le cfg a b -> grid_le cfg b c -> grid_le cfg a c.
Proof. intros H1 H2 q Hq H. apply (H2 q Hq). apply (H1 q Hq). exact H. Qed.

Lemma mark_road_point_le (cfg : CityConfig) (x y : Z) (width : Q)
  (g : list (list bool)) :
  grid_shape cfg g -> grid_le cfg g (mark_road_point cfg x y width g).
Proof.
  intros Hg q Hq H. rewrite (mark_road_point_value cfg x y width g Hg q Hq), H.
  reflexivity.
Qed.

(** A point marked with a non-negative width is set, when in the plane. *)
Lemma mark_road_point_center (cfg : CityConfig) (x y : Z) (width : Q)
  (g : list (list bool)) :
  grid_shape cfg g -> (0 <= width)%Q -> in_bounds cfg (x, y) = true ->
  grid_value (mark_road_point cfg x y width g) (x, y) = true.
Proof.
  intros Hg Hw Hb.
  rewrite (mark_road_point_value cfg x y width g Hg (x, y) Hb).
  unfold in_stamp. cbn [fst snd]. rewrite !Z.sub_diag. simpl Z.abs.
  assert (0 <= Qfloor (width / 2)).
  { apply Qfloor_nonneg. apply Qle_shift_div_l; [reflexivity|]. lra. }
  replace (0 <=? Qfloor (width / 2)) with true
    by (symmetry; apply Z.leb_le; assumption).
  apply orb_true_r.
Qed.

Lemma grid_adds_refl (cfg : CityConfig) (P : cell -> Prop)
  (g : list (list bool)) : grid_adds cfg P g g.
Proof. intros q _ H. left. exact H. Qed.

Lemma grid_adds_trans (cfg : CityConfig) (P1 P2 P : cell -> Prop)
  (a b c : list (list bool)) :
  (forall q, P1 q -> P q) -> (forall q, P2 q -> P q) ->
  grid_adds cfg P1 a b -> grid_adds cfg P2 b c -> grid_adds cfg P a c.
Proof.
  intros H1 H2 Hab Hbc q Hq H.
  destruct (Hbc q Hq H) as [Hb|Hp]; [|right; auto].
  destruct (Hab q Hq Hb) as [Ha|Hp]; [left; exact Ha | right; auto].
Qed.

Lemma mark_road_point_adds (cfg : CityConfig) (x y : Z) (width : Q)
  (g : list (list bool)) :
  grid_shape cfg g ->
  grid_adds cfg (fun q => in_stamp x y width q = true) g
            (mark_road_point cfg x y width g).
Proof.
  intros Hg q Hq H.
  rewrite (mark_road_point_value cfg x y width g Hg q Hq) in H.
  apply orb_true_iff in H. exact H.
Qed.

Lemma near_box_point (x y x1 y1 : Z) (width : Q) (q : cell) :
  in_stamp x y width q = true -> near_box x y x1 y1 width q.
Proof. intros H. exists x, y. split; [lia|]. split; [lia | exact H]. Qed.

Lemma near_box_shrink (x y x' y' x1 y1 : Z) (width : Q) (q : cell) :
  Z.min x x1 <= x' <= Z.max x x1 -> Z.min y y1 <= y' <= Z.max y y1 ->
  near_box x' y' x1 y1 width q -> near_box x y x1 y1 width q.
Proof.
  intros Hx Hy (px & py & Hpx & Hpy & H).
  exists px, py. split; [lia|]. split; [lia | exact H].
Qed.

(** The loop on x, [k] steps from its end: it ends at [(x1, y1)], keeps the
    cells set, sets its first point, and sets no cell away from the
    rectangle it crosses. *)
Lemma draw_major_x_end (cfg : CityConfig) (x1 y1 dx dy sx sy : Z) (width : Q) :
  0 <= dy <= dx -> (sx = 1 \/ sx = -1) -> (sy = 1 \/ sy = -1) ->
  forall (fuel : nat) (x y : Z) (err : Q) (g : list (list bool))
         (k r e2 : Z),
    grid_shape cfg g ->
    x1 = x + sx * k -> 0 <= k <= Z.of_nat fuel ->
    y1 = y + sy * r ->
    (2 * err == inject_Z e2)%Q -> 0 <= e2 < 2 * dx ->
    e2 - 2 * k * dy + 2 * r * dx = dx ->
    exists g',
      draw_major_x fuel cfg x1 dx dy sx sy width x y err g = Ok (x1, y1, g')
      /\ grid_shape cfg g' /\ grid_le cfg g g'
      /\ grid_adds cfg (near_box x y x1 y1 width) g g'
      /\ (0 < k -> (0 <= width)%Q -> in_bounds cfg (x, y) = true ->
          grid_value g' (x, y) = true).
Proof.
  intros Hd Hsx Hsy.
  induction fuel as [|fuel IH];
    intros x y err g k r e2 Hg Hx Hk Hy He He2 Hinv; cbn [draw_major_x].
  - assert (k = 0) by lia. subst k.
    assert (r = 0) by nia. subst r.
    replace (x =? x1) with true by (symmetry; apply Z.eqb_eq; lia).
    exists g. replace y1 with y by lia. replace x1 with x by lia.
    split; [reflexivity|]. split; [exact Hg|].
    split; [apply grid_le_refl|]. split; [apply grid_adds_refl | lia].
  - destruct (Z.eqb_spec x x1) as [Ex|Ex].
    + assert (k = 0) by nia. subst k.
      assert (r = 0) by nia. subst r.
      exists g. replace y1 with y by lia. rewrite <- Ex.
      split; [reflexivity|]. split; [exact Hg|].
      split; [apply grid_le_refl|]. split; [apply grid_adds_refl | lia].
    + assert (Hk0 : 0 < k) by (destruct (Z.eq_dec k 0); [subst; lia | lia]).
      pose proof (half_step err e2 dy He) as He'.
      rewrite (half_negative _ _ He').
      pose proof (mark_road_point_shape cfg x y width g Hg) as Hg1.
      pose proof (mark_road_point_le cfg x y width g Hg) as Hle1.
      pose proof (mark_road_point_adds cfg x y width g Hg) as Hadd1.
      destruct (e2 - 2 * dy <? 0) eqn:Eneg.
      * apply Z.ltb_lt in Eneg.
        assert (Hr1 : 1 <= r) by nia.
        destruct (IH (x + sx) (y + sy) (err - inject_Z dy + inject_Z dx)%Q
                    (mark_road_point cfg x y width g) (k - 1) (r - 1)
                    (e2 - 2 * dy + 2 * dx) Hg1)
          as (g' & Hr & Hs & Hle & Hadd & _);
          try (apply half_back; exact He'); try lia; try nia.
        exists g'. split; [exact Hr|]. split; [exact Hs|].
        split; [eapply grid_le_trans; eauto|].
        split.
        { eapply grid_adds_trans; [| |exact Hadd1|exact Hadd].
          - intros q. apply near_box_point.
          - intros q. apply near_box_shrink; nia. }
        intros _ Hw Hb. apply (Hle (x, y) Hb).
        apply mark_road_point_center; assumption.
      * apply Z.ltb_ge in Eneg.
        destruct (IH (x + sx) y (err - inject_Z dy)%Q
                    (mark_road_point cfg x y width g) (k - 1) r
                    (e2 - 2 * dy) Hg1)
          as (g' & Hr & Hs & Hle & Hadd & _);
          try exact He'; try lia; try nia.
        exists g'. split; [exact Hr|]. split; [exact Hs|].
        split; [eapply grid_le_trans; eauto|].
        split.
        { eapply grid_adds_trans; [| |exact Hadd1|exact Hadd].
          - intros q. apply near_box_point.
          - intros q. apply near_box_shrink; nia. }
        intros _ Hw Hb. apply (Hle (x, y) Hb).
        apply mark_road_point_center; assumption.
Qed.

(** The loop on y, with the roles of x and y exchanged. *)
Lemma draw_major_y_end (cfg : CityConfig) (x1 y1 dx dy sx sy : Z) (width : Q) :
  0 <= dx <= dy -> (sx = 1 \/ sx = -1) -> (sy = 1 \/ sy = -1) ->
  forall (fuel : nat) (x y : Z) (err : Q) (g : list (list bool))
         (k r e2 : Z),
    grid_shape cfg g ->
    y1 = y + sy * k -> 0 <= k <= Z.of_nat fuel ->
    x1 = x + sx * r ->
    (2 * err == inject_Z e2)%Q -> 0 <= e2 < 2 * dy ->
    e2 - 2 * k * dx + 2 * r * dy = dy ->
    exists g',
      draw_major_y fuel cfg y1 dx dy sx sy width x y err g = Ok (x1, y1, g')
      /\ grid_shape cfg g' /\ grid_le cfg g g'
      /\ grid_adds cfg (near_box x y x1 y1 width) g g'
      /\ (0 < k -> (0 <= width)%Q -> in_bounds cfg (x, y) = true ->
          grid_value g' (x, y) = true).
Proof.
  intros Hd Hsx Hsy.
  induction fuel as [|fuel IH];
    intros x y err g k r e2 Hg Hy Hk Hx He He2 Hinv; cbn [draw_major_y].
  - assert (k = 0) by lia. subst k.
    assert (r = 0) by nia. subst r.
    replace (y =? y1) with true by (symmetry; apply Z.eqb_eq; lia).
    exists g. replace y1 with y by lia. replace x1 with x by lia.
    split; [reflexivity|]. split; [exact Hg|].
    split; [apply grid_le_refl|]. split; [apply grid_adds_refl | lia].
  - destruct (Z.eqb_spec y y1) as [Ey|Ey].
    + assert (k = 0) by nia. subst k.
      assert (r = 0) by nia. subst r.
      exists g. replace x1 with x by lia. rewrite <- Ey.
      split; [reflexivity|]. split; [exact Hg|].
      split; [apply grid_le_refl|]. split; [apply grid_adds_refl | lia].
    + assert (Hk0 : 0 < k) by (destruct (Z.eq_dec k 0); [subst; lia | lia]).
      pose proof (half_step err e2 dx He) as He'.
      rewrite (half_negative _ _ He').
      pose proof (mark_road_point_shape cfg x y width g Hg) as Hg1.
      pose proof (mark_road_point_le cfg x y width g Hg) as Hle1.
      pose proof (mark_road_point_adds cfg x y width g Hg) as Hadd1.
      destruct (e2 - 2 * dx <? 0) eqn:Eneg.
      * apply Z.ltb_lt in Eneg.
        assert (Hr1 : 1 <= r) by nia.
        destruct (IH (x + sx) (y + sy) (err - inject_Z dx + inject_Z dy)%Q
                    (mark_road_point cfg x y width g) (k - 1) (r - 1)
                    (e2 - 2 * dx + 2 * dy) Hg1)
          as (g' & Hr & Hs & Hle & Hadd & _);
          try (apply half_back; exact He'); try lia; try nia.
        exists g'. split; [exact Hr|]. split; [exact Hs|].
        split; [eapply grid_le_trans; eauto|].
        split.
        { eapply grid_adds_trans; [| |exact Hadd1|exact Hadd].
          - intros q. apply near_box_point.
          - intros q. apply near_box_shrink; nia. }
        intros _ Hw Hb. apply (Hle (x, y) Hb).
        apply mark_road_point_center; assumption.
      * apply Z.ltb_ge in Eneg.
        destruct (IH x (y + sy) (err - inject_Z dx)%Q
                    (mark_road_point cfg x y width g) (k - 1) r
                    (e2 - 2 * dx) Hg1)
          as (g' & Hr & Hs & Hle & Hadd & _);
          try exact He'; try lia; try nia.
        exists g'. split; [exact Hr|]. split; [exact Hs|].
        split; [eapply grid_le_trans; eauto|].
        split.
        { eapply grid_adds_trans; [| |exact Hadd1|exact Hadd].
          - intros q. apply near_box_point.
          - intros q. apply near_box_shrink; nia. }
        intros _ Hw Hb. apply (Hle (x, y) Hb).
        apply mark_road_point_center; assumption.
Qed.

(** ** The line of a road *)

Lemma near_box_end (x y x1 y1 : Z) (width : Q) (q : cell) :
  in_stamp x1 y1 width q = true -> near_box x y x1 y1 width q.
Proof. intros H. exists x1, y1. split; [lia|]. split; [lia | exact H]. Qed.

Lemma draw_line_on_grid_marks (cfg : CityConfig) (start end_ : cell)
  (width : Q) (g : list (list bool)) :
  grid_shape cfg g ->
  exists g',
    draw_line_on_grid cfg start end_ width g = Ok g'
    /\ grid_shape cfg g' /\ grid_le cfg g g'
    /\ grid_adds cfg (near_box (fst start) (snd start) (fst end_) (snd end_)
                               width) g g'
    /\ ((0 <= width)%Q ->
        forall p, p = start \/ p = end_ -> in_bounds cfg p = true ->
          grid_value g' p = true).
Proof.
  intros Hg. destruct start as [x0 y0], end_ as [x1 y1].
  unfold draw_line_on_grid. cbn [fst snd].
  remember (Z.abs (x1 - x0)) as dx eqn:Edx.
  remember (Z.abs (y1 - y0)) as dy eqn:Edy.
  remember (if x0 <? x1 then 1 else -1) as sx eqn:Esx.
  remember (if y0 <? y1 then 1 else -1) as sy eqn:Esy.
  assert (Hsx : sx = 1 \/ sx = -1) by (subst sx; destruct (x0 <? x1); auto).
  assert (Hsy : sy = 1 \/ sy = -1) by (subst sy; destruct (y0 <? y1); auto).
  assert (Hx : x1 = x0 + sx * dx)
    by (subst sx dx; destruct (Z.ltb_spec x0 x1); lia).
  assert (Hy : y1 = y0 + sy * dy)
    by (subst sy dy; destruct (Z.ltb_spec y0 y1); lia).
  assert (Hdx : 0 <= dx) by lia.
  assert (Hdy : 0 <= dy) by lia.
  clear Edx Edy Esx Esy.
  assert (Hloop : exists g1,
    (if dy <? dx then
       draw_major_x (Z.to_nat dx) cfg x1 dx dy sx sy width x0 y0
                    (inject_Z dx / 2)%Q g
     else
       draw_major_y (Z.to_nat dy) cfg y1 dx dy sx sy width x0 y0
                    (inject_Z dy / 2)%Q g) = Ok (x1, y1, g1)
    /\ grid_shape cfg g1 /\ grid_le cfg g g1
    /\ grid_adds cfg (near_box x0 y0 x1 y1 width) g g1
    /\ ((x0, y0) <> (x1, y1) -> (0 <= width)%Q ->
        in_bounds cfg (x0, y0) = true -> grid_value g1 (x0, y0) = true)).
  { destruct (Z.ltb_spec dy dx) as [E|E].
    - destruct (draw_major_x_end cfg x1 y1 dx dy sx sy width
                  ltac:(lia) Hsx Hsy (Z.to_nat dx) x0 y0 (inject_Z dx / 2)%Q g
                  dx dy dx Hg Hx ltac:(lia) Hy (half_start dx)
                  ltac:(lia) ltac:(lia))
        as (g1 & Hr & Hs & Hle & Hadd & Hfirst).
      exists g1. repeat (split; [assumption|]).
      intros _. apply Hfirst. lia.
    - destruct (Z.eq_dec dy 0) as [E0|E0].
      + assert (dx = 0) by lia.
        assert (Ex : x1 = x0) by lia. assert (Ey : y1 = y0) by lia.
        rewrite Ex, Ey, E0. cbn [Z.to_nat draw_major_y]. rewrite Z.eqb_refl.
        exists g. split; [reflexivity|]. split; [exact Hg|].
        split; [apply grid_le_refl|]. split; [apply grid_adds_refl|].
        intros Hne. contradiction Hne. reflexivity.
      + destruct (draw_major_y_end cfg x1 y1 dx dy sx sy width
                    ltac:(lia) Hsx Hsy (Z.to_nat dy) x0 y0
                    (inject_Z dy / 2)%Q g
                    dy dx dy Hg Hy ltac:(lia) Hx (half_start dy)
                    ltac:(lia) ltac:(lia))
          as (g1 & Hr & Hs & Hle & Hadd & Hfirst).
        exists g1. repeat (split; [assumption|]).
        intros _. apply Hfirst. lia. }
  destruct Hloop as (g1 & Hr & Hs & Hle & Hadd & Hfirst).
  rewrite Hr. cbn [rbind].
  exists (mark_road_point cfg x1 y1 width g1).
  split; [reflexivity|].
  split; [apply mark_road_point_shape; exact Hs|].
  pose proof (mark_road_point_le cfg x1 y1 width g1 Hs) as Hle1.
  split; [eapply grid_le_trans; eauto|].
  split.
  { eapply grid_adds_trans;
      [| |exact Hadd|apply mark_road_point_adds; exact Hs].
    - intros q H. exact H.
    - intros q. apply near_box_end. }
  intros Hw p [-> | ->] Hb.
  - destruct (Z.eq_dec x0 x1) as [Ex|Ex];
      [destruct (Z.eq_dec y0 y1) as [Ey|Ey]|].
    + rewrite <- Ex, <- Ey. apply mark_road_point_center; assumption.
    + apply (Hle1 (x0, y0) Hb). apply Hfirst; [congruence | exact Hw | exact Hb].
    + apply (Hle1 (x0, y0) Hb). apply Hfirst; [congruence | exact Hw | exact Hb].
  - apply mark_road_point_center; assumption.
Qed.

Lemma update_road_grid_loop_marks (cfg : CityConfig) (rs : list Road) :
  forall g, grid_shape cfg g ->
    exists g',
      update_road_grid_loop cfg rs g = Ok g'
      /\ grid_shape cfg g' /\ grid_le cfg g g'
      /\ grid_adds cfg (fun q => exists r, In r rs /\ near_road r q) g g'
      /\ (forall r, In r rs -> (0 <= r_width r)%Q ->
          forall p, p = r_start r \/ p = r_end r -> in_bounds cfg p = true ->
            grid_value g' p = true).
Proof.
  induction rs as [|road rest IH]; intros g Hg; cbn [update_road_grid_loop].
  - exists g. split; [reflexivity|]. split; [exact Hg|].
    split; [apply grid_le_refl|]. split; [apply grid_adds_refl|].
    intros r [].
  - destruct (draw_line_on_grid_marks cfg (r_start road) (r_end road)
                (r_width road) g Hg) as (g1 & Hr & Hs & Hle & Hadd & Hends).
    rewrite Hr. cbn [rbind].
    destruct (IH g1 Hs) as (g' & Hr' & Hs' & Hle' & Hadd' & Hends').
    exists g'. split; [exact Hr'|]. split; [exact Hs'|].
    split; [eapply grid_le_trans; eauto|].
    split.
    { eapply grid_adds_trans; [| |exact Hadd|exact Hadd'].
      - intros q H. exists road. split; [left; reflexivity | exact H].
      - intros q (r & Hin & H). exists r. split; [right; exact Hin | exact H]. }
    intros r [<- | Hin] Hw p Hp Hb.
    + apply (Hle' p Hb). apply Hends; assumption.
    + apply (Hends' r Hin Hw p Hp Hb).
Qed.

Lemma new_grid_value (cfg : CityConfig) (q : cell) :
  grid_value (road_grid (new_RoadNetwork cfg)) q = false.
Proof.
  unfold grid_value, grid_get. cbn [road_grid new_RoadNetwork].
  destruct (py_index _ (snd q)) as [row|] eqn:Er; [|reflexivity].
  apply py_index_In in Er. apply in_map_iff in Er. destruct Er as (y & <- & _).
  destruct (py_index _ (fst q)) as [b|] eqn:Eb; [|reflexivity].
  apply py_index_In in Eb. apply in_map_iff in Eb. destruct Eb as (x & <- & _).
  reflexivity.
Qed.

Lemma generate_roads_widths (cfg : CityConfig) (zones : list Zone)
  (net : RoadNetwork) :
  widths_nonneg cfg ->
  grows (fun r => (0 <= r_width r)%Q) net (generate_roads cfg zones net).
Proof.
  intros (Hm & Hs & Hl).
  assert (H32 : (0 <= local_road_width cfg * (3 # 2))%Q)
    by (apply Qmult_le_0_compat; [exact Hl | discriminate]).
  assert (H810 : (0 <= local_road_width cfg * (8 # 10))%Q)
    by (apply Qmult_le_0_compat; [exact Hl | discriminate]).
  unfold generate_roads.
  apply grows_trans with
    (generate_local_roads cfg zones
       (generate_secondary_roads cfg (generate_main_roads cfg net))).
  - apply grows_trans with
      (generate_secondary_roads cfg (generate_main_roads cfg net)).
    + apply grows_trans with (generate_main_roads cfg net).
      * unfold generate_main_roads; cbv zeta. grow; assumption.
      * unfold generate_secondary_roads; cbv zeta. grow; assumption.
    + unfold generate_local_roads. apply grows_for_each. intros zone s _.
      unfold generate_zone_roads, generate_residential_roads,
        generate_commercial_roads, generate_business_roads,
        generate_industrial_roads, generate_park_roads,
        generate_leisure_roads; cbv zeta.
      destruct (zone_type zone); grow; assumption.
  - generalize (generate_local_roads cfg zones
                  (generate_secondary_roads cfg (generate_main_roads cfg net))).
    induction zones as [|zone1 rest IH]; intros s; simpl; [apply grows_refl|].
    eapply grows_trans; [|apply IH].
    unfold add_zone_connector. grow; assumption.
Qed.

Lemma is_road_value (cfg : CityConfig) (net : RoadNetwork) (x y : Z) :
  grid_shape cfg (road_grid net) ->
  is_road cfg net x y
  = Ok (in_bounds cfg (x, y) && grid_value (road_grid net) (x, y)).
Proof.
  intros Hs. unfold is_road, in_bounds, grid_value. cbn [fst snd].
  destruct ((0 <=? x) && (x <? cfg_width cfg) && (0 <=? y)
            && (y <? cfg_height cfg)) eqn:E; [|reflexivity].
  arith_hyps.
  destruct (grid_get_in_range cfg (road_grid net) x y Hs) as [v Hv];
    [lia | lia |].
  rewrite Hv. reflexivity.
Qed.

(** The grid of a generated network: of the configured shape, set at the
    ends of every road, and set nowhere away from the roads. *)
Lemma generate_road_network_grid (cfg : CityConfig) (zones : list Zone)
  (net : RoadNetwork) :
  generate_road_network cfg zones (new_RoadNetwork cfg) = Ok net ->
  grid_shape cfg (road_grid net)
  /\ (widths_nonneg cfg ->
      forall r, In r (roads net) ->
      forall p, p = r_start r \/ p = r_end r -> in_bounds cfg p = true ->
        grid_value (road_grid net) p = true)
  /\ (forall q, in_bounds cfg q = true ->
        grid_value (road_grid net) q = true ->
        exists r, In r (roads net) /\ near_road r q).
Proof.
  unfold generate_road_network, update_road_grid.
  set (net0 := generate_roads cfg zones (new_RoadNetwork cfg)).
  assert (Hg0 : road_grid net0 = road_grid (new_RoadNetwork cfg))
    by apply generate_roads_grid.
  destruct (update_road_grid_loop_marks cfg (roads net0) (road_grid net0))
    as (g' & Hr & Hs & _ & Hadd & Hends).
  { rewrite Hg0. apply new_grid_shape. }
  rewrite Hr. cbn [rbind]. intros E. inversion E; subst net; clear E.
  cbn [roads road_grid].
  split; [exact Hs|]. split.
  - intros Hw r Hin. apply Hends; [exact Hin|].
    destruct (generate_roads_widths cfg zones (new_RoadNetwork cfg) Hw)
      as (_ & added & Hroads & Hall).
    fold net0 in Hroads. cbn [roads new_RoadNetwork app] in Hroads.
    rewrite Hroads in Hin. rewrite Forall_forall in Hall. auto.
  - intros q Hb Hv. destruct (Hadd q Hb Hv) as [H0|H]; [|exact H].
    rewrite Hg0, new_grid_value in H0. discriminate.
Qed.

(** ** The occupancy grid and the roads *)

(** X1: [_mark_road_point] keeps the shape of the grid and, on the cells of
    the plane, sets exactly the square of half the width around the point:
    a cell is set afterwards when it was set before or lies in the square,
    and no cell is cleared. *)
Theorem mark_road_point_sets_the_stamp (cfg : CityConfig) (x y : Z)
  (width : Q) (g : list (list bool)) :
  grid_shape cfg g ->
  grid_shape cfg (mark_road_point cfg x y width g)
  /\ forall q, in_bounds cfg q = true ->
       grid_value (mark_road_point cfg x y width g) q
       = grid_value g q || in_stamp x y width q.
Proof.
  intros Hg. split; [apply mark_road_point_shape; exact Hg|].
  intros q Hq. apply mark_road_point_value; assumption.
Qed.

Lemma mark_road_point_sets_the_stamp_witness :
  grid_shape village_cfg village_grid
  /\ grid_value (mark_road_point village_cfg 5 5 3 village_grid)
                 (6, 4) = true
  /\ grid_value (mark_road_point village_cfg 5 5 3 village_grid)
                 (7, 5) = false
  /\ grid_shape village_cfg
                 (mark_road_point village_cfg 5 5 3 village_grid)
  /\ forall q, in_bounds village_cfg q = true ->
       grid_value (mark_road_point village_cfg 5 5 3 village_grid) q
       = grid_value village_grid q || in_stamp 5 5 3 q.
Proof.
  assert (Hg : grid_shape village_cfg village_grid)
    by apply new_grid_shape.
  split; [exact Hg|].
  split; [vm_compute; reflexivity|].
  split; [vm_compute; reflexivity|].
  apply (mark_road_point_sets_the_stamp village_cfg 5 5 3
           village_grid Hg).
Defined.

(** X2: [_draw_line_on_grid] returns for any two points (its loop reaches the
    end point exactly), keeps the shape of the grid and every cell already
    set, sets no cell of the plane farther than half the width from the
    rectangle spanned by the two points, and, for a width that is not
    negative, sets both end points that lie in the plane. *)
Theorem line_marks_both_ends (cfg : CityConfig) (start end_ : cell)
  (width : Q) (g : list (list bool)) :
  grid_shape cfg g ->
  exists g',
    draw_line_on_grid cfg start end_ width g = Ok g'
    /\ grid_shape cfg g'
    /\ (forall q, in_bounds cfg q = true ->
          grid_value g q = true -> grid_value g' q = true)
    /\ (forall q, in_bounds cfg q = true -> grid_value g' q = true ->
          grid_value g q = true
          \/ near_box (fst start) (snd start) (fst end_) (snd end_) width q)
    /\ ((0 <= width)%Q ->
        forall p, p = start \/ p = end_ -> in_bounds cfg p = true ->
          grid_value g' p = true).
Proof.
  intros Hg.
  destruct (draw_line_on_grid_marks cfg start end_ width g Hg)
    as (g' & Hr & Hs & Hle & Hadd & Hends).
  exists g'. split; [exact Hr|]. split; [exact Hs|].
  split; [exact Hle|]. split; [exact Hadd | exact Hends].
Qed.

Lemma line_marks_both_ends_witness :
  grid_shape village_cfg village_grid
  /\ exists g',
       draw_line_on_grid village_cfg (2, 3) (9, 6) 1 village_grid
       = Ok g'
       /\ grid_value g' (2, 3) = true /\ grid_value g' (9, 6) = true
       /\ grid_value g' (9, 3) = false
       /\ grid_shape village_cfg g'
       /\ (forall q, in_bounds village_cfg q = true ->
             grid_value village_grid q = true ->
             grid_value g' q = true)
       /\ (forall q, in_bounds village_cfg q = true ->
             grid_value g' q = true ->
             grid_value village_grid q = true
             \/ near_box 2 3 9 6 1 q)
       /\ ((0 <= 1)%Q ->
           forall p, p = (2, 3) \/ p = (9, 6) ->
             in_bounds village_cfg p = true -> grid_value g' p = true).
Proof.
  assert (Hg : grid_shape village_cfg village_grid)
    by apply new_grid_shape.
  split; [exact Hg|].
  destruct (line_marks_both_ends village_cfg (2, 3) (9, 6) 1
              village_grid Hg)
    as (g' & Hr & Hrest).
  exists g'. split; [exact Hr|].
  assert (E : Ok g' = draw_line_on_grid village_cfg (2, 3) (9, 6) 1
                        village_grid)
    by (symmetry; exact Hr).
  vm_compute in E. inversion E; subst g'; clear E.
  split; [vm_compute; reflexivity|].
  split; [vm_compute; reflexivity|].
  split; [vm_compute; reflexivity|].
  exact Hrest.
Defined.

(** X3: in a generated city whose three road widths are not negative, both
    ends of every road that lie in the plane are road cells: [is_road]
    answers [True] there. *)
Theorem road_ends_are_road_cells (numpy noise : bool) (md : Z -> Z -> Seed -> fval)
  (seeds : list (Z * Seed)) (cfg : CityConfig) (rng rng' : Rng)
  (city : CityGenerator) :
  valid_config cfg -> widths_nonneg cfg ->
  generate_city numpy noise md seeds cfg rng = Ok (city, rng') ->
  forall r, In r (roads (road_network city)) ->
  forall p, p = r_start r \/ p = r_end r -> in_bounds cfg p = true ->
    is_road cfg (road_network city) (fst p) (snd p) = Ok true.
Proof.
  intros _ Hw Hgen r Hin p Hp Hb.
  apply generate_city_inv in Hgen.
  destruct Hgen as (zs & net & out & _ & Hn & _ & ->).
  cbn [road_network] in *.
  destruct (generate_road_network_grid cfg zs net Hn) as (Hs & Hends & _).
  rewrite (is_road_value cfg net (fst p) (snd p) Hs).
  rewrite <- surjective_pairing, Hb.
  rewrite (Hends Hw r Hin p Hp Hb). reflexivity.
Qed.

Lemma road_ends_are_road_cells_witness :
  valid_config village_cfg /\ widths_nonneg village_cfg /\
  exists city rng',
    generate_city true true squared_distance village_seeds village_cfg rng0
    = Ok (city, rng')
    /\ In (new_Road (0, 0) (0, 19) 1 "main") (roads (road_network city))
    /\ forall r, In r (roads (road_network city)) ->
       forall p, p = r_start r \/ p = r_end r ->
         in_bounds village_cfg p = true ->
         is_road village_cfg (road_network city) (fst p) (snd p) = Ok true.
Proof.
  assert (Hc : valid_config village_cfg) by (unfold valid_config; simpl; lia).
  assert (Hw : widths_nonneg village_cfg)
    by (unfold widths_nonneg; simpl; repeat split; discriminate).
  split; [exact Hc|]. split; [exact Hw|].
  eexists. eexists. split; [vm_compute; reflexivity|].
  split; [left; reflexivity|].
  eapply (road_ends_are_road_cells true true squared_distance village_seeds
            village_cfg rng0); [exact Hc | exact Hw | vm_compute; reflexivity].
Defined.

(** X4: in a generated city a cell is a road cell only near a road: where
    [is_road] answers [True], some road of the network has the cell within
    half its width, on each axis, of the rectangle spanned by its ends. *)
Theorem road_cells_lie_near_a_road (numpy noise : bool) (md : Z -> Z -> Seed -> fval)
  (seeds : list (Z * Seed)) (cfg : CityConfig) (rng rng' : Rng)
  (city : CityGenerator) :
  valid_config cfg ->
  generate_city numpy noise md seeds cfg rng = Ok (city, rng') ->
  forall x y, is_road cfg (road_network city) x y = Ok true ->
    exists r, In r (roads (road_network city)) /\ near_road r (x, y).
Proof.
  intros _ Hgen x y Hroad.
  apply generate_city_inv in Hgen.
  destruct Hgen as (zs & net & out & _ & Hn & _ & ->).
  cbn [road_network] in *.
  destruct (generate_road_network_grid cfg zs net Hn) as (Hs & _ & Hnear).
  rewrite (is_road_value cfg net x y Hs) in Hroad.
  inversion Hroad as [E]. apply andb_true_iff in E. destruct E as [Hb Hv].
  apply Hnear; assumption.
Qed.

Lemma road_cells_lie_near_a_road_witness :
  valid_config village_cfg /\
  exists city rng',
    generate_city true true squared_distance village_seeds village_cfg rng0
    = Ok (city, rng')
    /\ is_road village_cfg (road_network city) 0 7 = Ok true
    /\ forall x y, is_road village_cfg (road_network city) x y = Ok true ->
         exists r, In r (roads (road_network city)) /\ near_road r (x, y).
Proof.
  assert (Hc : valid_config village_cfg) by (unfold valid_config; simpl; lia).
  split; [exact Hc|].
  eexists. eexists. split; [vm_compute; reflexivity|].
  split; [vm_compute; reflexivity|].
  eapply (road_cells_lie_near_a_road true true squared_distance village_seeds
            village_cfg rng0); [exact Hc | vm_compute; reflexivity].
Defined.

(** ** The component the flood fill collects *)

Lemma adjacent_neighbours (x y : Z) (c : cell) :
  adjacent (x, y) c <->
  In c [(x - 1, y); (x + 1, y); (x, y - 1); (x, y + 1)].
Proof.
  destruct c as [a b]. unfold adjacent. cbn [fst snd In]. split.
  - intros H.
    assert (Hc : (a = x - 1 /\ b = y) \/ (a = x + 1 /\ b = y)
                 \/ (a = x /\ b = y - 1) \/ (a = x /\ b = y + 1)) by lia.
    destruct Hc as [[-> ->]|[[-> ->]|[[-> ->]|[-> ->]]]]; auto.
  - intros [E|[E|[E|[E|[]]]]]; inversion E; subst; lia.
Qed.

Lemma adjacent_sym (a b : cell) : adjacent a b -> adjacent b a.
Proof. unfold adjacent. lia. Qed.

Lemma reaches_bears (cfg : CityConfig) (g : list (list Z)) (zone_id : Z)
  (s c : cell) :
  reaches cfg g zone_id s c -> bears cfg g zone_id s /\ bears cfg g zone_id c.
Proof. induction 1 as [Hs|c c' _ [IHs _] _ Hc']; auto. Qed.

Lemma reaches_trans (cfg : CityConfig) (g : list (list Z)) (zone_id : Z)
  (a b c : cell) :
  reaches cfg g zone_id a b -> reaches cfg g zone_id b c ->
  reaches cfg g zone_id a c.
Proof.
  intros Hab Hbc. induction Hbc as [_|c c' _ IH Hadj Hc']; [exact Hab|].
  eapply reaches_step; eauto.
Qed.

Lemma reaches_sym (cfg : CityConfig) (g : list (list Z)) (zone_id : Z)
  (a b : cell) :
  reaches cfg g zone_id a b -> reaches cfg g zone_id b a.
Proof.
  induction 1 as [Ha|c c' Hac IH Hadj Hc']; [apply reaches_start; exact Ha|].
  apply reaches_trans with c; [|exact IH].
  apply reaches_step with c'.
  - apply reaches_start. exact Hc'.
  - apply adjacent_sym. exact Hadj.
  - apply (reaches_bears _ _ _ _ _ Hac).
Qed.

Lemma flood_done (cfg : CityConfig) (g : list (list Z)) (zone_id : Z)
  (s : cell) (cells : list cell) :
  NoDup cells ->
  (forall c, In c cells -> reaches cfg g zone_id s c) ->
  (forall c c', In c cells -> adjacent c c' -> bears cfg g zone_id c' ->
     In c' cells \/ In c' []) ->
  (In s cells \/ In s []) ->
  NoDup cells /\ forall c, In c cells <-> reaches cfg g zone_id s c.
Proof.
  intros Hnd Hc Hcl Hs. split; [exact Hnd|].
  intros c. split; [apply Hc|].
  induction 1 as [_|c c' _ IHr Hadj Hc'].
  - destruct Hs as [Hs|[]]. exact Hs.
  - destruct (Hcl c c' IHr Hadj Hc') as [H|[]]. exact H.
Qed.

(** What the loop returns, whatever its fuel: the cells linked to [s], each
    once.  [cells] holds what was collected, [stack] what is left to look
    at. *)
Lemma flood_fill_component (cfg : CityConfig) (g : list (list Z))
  (zone_id : Z) (s : cell) :
  bears cfg g zone_id s ->
  forall (fuel : nat) (stack visited cells out : list cell),
    flood_fill fuel cfg g zone_id stack visited cells = Ok out ->
    NoDup cells ->
    (forall c, In c visited <-> In c cells) ->
    (forall c, In c cells -> reaches cfg g zone_id s c) ->
    (forall p, In p stack -> bears cfg g zone_id p ->
       reaches cfg g zone_id s p) ->
    (forall c c', In c cells -> adjacent c c' -> bears cfg g zone_id c' ->
       In c' cells \/ In c' stack) ->
    (In s cells \/ In s stack) ->
    NoDup out /\ forall c, In c out <-> reaches cfg g zone_id s c.
Proof.
  intros Hbs.
  induction fuel as [|fuel IH];
    intros stack visited cells out Hr Hnd Hv Hc Hst Hcl Hs;
    destruct stack as [|[x y] stack]; cbn [flood_fill] in Hr;
    try discriminate.
  1, 2: inversion Hr; subst out; apply flood_done; assumption.
  assert (Hskip : forall out',
    flood_fill fuel cfg g zone_id stack visited cells = Ok out' ->
    (~ bears cfg g zone_id (x, y) \/ In (x, y) cells) ->
    NoDup out' /\ forall c, In c out' <-> reaches cfg g zone_id s c).
  { intros out' Hr' Hwhy.
    apply (IH stack visited cells out' Hr' Hnd Hv Hc).
    - intros p Hp. apply Hst. right. exact Hp.
    - intros c c' Hin Hadj Hb.
      destruct (Hcl c c' Hin Hadj Hb) as [H|[<-|H]]; auto.
      destruct Hwhy as [Hn|Hi]; [contradiction | auto].
    - destruct Hs as [H|[E|H]]; auto.
      destruct Hwhy as [Hn|Hi]; [|left; rewrite <- E; exact Hi].
      rewrite E in Hn. contradiction. }
  destruct (mem_cell (x, y) visited) eqn:Ev.
  { apply Hskip; [exact Hr|]. right. apply Hv. apply mem_cell_In. exact Ev. }
  destruct ((x <? 0) || (x >=? cfg_width cfg)
            || (y <? 0) || (y >=? cfg_height cfg)) eqn:Eb.
  { apply Hskip; [exact Hr|]. left. intros [[Hx Hy] _]. cbn [fst snd] in *.
    repeat (apply orb_true_iff in Eb; destruct Eb as [Eb|Eb]);
      try apply Z.ltb_lt in Eb; try apply Z.geb_le in Eb; lia. }
  destruct (zone_at g x y =? zone_id) eqn:Ez; cbn [negb] in Hr.
  2: { apply Hskip; [exact Hr|]. left. intros [_ Hz]. cbn [fst snd] in Hz.
       apply Z.eqb_neq in Ez. contradiction. }
  apply Z.eqb_eq in Ez.
  repeat (apply orb_false_iff in Eb; destruct Eb as [Eb ?]).
  assert (Hp : 0 <= x < cfg_width cfg /\ 0 <= y < cfg_height cfg).
  { repeat match goal with
           | H : (_ <? _) = false |- _ => apply Z.ltb_ge in H
           | H : (_ >=? _) = false |- _ =>
             rewrite Z.geb_leb in H; apply Z.leb_gt in H
           end. lia. }
  assert (Hbear : bears cfg g zone_id (x, y)) by (split; assumption).
  assert (Hnew : ~ In (x, y) cells).
  { intros Hi. apply Hv in Hi. apply mem_cell_In in Hi. congruence. }
  assert (Hreach : reaches cfg g zone_id s (x, y)).
  { apply Hst; [left; reflexivity | exact Hbear]. }
  apply (IH _ _ _ out Hr).
  - apply NoDup_app; [exact Hnd | constructor; [intros [] | constructor] |].
    intros a Ha [<-|[]]. contradiction.
  - intros c. cbn [In]. rewrite in_app_iff, Hv. cbn [In]. tauto.
  - intros c Hin. apply in_app_or in Hin.
    destruct Hin as [Hin|[<-|[]]]; [apply Hc; exact Hin | exact Hreach].
  - intros p Hin Hb.
    change ((x - 1, y) :: (x + 1, y) :: (x, y - 1) :: (x, y + 1) :: stack)
      with ([(x - 1, y); (x + 1, y); (x, y - 1); (x, y + 1)] ++ stack) in Hin.
    apply in_app_or in Hin. destruct Hin as [Hin|Hin].
    + apply reaches_step with (x, y); [exact Hreach | | exact Hb].
      apply adjacent_neighbours. exact Hin.
    + apply Hst; [right; exact Hin | exact Hb].
  - intros c c' Hin Hadj Hb.
    change ((x - 1, y) :: (x + 1, y) :: (x, y - 1) :: (x, y + 1) :: stack)
      with ([(x - 1, y); (x + 1, y); (x, y - 1); (x, y + 1)] ++ stack).
    rewrite !in_app_iff. apply in_app_or in Hin.
    destruct Hin as [Hin|[<-|[]]].
    + destruct (Hcl c c' Hin Hadj Hb) as [Hi|[<-|Hi]]; auto.
      left. right. left. reflexivity.
    + right. left. apply adjacent_neighbours. exact Hadj.
  - rewrite in_app_iff. destruct Hs as [Hi|[E|Hi]]; auto.
    + left. right. left. exact E.
    + right. right. right. right. right. exact Hi.
Qed.

(** X5: [_find_connected_cells] returns, without repetition, one connected
    component of the cells that bear the id: the list is empty exactly when
    no cell of the plane bears the id, and otherwise it holds exactly the
    cells linked to any of its members by a chain of side-sharing cells that
    bear the id. *)
Theorem connected_cells_are_a_component (cfg : CityConfig)
  (g : list (list Z)) (zone_id : Z) :
  exists cells,
    find_connected_cells cfg g zone_id = Ok cells
    /\ NoDup cells
    /\ (cells = [] <-> forall c, ~ bears cfg g zone_id c)
    /\ (forall c, In c cells ->
        forall c', In c' cells <-> reaches cfg g zone_id c c').
Proof.
  destruct (find_connected_cells_ok cfg g zone_id) as (cells & Hr & Hb).
  exists cells. split; [exact Hr|].
  unfold find_connected_cells in Hr.
  match type of Hr with
  | context [find ?f ?l] => destruct (find f l) as [s|] eqn:Ef
  end.
  - apply find_some in Ef. destruct Ef as [Hin Hz].
    destruct s as [sx sy]. apply scan_cells_In in Hin.
    cbn [fst snd] in Hz. apply Z.eqb_eq in Hz.
    assert (Hs : bears cfg g zone_id (sx, sy)) by (split; assumption).
    destruct (flood_fill_component cfg g zone_id (sx, sy) Hs _ _ _ _ _ Hr)
      as [Hnd Hiff].
    + constructor.
    + intros c. tauto.
    + intros c [].
    + intros p [<-|[]] _. apply reaches_start. exact Hs.
    + intros c c' [].
    + right. left. reflexivity.
    + split; [exact Hnd|]. split.
      * split.
        -- intros ->. exfalso.
           apply (proj2 (Hiff (sx, sy))). apply reaches_start. exact Hs.
        -- intros Hno. exfalso. apply (Hno (sx, sy)). exact Hs.
      * intros c Hc c'. rewrite !Hiff. apply Hiff in Hc. split.
        -- intros Hc'. apply reaches_trans with (sx, sy);
             [apply reaches_sym; exact Hc | exact Hc'].
        -- intros Hc'. apply reaches_trans with c; assumption.
  - inversion Hr; subst cells. split; [constructor|]. split.
    + split; [|reflexivity]. intros _ [x y] [Hp Hz]. cbn [fst snd] in *.
      pose proof (find_none _ _ Ef (x, y)) as Hn.
      cbn [fst snd] in Hn. rewrite Hz, Z.eqb_refl in Hn.
      discriminate Hn. apply scan_cells_In. exact Hp.
    + intros c [].
Qed.

(** ** The zones of the partitioner *)

Lemma find_connected_cells_empty (cfg : CityConfig) (g : list (list Z))
  (zone_id : Z) :
  find_connected_cells cfg g zone_id = Ok [] ->
  forall c, ~ bears cfg g zone_id c.
Proof.
  unfold find_connected_cells.
  match goal with
  | |- context [find ?f ?l] => destruct (find f l) as [s|] eqn:Ef
  end.
  - intros Hr. exfalso.
    apply find_some in Ef. destruct Ef as [Hin Hz].
    destruct s as [sx sy]. apply scan_cells_In in Hin.
    cbn [fst snd] in Hz. apply Z.eqb_eq in Hz.
    assert (Hs : bears cfg g zone_id (sx, sy)) by (split; assumption).
    destruct (flood_fill_component cfg g zone_id (sx, sy) Hs _ _ _ _ _ Hr)
      as [_ Hiff].
    + constructor.
    + intros c. tauto.
    + intros c [].
    + intros p [<-|[]] _. apply reaches_start. exact Hs.
    + intros c c' [].
    + right. left. reflexivity.
    + apply (proj2 (Hiff (sx, sy))). apply reaches_start. exact Hs.
  - intros _ [x y] [Hp Hz]. cbn [fst snd] in *.
    pose proof (find_none _ _ Ef (x, y)) as Hn.
    cbn [fst snd] in Hn. rewrite Hz, Z.eqb_refl in Hn.
    discriminate Hn. apply scan_cells_In. exact Hp.
Qed.

Lemma py_range_unit_nth (n i : Z) :
  0 <= i < n -> nth_error (py_range 0 n 1) (Z.to_nat i) = Some i.
Proof.
  intros H. unfold py_range. simpl.
  rewrite nth_error_map, nth_error_seq.
  rewrite Z.div_1_r.
  replace (Z.to_nat i <? Z.to_nat (n - 0 + 1 - 1))%nat with true
    by (symmetry; apply Nat.ltb_lt; lia).
  simpl. f_equal. lia.
Qed.

Lemma py_index_map_range {A : Type} (f : Z -> A) (n i : Z) :
  0 <= i < n -> py_index (map f (py_range 0 n 1)) i = Some (f i).
Proof.
  intros H. rewrite py_index_nonneg by lia.
  rewrite nth_error_map, py_range_unit_nth by lia. reflexivity.
Qed.

Lemma assign_zone_grid_at (numpy noise : bool)
  (md : Z -> Z -> Seed -> fval) (cfg : CityConfig) (seeds : list (Z * Seed))
  (g : list (list Z)) (x y : Z) :
  assign_zone_grid numpy noise md cfg seeds = Ok g ->
  0 <= x < cfg_width cfg -> 0 <= y < cfg_height cfg ->
  assign_cell numpy noise md cfg seeds x y = Ok (zone_at g x y).
Proof.
  intros Hg Hx Hy. unfold assign_zone_grid in Hg.
  apply (rmap_Ok _ []) in Hg. destruct Hg as [Eg Hrows].
  destruct (Hrows y) as [row Er].
  { eapply nth_error_In. apply py_range_unit_nth. eassumption. }
  unfold zone_at, grid_get. rewrite Eg.
  rewrite py_index_map_range by exact Hy. rewrite Er.
  apply (rmap_Ok _ 0) in Er. destruct Er as [Erow Hcells].
  destruct (Hcells x) as [k Ek].
  { eapply nth_error_In. apply py_range_unit_nth. eassumption. }
  rewrite Erow, py_index_map_range by exact Hx. rewrite Ek. reflexivity.
Qed.

Lemma assign_cell_inv (numpy noise : bool) (md : Z -> Z -> Seed -> fval)
  (cfg : CityConfig) (seeds : list (Z * Seed)) (x y k : Z) :
  assign_cell numpy noise md cfg seeds x y = Ok k ->
  find_closest_loop numpy md cfg x y seeds PInf 1 = Ok k.
Proof.
  unfold assign_cell, find_closest_zone.
  destruct (pnoise2 numpy noise); [|discriminate]. cbn [rbind]. auto.
Qed.

(** The id given to a cell is the initial one or the id of a seed. *)
Lemma find_closest_loop_In (numpy : bool) (md : Z -> Z -> Seed -> fval)
  (cfg : CityConfig) (x y : Z) :
  forall (seeds : list (Z * Seed)) (m : fval) (k r : Z),
    find_closest_loop numpy md cfg x y seeds m k = Ok r ->
    r = k \/ In r (map fst seeds).
Proof.
  induction seeds as [|[zone_id seed] rest IH]; intros m k r H;
    cbn [find_closest_loop] in H.
  - inversion H. auto.
  - destruct (get_zone_preference numpy cfg); [|discriminate].
    cbn [rbind] in H. cbn [map fst In].
    destruct (fval_lt (md x y seed) m); apply IH in H; destruct H; auto.
Qed.

Lemma fval_lt_PInf (a b : fval) :
  fval_lt a b = true -> fval_lt a PInf = true.
Proof. destruct a, b; cbn; congruence. Qed.

Lemma fval_lt_not_le (a b : fval) :
  fval_lt a b = true -> fval_le b a = false.
Proof.
  destruct a as [p| | |], b as [q| | |]; cbn; try congruence.
  destruct (Qle_bool q p); cbn; congruence.
Qed.

Lemma fval_lt_le (a b : fval) : fval_lt a b = true -> fval_le a b = true.
Proof.
  destruct a as [p| | |], b as [q| | |]; cbn; try congruence.
  intros H. apply negb_true_iff in H. apply Qle_bool_iff.
  apply Qlt_le_weak. apply Qnot_le_lt. intros Hle.
  apply Qle_bool_iff in Hle. congruence.
Qed.

Lemma fval_le_lt_trans (a b c : fval) :
  fval_le a b = true -> fval_lt b c = true -> fval_lt a c = true.
Proof.
  destruct a as [p| | |], b as [q| | |], c as [r| | |]; cbn;
    try congruence.
  intros Hpq Hqr. apply Qle_bool_iff in Hpq.
  apply negb_true_iff in Hqr. apply negb_true_iff.
  destruct (Qle_bool r p) eqn:E; [|reflexivity].
  apply Qle_bool_iff in E.
  assert (Hrq : Qle_bool r q = true)
    by (apply Qle_bool_iff; apply Qle_trans with p; assumption).
  congruence.
Qed.

Lemma find_closest_loop_spec (numpy : bool) (md : Z -> Z -> Seed -> fval)
  (cfg : CityConfig) (x y : Z) :
  forall (seeds done : list (Z * Seed)) (m : fval) (k r : Z),
    closest_so_far md x y done m k ->
    find_closest_loop numpy md cfg x y seeds m k = Ok r ->
    exists m', closest_so_far md x y (done ++ seeds) m' r.
Proof.
  induction seeds as [|[zone_id seed] rest IH]; intros done m k r Hacc H;
    cbn [find_closest_loop] in H.
  - inversion H; subst r. rewrite app_nil_r. eauto.
  - destruct (get_zone_preference numpy cfg); [|discriminate].
    cbn [rbind] in H.
    replace (done ++ (zone_id, seed) :: rest)
      with ((done ++ [(zone_id, seed)]) ++ rest)
      by (rewrite <- app_assoc; reflexivity).
    destruct (fval_lt (md x y seed) m) eqn:Hlt;
      (eapply IH; [|exact H]).
    + right. exists done, seed, [].
      split; [reflexivity|]. split; [reflexivity|].
      split; [exact (fval_lt_PInf _ _ Hlt)|].
      split; [|intros e []].
      intros e He.
      destruct (fval_le (md x y (snd e)) (md x y seed)) eqn:Ele;
        [exfalso | reflexivity].
      pose proof (fval_le_lt_trans _ _ _ Ele Hlt) as Hem.
      destruct Hacc as [(-> & _ & Hall)
                       |(before & s & after & Ed & -> & _ & Hb & Ha)].
      * rewrite (Hall e He) in Hem. discriminate.
      * rewrite Ed in He. apply in_app_or in He.
        destruct He as [He|[<-|He]]; cbn [snd] in *.
        -- apply fval_lt_le in Hem. rewrite (Hb e He) in Hem.
           discriminate.
        -- apply fval_lt_not_le in Hlt. congruence.
        -- rewrite (Ha e He) in Hem. discriminate.
    + destruct Hacc as [(-> & -> & Hall)
                       |(before & s & after & Ed & -> & Hfin & Hb & Ha)].
      * left. split; [reflexivity|]. split; [reflexivity|].
        intros e He. apply in_app_or in He.
        destruct He as [He|[<-|[]]]; [auto | exact Hlt].
      * right. exists before, s, (after ++ [(zone_id, seed)]).
        split; [rewrite Ed, <- app_assoc; reflexivity|].
        split; [reflexivity|]. split; [exact Hfin|].
        split; [exact Hb|].
        intros e He. apply in_app_or in He.
        destruct He as [He|[<-|[]]]; [auto | exact Hlt].
Qed.

(** The id of the first cell is the id of a seed, as soon as the seeds are
    numbered from 1 or one of them is below infinity there. *)
Lemma first_cell_owner (numpy noise : bool) (md : Z -> Z -> Seed -> fval)
  (cfg : CityConfig) (seeds : list (Z * Seed)) (g : list (list Z)) :
  assign_zone_grid numpy noise md cfg seeds = Ok g ->
  0 < cfg_width cfg -> 0 < cfg_height cfg ->
  In 1 (map fst seeds)
  \/ (exists s, In s seeds /\ fval_lt (md 0 0 (snd s)) PInf = true) ->
  In (zone_at g 0 0) (map fst seeds).
Proof.
  intros Hg Hw Hh Hone.
  pose proof (assign_zone_grid_at numpy noise md cfg seeds g 0 0 Hg
                ltac:(lia) ltac:(lia)) as Hcell.
  apply assign_cell_inv in Hcell.
  assert (H0 : closest_so_far md 0 0 [] PInf 1).
  { left. split; [reflexivity|]. split; [reflexivity | intros e []]. }
  destruct (find_closest_loop_spec numpy md cfg 0 0 seeds [] PInf 1 _ H0
              Hcell) as [m' H].
  cbn [app] in H.
  destruct H as [(_ & E & Hall)|(before & s & after & E & _)].
  - destruct Hone as [Hone|(s & Hs & Hfin)].
    + rewrite E. exact Hone.
    + rewrite (Hall s Hs) in Hfin. discriminate.
  - rewrite E. rewrite map_app. apply in_or_app. right. left.
    reflexivity.
Qed.

(** What the loop of [_create_zone_objects] appends. *)
Lemma create_zone_loop_more (cfg : CityConfig) (g : list (list Z)) :
  forall (seeds : list (Z * Seed)) (processed : list Z) (zones zs : list Zone),
    create_zone_loop cfg g seeds processed zones = Ok zs ->
    exists more,
      zs = zones ++ more
      /\ (List.length more <= List.length seeds)%nat
      /\ Forall (fun z =>
                   (exists s, In s seeds /\ zone_type z = snd (snd s))
                   /\ density z = zone_densities cfg (zone_type z)
                   /\ z_buildings z = []) more
      /\ (forall k c, In k (map fst seeds) -> ~ In k processed ->
            bears cfg g k c -> more <> []).
Proof.
  induction seeds as [|[zone_id [[sx sy] t]] rest IH];
    intros processed zones zs Hr; cbn [create_zone_loop] in Hr.
  - inversion Hr; subst zs. exists []. rewrite app_nil_r.
    split; [reflexivity|]. split; [apply Nat.le_refl|].
    split; [constructor|]. intros k c [].
  - assert (Hweak : forall more : list Zone,
      Forall (fun z =>
                (exists s, In s rest /\ zone_type z = snd (snd s))
                /\ density z = zone_densities cfg (zone_type z)
                /\ z_buildings z = []) more ->
      Forall (fun z =>
                (exists s, In s ((zone_id, (sx, sy, t)) :: rest)
                           /\ zone_type z = snd (snd s))
                /\ density z = zone_densities cfg (zone_type z)
                /\ z_buildings z = []) more).
    { intros more. apply Forall_impl.
      intros z ((s & Hs & Ht) & Hd & Hb).
      split; [exists s; split; [right; exact Hs | exact Ht] | auto]. }
    destruct (existsb (Z.eqb zone_id) processed) eqn:Ep.
    + destruct (IH _ _ _ Hr) as (more & E & Hlen & Hall & Hne).
      exists more. split; [exact E|].
      split; [cbn [List.length]; lia|]. split; [apply Hweak; exact Hall|].
      intros k c Hk Hnp Hb. destruct Hk as [Ek|Hk].
      * cbn [fst] in Ek. subst k. exfalso. apply Hnp.
        apply existsb_exists in Ep. destruct Ep as (k' & Hin & Ek).
        apply Z.eqb_eq in Ek. subst k'. exact Hin.
      * apply (Hne k c Hk Hnp Hb).
    + destruct (find_connected_cells cfg g zone_id) as [cells|e] eqn:Ef;
        cbn [rbind] in Hr; [|discriminate].
      destruct cells as [|c0 cells'].
      * destruct (IH _ _ _ Hr) as (more & E & Hlen & Hall & Hne).
        exists more. split; [exact E|].
        split; [cbn [List.length]; lia|]. split; [apply Hweak; exact Hall|].
        intros k c Hk Hnp Hb. destruct Hk as [Ek|Hk].
        -- cbn [fst] in Ek. subst k. exfalso.
           apply (find_connected_cells_empty cfg g zone_id Ef c Hb).
        -- apply (Hne k c Hk Hnp Hb).
      * destruct (IH _ _ _ Hr) as (more & E & Hlen & Hall & Hne).
        exists (zone_of_cells cfg t (c0 :: cells') :: more).
        split; [rewrite E, <- app_assoc; reflexivity|].
        split; [cbn [List.length]; lia|].
        split; [|intros k c _ _ _; discriminate].
        constructor; [|apply Hweak; exact Hall].
        split; [|split; reflexivity].
        exists (zone_id, (sx, sy, t)). split; [left; reflexivity|].
        reflexivity.
Qed.

(** X6: for a valid configuration, in an environment where the assignment
    loop is defined, and for seeds that are numbered from 1 (as
    [_generate_zone_seeds] numbers them) or one of which is at a modified
    distance of the first cell below infinity, [generate_zones] returns at
    least one zone and at most one zone per seed; every zone lies in the
    plane with a width and a height of at least one cell, has the type of
    one of the seeds and the density the configuration gives to that type,
    and holds no building yet. *)
Theorem zones_are_generated (numpy noise : bool)
  (md : Z -> Z -> Seed -> fval) (cfg : CityConfig)
  (seeds : list (Z * Seed)) :
  valid_config cfg ->
  partition_defined numpy noise cfg seeds ->
  In 1 (map fst seeds)
  \/ (exists s, In s seeds /\ fval_lt (md 0 0 (snd s)) PInf = true) ->
  exists zs,
    generate_zones numpy noise md cfg seeds = Ok zs
    /\ zs <> []
    /\ (List.length zs <= List.length seeds)%nat
    /\ Forall (fun z =>
                 zone_in_plane cfg z
                 /\ (exists s, In s seeds /\ zone_type z = snd (snd s))
                 /\ density z = zone_densities cfg (zone_type z)
                 /\ z_buildings z = []) zs.
Proof.
  intros (Hw & Hh & _) Hdef Hone.
  destruct (generate_zones_total numpy noise md cfg seeds Hdef)
    as (g & parts & Eg & Hr & _ & _).
  exists (map (zone_of_part cfg) parts). split; [exact Hr|].
  pose proof (generate_zones_in_plane numpy noise md cfg seeds _ Hr)
    as Hplane.
  apply generate_zones_inv in Hr. destruct Hr as (g' & Eg' & Hr).
  rewrite Eg in Eg'. inversion Eg'; subst g'.
  unfold create_zone_objects in Hr.
  destruct (create_zone_loop_more cfg _ _ _ _ _ Hr)
    as (more & E & Hlen & Hall & Hne).
  cbn [app] in E. rewrite E in *.
  split; [|split; [exact Hlen|]].
  - pose proof (first_cell_owner numpy noise md cfg seeds g Eg Hw Hh Hone)
      as Hin.
    apply (Hne (zone_at g 0 0) (0, 0) Hin).
    + intros [].
    + split; cbn [fst snd]; [lia | reflexivity].
  - rewrite Forall_forall in *. intros z Hz.
    split; [apply Hplane; exact Hz | apply Hall; exact Hz].
Qed.

Lemma zones_are_generated_witness :
  valid_config village_cfg
  /\ partition_defined false false village_cfg village_seeds
  /\ (In 1 (map fst village_seeds)
      \/ (exists s, In s village_seeds
                    /\ fval_lt (squared_distance 0 0 (snd s)) PInf = true))
  /\ exists zs,
       generate_zones false false squared_distance village_cfg village_seeds
       = Ok zs
       /\ zs = [new_Zone RESIDENTIAL 0 0 20 20 (6 # 10)]
       /\ zs <> []
       /\ (List.length zs <= List.length village_seeds)%nat
       /\ Forall (fun z =>
                    zone_in_plane village_cfg z
                    /\ (exists s, In s village_seeds
                                  /\ zone_type z = snd (snd s))
                    /\ density z = zone_densities village_cfg (zone_type z)
                    /\ z_buildings z = []) zs.
Proof.
  assert (Hc : valid_config village_cfg) by (unfold valid_config; simpl; lia).
  assert (Hd : partition_defined false false village_cfg village_seeds).
  { split; [discriminate|]. intros _ _. left. vm_compute. discriminate. }
  assert (Hs : In 1 (map fst village_seeds)
               \/ (exists s, In s village_seeds
                             /\ fval_lt (squared_distance 0 0 (snd s)) PInf
                                = true))
    by (left; left; reflexivity).
  split; [exact Hc|]. split; [exact Hd|]. split; [exact Hs|].
  destruct (zones_are_generated false false squared_distance village_cfg
              village_seeds Hc Hd Hs) as (zs & Hr & Hrest).
  exists zs. split; [exact Hr|].
  split; [|exact Hrest].
  assert (E : Ok zs
              = generate_zones false false squared_distance village_cfg
                  village_seeds)
    by (symmetry; exact Hr).
  vm_compute in E. inversion E. reflexivity.
Defined.

(** ** The intersection dict *)

Lemma dict_get_None (d : IntersectionMap) (p : cell) :
  dict_get d p = None <-> ~ In p (map fst d).
Proof.
  induction d as [|[k v] d IH]; simpl; [tauto|].
  destruct (cell_eqb p k) eqn:E.
  - apply cell_eqb_eq in E. subst k. split; [discriminate | tauto].
  - rewrite IH. split; [|tauto].
    intros Hn [Ek|Hin]; [|tauto].
    subst k. rewrite cell_eqb_refl in E. discriminate.
Qed.

Lemma dict_get_Some (d : IntersectionMap) (p : cell) (i : Intersection) :
  dict_get d p = Some i -> In (p, i) d.
Proof.
  induction d as [|[k v] d IH]; cbn [dict_get]; [discriminate|].
  destruct (cell_eqb p k) eqn:E.
  - apply cell_eqb_eq in E. subst k. intros H. inversion H. left.
    reflexivity.
  - intros H. right. apply IH. exact H.
Qed.

Lemma dict_get_In (d : IntersectionMap) (p : cell) :
  In p (map fst d) \/ dict_get d p = None.
Proof.
  induction d as [|[k v] d IH]; simpl; [right; reflexivity|].
  destruct (cell_eqb p k) eqn:E.
  - apply cell_eqb_eq in E. subst k. left. left. reflexivity.
  - destruct IH as [H|H]; [left; right; exact H | right; exact H].
Qed.

Lemma dict_update_keys (p : cell) (f : Intersection -> Intersection)
  (d : IntersectionMap) :
  map fst (dict_update p f d) = map fst d.
Proof.
  induction d as [|[k v] d IH]; simpl; [reflexivity|].
  destruct (cell_eqb p k); simpl; [reflexivity | rewrite IH; reflexivity].
Qed.

Lemma dict_update_Forall (P : cell * Intersection -> Prop) (p : cell)
  (f : Intersection -> Intersection) (d : IntersectionMap) :
  (forall v, P (p, v) -> P (p, f v)) ->
  Forall P d -> Forall P (dict_update p f d).
Proof.
  intros Hf. induction 1 as [|[k v] d Hkv Hd IH]; simpl; [constructor|].
  destruct (cell_eqb p k) eqn:E.
  - apply cell_eqb_eq in E. subst k. constructor; auto.
  - constructor; auto.
Qed.

Lemma dict_update_listings (p : cell) (road : Road) (d : IntersectionMap) :
  In p (map fst d) ->
  listings (dict_update p (fun i => add_road i road) d) = S (listings d).
Proof.
  induction d as [|[k v] d IH]; simpl; [tauto|].
  intros Hin. destruct (cell_eqb p k) eqn:E; simpl.
  - rewrite length_app. simpl. lia.
  - destruct Hin as [Ek|Hin].
    + subst k. rewrite cell_eqb_refl in E. discriminate.
    + rewrite (IH Hin). lia.
Qed.

Lemma dict_update_app_new (p : cell) (f : Intersection -> Intersection)
  (d : IntersectionMap) (v : Intersection) :
  ~ In p (map fst d) ->
  dict_update p f (d ++ [(p, v)]) = d ++ [(p, f v)].
Proof.
  induction d as [|[k w] d IH]; simpl; intros Hn.
  - rewrite cell_eqb_refl. reflexivity.
  - destruct (cell_eqb p k) eqn:E.
    + apply cell_eqb_eq in E. subst k. tauto.
    + rewrite IH by tauto. reflexivity.
Qed.

Lemma listings_app (a b : IntersectionMap) :
  listings (a ++ b) = (listings a + listings b)%nat.
Proof.
  induction a as [|e a IH]; simpl; [reflexivity|]. rewrite IH. lia.
Qed.

(** Registering a road at a point: the keys stay distinct, one listing is
    added, and a property of the entries that the new listing satisfies is
    kept. *)
Lemma add_intersection_point_sound (R : cell -> Road -> Prop) (road : Road)
  (p : cell) (d : IntersectionMap) :
  let P := fun e : cell * Intersection =>
             position (snd e) = fst e
             /\ connected_roads (snd e) <> []
             /\ forall r, In r (connected_roads (snd e)) -> R (fst e) r in
  R p road -> NoDup (map fst d) -> Forall P d ->
  NoDup (map fst (add_intersection_point road p d))
  /\ Forall P (add_intersection_point road p d)
  /\ listings (add_intersection_point road p d) = S (listings d).
Proof.
  intros P HR Hnd Hall. unfold add_intersection_point.
  assert (Hstep : forall v, position v = p ->
            (forall r, In r (connected_roads v) -> R p r) ->
            P (p, add_road v road)).
  { intros v Hpos Hv. unfold P. cbn [fst snd add_road position
                                     connected_roads].
    split; [exact Hpos|]. split.
    - intros E. apply app_eq_nil in E. destruct E as [_ E]. discriminate.
    - intros r Hr. apply in_app_or in Hr.
      destruct Hr as [Hr|[<-|[]]]; auto. }
  destruct (dict_get d p) as [i|] eqn:E.
  - assert (Hin : In p (map fst d)).
    { destruct (dict_get_In d p) as [H|H]; [exact H | congruence]. }
    rewrite dict_update_keys.
    split; [exact Hnd|]. split; [|apply dict_update_listings; exact Hin].
    apply dict_update_Forall; [|exact Hall].
    intros v (Hpos & _ & Hv). apply Hstep; assumption.
  - apply dict_get_None in E.
    rewrite (dict_update_app_new p _ d _ E).
    rewrite map_app. cbn [map fst].
    split; [|split].
    + apply NoDup_app; [exact Hnd | constructor; [intros [] | constructor] |].
      intros a Ha [<-|[]]. contradiction.
    + apply Forall_app. split; [exact Hall|].
      constructor; [|constructor].
      apply Hstep; [reflexivity | intros r []].
    + rewrite listings_app. simpl. lia.
Qed.

Lemma index_sound_register (cfg : CityConfig) (road : Road)
  (net : RoadNetwork) :
  is_arterial road = true ->
  on_border cfg (r_start road) -> on_border cfg (r_end road) ->
  index_sound cfg net ->
  index_sound cfg (add_intersections_for_road road (append_road road net)).
Proof.
  intros Ha Hs He (Hnd & Hall & Hcount).
  unfold index_sound, entry_sound.
  cbn [intersections roads add_intersections_for_road append_road].
  unfold for_each. cbn [fold_left].
  set (R := fun (p : cell) (r : Road) =>
              In r (roads net ++ [road]) /\ is_arterial r = true
              /\ on_border cfg (r_start r) /\ on_border cfg (r_end r)
              /\ (p = r_start r \/ p = r_end r)).
  assert (Hroad : forall p, p = r_start road \/ p = r_end road -> R p road).
  { intros p Hp. unfold R. split; [apply in_or_app; right; left; reflexivity|].
    auto. }
  assert (Hall' : Forall (fun e : cell * Intersection =>
             position (snd e) = fst e
             /\ connected_roads (snd e) <> []
             /\ forall r, In r (connected_roads (snd e)) -> R (fst e) r)
                         (intersections net)).
  { eapply Forall_impl; [|exact Hall].
    intros e (H1 & H2 & H3). split; [exact H1|]. split; [exact H2|].
    intros r Hr. destruct (H3 r Hr) as (Hin & Hrest).
    split; [apply in_or_app; left; exact Hin | exact Hrest]. }
  destruct (add_intersection_point_sound R road (r_start road)
              (intersections net) (Hroad _ (or_introl eq_refl)) Hnd Hall')
    as (Hnd1 & Hall1 & Hc1).
  destruct (add_intersection_point_sound R road (r_end road)
              _ (Hroad _ (or_intror eq_refl)) Hnd1 Hall1)
    as (Hnd2 & Hall2 & Hc2).
  split; [exact Hnd2|]. split; [exact Hall2|].
  rewrite Hc2, Hc1, Hcount, filter_app, length_app.
  cbn [filter]. rewrite Ha. cbn [List.length]. lia.
Qed.

Lemma index_sound_local (cfg : CityConfig) (road : Road) (net : RoadNetwork) :
  road_type road = "local"%string ->
  index_sound cfg net -> index_sound cfg (append_road road net).
Proof.
  intros Hl (Hnd & Hall & Hcount).
  unfold index_sound. cbn [intersections roads append_road].
  split; [exact Hnd|]. split.
  - eapply Forall_impl; [|exact Hall].
    intros e (H1 & H2 & H3). split; [exact H1|]. split; [exact H2|].
    intros r Hr. destruct (H3 r Hr) as (Hin & Hrest).
    cbn [roads append_road].
    split; [apply in_or_app; left; exact Hin | exact Hrest].
  - assert (Hf : is_arterial road = false)
      by (unfold is_arterial; rewrite Hl; reflexivity).
    rewrite Hcount, filter_app, length_app. cbn [filter].
    rewrite Hf. cbn [List.length]. lia.
Qed.

(** Walks down a generator that registers what it appends or appends local
    roads; what is left is that a registered road is arterial and runs
    between border points. *)
Ltac keep_sound :=
  lazymatch goal with
  | |- index_sound _ (for_each _ _ _) =>
    apply for_each_inv; [keep_sound | intros ? ? ? ?; keep_sound]
  | |- index_sound _ (add_intersections_for_road ?r (append_road ?r _)) =>
    apply index_sound_register;
    [reflexivity | unfold on_border; cbn; tauto | unfold on_border; cbn; tauto
     | keep_sound]
  | |- index_sound _ (append_road _ _) =>
    apply index_sound_local; [reflexivity | keep_sound]
  | |- index_sound _ (if ?b then _ else _) => destruct b; keep_sound
  | |- _ => try assumption
  end.

Lemma generated_index_sound (cfg : CityConfig) (zs : list Zone) :
  index_sound cfg (generate_roads cfg zs (new_RoadNetwork cfg)).
Proof.
  assert (H0 : index_sound cfg (new_RoadNetwork cfg)).
  { split; [constructor|]. split; [constructor | reflexivity]. }
  assert (H1 : index_sound cfg (generate_main_roads cfg (new_RoadNetwork cfg)))
    by (unfold generate_main_roads; cbv zeta; keep_sound).
  assert (H2 : index_sound cfg
                 (generate_secondary_roads cfg
                    (generate_main_roads cfg (new_RoadNetwork cfg))))
    by (unfold generate_secondary_roads; cbv zeta; keep_sound).
  assert (H3 : index_sound cfg
                 (generate_local_roads cfg zs
                    (generate_secondary_roads cfg
                       (generate_main_roads cfg (new_RoadNetwork cfg))))).
  { unfold generate_local_roads. apply for_each_inv; [exact H2|].
    intros zone s _ Hs.
    unfold generate_zone_roads, generate_residential_roads,
      generate_commercial_roads, generate_business_roads,
      generate_industrial_roads, generate_park_roads, generate_leisure_roads;
      cbv zeta.
    destruct (zone_type zone); keep_sound. }
  unfold generate_roads. revert H3.
  generalize (generate_local_roads cfg zs
                (generate_secondary_roads cfg
                   (generate_main_roads cfg (new_RoadNetwork cfg)))).
  induction zs as [|zone1 rest IH]; intros s Hs; simpl; [exact Hs|].
  apply IH. unfold add_zone_connector. keep_sound.
Qed.

(** X7: in a generated city the intersection dict indexes the ends of the
    main and secondary roads and nothing else: every road of the network
    that is not a local road is listed by the entry of its start and by the
    entry of its end; every entry is stored under its own position and lists
    at least one road; every road it lists is a road of the network that is
    not a local road and has the position as one of its ends; and the
    listings of all entries number twice the roads that are not local
    roads. *)
Theorem intersections_index_arterial_ends (numpy noise : bool)
  (md : Z -> Z -> Seed -> fval) (seeds : list (Z * Seed)) (cfg : CityConfig)
  (rng rng' : Rng) (city : CityGenerator) :
  valid_config cfg ->
  generate_city numpy noise md seeds cfg rng = Ok (city, rng') ->
  NoDup (map fst (intersections (road_network city)))
  /\ (forall r, In r (roads (road_network city)) ->
        road_type r <> "local"%string ->
        forall p, p = r_start r \/ p = r_end r ->
          exists i, In (p, i) (intersections (road_network city))
                    /\ In r (connected_roads i))
  /\ (forall p i, In (p, i) (intersections (road_network city)) ->
        position i = p
        /\ connected_roads i <> []
        /\ forall r, In r (connected_roads i) ->
             In r (roads (road_network city))
             /\ road_type r <> "local"%string
             /\ (p = r_start r \/ p = r_end r))
  /\ listings (intersections (road_network city))
     = (2 * List.length (filter is_arterial (roads (road_network city))))%nat.
Proof.
  intros _ Hgen. apply generate_city_inv in Hgen.
  destruct Hgen as (zs & net & out & _ & Hn & _ & ->).
  cbn [road_network].
  destruct (generate_road_network_ok cfg zs) as (net' & Hn' & Hr & Hi & _).
  rewrite Hn in Hn'. inversion Hn'; subst net'. rewrite Hr, Hi.
  destruct (generated_index_sound cfg zs) as (Hnd & Hall & Hcount).
  split; [exact Hnd|]. split.
  { intros r Hin Hty p Hp.
    destruct (arterial_roads_indexed cfg zs r Hin Hty p Hp) as (i & Hg & Hl).
    exists i. split; [apply dict_get_Some; exact Hg | exact Hl]. }
  split; [|exact Hcount].
  intros p i Hin. rewrite Forall_forall in Hall.
  destruct (Hall (p, i) Hin) as (H1 & H2 & H3). cbn [fst snd] in *.
  split; [exact H1|]. split; [exact H2|].
  intros r Hr'. destruct (H3 r Hr') as (Ha & Hb & _ & _ & Hc).
  split; [exact Ha|]. split; [|exact Hc].
  intros E. unfold is_arterial in Hb. rewrite E in Hb. discriminate.
Qed.

Lemma intersections_index_arterial_ends_witness :
  valid_config village_cfg /\
  exists city rng',
    generate_city true true squared_distance village_seeds village_cfg rng0
    = Ok (city, rng')
    /\ map fst (intersections (road_network city))
       = [(0, 0); (0, 19); (19, 0)]
    /\ listings (intersections (road_network city)) = 4%nat
    /\ NoDup (map fst (intersections (road_network city)))
    /\ (forall r, In r (roads (road_network city)) ->
          road_type r <> "local"%string ->
          forall p, p = r_start r \/ p = r_end r ->
            exists i, In (p, i) (intersections (road_network city))
                      /\ In r (connected_roads i))
    /\ (forall p i, In (p, i) (intersections (road_network city)) ->
          position i = p
          /\ connected_roads i <> []
          /\ forall r, In r (connected_roads i) ->
               In r (roads (road_network city))
               /\ road_type r <> "local"%string
               /\ (p = r_start r \/ p = r_end r))
    /\ listings (intersections (road_network city))
       = (2 * List.length
                (filter is_arterial (roads (road_network city))))%nat.
Proof.
  assert (Hc : valid_config village_cfg) by (unfold valid_config; simpl; lia).
  split; [exact Hc|].
  eexists. eexists. split; [vm_compute; reflexivity|].
  split; [vm_compute; reflexivity|].
  split; [vm_compute; reflexivity|].
  eapply (intersections_index_arterial_ends true true squared_distance
            village_seeds village_cfg rng0);
    [exact Hc | vm_compute; reflexivity].
Defined.

(** X8: in a generated city every intersection lies on the border of the
    plane: on the column 0 or [width - 1], or on the row 0 or [height - 1].
    No entry is made at a point inside the plane. *)
Theorem intersections_lie_on_the_border (numpy noise : bool)
  (md : Z -> Z -> Seed -> fval) (seeds : list (Z * Seed)) (cfg : CityConfig)
  (rng rng' : Rng) (city : CityGenerator) :
  valid_config cfg ->
  generate_city numpy noise md seeds cfg rng = Ok (city, rng') ->
  forall p i, In (p, i) (intersections (road_network city)) ->
    on_border cfg p /\ on_border cfg (position i).
Proof.
  intros _ Hgen p i Hin. apply generate_city_inv in Hgen.
  destruct Hgen as (zs & net & out & _ & Hn & _ & ->).
  cbn [road_network] in Hin.
  destruct (generate_road_network_ok cfg zs) as (net' & Hn' & _ & Hi & _).
  rewrite Hn in Hn'. inversion Hn'; subst net'. rewrite Hi in Hin.
  destruct (generated_index_sound cfg zs) as (_ & Hall & _).
  rewrite Forall_forall in Hall.
  destruct (Hall (p, i) Hin) as (H1 & H2 & H3). cbn [fst snd] in *.
  rewrite H1.
  destruct (connected_roads i) as [|r rest]; [congruence|].
  destruct (H3 r (or_introl eq_refl)) as (_ & _ & Hs & He & [-> | ->]);
    auto.
Qed.

Lemma intersections_lie_on_the_border_witness :
  valid_config village_cfg /\
  exists city rng',
    generate_city true true squared_distance village_seeds village_cfg rng0
    = Ok (city, rng')
    /\ dict_get (intersections (road_network city)) (0, 19) <> None
    /\ forall p i, In (p, i) (intersections (road_network city)) ->
         on_border village_cfg p /\ on_border village_cfg (position i).
Proof.
  assert (Hc : valid_config village_cfg) by (unfold valid_config; simpl; lia).
  split; [exact Hc|].
  eexists. eexists. split; [vm_compute; reflexivity|].
  split; [vm_compute; discriminate|].
  eapply (intersections_lie_on_the_border true true squared_distance
            village_seeds village_cfg rng0);
    [exact Hc | vm_compute; reflexivity].
Defined.

(** ** Where the buildings stand *)

Lemma same_zone_refl (z : Zone) : same_zone z z.
Proof. unfold same_zone. tauto. Qed.

Lemma same_zone_trans (a b c : Zone) :
  same_zone a b -> same_zone b c -> same_zone a c.
Proof. unfold same_zone. intuition congruence. Qed.

Lemma placed_in_same_zone (cfg : CityConfig) (net : RoadNetwork)
  (z z' : Zone) (b : Building) :
  same_zone z z' -> placed_in cfg net z' b -> placed_in cfg net z b.
Proof.
  unfold same_zone, placed_in, stands_in. intros (Ht & Hx & Hy & Hw & Hh & _).
  rewrite Ht, Hx, Hy, Hw, Hh. tauto.
Qed.

Lemma offsets_margin_In (a b c d dx dy : Z) :
  a <= dx < b -> c <= dy < d -> In (dx, dy) (offsets a b c d).
Proof.
  intros Hx Hy. unfold offsets. apply in_flat_map.
  exists dx. split; [apply py_range_step1_In; exact Hx|].
  apply in_map. apply py_range_step1_In. exact Hy.
Qed.

(** A candidate is accepted only when no road cell is less than five cells
    away from it on both axes. *)
Lemma can_place_building_margin (cfg : CityConfig) (net : RoadNetwork)
  (x y : Z) (size : Z * Z) :
  0 <= fst size -> 0 <= snd size ->
  can_place_building cfg net x y size = Ok true ->
  forall dx dy, -5 < dx < 5 -> -5 < dy < 5 ->
    is_road cfg net (x + dx) (y + dy) = Ok false.
Proof.
  unfold can_place_building. intros Hw Hh H dx dy Hx Hy.
  destruct (any_offset (fun o => is_road cfg net (x + fst o) (y + snd o))
                       (offsets 0 (fst size) 0 (snd size)))
    as [[|]|e] eqn:E; cbn [rbind] in H; try discriminate.
  cbv zeta in H.
  match type of H with
  | rbind (any_offset ?t ?l) _ = _ =>
    destruct (any_offset t l) as [[|]|e] eqn:E2; cbn [rbind negb] in H;
      try discriminate
  end.
  pose proof (any_offset_false _ _ E2 (dx, dy)) as Hoff.
  cbn [fst snd] in Hoff.
  assert (Hin : In (dx, dy) (offsets (-5) (fst size + 5) (-5) (snd size + 5)))
    by (apply offsets_margin_In; lia).
  specialize (Hoff Hin).
  destruct (is_road cfg net (x + dx) (y + dy)) as [b|e];
    cbn [rbind] in Hoff; [|discriminate].
  replace (Z.abs dx <? 5) with true in Hoff
    by (symmetry; apply Z.ltb_lt; lia).
  replace (Z.abs dy <? 5) with true in Hoff
    by (symmetry; apply Z.ltb_lt; lia).
  rewrite !andb_true_r in Hoff. exact Hoff.
Qed.

Lemma min_building_size_pos (t : ZoneType) :
  0 < fst (get_min_building_size t) /\ 0 < snd (get_min_building_size t).
Proof. destruct t; cbn; lia. Qed.


Lemma extends_refl (cfg : CityConfig) (net : RoadNetwork)
  (st : list Building * Zone) : extends cfg net st st.
Proof.
  exists []. rewrite !app_nil_r.
  split; [reflexivity|]. split; [reflexivity|].
  split; [apply same_zone_refl | constructor].
Qed.

Lemma extends_trans (cfg : CityConfig) (net : RoadNetwork)
  (a b c : list Building * Zone) :
  extends cfg net a b -> extends cfg net b c -> extends cfg net a c.
Proof.
  intros (l1 & Hb1 & Hz1 & Hs1 & Hp1) (l2 & Hb2 & Hz2 & Hs2 & Hp2).
  exists (l1 ++ l2). rewrite Hb2, Hb1, Hz2, Hz1, !app_assoc.
  split; [reflexivity|]. split; [reflexivity|].
  split; [eapply same_zone_trans; eauto|].
  apply Forall_app. split; [exact Hp1|].
  eapply Forall_impl; [|exact Hp2].
  intros b0. apply placed_in_same_zone. exact Hs1.
Qed.

Lemma place_candidate_extends (numpy : bool) (cfg : CityConfig)
  (net : RoadNetwork) (x y : Z) (st st' : list Building * Zone) (r r' : Rng) :
  zone_type (snd st) <> PARKS ->
  z_x (snd st) + get_building_spacing (zone_type (snd st)) <= x
  < z_x (snd st) + z_width (snd st)
    - fst (get_min_building_size (zone_type (snd st))) ->
  z_y (snd st) + get_building_spacing (zone_type (snd st)) <= y
  < z_y (snd st) + z_height (snd st)
    - snd (get_min_building_size (zone_type (snd st))) ->
  place_candidate numpy cfg net x y st r = Ok (st', r') ->
  extends cfg net st st'.
Proof.
  destruct st as [bs zone]. cbn [fst snd]. intros Hnp Hx Hy H.
  unfold place_candidate in H.
  apply bind_Ok in H. destruct H as (ok & r1 & Hplace & H).
  apply lift_Ok in Hplace. destruct Hplace as [Hplace _].
  destruct ok;
    [|apply ret_Ok in H; destruct H as [-> _]; apply extends_refl].
  apply bind_Ok in H. destruct H as (w & r2 & Hw & H).
  apply bind_Ok in H. destruct H as (h & r3 & Hh & H).
  apply bind_Ok in H. destruct H as (fl & r4 & _ & H).
  apply bind_Ok in H. destruct H as (u & r5 & _ & H).
  apply randint_range in Hw, Hh.
  destruct (Qltb u (density zone));
    apply ret_Ok in H; destruct H as [-> _]; [|apply extends_refl].
  eexists. cbn [fst snd z_buildings].
  split; [reflexivity|]. split; [reflexivity|].
  split; [unfold same_zone; cbn; tauto|].
  constructor; [|constructor].
  destruct (min_building_size_pos (zone_type zone)) as [Hpw Hph].
  unfold placed_in, stands_in, origin_clear.
  cbn [b_zone_type b_x b_y b_width b_height new_Building].
  split.
  { split; [reflexivity|]. split; [exact Hnp|].
    split; [lia|]. split; [lia|]. split; [lia|]. split; [lia|].
    split; lia. }
  apply (can_place_building_margin cfg net x y
           (get_min_building_size (zone_type zone)));
    [lia | lia | exact Hplace].
Qed.

Lemma mfold_extends {A : Type} (cfg : CityConfig) (net : RoadNetwork)
  (l : list A) (body : A -> list Building * Zone -> M (list Building * Zone)) :
  (forall a s r s' r', In a l -> body a s r = Ok (s', r') ->
     extends cfg net s s') ->
  forall s r s' r', mfold l body s r = Ok (s', r') -> extends cfg net s s'.
Proof.
  intros Hbody s r s' r' H.
  apply (mfold_inv (extends cfg net s) l body) with (s := s) (r := r) (r' := r');
    [|exact H|apply extends_refl].
  intros a s0 r0 s0' r0' Ha Hb Hs0.
  eapply extends_trans; [exact Hs0|]. eapply Hbody; eauto.
Qed.

Lemma generate_zone_buildings_extends (numpy : bool) (cfg : CityConfig)
  (net : RoadNetwork) (st st' : list Building * Zone) (r r' : Rng) :
  generate_zone_buildings numpy cfg net st r = Ok (st', r') ->
  extends cfg net st st'
  /\ (zone_type (snd st) = PARKS -> st' = st).
Proof.
  unfold generate_zone_buildings. intros H.
  assert (Hloop : zone_type (snd st) <> PARKS ->
    mfold (py_range (z_y (snd st) + get_building_spacing (zone_type (snd st)))
                    (z_y (snd st) + z_height (snd st)
                     - snd (get_min_building_size (zone_type (snd st))))
                    (snd (get_max_building_size (zone_type (snd st)))
                     + get_building_spacing (zone_type (snd st))))
      (fun y st0 =>
         mfold (py_range
                  (z_x (snd st) + get_building_spacing (zone_type (snd st)))
                  (z_x (snd st) + z_width (snd st)
                   - fst (get_min_building_size (zone_type (snd st))))
                  (fst (get_max_building_size (zone_type (snd st)))
                   + get_building_spacing (zone_type (snd st))))
           (fun x st1 => place_candidate numpy cfg net x y st1) st0) st r
    = Ok (st', r') ->
    extends cfg net st st').
  { intros Hnp Hm.
    apply (mfold_inv (extends cfg net st) _ _) with (2 := Hm);
      [|apply extends_refl].
    intros y s0 r0 s0' r0' Hy Hrow Hs0.
    apply (mfold_inv (extends cfg net st) _ _) with (2 := Hrow);
      [|exact Hs0].
    intros x s1 r1 s1' r1' Hx Hcand Hs1.
    eapply extends_trans; [exact Hs1|].
    destruct Hs1 as (_ & _ & _ & (Ht & Ex & Ey & Ew & Eh & _) & _).
    apply py_range_In in Hx, Hy.
    eapply place_candidate_extends; [| | |exact Hcand];
      rewrite ?Ht, ?Ex, ?Ey, ?Ew, ?Eh; [exact Hnp | lia | lia]. }
  destruct (zone_type (snd st)) eqn:Et;
    try (split; [apply Hloop; [discriminate | exact H] | discriminate]).
  apply ret_Ok in H. destruct H as [-> _].
  split; [apply extends_refl | reflexivity].
Qed.

Lemma generate_buildings_zones (numpy : bool) (cfg : CityConfig)
  (net : RoadNetwork) :
  forall (todo : list Zone) (bs : list Building)
         (out : list Building * list Zone) (r r' : Rng),
    generate_buildings numpy cfg net todo bs r = Ok (out, r') ->
    Forall (fun z => z_buildings z = []) todo ->
    Forall2 (fun z z' =>
               same_zone z z'
               /\ Forall (placed_in cfg net z') (z_buildings z')
               /\ (zone_type z' = PARKS -> z_buildings z' = []))
            todo (snd out)
    /\ fst out = bs ++ List.concat (map z_buildings (snd out)).
Proof.
  induction todo as [|zone rest IH]; intros bs out r r' H Hfresh;
    cbn [generate_buildings] in H.
  - apply ret_Ok in H. destruct H as [-> _]. cbn.
    split; [constructor | rewrite app_nil_r; reflexivity].
  - apply bind_Ok in H. destruct H as (st & r1 & Hz & H).
    apply bind_Ok in H. destruct H as (out1 & r2 & Hrest & H).
    apply ret_Ok in H. destruct H as [-> _]. cbn [fst snd].
    inversion Hfresh as [|? ? Hzone Hrest']; subst.
    destruct (IH _ _ _ _ Hrest Hrest') as [Hall Hbs].
    destruct (generate_zone_buildings_extends numpy cfg net _ _ _ _ Hz)
      as [(added & Hb & Hzb & Hsame & Hplaced) Hparks].
    cbn [fst snd] in *. rewrite Hzone in Hzb. cbn [app] in Hzb.
    split.
    + constructor; [|exact Hall].
      split; [exact Hsame|]. split.
      * rewrite Hzb. eapply Forall_impl; [|exact Hplaced].
        intros b Hp. destruct Hp as [Hs Ho]. split; [|exact Ho].
        unfold stands_in in *. destruct Hsame as (Ht & Ex & Ey & Ew & Eh & _).
        rewrite Ht, Ex, Ey, Ew, Eh. exact Hs.
      * intros Hp. destruct Hsame as (Ht & _). rewrite Ht in Hp.
        rewrite (Hparks Hp). exact Hzone.
    + cbn [map List.concat]. rewrite Hbs, Hb, Hzb, app_assoc. reflexivity.
Qed.

(** The zones of the partitioner lie in the plane and hold no building. *)
Lemma generate_zones_fresh (numpy noise : bool)
  (md : Z -> Z -> Seed -> fval) (cfg : CityConfig)
  (seeds : list (Z * Seed)) (zs : list Zone) :
  generate_zones numpy noise md cfg seeds = Ok zs ->
  Forall (zone_in_plane cfg) zs /\ Forall (fun z => z_buildings z = []) zs.
Proof.
  intros Hr.
  pose proof (generate_zones_in_plane numpy noise md cfg seeds zs Hr)
    as Hplane.
  split; [exact Hplane|].
  apply generate_zones_inv in Hr. destruct Hr as (g & _ & Hr).
  unfold create_zone_objects in Hr.
  destruct (create_zone_loop_more cfg _ _ _ _ _ Hr)
    as (more & E & _ & Hall & _).
  cbn [app] in E. subst more.
  eapply Forall_impl; [|exact Hall]. intros z (_ & _ & H). exact H.
Qed.

Lemma same_zone_in_plane (cfg : CityConfig) (z z' : Zone) :
  same_zone z z' -> zone_in_plane cfg z -> zone_in_plane cfg z'.
Proof.
  unfold same_zone, zone_in_plane. intros (_ & Ex & Ey & Ew & Eh & _).
  rewrite Ex, Ey, Ew, Eh. tauto.
Qed.

(** The zones and the buildings of a generated city. *)
Lemma generated_buildings_placed (numpy noise : bool) (md : Z -> Z -> Seed -> fval)
  (seeds : list (Z * Seed)) (cfg : CityConfig) (rng rng' : Rng)
  (city : CityGenerator) :
  generate_city numpy noise md seeds cfg rng = Ok (city, rng') ->
  exists zs,
    generate_zones numpy noise md cfg seeds = Ok zs
    /\ Forall2 same_zone zs (zones city)
    /\ Forall (fun z =>
                 zone_in_plane cfg z
                 /\ Forall (placed_in cfg (road_network city) z)
                           (z_buildings z)
                 /\ (zone_type z = PARKS -> z_buildings z = []))
              (zones city)
    /\ buildings city = List.concat (map z_buildings (zones city)).
Proof.
  intros H. apply generate_city_inv in H.
  destruct H as (zs & net & out & Hz & _ & Hb & ->).
  cbn [zones buildings road_network].
  exists zs. split; [exact Hz|].
  destruct (generate_zones_fresh numpy noise md cfg seeds zs Hz) as [Hplane Hfresh].
  destruct (generate_buildings_zones numpy cfg net zs [] out rng rng' Hb Hfresh)
    as [Hall Hbs].
  split; [|split; [|exact Hbs]].
  - eapply Forall2_impl; [|exact Hall]. intros a b (Hs & _). exact Hs.
  - clear Hbs Hb Hz Hfresh. revert Hplane.
    induction Hall as [|z z' l l' (Hs & Hp & Hk) _ IH]; intros Hplane;
      [constructor|].
    inversion Hplane; subst.
    constructor; [|apply IH; assumption].
    split; [eapply same_zone_in_plane; eauto | auto].
Qed.

Lemma building_spacing_pos (t : ZoneType) : 0 < get_building_spacing t.
Proof. destruct t; cbn; lia. Qed.

(** A building of the city is in the list of one of its zones, where it was
    placed. *)
Lemma building_zone (numpy noise : bool) (md : Z -> Z -> Seed -> fval)
  (seeds : list (Z * Seed)) (cfg : CityConfig) (rng rng' : Rng)
  (city : CityGenerator) (b : Building) :
  generate_city numpy noise md seeds cfg rng = Ok (city, rng') ->
  In b (buildings city) ->
  exists z,
    In z (zones city) /\ In b (z_buildings z)
    /\ zone_in_plane cfg z /\ placed_in cfg (road_network city) z b.
Proof.
  intros Hgen Hb.
  destruct (generated_buildings_placed numpy noise md seeds cfg rng rng' city Hgen)
    as (zs & _ & _ & Hall & Hbs).
  rewrite Hbs in Hb. apply in_concat in Hb. destruct Hb as (l & Hl & Hb).
  apply in_map_iff in Hl. destruct Hl as (z & <- & Hz).
  rewrite Forall_forall in Hall. destruct (Hall z Hz) as (Hp & Hpl & _).
  rewrite Forall_forall in Hpl.
  exists z. auto.
Qed.

(** X9: every building of a generated city stands in a zone of the city that
    lists it: it has the zone's type, which is not PARKS, starts at least the
    spacing of the type after the zone's origin, has sides between the
    minimum and the maximum size of the type, and ends inside the zone's
    rectangle, hence inside the plane. *)
Theorem buildings_stand_in_their_zone (numpy noise : bool)
  (md : Z -> Z -> Seed -> fval) (seeds : list (Z * Seed)) (cfg : CityConfig)
  (rng rng' : Rng) (city : CityGenerator) :
  valid_config cfg ->
  generate_city numpy noise md seeds cfg rng = Ok (city, rng') ->
  forall b, In b (buildings city) ->
    exists z,
      In z (zones city) /\ In b (z_buildings z) /\ stands_in z b
      /\ 0 < b_x b /\ 0 < b_y b
      /\ b_x b + b_width b <= cfg_width cfg
      /\ b_y b + b_height b <= cfg_height cfg.
Proof.
  intros _ Hgen b Hb.
  destruct (building_zone numpy noise md seeds cfg rng rng' city b Hgen Hb)
    as (z & Hz & Hbz & Hplane & Hs & _).
  exists z. split; [exact Hz|]. split; [exact Hbz|]. split; [exact Hs|].
  pose proof (building_spacing_pos (zone_type z)) as Hsp.
  unfold stands_in in Hs. unfold zone_in_plane in Hplane. lia.
Qed.

Lemma buildings_stand_in_their_zone_witness :
  valid_config village_cfg /\
  exists city rng',
    generate_city false false squared_distance village_seeds village_cfg rng0
    = Ok (city, rng')
    /\ buildings city = [new_Building 5 5 8 10 1 RESIDENTIAL]
    /\ forall b, In b (buildings city) ->
         exists z,
           In z (zones city) /\ In b (z_buildings z) /\ stands_in z b
           /\ 0 < b_x b /\ 0 < b_y b
           /\ b_x b + b_width b <= cfg_width village_cfg
           /\ b_y b + b_height b <= cfg_height village_cfg.
Proof.
  assert (Hc : valid_config village_cfg) by (unfold valid_config; simpl; lia).
  split; [exact Hc|].
  eexists. eexists. split; [vm_compute; reflexivity|].
  split; [reflexivity|].
  eapply (buildings_stand_in_their_zone false false squared_distance village_seeds
            village_cfg rng0); [exact Hc | vm_compute; reflexivity].
Defined.

(** X10: the building list of a generated city is the lists of its zones,
    one after the other in the order of the zones; a PARKS zone lists no
    building; and the zones are those of the partitioner, in the same order
    and unchanged but for their building lists. *)
Theorem city_buildings_are_the_zones_buildings (numpy noise : bool)
  (md : Z -> Z -> Seed -> fval) (seeds : list (Z * Seed)) (cfg : CityConfig)
  (rng rng' : Rng) (city : CityGenerator) :
  valid_config cfg ->
  generate_city numpy noise md seeds cfg rng = Ok (city, rng') ->
  buildings city = List.concat (map z_buildings (zones city))
  /\ (forall z, In z (zones city) -> zone_type z = PARKS ->
        z_buildings z = [])
  /\ exists zs,
       generate_zones numpy noise md cfg seeds = Ok zs
       /\ Forall2 same_zone zs (zones city).
Proof.
  intros _ Hgen.
  destruct (generated_buildings_placed numpy noise md seeds cfg rng rng' city Hgen)
    as (zs & Hz & Hsame & Hall & Hbs).
  split; [exact Hbs|]. split.
  - intros z Hin Hp. rewrite Forall_forall in Hall.
    destruct (Hall z Hin) as (_ & _ & Hk). exact (Hk Hp).
  - exists zs. split; assumption.
Qed.

Lemma city_buildings_are_the_zones_buildings_witness :
  valid_config village_cfg /\
  exists city rng',
    generate_city false false squared_distance village_seeds village_cfg rng0
    = Ok (city, rng')
    /\ map z_buildings (zones city)
       = [[new_Building 5 5 8 10 1 RESIDENTIAL]]
    /\ buildings city = List.concat (map z_buildings (zones city))
    /\ (forall z, In z (zones city) -> zone_type z = PARKS ->
          z_buildings z = [])
    /\ exists zs,
         generate_zones false false squared_distance village_cfg
           village_seeds = Ok zs
         /\ Forall2 same_zone zs (zones city).
Proof.
  assert (Hc : valid_config village_cfg) by (unfold valid_config; simpl; lia).
  split; [exact Hc|].
  eexists. eexists. split; [vm_compute; reflexivity|].
  split; [reflexivity|].
  eapply (city_buildings_are_the_zones_buildings false false squared_distance
            village_seeds village_cfg rng0);
    [exact Hc | vm_compute; reflexivity].
Defined.

(** X11: in a generated city no road cell is less than five cells away, on
    both axes, from the origin of a building: [is_road] answers [False] on
    the nine by nine square centred on the origin. *)
Theorem building_origins_keep_off_the_roads (numpy noise : bool)
  (md : Z -> Z -> Seed -> fval) (seeds : list (Z * Seed)) (cfg : CityConfig)
  (rng rng' : Rng) (city : CityGenerator) :
  valid_config cfg ->
  generate_city numpy noise md seeds cfg rng = Ok (city, rng') ->
  forall b, In b (buildings city) ->
  forall dx dy, -5 < dx < 5 -> -5 < dy < 5 ->
    is_road cfg (road_network city) (b_x b + dx) (b_y b + dy) = Ok false.
Proof.
  intros _ Hgen b Hb dx dy Hdx Hdy.
  destruct (building_zone numpy noise md seeds cfg rng rng' city b Hgen Hb)
    as (z & _ & _ & _ & _ & Hclear).
  apply Hclear; assumption.
Qed.

Lemma building_origins_keep_off_the_roads_witness :
  valid_config village_cfg /\
  exists city rng',
    generate_city false false squared_distance village_seeds village_cfg rng0
    = Ok (city, rng')
    /\ buildings city = [new_Building 5 5 8 10 1 RESIDENTIAL]
    /\ is_road village_cfg (road_network city) 0 5 = Ok true
    /\ forall b, In b (buildings city) ->
       forall dx dy, -5 < dx < 5 -> -5 < dy < 5 ->
         is_road village_cfg (road_network city) (b_x b + dx) (b_y b + dy)
         = Ok false.
Proof.
  assert (Hc : valid_config village_cfg) by (unfold valid_config; simpl; lia).
  split; [exact Hc|].
  eexists. eexists. split; [vm_compute; reflexivity|].
  split; [reflexivity|].
  split; [vm_compute; reflexivity|].
  eapply (building_origins_keep_off_the_roads false false squared_distance
            village_seeds village_cfg rng0);
    [exact Hc | vm_compute; reflexivity].
Defined.

(** ** The generation returns *)













(** ** The seed a cell is given to *)

(** X13: when the assignment loop returns, every cell of the zone grid holds
    the id of the first seed of least modified distance to the cell: that
    seed is below infinity, no seed before it in the dict is as near (each
    is farther, or at a nan) and no seed after it is nearer.  A cell with no
    seed below infinity holds the initial id 1. *)
Theorem cells_go_to_the_nearest_seed (numpy noise : bool)
  (md : Z -> Z -> Seed -> fval) (cfg : CityConfig) (seeds : list (Z * Seed))
  (g : list (list Z)) (x y : Z) :
  assign_zone_grid numpy noise md cfg seeds = Ok g ->
  0 <= x < cfg_width cfg -> 0 <= y < cfg_height cfg ->
  (zone_at g x y = 1
   /\ forall e, In e seeds -> fval_lt (md x y (snd e)) PInf = false)
  \/ exists before s after,
       seeds = before ++ (zone_at g x y, s) :: after
       /\ fval_lt (md x y s) PInf = true
       /\ (forall e, In e before ->
             fval_le (md x y (snd e)) (md x y s) = false)
       /\ (forall e, In e after ->
             fval_lt (md x y (snd e)) (md x y s) = false).
Proof.
  intros Hg Hx Hy.
  pose proof (assign_zone_grid_at numpy noise md cfg seeds g x y Hg Hx Hy)
    as Hcell.
  apply assign_cell_inv in Hcell.
  assert (H0 : closest_so_far md x y [] PInf 1).
  { left. split; [reflexivity|]. split; [reflexivity | intros e []]. }
  destruct (find_closest_loop_spec numpy md cfg x y seeds [] PInf 1 _ H0
              Hcell) as [m' H].
  cbn [app] in H.
  destruct H as [(_ & E & Hall)|(before & s & after & E & _ & Hfin & Hb & Ha)].
  - left. auto.
  - right. exists before, s, after. auto.
Qed.

Lemma cells_go_to_the_nearest_seed_witness :
  assign_zone_grid true true squared_distance overlap_cfg overlap_seeds
  = Ok overlap_zone_grid
  /\ 0 <= 0 < cfg_width overlap_cfg
  /\ 0 <= 1 < cfg_height overlap_cfg
  /\ zone_at overlap_zone_grid 0 1 = 2
  /\ ((zone_at overlap_zone_grid 0 1 = 1
       /\ forall e, In e overlap_seeds ->
            fval_lt (squared_distance 0 1 (snd e)) PInf = false)
      \/ exists before s after,
           overlap_seeds
           = before ++ (zone_at overlap_zone_grid 0 1, s) :: after
           /\ fval_lt (squared_distance 0 1 s) PInf = true
           /\ (forall e, In e before ->
                 fval_le (squared_distance 0 1 (snd e))
                   (squared_distance 0 1 s) = false)
           /\ (forall e, In e after ->
                 fval_lt (squared_distance 0 1 (snd e))
                   (squared_distance 0 1 s) = false)).
Proof.
  assert (Hg : assign_zone_grid true true squared_distance overlap_cfg
                 overlap_seeds = Ok overlap_zone_grid)
    by (vm_compute; reflexivity).
  assert (Hx : 0 <= 0 < cfg_width overlap_cfg) by (cbn; lia).
  assert (Hy : 0 <= 1 < cfg_height overlap_cfg) by (cbn; lia).
  split; [exact Hg|]. split; [exact Hx|]. split; [exact Hy|].
  split; [vm_compute; reflexivity|].
  apply (cells_go_to_the_nearest_seed true true squared_distance overlap_cfg
           overlap_seeds overlap_zone_grid 0 1 Hg Hx Hy).
Defined.

(** ** The two road grids *)

Lemma py_range_In_iff (a b s e : Z) :
  0 < s ->
  (In e (py_range a b s) <-> a <= e < b /\ (e - a) mod s = 0).
Proof.
  intros Hs. split.
  - intros H. split; [apply (py_range_In a b s e H)|].
    unfold py_range in H.
    replace (s <=? 0) with false in H by (symmetry; apply Z.leb_gt; exact Hs).
    apply in_map_iff in H. destruct H as (k & <- & _).
    replace (a + Z.of_nat k * s - a) with (Z.of_nat k * s) by lia.
    apply Z.mod_mul. lia.
  - intros [Hb Hm]. unfold py_range.
    replace (s <=? 0) with false by (symmetry; apply Z.leb_gt; exact Hs).
    apply in_map_iff. exists (Z.to_nat ((e - a) / s)).
    assert (Hq : e - a = s * ((e - a) / s))
      by (apply Z.div_exact; [lia | exact Hm]).
    assert (Hq0 : 0 <= (e - a) / s) by (apply Z.div_pos; lia).
    split; [rewrite Z2Nat.id by exact Hq0; lia|].
    apply in_seq. split; [lia|]. cbn [plus].
    apply Z2Nat.inj_lt; [exact Hq0 | apply Z.div_pos; lia |].
    assert (Hle : (e - a) / s + 1 <= (b - a + s - 1) / s)
      by (apply Z.div_le_lower_bound; [exact Hs | nia]).
    lia.
Qed.

Lemma grows_In (Q : Road -> Prop) (net net' : RoadNetwork) (r : Road) :
  grows Q net net' -> In r (roads net) -> In r (roads net').
Proof.
  intros (_ & rs & E & _) H. rewrite E. apply in_or_app. left. exact H.
Qed.

(** A loop whose body only appends holds what one of its turns appends. *)
Lemma for_each_builds {A : Type} (l : list A)
  (body : A -> RoadNetwork -> RoadNetwork) (a : A) (r : Road) :
  (forall a' s, grows (fun _ => True) s (body a' s)) ->
  In a l -> (forall s, In r (roads (body a s))) ->
  forall net, In r (roads (for_each l body net)).
Proof.
  intros Hg Ha Hr. induction l as [|a0 l IH]; intros net; [destruct Ha|].
  change (for_each (a0 :: l) body net) with (for_each l body (body a0 net)).
  destruct Ha as [->|Ha]; [|apply IH; exact Ha].
  eapply grows_In; [|apply Hr].
  apply grows_for_each. intros a' s _. apply Hg.
Qed.

Lemma generate_main_roads_appends (cfg : CityConfig) (net : RoadNetwork) :
  grows (fun _ => True) net (generate_main_roads cfg net).
Proof. unfold generate_main_roads; cbv zeta. grow; exact I. Qed.

Lemma generate_secondary_roads_appends (cfg : CityConfig)
  (net : RoadNetwork) :
  grows (fun _ => True) net (generate_secondary_roads cfg net).
Proof. unfold generate_secondary_roads; cbv zeta. grow; exact I. Qed.

Lemma generate_local_roads_appends (cfg : CityConfig) (zs : list Zone)
  (net : RoadNetwork) :
  grows (fun _ => True) net (generate_local_roads cfg zs net).
Proof.
  unfold generate_local_roads. apply grows_for_each. intros zone s _.
  unfold generate_zone_roads, generate_residential_roads,
    generate_commercial_roads, generate_business_roads,
    generate_industrial_roads, generate_park_roads,
    generate_leisure_roads; cbv zeta.
  destruct (zone_type zone); grow; exact I.
Qed.

Lemma connect_zones_appends (cfg : CityConfig) (zs : list Zone) :
  forall net, grows (fun _ => True) net (connect_zones cfg zs net).
Proof.
  induction zs as [|zone1 rest IH]; intros s; simpl; [apply grows_refl|].
  eapply grows_trans; [|apply IH].
  unfold add_zone_connector. grow; exact I.
Qed.

(** What is built by the two grid stages is a road of the network. *)
Lemma generate_roads_keeps (cfg : CityConfig) (zs : list Zone)
  (net : RoadNetwork) (r : Road) :
  In r (roads (generate_secondary_roads cfg (generate_main_roads cfg net))) ->
  In r (roads (generate_roads cfg zs net)).
Proof.
  intros H. unfold generate_roads.
  eapply grows_In; [apply connect_zones_appends|].
  eapply grows_In; [apply generate_local_roads_appends | exact H].
Qed.

Lemma main_roads_built (cfg : CityConfig) (net : RoadNetwork) :
  0 < main_grid_size cfg ->
  (forall x, on_main_grid cfg x (cfg_width cfg) ->
     In (vertical_road cfg x (main_road_width cfg) "main")
        (roads (generate_main_roads cfg net)))
  /\ (forall y, on_main_grid cfg y (cfg_height cfg) ->
        In (horizontal_road cfg y (main_road_width cfg) "main")
           (roads (generate_main_roads cfg net))).
Proof.
  intros Hmg. unfold generate_main_roads; cbv zeta. split.
  - intros x [Hx Hm].
    eapply (grows_In (fun _ => True));
      [apply grows_for_each; intros a s _; grow; exact I|].
    apply for_each_builds with (a := x).
    + intros a s. grow; exact I.
    + apply py_range_In_iff; [exact Hmg|].
      rewrite Z.sub_0_r. split; assumption.
    + intros s.
      replace (x <? cfg_width cfg) with true
        by (symmetry; apply Z.ltb_lt; lia).
      cbn [roads add_intersections_for_road append_road].
      apply in_or_app. right. left. reflexivity.
  - intros y [Hy Hm].
    apply for_each_builds with (a := y).
    + intros a s. grow; exact I.
    + apply py_range_In_iff; [exact Hmg|].
      rewrite Z.sub_0_r. split; assumption.
    + intros s.
      replace (y <? cfg_height cfg) with true
        by (symmetry; apply Z.ltb_lt; lia).
      cbn [roads add_intersections_for_road append_road].
      apply in_or_app. right. left. reflexivity.
Qed.

Lemma secondary_mod (sg e : Z) :
  0 < sg -> ((e - sg) mod sg = 0 <-> e mod sg = 0).
Proof.
  intros H. replace (e - sg) with (e + (-1) * sg) by lia.
  rewrite Z.mod_add by lia. tauto.
Qed.

Lemma secondary_roads_built (cfg : CityConfig) (net : RoadNetwork) :
  0 < secondary_grid_size cfg ->
  (forall x, on_secondary_grid cfg x (cfg_width cfg) ->
     In (vertical_road cfg x (secondary_road_width cfg) "secondary")
        (roads (generate_secondary_roads cfg net)))
  /\ (forall y, on_secondary_grid cfg y (cfg_height cfg) ->
        In (horizontal_road cfg y (secondary_road_width cfg) "secondary")
           (roads (generate_secondary_roads cfg net))).
Proof.
  intros Hsg. unfold generate_secondary_roads; cbv zeta. split.
  - intros x (Hx & Hs & Hm).
    eapply (grows_In (fun _ => True));
      [apply grows_for_each; intros a s _; grow; exact I|].
    apply for_each_builds with (a := x).
    + intros a s. grow; exact I.
    + apply py_range_In_iff; [exact Hsg|].
      split; [exact Hx | apply secondary_mod; assumption].
    + intros s.
      replace (x mod main_grid_size cfg =? 0) with false
        by (symmetry; apply Z.eqb_neq; exact Hm).
      cbn [negb roads add_intersections_for_road append_road].
      apply in_or_app. right. left. reflexivity.
  - intros y (Hy & Hs & Hm).
    apply for_each_builds with (a := y).
    + intros a s. grow; exact I.
    + apply py_range_In_iff; [exact Hsg|].
      split; [exact Hy | apply secondary_mod; assumption].
    + intros s.
      replace (y mod main_grid_size cfg =? 0) with false
        by (symmetry; apply Z.eqb_neq; exact Hm).
      cbn [negb roads add_intersections_for_road append_road].
      apply in_or_app. right. left. reflexivity.
Qed.

(** X14: a generated city has its two road grids: a main road runs down
    every column and along every row that is a multiple of the main grid
    size, from one border of the plane to the other, and a secondary road
    down every column and along every row that is a positive multiple of the
    secondary grid size and no multiple of the main one.  The road list is
    therefore never empty. *)
Theorem grid_roads_are_built (numpy noise : bool) (md : Z -> Z -> Seed -> fval)
  (seeds : list (Z * Seed)) (cfg : CityConfig) (rng rng' : Rng)
  (city : CityGenerator) :
  valid_config cfg ->
  generate_city numpy noise md seeds cfg rng = Ok (city, rng') ->
  (forall x, on_main_grid cfg x (cfg_width cfg) ->
     In (vertical_road cfg x (main_road_width cfg) "main")
        (roads (road_network city)))
  /\ (forall y, on_main_grid cfg y (cfg_height cfg) ->
        In (horizontal_road cfg y (main_road_width cfg) "main")
           (roads (road_network city)))
  /\ (forall x, on_secondary_grid cfg x (cfg_width cfg) ->
        In (vertical_road cfg x (secondary_road_width cfg) "secondary")
           (roads (road_network city)))
  /\ (forall y, on_secondary_grid cfg y (cfg_height cfg) ->
        In (horizontal_road cfg y (secondary_road_width cfg) "secondary")
           (roads (road_network city)))
  /\ roads (road_network city) <> [].
Proof.
  intros (Hw & Hh & Hmg & Hsg) Hgen. apply generate_city_inv in Hgen.
  destruct Hgen as (zs & net & out & _ & Hn & _ & ->).
  cbn [road_network].
  destruct (generate_road_network_ok cfg zs) as (net' & Hn' & Hr & _).
  rewrite Hn in Hn'. inversion Hn'; subst net'. rewrite Hr.
  destruct (main_roads_built cfg (new_RoadNetwork cfg) Hmg) as [Hmv Hmh].
  destruct (secondary_roads_built cfg
              (generate_main_roads cfg (new_RoadNetwork cfg)) Hsg)
    as [Hsv Hsh].
  assert (Hmain : forall r,
            In r (roads (generate_main_roads cfg (new_RoadNetwork cfg))) ->
            In r (roads (generate_roads cfg zs (new_RoadNetwork cfg)))).
  { intros r H. apply generate_roads_keeps.
    eapply grows_In; [apply generate_secondary_roads_appends | exact H]. }
  split; [intros x Hx; apply Hmain, Hmv, Hx|].
  split; [intros y Hy; apply Hmain, Hmh, Hy|].
  split; [intros x Hx; apply generate_roads_keeps, Hsv, Hx|].
  split; [intros y Hy; apply generate_roads_keeps, Hsh, Hy|].
  intros E.
  assert (H0 : on_main_grid cfg 0 (cfg_width cfg))
    by (split; [lia | apply Z.mod_0_l; lia]).
  pose proof (Hmain _ (Hmv 0 H0)) as Hin. rewrite E in Hin. destruct Hin.
Qed.

Lemma grid_roads_are_built_witness :
  valid_config village_cfg /\
  exists city rng',
    generate_city true true squared_distance village_seeds village_cfg rng0
    = Ok (city, rng')
    /\ on_main_grid village_cfg 0 (cfg_width village_cfg)
    /\ (forall x, on_main_grid village_cfg x (cfg_width village_cfg) ->
          In (vertical_road village_cfg x (main_road_width village_cfg) "main")
             (roads (road_network city)))
    /\ (forall y, on_main_grid village_cfg y (cfg_height village_cfg) ->
          In (horizontal_road village_cfg y (main_road_width village_cfg)
                              "main")
             (roads (road_network city)))
    /\ (forall x, on_secondary_grid village_cfg x (cfg_width village_cfg) ->
          In (vertical_road village_cfg x (secondary_road_width village_cfg)
                            "secondary")
             (roads (road_network city)))
    /\ (forall y, on_secondary_grid village_cfg y (cfg_height village_cfg) ->
          In (horizontal_road village_cfg y
                              (secondary_road_width village_cfg) "secondary")
             (roads (road_network city)))
    /\ roads (road_network city) <> [].
Proof.
  assert (Hc : valid_config village_cfg) by (unfold valid_config; simpl; lia).
  split; [exact Hc|].
  eexists. eexists. split; [vm_compute; reflexivity|].
  split; [split; [cbn; lia | reflexivity]|].
  eapply (grid_roads_are_built true true squared_distance village_seeds
            village_cfg rng0); [exact Hc | vm_compute; reflexivity].
Defined.

Lemma main_grid_In (cfg : CityConfig) (e bound : Z) :
  In e (py_range 0 bound (main_grid_size cfg)) -> on_main_grid cfg e bound.
Proof.
  intros H. pose proof (py_range_In _ _ _ _ H) as [Hs Hb].
  apply py_range_In_iff in H; [|exact Hs].
  rewrite Z.sub_0_r in H. exact H.
Qed.

Lemma secondary_grid_In (cfg : CityConfig) (e bound : Z) :
  In e (py_range (secondary_grid_size cfg) bound (secondary_grid_size cfg)) ->
  negb (e mod main_grid_size cfg =? 0) = true ->
  on_secondary_grid cfg e bound.
Proof.
  intros H Hm. pose proof (py_range_In _ _ _ _ H) as [Hs Hb].
  apply py_range_In_iff in H; [|exact Hs]. destruct H as [_ H].
  apply (proj1 (secondary_mod _ _ Hs)) in H.
  split; [exact Hb|]. split; [exact H|].
  apply negb_true_iff, Z.eqb_neq in Hm. exact Hm.
Qed.

Lemma generate_roads_classified (cfg : CityConfig) (zs : list Zone)
  (net : RoadNetwork) :
  grows (classified cfg) net (generate_roads cfg zs net).
Proof.
  assert (Hlocal : forall s e w, classified cfg (new_Road s e w "local"))
    by (intros s e w; unfold classified; cbn; tauto).
  unfold generate_roads.
  apply grows_trans with
    (generate_local_roads cfg zs
       (generate_secondary_roads cfg (generate_main_roads cfg net))).
  - apply grows_trans with
      (generate_secondary_roads cfg (generate_main_roads cfg net)).
    + apply grows_trans with (generate_main_roads cfg net).
      * unfold generate_main_roads; cbv zeta. grow.
        -- left. eexists. split; [apply main_grid_In; eassumption|].
           reflexivity.
        -- right. left. eexists. split; [apply main_grid_In; eassumption|].
           reflexivity.
      * unfold generate_secondary_roads; cbv zeta. grow.
        -- right. right. left. eexists.
           split; [apply secondary_grid_In; eassumption | reflexivity].
        -- right. right. right. left. eexists.
           split; [apply secondary_grid_In; eassumption | reflexivity].
    + unfold generate_local_roads. apply grows_for_each. intros zone s _.
      unfold generate_zone_roads, generate_residential_roads,
        generate_commercial_roads, generate_business_roads,
        generate_industrial_roads, generate_park_roads,
        generate_leisure_roads; cbv zeta.
      destruct (zone_type zone); grow; apply Hlocal.
  - generalize (generate_local_roads cfg zs
                  (generate_secondary_roads cfg (generate_main_roads cfg net))).
    induction zs as [|zone1 rest IH]; intros s; simpl; [apply grows_refl|].
    eapply grows_trans; [|apply IH].
    unfold add_zone_connector. grow; apply Hlocal.
Qed.

(** X15: every road of a generated city is a main road of the main grid, a
    secondary road of the secondary grid, or a local road: a road typed
    "main" or "secondary" is a full column or a full row of its grid with
    the width the configuration gives to its type, and no secondary road
    lies on a multiple of the main grid size. *)
Theorem roads_are_grid_roads_or_local (numpy noise : bool)
  (md : Z -> Z -> Seed -> fval) (seeds : list (Z * Seed)) (cfg : CityConfig)
  (rng rng' : Rng) (city : CityGenerator) :
  valid_config cfg ->
  generate_city numpy noise md seeds cfg rng = Ok (city, rng') ->
  forall r, In r (roads (road_network city)) ->
    classified cfg r
    /\ (road_type r = "main"%string \/ road_type r = "secondary"%string
        \/ road_type r = "local"%string).
Proof.
  intros _ Hgen r Hin. apply generate_city_inv in Hgen.
  destruct Hgen as (zs & net & out & _ & Hn & _ & ->).
  cbn [road_network] in Hin.
  destruct (generate_road_network_ok cfg zs) as (net' & Hn' & Hr & _).
  rewrite Hn in Hn'. inversion Hn'; subst net'. rewrite Hr in Hin.
  destruct (generate_roads_classified cfg zs (new_RoadNetwork cfg))
    as (_ & rs & E & Hall).
  rewrite E in Hin. cbn [roads new_RoadNetwork app] in Hin.
  rewrite Forall_forall in Hall. specialize (Hall r Hin).
  split; [exact Hall|].
  destruct Hall as [(x & _ & ->)|[(y & _ & ->)|[(x & _ & ->)|[(y & _ & ->)|H]]]];
    cbn; auto.
Qed.

Lemma roads_are_grid_roads_or_local_witness :
  valid_config village_cfg /\
  exists city rng',
    generate_city true true squared_distance village_seeds village_cfg rng0
    = Ok (city, rng')
    /\ List.length (roads (road_network city)) = 2%nat
    /\ forall r, In r (roads (road_network city)) ->
         classified village_cfg r
         /\ (road_type r = "main"%string \/ road_type r = "secondary"%string
             \/ road_type r = "local"%string).
Proof.
  assert (Hc : valid_config village_cfg) by (unfold valid_config; simpl; lia).
  split; [exact Hc|].
  eexists. eexists. split; [vm_compute; reflexivity|].
  split; [reflexivity|].
  eapply (roads_are_grid_roads_or_local true true squared_distance village_seeds
            village_cfg rng0); [exact Hc | vm_compute; reflexivity].
Defined.

(** ** What the queries answer *)

Lemma ZoneType_eqb_eq (a b : ZoneType) : ZoneType_eqb a b = true <-> a = b.
Proof. destruct a, b; cbn; split; intros H; congruence. Qed.

(** Counting a list type by type counts it all. *)
Lemma count_by_type {A : Type} (f : A -> ZoneType) (l : list A) :
  py_sum (map (fun t => Z.of_nat (List.length
                                    (filter (fun a => ZoneType_eqb (f a) t) l)))
              ZoneType_members)
  = Z.of_nat (List.length l).
Proof.
  unfold py_sum, ZoneType_members. cbn [map fold_left].
  induction l as [|a l IH]; [reflexivity|].
  cbn [filter]. destruct (f a); cbn [ZoneType_eqb List.length]; lia.
Qed.

Lemma fold_add_from (l : list Z) :
  forall z, fold_left Z.add l z = z + fold_left Z.add l 0.
Proof.
  induction l as [|b l IH]; intros z; cbn [fold_left]; [lia|].
  rewrite (IH (z + b)), (IH (0 + b)). lia.
Qed.

Lemma py_sum_cons (a : Z) (l : list Z) : py_sum (a :: l) = a + py_sum l.
Proof. unfold py_sum. cbn [fold_left]. rewrite fold_add_from. lia. Qed.

(** Summing a quantity over a list type by type sums it over the list. *)
Lemma sum_by_type (f : Zone -> Z) (l : list Zone) :
  py_sum (map (fun t => py_sum (map f (get_zones_by_type l t)))
              ZoneType_members)
  = py_sum (map f l).
Proof.
  unfold ZoneType_members, get_zones_by_type. cbn [map].
  induction l as [|a l IH]; [reflexivity|].
  cbn [filter map]. rewrite (py_sum_cons (f a) (map f l)), <- IH.
  destruct (zone_type a); cbn [ZoneType_eqb map];
    rewrite !py_sum_cons; change (py_sum []) with 0; lia.
Qed.

(** X16: [get_city_stats] answers the error dict exactly on a city that is
    not complete, and never raises.  On a complete city it answers one entry
    per zone type, in the order of the enumeration, and the entries add up:
    their zone counts to the number of zones, their building counts to the
    number of buildings, and their areas to the area of all the zones. *)
Theorem city_stats_add_up (city : CityGenerator) :
  match get_city_stats city with
  | StatsError _ => generation_complete city = false
  | Stats s =>
    generation_complete city = true
    /\ map fst (zone_stats s) = map zone_type_value ZoneType_members
    /\ py_sum (map (fun e => zs_zones (snd e)) (zone_stats s)) = total_zones s
    /\ py_sum (map (fun e => zs_buildings (snd e)) (zone_stats s))
       = total_buildings s
    /\ py_sum (map (fun e => zs_total_area (snd e)) (zone_stats s))
       = py_sum (map (fun z => z_width z * z_height z) (zones city))
  end.
Proof.
  unfold get_city_stats.
  destruct (generation_complete city); cbn [negb]; [|reflexivity].
  cbn [zone_stats total_zones total_buildings].
  rewrite !map_map. cbn [fst snd zone_type_stats zs_zones zs_buildings
                         zs_total_area].
  split; [reflexivity|]. split; [reflexivity|].
  split; [apply (count_by_type zone_type)|].
  split; [apply (count_by_type b_zone_type)|].
  apply sum_by_type.
Qed.

Lemma zero_length_iff (r : Road) :
  radicand (get_length r) = 0 <-> r_start r = r_end r.
Proof.
  destruct r as [[x1 y1] [x2 y2] w t].
  unfold get_length. cbn [radicand r_start r_end fst snd].
  rewrite !Z.pow_2_r. split.
  - intros H.
    pose proof (Z.square_nonneg (x2 - x1)) as Hx.
    pose proof (Z.square_nonneg (y2 - y1)) as Hy.
    assert (Ex : (x2 - x1) * (x2 - x1) = 0) by lia.
    assert (Ey : (y2 - y1) * (y2 - y1) = 0) by lia.
    apply Z.mul_eq_0 in Ex, Ey.
    assert (x2 = x1) by lia. assert (y2 = y1) by lia. congruence.
  - intros E. inversion E; subst. ring.
Qed.

(** X17: [Road.get_direction] never divides by zero.  It returns for
    every road the square root of whose squared length is computed, that
    is below 2^64 with numpy and below the first integer beyond the floats
    without: (0, 0) for a road whose two ends are the same point, and for
    any other road the two differences over the length, which is then not
    zero.  On a longer road the square root raises, TypeError with numpy
    and OverflowError without. *)
Theorem direction_never_divides_by_zero (numpy : bool) (r : Road) :
  let limit := if numpy then 2 ^ 64 else float_overflow in
  (radicand (get_length r) < limit ->
   exists d,
     get_direction numpy r = Ok d
     /\ (r_start r = r_end r -> d = (FZ 0, FZ 0))
     /\ (r_start r <> r_end r ->
         radicand (get_length r) > 0
         /\ d = (FDiv (FZ (fst (r_end r) - fst (r_start r)))
                      (FRoot (get_length r)),
                 FDiv (FZ (snd (r_end r) - snd (r_start r)))
                      (FRoot (get_length r)))))
  /\ (limit <= radicand (get_length r) ->
      get_direction numpy r
      = Raise (if numpy then TypeError else OverflowError)).
Proof.
  cbv zeta. unfold get_direction, get_length_call. cbv zeta. split.
  - intros Hlim.
    assert (E0 : (if numpy
                  then if 2 ^ 64 <=? radicand (get_length r)
                       then Raise TypeError else Ok (get_length r)
                  else if float_overflow <=? radicand (get_length r)
                       then Raise OverflowError else Ok (get_length r))
                 = Ok (get_length r)).
    { destruct numpy;
        match goal with
        | |- context [?a <=? ?b] =>
          replace (a <=? b) with false
            by (symmetry; apply Z.leb_gt; exact Hlim)
        end; reflexivity. }
    rewrite E0. cbn [rbind].
    destruct (Z.eqb_spec (radicand (get_length r)) 0) as [E|E].
    + exists (FZ 0, FZ 0). split; [reflexivity|]. split; [reflexivity|].
      intros Hne. apply zero_length_iff in E. contradiction.
    + unfold div_length.
      replace (radicand (get_length r) =? 0) with false
        by (symmetry; apply Z.eqb_neq; exact E).
      cbn [rbind]. eexists. split; [reflexivity|]. split.
      * intros Heq. apply zero_length_iff in Heq. contradiction.
      * intros _. split; [|reflexivity].
        assert (0 <= radicand (get_length r)).
        { unfold get_length. cbn [radicand]. rewrite !Z.pow_2_r.
          pose proof (Z.square_nonneg (fst (r_end r) - fst (r_start r))).
          pose proof (Z.square_nonneg (snd (r_end r) - snd (r_start r))).
          lia. }
        lia.
  - intros Hlim.
    destruct numpy;
      match goal with
      | |- context [?a <=? ?b] =>
        replace (a <=? b) with true
          by (symmetry; apply Z.leb_le; exact Hlim)
      end; reflexivity.
Qed.

Lemma generate_zones_count (numpy noise : bool)
  (md : Z -> Z -> Seed -> fval) (cfg : CityConfig)
  (seeds : list (Z * Seed)) (zs : list Zone) :
  valid_config cfg ->
  In 1 (map fst seeds)
  \/ (exists s, In s seeds /\ fval_lt (md 0 0 (snd s)) PInf = true) ->
  generate_zones numpy noise md cfg seeds = Ok zs ->
  zs <> [] /\ (List.length zs <= List.length seeds)%nat.
Proof.
  intros (Hw & Hh & _) Hseeds Hr.
  apply generate_zones_inv in Hr. destruct Hr as (g & Eg & Hr).
  unfold create_zone_objects in Hr.
  destruct (create_zone_loop_more cfg _ _ _ _ _ Hr)
    as (more & E & Hlen & _ & Hne).
  cbn [app] in E. subst more. split; [|exact Hlen].
  apply (Hne (zone_at g 0 0) (0, 0)).
  - exact (first_cell_owner numpy noise md cfg seeds g Eg Hw Hh Hseeds).
  - intros [].
  - split; cbn [fst snd]; [lia | reflexivity].
Qed.

Lemma Forall2_same_length {A B : Type} (R : A -> B -> Prop) (l : list A)
  (l' : list B) :
  Forall2 R l l' -> List.length l = List.length l'.
Proof. induction 1; cbn; congruence. Qed.

(** X18: in a generated city [get_zone_at] answers a zone of the city whose
    rectangle holds the point, and only for points of the plane; it answers
    [None] exactly when no rectangle holds the point; and it answers a zone
    at the origin of every building. *)
Theorem zone_at_answers (numpy noise : bool) (md : Z -> Z -> Seed -> fval)
  (seeds : list (Z * Seed)) (cfg : CityConfig) (rng rng' : Rng)
  (city : CityGenerator) :
  valid_config cfg ->
  generate_city numpy noise md seeds cfg rng = Ok (city, rng') ->
  (forall x y,
     match get_zone_at (zones city) x y with
     | Some z =>
       In z (zones city) /\ contains_point z x y = true
       /\ 0 <= x < cfg_width cfg /\ 0 <= y < cfg_height cfg
     | None => forall z, In z (zones city) -> contains_point z x y = false
     end)
  /\ (forall b, In b (buildings city) ->
        exists z, get_zone_at (zones city) (b_x b) (b_y b) = Some z).
Proof.
  intros _ Hgen.
  destruct (generated_buildings_placed numpy noise md seeds cfg rng rng' city Hgen)
    as (zs & _ & _ & Hall & _).
  rewrite Forall_forall in Hall. split.
  - intros x y. unfold get_zone_at.
    destruct (find (fun zone => contains_point zone x y) (zones city))
      as [z|] eqn:Ef.
    + apply find_some in Ef. destruct Ef as [Hin Hc].
      split; [exact Hin|]. split; [exact Hc|].
      destruct (Hall z Hin) as (Hp & _).
      unfold contains_point in Hc. unfold zone_in_plane in Hp.
      arith_hyps. lia.
    + intros z Hin. apply (find_none _ _ Ef z Hin).
  - intros b Hb.
    destruct (building_zone numpy noise md seeds cfg rng rng' city b Hgen Hb)
      as (z & Hz & _ & _ & Hs & _).
    unfold get_zone_at.
    destruct (find (fun zone => contains_point zone (b_x b) (b_y b))
                   (zones city)) as [z'|] eqn:Ef; [eauto|].
    exfalso. pose proof (find_none _ _ Ef z Hz) as Hn. cbv beta in Hn.
    destruct (min_building_size_pos (zone_type z)) as [Hpw Hph].
    pose proof (building_spacing_pos (zone_type z)) as Hsp.
    unfold stands_in in Hs. unfold contains_point in Hn.
    assert (Ht : (z_x z <=? b_x b) && (b_x b <? z_x z + z_width z)
                 && (z_y z <=? b_y b) && (b_y b <? z_y z + z_height z)
                 = true).
    { rewrite !andb_true_iff, !Z.leb_le, !Z.ltb_lt. lia. }
    congruence.
Qed.

Lemma zone_at_answers_witness :
  valid_config village_cfg /\
  exists city rng',
    generate_city false false squared_distance village_seeds village_cfg rng0
    = Ok (city, rng')
    /\ option_map zone_type (get_zone_at (zones city) 5 5) = Some RESIDENTIAL
    /\ get_zone_at (zones city) 20 5 = None
    /\ (forall x y,
          match get_zone_at (zones city) x y with
          | Some z =>
            In z (zones city) /\ contains_point z x y = true
            /\ 0 <= x < cfg_width village_cfg
            /\ 0 <= y < cfg_height village_cfg
          | None =>
            forall z, In z (zones city) -> contains_point z x y = false
          end)
    /\ (forall b, In b (buildings city) ->
          exists z, get_zone_at (zones city) (b_x b) (b_y b) = Some z).
Proof.
  assert (Hc : valid_config village_cfg) by (unfold valid_config; simpl; lia).
  split; [exact Hc|].
  eexists. eexists. split; [vm_compute; reflexivity|].
  split; [reflexivity|]. split; [reflexivity|].
  eapply (zone_at_answers false false squared_distance village_seeds
            village_cfg rng0); [exact Hc | vm_compute; reflexivity].
Defined.

(** X19: the statistics of a city generated from seeds that are numbered
    from 1 (as [_generate_zone_seeds] numbers them) or one of which is at a
    modified distance of the first cell below infinity are not the error
    dict: they count at least one zone and at most one per seed, at least
    one road and at least one intersection, and the PARKS entry counts no
    building and has the average height 0. *)
Theorem generated_city_stats (numpy noise : bool) (md : Z -> Z -> Seed -> fval)
  (seeds : list (Z * Seed)) (cfg : CityConfig) (rng rng' : Rng)
  (city : CityGenerator) :
  valid_config cfg ->
  In 1 (map fst seeds)
  \/ (exists s, In s seeds /\ fval_lt (md 0 0 (snd s)) PInf = true) ->
  generate_city numpy noise md seeds cfg rng = Ok (city, rng') ->
  exists s,
    get_city_stats city = Stats s
    /\ 1 <= total_zones s <= Z.of_nat (List.length seeds)
    /\ 1 <= total_roads s
    /\ 1 <= total_intersections s
    /\ total_buildings s = Z.of_nat (List.length (buildings city))
    /\ zs_buildings (zone_type_stats city PARKS) = 0
    /\ zs_avg_building_height (zone_type_stats city PARKS) = FZ 0.
Proof.
  intros Hc Hseeds Hgen.
  destruct (generated_buildings_placed numpy noise md seeds cfg rng rng' city Hgen)
    as (zs & Hz & Hsame & Hall & Hbs).
  destruct (generate_zones_count numpy noise md cfg seeds zs Hc Hseeds Hz) as [Hne Hlen].
  apply Forall2_same_length in Hsame.
  assert (Hparks : filter (fun b => ZoneType_eqb (b_zone_type b) PARKS)
                          (buildings city) = []).
  { destruct (filter _ (buildings city)) as [|b l] eqn:Ef; [reflexivity|].
    exfalso.
    assert (Hin : In b (filter (fun b => ZoneType_eqb (b_zone_type b) PARKS)
                               (buildings city)))
      by (rewrite Ef; left; reflexivity).
    apply filter_In in Hin. destruct Hin as [Hin Ht].
    apply ZoneType_eqb_eq in Ht.
    destruct (building_zone numpy noise md seeds cfg rng rng' city b Hgen Hin)
      as (z & _ & _ & _ & (Hty & Hnp & _) & _).
    congruence. }
  pose proof Hgen as Hinv. apply generate_city_inv in Hinv.
  destruct Hinv as (zs' & net & out & Hz' & Hn & _ & Ecity).
  rewrite Hz in Hz'. inversion Hz'; subst zs'.
  destruct (generate_road_network_ok cfg zs) as (net' & Hn' & Hr & Hi & _).
  rewrite Hn in Hn'. inversion Hn'; subst net'.
  destruct (generated_index_sound cfg zs) as (_ & _ & Hcount).
  destruct Hc as (Hw & Hh & Hmg & Hsg).
  destruct (main_roads_built cfg (new_RoadNetwork cfg) Hmg) as [Hmv _].
  assert (H0 : on_main_grid cfg 0 (cfg_width cfg))
    by (split; [lia | apply Z.mod_0_l; lia]).
  assert (Hroad : In (vertical_road cfg 0 (main_road_width cfg) "main")
                     (roads (generate_roads cfg zs (new_RoadNetwork cfg)))).
  { apply generate_roads_keeps.
    eapply grows_In; [apply generate_secondary_roads_appends|].
    apply Hmv. exact H0. }
  assert (Hart : In (vertical_road cfg 0 (main_road_width cfg) "main")
                    (filter is_arterial
                       (roads (generate_roads cfg zs (new_RoadNetwork cfg)))))
    by (apply filter_In; split; [exact Hroad | reflexivity]).
  unfold get_city_stats.
  assert (Ecomplete : generation_complete city = true)
    by (rewrite Ecity; reflexivity).
  rewrite Ecomplete. cbn [negb]. eexists. split; [reflexivity|].
  cbn [total_zones total_roads total_intersections total_buildings].
  replace (roads (road_network city))
    with (roads (generate_roads cfg zs (new_RoadNetwork cfg)))
    by (rewrite Ecity; cbn [road_network]; symmetry; exact Hr).
  replace (intersections (road_network city))
    with (intersections (generate_roads cfg zs (new_RoadNetwork cfg)))
    by (rewrite Ecity; cbn [road_network]; symmetry; exact Hi).
  split.
  { rewrite <- Hsame. destruct zs; [congruence|]. cbn [List.length] in *.
    lia. }
  split.
  { destruct (roads (generate_roads cfg zs (new_RoadNetwork cfg)));
      [destruct Hroad | cbn [List.length]; lia]. }
  split.
  { destruct (intersections (generate_roads cfg zs (new_RoadNetwork cfg)));
      [|cbn [List.length]; lia].
    cbn [listings fold_right] in Hcount.
    destruct (filter is_arterial
                (roads (generate_roads cfg zs (new_RoadNetwork cfg))));
      [destruct Hart | cbn [List.length] in Hcount; lia]. }
  split; [reflexivity|].
  unfold zone_type_stats. cbn [zs_buildings zs_avg_building_height].
  rewrite Hparks. split; reflexivity.
Qed.

Lemma generated_city_stats_witness :
  valid_config village_cfg
  /\ (In 1 (map fst village_seeds)
      \/ (exists s, In s village_seeds
                    /\ fval_lt (squared_distance 0 0 (snd s)) PInf = true))
  /\ exists city rng',
    generate_city false false squared_distance village_seeds village_cfg rng0
    = Ok (city, rng')
    /\ exists s,
         get_city_stats city = Stats s
         /\ city_size s = "20x20"%string
         /\ 1 <= total_zones s <= Z.of_nat (List.length village_seeds)
         /\ 1 <= total_roads s
         /\ 1 <= total_intersections s
         /\ total_buildings s = Z.of_nat (List.length (buildings city))
         /\ zs_buildings (zone_type_stats city PARKS) = 0
         /\ zs_avg_building_height (zone_type_stats city PARKS) = FZ 0.
Proof.
  assert (Hc : valid_config village_cfg) by (unfold valid_config; simpl; lia).
  assert (Hs : In 1 (map fst village_seeds)
               \/ (exists s, In s village_seeds
                             /\ fval_lt (squared_distance 0 0 (snd s)) PInf
                                = true))
    by (right; eexists; split; [left; reflexivity | reflexivity]).
  split; [exact Hc|]. split; [exact Hs|].
  eexists. eexists. split; [vm_compute; reflexivity|].
  edestruct (generated_city_stats false false squared_distance village_seeds
               village_cfg rng0) as (s & Es & Hrest);
    [exact Hc | exact Hs | vm_compute; reflexivity |].
  exists s. split; [exact Es|]. split; [|exact Hrest].
  vm_compute in Es. inversion Es. reflexivity.
Defined.

(** ** The buildings of a zone do not overlap *)

Lemma mfold_prefix {S A : Type} (I : list A -> S -> Prop)
  (body : A -> S -> M S) :
  forall (l pre : list A),
    (forall p a q s r s' r', pre ++ l = p ++ a :: q ->
       (exists p', p = pre ++ p') ->
       body a s r = Ok (s', r') -> I p s -> I (p ++ [a]) s') ->
    forall s r s' r', mfold l body s r = Ok (s', r') ->
      I pre s -> I (pre ++ l) s'.
Proof.
  induction l as [|a l IH]; intros pre Hb s r s' r' H Hs; cbn [mfold] in H.
  - apply ret_Ok in H. destruct H as [-> _]. rewrite app_nil_r. exact Hs.
  - apply bind_Ok in H. destruct H as (s1 & r1 & H1 & H2).
    replace (pre ++ a :: l) with ((pre ++ [a]) ++ l)
      by (rewrite <- app_assoc; reflexivity).
    apply (IH (pre ++ [a])) with (s := s1) (r := r1) (r' := r');
      [|exact H2|].
    + intros p a' q s0 r0 s0' r0' E (p' & Ep) Hbody Hp.
      apply (Hb p a' q s0 r0 s0' r0'); [|eexists|exact Hbody|exact Hp].
      * rewrite <- E, <- app_assoc. reflexivity.
      * rewrite Ep, <- app_assoc. reflexivity.
    + apply (Hb pre a l s r s1 r1); [reflexivity | exists [] | exact H1
                                     | exact Hs].
      rewrite app_nil_r. reflexivity.
Qed.

Lemma py_range_sorted (a b s : Z) :
  StronglySorted (fun u v => u + s <= v) (py_range a b s).
Proof.
  unfold py_range. destruct (s <=? 0) eqn:Es; [constructor|].
  apply Z.leb_gt in Es.
  generalize (Z.to_nat ((b - a + s - 1) / s)). generalize 0%nat.
  intros k n. revert k.
  induction n as [|n IH]; intros k; cbn [seq map]; constructor; [apply IH|].
  apply Forall_forall. intros v Hv. apply in_map_iff in Hv.
  destruct Hv as (j & <- & Hj). apply in_seq in Hj. nia.
Qed.

Lemma sorted_prefix {A : Type} (R : A -> A -> Prop) (pre : list A) (e : A)
  (post : list A) :
  StronglySorted R (pre ++ e :: post) -> Forall (fun v => R v e) pre.
Proof.
  induction pre as [|a pre IH]; cbn [app]; intros H; [constructor|].
  inversion H as [|? ? Hs Hall]; subst. constructor; [|apply IH; exact Hs].
  rewrite Forall_forall in Hall. apply Hall.
  apply in_or_app. right. left. reflexivity.
Qed.

(** The candidates before [e] in a range are at least a step before it. *)
Lemma py_range_prefix (a b s e : Z) (pre post : list Z) :
  py_range a b s = pre ++ e :: post -> forall v, In v pre -> v + s <= e.
Proof.
  intros E v Hv. pose proof (py_range_sorted a b s) as H. rewrite E in H.
  apply sorted_prefix in H. rewrite Forall_forall in H. auto.
Qed.

Lemma apart_app (l : list Building) (b : Building) :
  ForallOrdPairs buildings_apart l ->
  Forall (fun a => buildings_apart a b) l ->
  ForallOrdPairs buildings_apart (l ++ [b]).
Proof.
  induction 1 as [|a l Ha Hl IH]; intros Hb; cbn [app].
  - constructor; constructor.
  - inversion Hb; subst. constructor; [|apply IH; assumption].
    apply Forall_app. split; [exact Ha | constructor; auto].
Qed.

(** One candidate adds at most one building, at the candidate, and no
    larger than the maximum size. *)
Lemma place_candidate_at (numpy : bool) (cfg : CityConfig)
  (net : RoadNetwork) (x y : Z) (st st' : list Building * Zone) (r r' : Rng) :
  place_candidate numpy cfg net x y st r = Ok (st', r') ->
  (zone_type (snd st') = zone_type (snd st)
   /\ z_buildings (snd st') = z_buildings (snd st))
  \/ exists b,
       b_x b = x /\ b_y b = y
       /\ b_width b <= fst (get_max_building_size (zone_type (snd st)))
       /\ b_height b <= snd (get_max_building_size (zone_type (snd st)))
       /\ zone_type (snd st') = zone_type (snd st)
       /\ z_buildings (snd st') = z_buildings (snd st) ++ [b].
Proof.
  destruct st as [bs zone]. cbn [fst snd]. intros H.
  unfold place_candidate in H.
  apply bind_Ok in H. destruct H as (ok & r1 & _ & H).
  destruct ok; [|apply ret_Ok in H; destruct H as [-> _]; left; auto].
  apply bind_Ok in H. destruct H as (w & r2 & Hw & H).
  apply bind_Ok in H. destruct H as (h & r3 & Hh & H).
  apply bind_Ok in H. destruct H as (fl & r4 & _ & H).
  apply bind_Ok in H. destruct H as (u & r5 & _ & H).
  apply randint_range in Hw, Hh.
  destruct (Qltb u (density zone));
    apply ret_Ok in H; destruct H as [-> _]; [|left; auto].
  right. eexists. cbn [fst snd z_buildings zone_type].
  repeat split; cbn [b_x b_y b_width b_height new_Building]; lia.
Qed.

Lemma generate_zone_buildings_apart (numpy : bool) (cfg : CityConfig)
  (net : RoadNetwork) (st st' : list Building * Zone) (r r' : Rng) :
  z_buildings (snd st) = [] ->
  generate_zone_buildings numpy cfg net st r = Ok (st', r') ->
  ForallOrdPairs buildings_apart (z_buildings (snd st')).
Proof.
  intros Hfresh H. unfold generate_zone_buildings in H.
  set (t := zone_type (snd st)) in *.
  assert (Hsp : 0 < get_building_spacing t) by apply building_spacing_pos.
  set (I := fun (ys : list Z) (y : Z) (xs : list Z)
                (s : list Building * Zone) =>
              zone_type (snd s) = t
              /\ ForallOrdPairs buildings_apart (z_buildings (snd s))
              /\ Forall (placed_before t ys y xs) (z_buildings (snd s))).
  assert (Hloop : forall ys xs,
    ys = py_range (z_y (snd st) + get_building_spacing t)
                  (z_y (snd st) + z_height (snd st)
                   - snd (get_min_building_size t))
                  (snd (get_max_building_size t) + get_building_spacing t) ->
    xs = py_range (z_x (snd st) + get_building_spacing t)
                  (z_x (snd st) + z_width (snd st)
                   - fst (get_min_building_size t))
                  (fst (get_max_building_size t) + get_building_spacing t) ->
    mfold ys
      (fun y st0 =>
         mfold xs (fun x st1 => place_candidate numpy cfg net x y st1) st0)
      st r = Ok (st', r') ->
    ForallOrdPairs buildings_apart (z_buildings (snd st'))).
  { intros ys xs Eys Exs Hm.
    pose proof (mfold_prefix (fun pre s => I pre 0 [] s)
                  (fun y st0 =>
                     mfold xs
                       (fun x st1 => place_candidate numpy cfg net x y st1)
                       st0) ys []) as Hy.
    cbn [app] in Hy.
    apply (Hy) with (s := st) (r := r) (s' := st') (r' := r') in Hm.
    - apply Hm.
    - clear Hm Hy. intros py y qy s0 r0 s0' r0' Ey _ Hrow Hs0.
      pose proof (mfold_prefix (fun pre s => I py y pre s)
                    (fun x st1 => place_candidate numpy cfg net x y st1)
                    xs []) as Hx.
      cbn [app] in Hx.
      apply Hx with (s := s0) (r := r0) (s' := s0') (r' := r0') in Hrow.
      + destruct Hrow as (Ht & Hap & Hall).
        split; [exact Ht|]. split; [exact Hap|].
        eapply Forall_impl; [|exact Hall].
        intros b (Hw & Hh & [Hin|[Eb _]]); (split; [exact Hw|]);
          (split; [exact Hh|]); left; apply in_or_app;
          [left; exact Hin | right; left; symmetry; exact Eb].
      + clear Hrow Hx. intros px x qx s1 r1 s1' r1' Ex _ Hcand Hs1.
        destruct Hs1 as (Ht & Hap & Hall).
        apply place_candidate_at in Hcand.
        destruct Hcand as [[Ht' Eb]|(b & Ebx & Eby & Hw & Hh & Ht' & Eb)];
          unfold I; rewrite Eb.
        * split; [congruence|]. split; [exact Hap|].
          eapply Forall_impl; [|exact Hall].
          intros b (Hw & Hh & [Hin|[Ey' Hin]]); (split; [exact Hw|]);
            (split; [exact Hh|]); [left; exact Hin|].
          right. split; [exact Ey'|]. apply in_or_app. left. exact Hin.
        * rewrite Ht in Hw, Hh.
          split; [congruence|]. split.
          -- apply apart_app; [exact Hap|].
             eapply Forall_impl; [|exact Hall].
             intros a (Hwa & Hha & [Hin|[Ey' Hin]]); unfold buildings_apart.
             ++ right. right. left.
                pose proof (py_range_prefix _ _ _ _ _ _
                              (eq_trans (eq_sym Eys) Ey) _ Hin). lia.
             ++ left.
                pose proof (py_range_prefix _ _ _ _ _ _
                              (eq_trans (eq_sym Exs) Ex) _ Hin). lia.
          -- apply Forall_app. split.
             ++ eapply Forall_impl; [|exact Hall].
                intros a (Hwa & Hha & [Hin|[Ey' Hin]]); (split; [exact Hwa|]);
                  (split; [exact Hha|]); [left; exact Hin|].
                right. split; [exact Ey'|]. apply in_or_app. left. exact Hin.
             ++ constructor; [|constructor].
                split; [exact Hw|]. split; [exact Hh|].
                right. split; [exact Eby|].
                apply in_or_app. right. left. symmetry. exact Ebx.
      + destruct Hs0 as (Ht & Hap & Hall).
        split; [exact Ht|]. split; [exact Hap|].
        eapply Forall_impl; [|exact Hall].
        intros b (Hw & Hh & [Hin|[_ []]]). split; [exact Hw|].
        split; [exact Hh|]. left. exact Hin.
    - unfold I. rewrite Hfresh. split; [reflexivity|].
      split; constructor. }
  destruct (zone_type (snd st)) eqn:Et; subst t;
    try (eapply Hloop; [reflexivity | reflexivity | exact H]).
  apply ret_Ok in H. destruct H as [-> _]. rewrite Hfresh. constructor.
Qed.

Lemma generate_buildings_apart (numpy : bool) (cfg : CityConfig)
  (net : RoadNetwork) :
  forall (todo : list Zone) (bs : list Building)
         (out : list Building * list Zone) (r r' : Rng),
    generate_buildings numpy cfg net todo bs r = Ok (out, r') ->
    Forall (fun z => z_buildings z = []) todo ->
    Forall (fun z => ForallOrdPairs buildings_apart (z_buildings z))
           (snd out).
Proof.
  induction todo as [|zone rest IH]; intros bs out r r' H Hfresh;
    cbn [generate_buildings] in H.
  - apply ret_Ok in H. destruct H as [-> _]. constructor.
  - apply bind_Ok in H. destruct H as (st & r1 & Hz & H).
    apply bind_Ok in H. destruct H as (out1 & r2 & Hrest & H).
    apply ret_Ok in H. destruct H as [-> _]. cbn [fst snd].
    inversion Hfresh as [|? ? Hzone Hrest']; subst.
    constructor; [|apply (IH _ _ _ _ Hrest Hrest')].
    apply (generate_zone_buildings_apart numpy cfg net (bs, zone) st r r1);
      [exact Hzone | exact Hz].
Qed.

(** X20: in a generated city no two buildings of the same zone overlap: of
    any two buildings in the list of a zone, one ends, on the x axis or on
    the y axis, where the other starts or before. *)
Theorem zone_buildings_do_not_overlap (numpy noise : bool)
  (md : Z -> Z -> Seed -> fval) (seeds : list (Z * Seed)) (cfg : CityConfig)
  (rng rng' : Rng) (city : CityGenerator) :
  valid_config cfg ->
  generate_city numpy noise md seeds cfg rng = Ok (city, rng') ->
  forall z, In z (zones city) ->
    ForallOrdPairs buildings_apart (z_buildings z).
Proof.
  intros _ Hgen z Hz. apply generate_city_inv in Hgen.
  destruct Hgen as (zs & net & out & Hzs & _ & Hb & ->).
  cbn [zones] in Hz.
  destruct (generate_zones_fresh numpy noise md cfg seeds zs Hzs) as [_ Hfresh].
  pose proof (generate_buildings_apart numpy cfg net zs [] out rng rng'
                Hb Hfresh) as Hall.
  rewrite Forall_forall in Hall. apply Hall. exact Hz.
Qed.

Lemma zone_buildings_do_not_overlap_witness :
  valid_config hamlet_cfg /\
  exists city rng',
    generate_city false false squared_distance hamlet_seeds hamlet_cfg rng0
    = Ok (city, rng')
    /\ map z_buildings (zones city)
       = [[new_Building 5 5 8 10 1 RESIDENTIAL;
           new_Building 25 5 8 10 1 RESIDENTIAL]]
    /\ forall z, In z (zones city) ->
         ForallOrdPairs buildings_apart (z_buildings z).
Proof.
  assert (Hc : valid_config hamlet_cfg) by (unfold valid_config; simpl; lia).
  split; [exact Hc|].
  eexists. eexists. split; [vm_compute; reflexivity|].
  split; [reflexivity|].
  eapply (zone_buildings_do_not_overlap false false squared_distance hamlet_seeds
            hamlet_cfg rng0); [exact Hc | vm_compute; reflexivity].
Defined.

(** ** The rectangle of a zone *)

Lemma list_min_In (l : list Z) : forall d, In (list_min d l) (d :: l).
Proof.
  unfold list_min. induction l as [|a l IH]; intros d; cbn [fold_left].
  - left. reflexivity.
  - destruct (IH (Z.min d a)) as [E|Hin].
    + rewrite <- E. destruct (Z.min_spec d a) as [[_ ->]|[_ ->]];
        [left | right; left]; reflexivity.
    + right. right. exact Hin.
Qed.

Lemma list_max_In (l : list Z) : forall d, In (list_max d l) (d :: l).
Proof.
  unfold list_max. induction l as [|a l IH]; intros d; cbn [fold_left].
  - left. reflexivity.
  - destruct (IH (Z.max d a)) as [E|Hin].
    + rewrite <- E. destruct (Z.max_spec d a) as [[_ ->]|[_ ->]];
        [right; left | left]; reflexivity.
    + right. right. exact Hin.
Qed.

(** Each side of the rectangle of [zone_of_cells] holds one of the cells. *)
Lemma zone_of_cells_tight (cfg : CityConfig) (t : ZoneType)
  (cells : list cell) :
  cells <> [] ->
  let z := zone_of_cells cfg t cells in
  (exists c, In c cells /\ fst c = z_x z)
  /\ (exists c, In c cells /\ fst c = z_x z + z_width z - 1)
  /\ (exists c, In c cells /\ snd c = z_y z)
  /\ (exists c, In c cells /\ snd c = z_y z + z_height z - 1).
Proof.
  destruct cells as [|c0 rest]; [congruence|]. intros _ z.
  assert (Hpick : forall (f : cell -> Z) (v : Z),
            In v (f c0 :: map f rest) ->
            exists c, In c (c0 :: rest) /\ f c = v).
  { intros f v [E|Hin]; [exists c0; split; [left; reflexivity | exact E]|].
    apply in_map_iff in Hin. destruct Hin as (c & E & Hc).
    exists c. split; [right; exact Hc | exact E]. }
  unfold z, zone_of_cells, new_Zone. cbn [z_x z_y z_width z_height].
  unfold min_x, max_x, min_y, max_y.
  split; [apply Hpick, list_min_In|].
  split.
  { replace (list_min (fst c0) (map fst rest)
             + (list_max (fst c0) (map fst rest)
                - list_min (fst c0) (map fst rest) + 1) - 1)
      with (list_max (fst c0) (map fst rest)) by lia.
    apply Hpick, list_max_In. }
  split; [apply Hpick, list_min_In|].
  replace (list_min (snd c0) (map snd rest)
           + (list_max (snd c0) (map snd rest)
              - list_min (snd c0) (map snd rest) + 1) - 1)
    with (list_max (snd c0) (map snd rest)) by lia.
  apply Hpick, list_max_In.
Qed.

(** The cells found for an id are those linked to any one of them. *)
Lemma find_connected_cells_linked (cfg : CityConfig) (g : list (list Z))
  (zone_id : Z) (cells : list cell) :
  find_connected_cells cfg g zone_id = Ok cells ->
  NoDup cells
  /\ forall c, In c cells ->
       forall c', In c' cells <-> reaches cfg g zone_id c c'.
Proof.
  intros Hr. unfold find_connected_cells in Hr.
  match type of Hr with
  | context [find ?f ?l] => destruct (find f l) as [s|] eqn:Ef
  end.
  - apply find_some in Ef. destruct Ef as [Hin Hz].
    destruct s as [sx sy]. apply scan_cells_In in Hin.
    cbn [fst snd] in Hz. apply Z.eqb_eq in Hz.
    assert (Hs : bears cfg g zone_id (sx, sy)) by (split; assumption).
    destruct (flood_fill_component cfg g zone_id (sx, sy) Hs _ _ _ _ _ Hr)
      as [Hnd Hiff].
    + constructor.
    + intros c. tauto.
    + intros c [].
    + intros p [<-|[]] _. apply reaches_start. exact Hs.
    + intros c c' [].
    + right. left. reflexivity.
    + split; [exact Hnd|].
      intros c Hc c'. rewrite !Hiff. apply Hiff in Hc. split.
      * intros Hc'. apply reaches_trans with (sx, sy);
          [apply reaches_sym; exact Hc | exact Hc'].
      * intros Hc'. apply reaches_trans with c; assumption.
  - inversion Hr; subst cells. split; [constructor | intros c []].
Qed.

(** X21: where the assignment loop is defined, every zone of the
    partitioner is the tight rectangle of one connected component of its
    id: the cells it was built from are listed once, are exactly the cells
    linked to any one of them by side-sharing cells of the same id, and each
    of the four sides of the rectangle holds one of them. *)
Theorem zones_are_tight_around_a_component (numpy noise : bool)
  (md : Z -> Z -> Seed -> fval) (cfg : CityConfig) (seeds : list (Z * Seed)) :
  partition_defined numpy noise cfg seeds ->
  exists (g : list (list Z)) (parts : list Part),
    assign_zone_grid numpy noise md cfg seeds = Ok g
    /\ generate_zones numpy noise md cfg seeds
       = Ok (map (zone_of_part cfg) parts)
    /\ Forall
         (fun p =>
            let z := zone_of_part cfg p in
            NoDup (part_cells p)
            /\ (forall c, In c (part_cells p) ->
                forall c', In c' (part_cells p) <->
                  reaches cfg g (part_id p) c c')
            /\ (exists c, In c (part_cells p) /\ fst c = z_x z)
            /\ (exists c, In c (part_cells p)
                          /\ fst c = z_x z + z_width z - 1)
            /\ (exists c, In c (part_cells p) /\ snd c = z_y z)
            /\ (exists c, In c (part_cells p)
                          /\ snd c = z_y z + z_height z - 1))
         parts.
Proof.
  intros Hdef.
  destruct (generate_zones_total numpy noise md cfg seeds Hdef)
    as (g & parts & Eg & Hr & _ & Hok).
  exists g, parts. split; [exact Eg|]. split; [exact Hr|].
  eapply Forall_impl; [|exact Hok].
  intros p (Hne & Hf & _). cbv zeta.
  destruct (find_connected_cells_linked cfg _ _ _ Hf) as [Hnd Hlinked].
  split; [exact Hnd|]. split; [exact Hlinked|].
  apply (zone_of_cells_tight cfg (snd (fst p)) (part_cells p) Hne).
Qed.

Lemma zones_are_tight_around_a_component_witness :
  partition_defined true true overlap_cfg overlap_seeds
  /\ exists (g : list (list Z)) (parts : list Part),
       assign_zone_grid true true squared_distance overlap_cfg overlap_seeds
       = Ok g
       /\ generate_zones true true squared_distance overlap_cfg
            overlap_seeds
          = Ok (map (zone_of_part overlap_cfg) parts)
       /\ Forall
            (fun p =>
               let z := zone_of_part overlap_cfg p in
               NoDup (part_cells p)
               /\ (forall c, In c (part_cells p) ->
                   forall c', In c' (part_cells p) <->
                     reaches overlap_cfg g (part_id p) c c')
               /\ (exists c, In c (part_cells p) /\ fst c = z_x z)
               /\ (exists c, In c (part_cells p)
                             /\ fst c = z_x z + z_width z - 1)
               /\ (exists c, In c (part_cells p) /\ snd c = z_y z)
               /\ (exists c, In c (part_cells p)
                             /\ snd c = z_y z + z_height z - 1))
            parts.
Proof.
  assert (Hd : partition_defined true true overlap_cfg overlap_seeds)
    by (split; [reflexivity | discriminate]).
  split; [exact Hd|].
  apply (zones_are_tight_around_a_component true true squared_distance
           overlap_cfg overlap_seeds Hd).
Defined.

(** ** C3: one zone per seed id that owns a cell *)

(** What the loop of [_create_zone_objects] appends to the parts built so
    far: one part for every seed id of the rest that owns a cell and is not
    processed yet, of the type of a seed of that id. *)
Lemma create_zone_loop_parts (cfg : CityConfig) (g : list (list Z)) :
  forall (seeds : list (Z * Seed)) (processed : list Z) (parts0 : list Part),
    (forall k, In k processed <-> In k (map part_id parts0)) ->
    NoDup (map part_id parts0) ->
    exists added,
      create_zone_loop cfg g seeds processed (map (zone_of_part cfg) parts0)
      = Ok (map (zone_of_part cfg) (parts0 ++ added))
      /\ NoDup (map part_id (parts0 ++ added))
      /\ Forall (fun p =>
                   part_ok cfg g p
                   /\ exists x y, In (part_id p, (x, y, snd (fst p))) seeds)
                added
      /\ (forall k c, In k (map fst seeds) -> bears cfg g k c ->
            In k (map part_id (parts0 ++ added))).
Proof.
  induction seeds as [|[zone_id [[sx sy] t]] rest IH];
    intros processed parts0 Hproc Hnd; cbn [create_zone_loop].
  - exists []. rewrite app_nil_r.
    split; [reflexivity|]. split; [exact Hnd|].
    split; [constructor | intros k c []].
  - assert (Hweak : forall added,
              Forall (fun p =>
                        part_ok cfg g p
                        /\ exists x y, In (part_id p, (x, y, snd (fst p))) rest)
                     added ->
              Forall (fun p =>
                        part_ok cfg g p
                        /\ exists x y,
                             In (part_id p, (x, y, snd (fst p)))
                                ((zone_id, (sx, sy, t)) :: rest))
                     added).
    { intros added H. eapply Forall_impl; [|exact H].
      intros p (Hp & x & y & Hin). split; [exact Hp|].
      exists x, y. right. exact Hin. }
    destruct (existsb (Z.eqb zone_id) processed) eqn:Ep.
    + destruct (IH processed parts0 Hproc Hnd)
        as (added & Hr & Hnd' & Hall & Hown).
      exists added. split; [exact Hr|]. split; [exact Hnd'|].
      split; [apply Hweak; exact Hall|].
      intros k c [Ek|Hk] Hb; [|eauto].
      cbn [fst] in Ek. subst k.
      apply existsb_exists in Ep. destruct Ep as (k & Hk & Ek).
      apply Z.eqb_eq in Ek. subst k.
      rewrite map_app. apply in_or_app. left. apply Hproc. exact Hk.
    + destruct (find_connected_cells_ok cfg g zone_id) as (cells & Hf & Hb).
      rewrite Hf. cbn [rbind].
      destruct cells as [|c0 cells'].
      * destruct (IH processed parts0 Hproc Hnd)
          as (added & Hr & Hnd' & Hall & Hown).
        exists added. split; [exact Hr|]. split; [exact Hnd'|].
        split; [apply Hweak; exact Hall|].
        intros k c [Ek|Hk] Hbc; [|eauto].
        cbn [fst] in Ek. subst k. exfalso.
        exact (find_connected_cells_empty cfg g zone_id Hf c Hbc).
      * assert (Hfresh : ~ In zone_id processed).
        { intros Hi.
          assert (existsb (Z.eqb zone_id) processed = true)
            by (apply existsb_exists; exists zone_id;
                split; [exact Hi | apply Z.eqb_refl]).
          congruence. }
        pose (p := ((zone_id, t, c0 :: cells') : Part)).
        change (zone_of_cells cfg t (c0 :: cells'))
          with (zone_of_part cfg p).
        change [zone_of_part cfg p] with (map (zone_of_part cfg) [p]).
        rewrite <- map_app.
        destruct (IH (zone_id :: processed) (parts0 ++ [p]))
          as (added & Hr & Hnd' & Hall & Hown).
        { intros k. rewrite map_app, in_app_iff. cbn [map In part_id p].
          change (part_id p) with zone_id. rewrite <- Hproc. tauto. }
        { rewrite map_app. cbn [map].
          apply NoDup_app;
            [exact Hnd | constructor; [intros [] | constructor] |].
          intros a Ha [<-|[]]. apply Hfresh. apply Hproc. exact Ha. }
        rewrite <- app_assoc in Hr, Hnd', Hown. cbn [app] in Hr, Hnd', Hown.
        exists (p :: added). split; [exact Hr|]. split; [exact Hnd'|].
        split.
        -- constructor; [|apply Hweak; exact Hall].
           split.
           ++ split; [discriminate|]. split; [exact Hf | exact Hb].
           ++ exists sx, sy. left. reflexivity.
        -- intros k c [Ek|Hk] Hbc; [|eauto].
           cbn [fst] in Ek. subst k.
           rewrite map_app. apply in_or_app. right. left. reflexivity.
Qed.

(** C3 (amended): where the assignment loop is defined, the partitioner
    returns one zone per seed id that owns a cell of the zone grid, and no
    other zone.  The zone of an id has the type of a seed of that id; its
    rectangle is the tight bounding box of the connected cell set the flood
    fill found for the id: it holds every cell of the set and each of its
    four sides holds one.  The cell sets of two zones of the list are
    disjoint (their rectangles need not be). *)
Theorem zones_built_from_disjoint_cells (numpy noise : bool)
  (md : Z -> Z -> Seed -> fval) (cfg : CityConfig) (seeds : list (Z * Seed)) :
  partition_defined numpy noise cfg seeds ->
  exists (g : list (list Z)) (parts : list Part),
    assign_zone_grid numpy noise md cfg seeds = Ok g
    /\ generate_zones numpy noise md cfg seeds
       = Ok (map (zone_of_part cfg) parts)
    /\ NoDup (map part_id parts)
    /\ (forall zone_id,
          In zone_id (map part_id parts)
          <-> In zone_id (map fst seeds)
              /\ exists c, (0 <= fst c < cfg_width cfg
                            /\ 0 <= snd c < cfg_height cfg)
                           /\ zone_at g (fst c) (snd c) = zone_id)
    /\ Forall
         (fun p =>
            let z := zone_of_part cfg p in
            (exists x y, In (part_id p, (x, y, zone_type z)) seeds)
            /\ part_cells p <> []
            /\ find_connected_cells cfg g (part_id p) = Ok (part_cells p)
            /\ (forall c, In c (part_cells p) ->
                  zone_at g (fst c) (snd c) = part_id p
                  /\ z_x z <= fst c < z_x z + z_width z
                  /\ z_y z <= snd c < z_y z + z_height z)
            /\ (exists c, In c (part_cells p) /\ fst c = z_x z)
            /\ (exists c, In c (part_cells p)
                          /\ fst c = z_x z + z_width z - 1)
            /\ (exists c, In c (part_cells p) /\ snd c = z_y z)
            /\ (exists c, In c (part_cells p)
                          /\ snd c = z_y z + z_height z - 1))
         parts
    /\ (forall (i j : nat) (p q : Part),
          i <> j -> nth_error parts i = Some p -> nth_error parts j = Some q ->
          forall c, In c (part_cells p) -> ~ In c (part_cells q)).
Proof.
  intros Hdef.
  destruct (assign_zone_grid_total numpy noise md cfg seeds Hdef) as [g Eg].
  destruct (create_zone_loop_parts cfg g seeds [] [])
    as (parts & Hr & Hnd & Hall & Hown).
  { intros k. cbn. tauto. }
  { constructor. }
  cbn [app map] in Hr, Hnd, Hown.
  exists g, parts. split; [exact Eg|].
  split.
  { unfold generate_zones. rewrite Eg. cbn [rbind]. exact Hr. }
  split; [exact Hnd|]. rewrite Forall_forall in Hall. split; [|split].
  - intros zone_id. split.
    + intros Hin. apply in_map_iff in Hin. destruct Hin as (p & <- & Hp).
      destruct (Hall p Hp) as ((Hne & _ & Hb) & x & y & Hs). split.
      * apply in_map_iff. exists (part_id p, (x, y, snd (fst p))).
        split; [reflexivity | exact Hs].
      * destruct (part_cells p) as [|c0 rest]; [congruence|].
        exists c0. inversion Hb; assumption.
    + intros (Hk & c & Hc). exact (Hown zone_id c Hk Hc).
  - apply Forall_forall. intros p Hp.
    destruct (Hall p Hp) as ((Hne & Hf & Hb) & Hs). cbv zeta.
    split; [exact Hs|]. split; [exact Hne|]. split; [exact Hf|]. split.
    + intros c Hc. rewrite Forall_forall in Hb.
      destruct (Hb c Hc) as [_ Hid]. split; [exact Hid|].
      pose proof (zone_of_cells_contains cfg (snd (fst p)) (part_cells p)
                    c Hc) as Hin.
      unfold contains_point in Hin.
      rewrite !andb_true_iff, !Z.leb_le, !Z.ltb_lt in Hin.
      unfold zone_of_part. lia.
    + apply (zone_of_cells_tight cfg (snd (fst p)) (part_cells p) Hne).
  - intros i j p q Hij Hp Hq c Hcp Hcq.
    apply (NoDup_nth_error_neq part_id parts i j p q Hnd Hij Hp Hq).
    destruct (Hall p (nth_error_In _ _ Hp)) as ((_ & _ & Bp) & _).
    destruct (Hall q (nth_error_In _ _ Hq)) as ((_ & _ & Bq) & _).
    rewrite Forall_forall in Bp, Bq.
    destruct (Bp c Hcp) as [_ E1]. destruct (Bq c Hcq) as [_ E2].
    congruence.
Qed.

(** In the 4 x 4 city with two seeds the residential id 1 and the parks id
    2 both own cells: two zones are built, one per id. *)
Lemma zones_built_from_disjoint_cells_witness :
  partition_defined true true overlap_cfg overlap_seeds
  /\ generate_zones true true squared_distance overlap_cfg overlap_seeds
     = Ok [ new_Zone RESIDENTIAL 0 0 4 4 (6 # 10);
            new_Zone PARKS 0 0 2 2 (1 # 10) ]
  /\ exists (g : list (list Z)) (parts : list Part),
       assign_zone_grid true true squared_distance overlap_cfg overlap_seeds
       = Ok g
       /\ generate_zones true true squared_distance overlap_cfg
            overlap_seeds
          = Ok (map (zone_of_part overlap_cfg) parts)
       /\ NoDup (map part_id parts)
       /\ (forall zone_id,
             In zone_id (map part_id parts)
             <-> In zone_id (map fst overlap_seeds)
                 /\ exists c, (0 <= fst c < cfg_width overlap_cfg
                               /\ 0 <= snd c < cfg_height overlap_cfg)
                              /\ zone_at g (fst c) (snd c) = zone_id)
       /\ Forall
            (fun p =>
               let z := zone_of_part overlap_cfg p in
               (exists x y, In (part_id p, (x, y, zone_type z)) overlap_seeds)
               /\ part_cells p <> []
               /\ find_connected_cells overlap_cfg g (part_id p)
                  = Ok (part_cells p)
               /\ (forall c, In c (part_cells p) ->
                     zone_at g (fst c) (snd c) = part_id p
                     /\ z_x z <= fst c < z_x z + z_width z
                     /\ z_y z <= snd c < z_y z + z_height z)
               /\ (exists c, In c (part_cells p) /\ fst c = z_x z)
               /\ (exists c, In c (part_cells p)
                             /\ fst c = z_x z + z_width z - 1)
               /\ (exists c, In c (part_cells p) /\ snd c = z_y z)
               /\ (exists c, In c (part_cells p)
                             /\ snd c = z_y z + z_height z - 1))
            parts
       /\ (forall (i j : nat) (p q : Part),
             i <> j ->
             nth_error parts i = Some p -> nth_error parts j = Some q ->
             forall c, In c (part_cells p) -> ~ In c (part_cells q)).
Proof.
  assert (Hd : partition_defined true true overlap_cfg overlap_seeds)
    by (split; [reflexivity | discriminate]).
  split; [exact Hd|]. split; [vm_compute; reflexivity|].
  apply (zones_built_from_disjoint_cells true true squared_distance
           overlap_cfg overlap_seeds Hd).
Defined.

(** ** Where the partitioner raises *)

Lemma py_range_first (n : Z) :
  0 < n -> exists rest, py_range 0 n 1 = 0 :: rest.
Proof.
  intros H. unfold py_range. cbn [Z.leb Z.compare].
  replace ((n - 0 + 1 - 1) / 1) with n by (rewrite Z.div_1_r; lia).
  destruct (Z.to_nat n) as [|k] eqn:E; [lia|].
  cbn [seq map]. eexists. reflexivity.
Qed.

(** X27: on a valid configuration [generate_zones] raises at its first cell
    in two environments.  With numpy but without the noise package the
    fallback [pnoise2] meets the name [math], which zones.py has not
    imported: a NameError.  Without numpy, with a seed and on a plane whose
    two halves [width // 2] and [height // 2] are 0, the preference divides
    0.0 by 0.0: a ZeroDivisionError. *)
Theorem partitioner_raises (numpy noise : bool)
  (md : Z -> Z -> Seed -> fval) (cfg : CityConfig) (seeds : list (Z * Seed)) :
  valid_config cfg ->
  (numpy = true -> noise = false ->
   generate_zones numpy noise md cfg seeds = Raise NameError)
  /\ (numpy = false -> seeds <> [] ->
      cfg_width cfg / 2 = 0 -> cfg_height cfg / 2 = 0 ->
      generate_zones numpy noise md cfg seeds = Raise ZeroDivisionError).
Proof.
  intros (Hw & Hh & _).
  destruct (py_range_first (cfg_width cfg) Hw) as [xs Ex].
  destruct (py_range_first (cfg_height cfg) Hh) as [ys Ey].
  unfold generate_zones, assign_zone_grid. rewrite Ex, Ey.
  cbn [rmap]. unfold assign_cell, pnoise2. split.
  - intros -> ->. reflexivity.
  - intros -> Hne Ecx Ecy.
    assert (En : (if noise then Ok tt else Ok tt) = Ok tt)
      by (destruct noise; reflexivity).
    rewrite En. cbn [rbind]. unfold find_closest_zone.
    destruct seeds as [|[zone_id seed] rest]; [congruence|].
    cbn [find_closest_loop]. unfold get_zone_preference. cbv zeta.
    rewrite Ecx, Ecy. reflexivity.
Qed.

Lemma partitioner_raises_witness :
  valid_config (make_config 1 1 200 100)
  /\ generate_zones true false squared_distance (make_config 1 1 200 100)
       [ (1, (0, 0, RESIDENTIAL)) ] = Raise NameError
  /\ generate_zones false false squared_distance (make_config 1 1 200 100)
       [ (1, (0, 0, RESIDENTIAL)) ] = Raise ZeroDivisionError.
Proof.
  assert (Hc : valid_config (make_config 1 1 200 100))
    by (unfold valid_config; simpl; lia).
  split; [exact Hc|]. split.
  - apply (proj1 (partitioner_raises true false squared_distance
                    (make_config 1 1 200 100)
                    [ (1, (0, 0, RESIDENTIAL)) ] Hc)); reflexivity.
  - apply (proj2 (partitioner_raises false false squared_distance
                    (make_config 1 1 200 100)
                    [ (1, (0, 0, RESIDENTIAL)) ] Hc));
      [reflexivity | discriminate | reflexivity | reflexivity].
Defined.

(** ** The JSON export of a generated city *)

Lemma py_sum_listings (d : IntersectionMap) :
  py_sum (map (fun kv => Z.of_nat (List.length (connected_roads (snd kv)))) d)
  = Z.of_nat (listings d).
Proof.
  induction d as [|e d IH]; [reflexivity|].
  cbn [map listings fold_right]. rewrite py_sum_cons, IH.
  fold (listings d). lia.
Qed.

Lemma fs_write_frame (name : string) (c : FileContent) (fs : FileSystem) :
  fs_write name c fs name = Some c
  /\ forall n, n <> name -> fs_write name c fs n = fs n.
Proof.
  unfold fs_write. split.
  - rewrite String.eqb_refl. reflexivity.
  - intros n Hn. destruct (String.eqb_spec n name); [contradiction|].
    reflexivity.
Qed.

(** X22: on a file system that accepts the write, [export_to_json] of a
    generated city returns the data of the city; given a file name that is
    not empty it writes them to that file and to no other; without a name,
    or with the empty name, it writes nothing.  In the data the counts of
    connected roads of the intersections add up to twice the number of roads
    that are not local roads. *)
Theorem json_export_of_a_generated_city (numpy noise : bool)
  (md : Z -> Z -> Seed -> fval) (seeds : list (Z * Seed)) (cfg : CityConfig)
  (rng rng' : Rng) (city : CityGenerator) :
  valid_config cfg ->
  generate_city numpy noise md seeds cfg rng = Ok (city, rng') ->
  forall (filename : option string) (fs : FileSystem),
  exists fs',
    export_to_json city filename fs = (Ok (city_data city), fs')
    /\ match filename with
       | Some name =>
         if (name =? "")%string then fs' = fs
         else fs' name = Some (JsonFile (city_data city))
              /\ forall n, n <> name -> fs' n = fs n
       | None => fs' = fs
       end
    /\ py_sum (map id_connected_roads (cd_intersections (city_data city)))
       = 2 * Z.of_nat (List.length
                         (filter is_arterial (cd_roads (city_data city)))).
Proof.
  intros _ Hgen filename fs. apply generate_city_inv in Hgen.
  destruct Hgen as (zs & net & out & _ & Hn & _ & ->).
  destruct (generate_road_network_ok cfg zs) as (net' & Hn' & Hr & Hi & _).
  rewrite Hn in Hn'. inversion Hn'; subst net'.
  destruct (generated_index_sound cfg zs) as (_ & _ & Hcount).
  unfold export_to_json. cbn [generation_complete negb].
  assert (Hsum :
    py_sum (map id_connected_roads
              (cd_intersections
                 (city_data
                    {| config := cfg; zones := snd out; road_network := net;
                       buildings := fst out; generation_complete := true |})))
    = 2 * Z.of_nat
            (List.length
               (filter is_arterial
                  (cd_roads
                     (city_data
                        {| config := cfg; zones := snd out;
                           road_network := net; buildings := fst out;
                           generation_complete := true |}))))).
  { unfold city_data. cbn [cd_intersections cd_roads road_network].
    rewrite map_map. cbn [id_connected_roads].
    rewrite py_sum_listings, Hi, Hr, Hcount. lia. }
  destruct filename as [name|];
    [destruct (name =? "")%string|];
    eexists; (split; [reflexivity|]); (split; [|exact Hsum]).
  - reflexivity.
  - apply fs_write_frame.
  - reflexivity.
Qed.

Lemma json_export_of_a_generated_city_witness :
  valid_config village_cfg /\
  exists city rng',
    generate_city true true squared_distance village_seeds village_cfg rng0
    = Ok (city, rng')
    /\ List.length (cd_roads (city_data city)) = 2%nat
    /\ forall (filename : option string) (fs : FileSystem),
       exists fs',
         export_to_json city filename fs = (Ok (city_data city), fs')
         /\ match filename with
            | Some name =>
              if (name =? "")%string then fs' = fs
              else fs' name = Some (JsonFile (city_data city))
                   /\ forall n, n <> name -> fs' n = fs n
            | None => fs' = fs
            end
         /\ py_sum (map id_connected_roads
                        (cd_intersections (city_data city)))
            = 2 * Z.of_nat (List.length
                              (filter is_arterial
                                      (cd_roads (city_data city)))).
Proof.
  assert (Hc : valid_config village_cfg) by (unfold valid_config; simpl; lia).
  split; [exact Hc|].
  eexists. eexists. split; [vm_compute; reflexivity|].
  split; [reflexivity|].
  eapply (json_export_of_a_generated_city true true squared_distance village_seeds
            village_cfg rng0); [exact Hc | vm_compute; reflexivity].
Defined.

(** ** The local roads *)

Ltac zone_road_bounds zone :=
  right; left; exists zone;
  (split; [assumption|]);
  unfold in_closed_rect, zone_in_plane in *; arith_hyps;
  cbn [fst snd r_start r_end new_Road nth]; lia.

Lemma generate_zone_roads_local (cfg : CityConfig) (zs : list Zone)
  (zone : Zone) (net : RoadNetwork) :
  In zone zs -> zone_in_plane cfg zone ->
  grows (fun r => road_type r <> "local"%string
                  \/ zone_road zs r \/ link_road zs r)
        net (generate_zone_roads cfg zone net).
Proof.
  intros Hin Hz. unfold generate_zone_roads.
  destruct (zone_type zone).
  - unfold generate_residential_roads; cbv zeta. grow; zone_road_bounds zone.
  - unfold generate_commercial_roads; cbv zeta. grow; zone_road_bounds zone.
  - unfold generate_business_roads; cbv zeta. grow; zone_road_bounds zone.
  - unfold generate_leisure_roads; cbv zeta. grow; zone_road_bounds zone.
  - unfold generate_park_roads; cbv zeta.
    destruct (_ || _); [|apply grows_refl].
    unfold for_each; simpl. grow; zone_road_bounds zone.
  - unfold generate_industrial_roads; cbv zeta. grow; zone_road_bounds zone.
Qed.

Lemma connect_zones_local (cfg : CityConfig) (zs : list Zone) :
  forall l, incl l zs ->
  forall net,
    grows (fun r => road_type r <> "local"%string
                    \/ zone_road zs r \/ link_road zs r)
          net (connect_zones cfg l net).
Proof.
  induction l as [|zone1 rest IH]; intros Hl net; simpl.
  - apply grows_refl.
  - eapply grows_trans;
      [|apply IH; intros z Hz; apply Hl; right; exact Hz].
    apply grows_for_each. intros zone2 s Hin.
    destruct (root_lt _ _); [|apply grows_refl].
    unfold add_zone_connector. apply grows_append.
    right. right. exists zone1, zone2.
    split; [apply Hl; left; reflexivity|].
    split; [apply Hl; right; exact Hin|].
    split; reflexivity.
Qed.

Lemma generate_roads_local (cfg : CityConfig) (zs : list Zone)
  (net : RoadNetwork) :
  Forall (zone_in_plane cfg) zs ->
  grows (fun r => road_type r <> "local"%string
                  \/ zone_road zs r \/ link_road zs r)
        net (generate_roads cfg zs net).
Proof.
  intros Hz. unfold generate_roads.
  apply grows_trans with
    (generate_local_roads cfg zs
       (generate_secondary_roads cfg (generate_main_roads cfg net)));
    [|apply connect_zones_local; apply incl_refl].
  apply grows_trans with
    (generate_secondary_roads cfg (generate_main_roads cfg net)).
  - apply grows_trans with (generate_main_roads cfg net).
    + unfold generate_main_roads; cbv zeta. grow; left; discriminate.
    + unfold generate_secondary_roads; cbv zeta. grow; left; discriminate.
  - unfold generate_local_roads. apply grows_for_each.
    intros zone s Hin. apply generate_zone_roads_local; [exact Hin|].
    rewrite Forall_forall in Hz. auto.
Qed.

Lemma Forall2_In_l {A B : Type} (R : A -> B -> Prop) (l : list A)
  (l' : list B) (a : A) :
  Forall2 R l l' -> In a l -> exists b, In b l' /\ R a b.
Proof.
  induction 1 as [|x y l l' Hxy _ IH]; intros Hin; [destruct Hin|].
  destruct Hin as [->|Hin]; [exists y; split; [left; reflexivity | exact Hxy]|].
  destruct (IH Hin) as (b & Hb & Hab). exists b. split; [right|]; assumption.
Qed.

(** X23: every local road of a generated city is a horizontal or a vertical
    road that starts and ends inside the rectangle of one of the zones, its
    right and bottom sides included, or a road between the centres of two of
    the zones. *)
Theorem local_roads_serve_the_zones (numpy noise : bool)
  (md : Z -> Z -> Seed -> fval) (seeds : list (Z * Seed)) (cfg : CityConfig)
  (rng rng' : Rng) (city : CityGenerator) :
  valid_config cfg ->
  generate_city numpy noise md seeds cfg rng = Ok (city, rng') ->
  forall r, In r (roads (road_network city)) ->
    road_type r = "local"%string ->
    zone_road (zones city) r \/ link_road (zones city) r.
Proof.
  intros _ Hgen r Hin Hlocal.
  destruct (generated_buildings_placed numpy noise md seeds cfg rng rng' city Hgen)
    as (zs & Hz & Hsame & _ & _).
  destruct (generate_zones_fresh numpy noise md cfg seeds zs Hz) as [Hplane _].
  apply generate_city_inv in Hgen.
  destruct Hgen as (zs' & net & out & Hz' & Hn & _ & Ecity).
  rewrite Hz in Hz'. inversion Hz'; subst zs'.
  destruct (generate_road_network_ok cfg zs) as (net' & Hn' & Hr & _).
  rewrite Hn in Hn'. inversion Hn'; subst net'.
  rewrite Ecity in Hin. cbn [road_network] in Hin. rewrite Hr in Hin.
  destruct (generate_roads_local cfg zs (new_RoadNetwork cfg) Hplane)
    as (_ & rs & E & Hall).
  rewrite E in Hin. cbn [roads new_RoadNetwork app] in Hin.
  rewrite Forall_forall in Hall.
  destruct (Hall r Hin) as [Hne|[(z & Hzin & Hs & He & Hax)
                                 |(z1 & z2 & H1 & H2 & Hs & He)]];
    [contradiction| |].
  - left. destruct (Forall2_In_l _ _ _ z Hsame Hzin)
      as (z' & Hz'in & (_ & Ex & Ey & Ew & Eh & _)).
    exists z'. split; [exact Hz'in|].
    unfold in_closed_rect in *. rewrite Ex, Ey, Ew, Eh. auto.
  - right.
    destruct (Forall2_In_l _ _ _ z1 Hsame H1)
      as (z1' & H1' & (_ & Ex1 & Ey1 & Ew1 & Eh1 & _)).
    destruct (Forall2_In_l _ _ _ z2 Hsame H2)
      as (z2' & H2' & (_ & Ex2 & Ey2 & Ew2 & Eh2 & _)).
    exists z1', z2'. split; [exact H1'|]. split; [exact H2'|].
    unfold zone_center in *. rewrite Ex1, Ey1, Ew1, Eh1, Ex2, Ey2, Ew2, Eh2.
    auto.
Qed.

Lemma local_roads_serve_the_zones_witness :
  valid_config block_cfg /\
  exists city rng',
    generate_city true true squared_distance block_seeds block_cfg rng0
    = Ok (city, rng')
    /\ In (new_Road (0, 0) (0, 4) 12 "local") (roads (road_network city))
    /\ forall r, In r (roads (road_network city)) ->
         road_type r = "local"%string ->
         zone_road (zones city) r \/ link_road (zones city) r.
Proof.
  assert (Hc : valid_config block_cfg) by (unfold valid_config; simpl; lia).
  split; [exact Hc|].
  eexists. eexists. split; [vm_compute; reflexivity|].
  split; [vm_compute; tauto|].
  eapply (local_roads_serve_the_zones true true squared_distance block_seeds
            block_cfg rng0); [exact Hc | vm_compute; reflexivity].
Defined.

(** ** Where the flood fill starts *)

Lemma sorted_app {A : Type} (R : A -> A -> Prop) (l1 l2 : list A) :
  StronglySorted R l1 -> StronglySorted R l2 ->
  (forall a b, In a l1 -> In b l2 -> R a b) ->
  StronglySorted R (l1 ++ l2).
Proof.
  induction 1 as [|a l1 Hs IH Ha]; intros H2 Hc; cbn [app]; [exact H2|].
  constructor.
  - apply IH; [exact H2|]. intros x y Hx Hy. apply Hc; [right|]; assumption.
  - apply Forall_app. split; [exact Ha|].
    apply Forall_forall. intros y Hy. apply Hc; [left; reflexivity | exact Hy].
Qed.

Lemma sorted_suffix {A : Type} (R : A -> A -> Prop) (pre : list A) (e : A)
  (post : list A) :
  StronglySorted R (pre ++ e :: post) -> Forall (R e) post.
Proof.
  induction pre as [|a pre IH]; cbn [app]; intros H.
  - inversion H; assumption.
  - inversion H; subst. apply IH. assumption.
Qed.

Lemma scan_cells_sorted (cfg : CityConfig) :
  StronglySorted scan_lt (scan_cells cfg).
Proof.
  unfold scan_cells.
  pose proof (py_range_sorted 0 (cfg_width cfg) 1) as Hx.
  pose proof (py_range_sorted 0 (cfg_height cfg) 1) as Hy.
  revert Hx Hy.
  generalize (py_range 0 (cfg_width cfg) 1) as xs.
  generalize (py_range 0 (cfg_height cfg) 1) as ys.
  intros ys xs Hx Hy.
  induction Hy as [|y ys Hys IH Hall]; cbn [flat_map]; [constructor|].
  apply sorted_app; [|exact IH|].
  - clear -Hx. induction Hx as [|x xs Hxs IH Hall]; cbn [map]; constructor;
      [exact IH|].
    apply Forall_forall. intros c Hc. apply in_map_iff in Hc.
    destruct Hc as (x' & <- & Hx'). rewrite Forall_forall in Hall.
    right. cbn [fst snd]. split; [reflexivity|].
    specialize (Hall x' Hx'). lia.
  - intros a b Ha Hb. apply in_map_iff in Ha. destruct Ha as (x & <- & _).
    apply in_flat_map in Hb. destruct Hb as (y' & Hy' & Hb).
    apply in_map_iff in Hb. destruct Hb as (x' & <- & _).
    rewrite Forall_forall in Hall. specialize (Hall y' Hy').
    left. cbn [snd]. lia.
Qed.

Lemma find_split {A : Type} (f : A -> bool) (l : list A) (s : A) :
  find f l = Some s ->
  exists pre post,
    l = pre ++ s :: post /\ f s = true /\ forall a, In a pre -> f a = false.
Proof.
  induction l as [|a l IH]; cbn [find]; [discriminate|].
  destruct (f a) eqn:Ea.
  - intros E. inversion E; subst. exists [], l.
    split; [reflexivity|]. split; [exact Ea | intros x []].
  - intros E. destruct (IH E) as (pre & post & -> & Hs & Hpre).
    exists (a :: pre), post. split; [reflexivity|]. split; [exact Hs|].
    intros x [<-|Hx]; auto.
Qed.

(** The loop only appends to the cells it has collected. *)
Lemma flood_fill_appends (cfg : CityConfig) (g : list (list Z))
  (zone_id : Z) :
  forall (fuel : nat) (stack visited cells out : list cell),
    flood_fill fuel cfg g zone_id stack visited cells = Ok out ->
    exists more, out = cells ++ more.
Proof.
  induction fuel as [|fuel IH]; intros stack visited cells out H;
    destruct stack as [|[x y] stack]; cbn [flood_fill] in H;
    try discriminate;
    try (inversion H; subst; exists []; rewrite app_nil_r; reflexivity).
  destruct (mem_cell (x, y) visited); [apply (IH _ _ _ _ H)|].
  destruct ((x <? 0) || (x >=? cfg_width cfg)
            || (y <? 0) || (y >=? cfg_height cfg)); [apply (IH _ _ _ _ H)|].
  destruct (zone_at g x y =? zone_id); cbn [negb] in H;
    [|apply (IH _ _ _ _ H)].
  destruct (IH _ _ _ _ H) as (more & ->).
  exists ((x, y) :: more). rewrite <- app_assoc. reflexivity.
Qed.

(** X24: when some cell of the plane bears the id, the list
    [_find_connected_cells] returns starts with the first such cell in the
    order of the scan, row by row and from left to right: the component
    collected is the component of that cell. *)
Theorem flood_fill_starts_at_the_first_cell (cfg : CityConfig)
  (g : list (list Z)) (zone_id : Z) (c : cell) :
  bears cfg g zone_id c ->
  exists s rest,
    find_connected_cells cfg g zone_id = Ok (s :: rest)
    /\ bears cfg g zone_id s
    /\ forall c', bears cfg g zone_id c' -> c' = s \/ scan_lt s c'.
Proof.
  intros Hc.
  destruct (find_connected_cells_ok cfg g zone_id) as (cells & Hr & _).
  unfold find_connected_cells in *.
  match type of Hr with
  | context [find ?f ?l] => destruct (find f l) as [s|] eqn:Ef
  end.
  - destruct (find_split _ _ _ Ef) as (pre & post & Escan & Hs & Hpre).
    assert (Hin : In s (scan_cells cfg))
      by (rewrite Escan; apply in_or_app; right; left; reflexivity).
    destruct s as [sx sy]. apply scan_cells_In in Hin.
    cbn [fst snd] in Hs. apply Z.eqb_eq in Hs.
    assert (Hbs : bears cfg g zone_id (sx, sy)) by (split; assumption).
    assert (Hfirst : exists rest, cells = (sx, sy) :: rest).
    { unfold flood_fuel in Hr. cbn [flood_fill mem_cell existsb] in Hr.
      replace ((sx <? 0) || (sx >=? cfg_width cfg)
               || (sy <? 0) || (sy >=? cfg_height cfg)) with false in Hr.
      - rewrite Hs, Z.eqb_refl in Hr. cbn [negb app] in Hr.
        destruct (flood_fill_appends _ _ _ _ _ _ _ _ Hr) as (more & ->).
        exists more. reflexivity.
      - symmetry. rewrite !orb_false_iff, !Z.ltb_ge, Z.geb_leb, Z.geb_leb,
          !Z.leb_gt. lia. }
    destruct Hfirst as (rest & ->).
    exists (sx, sy), rest. split; [exact Hr|]. split; [exact Hbs|].
    intros [x y] [Hp Hz]. cbn [fst snd] in *.
    assert (Hin' : In (x, y) (scan_cells cfg)) by (apply scan_cells_In; exact Hp).
    rewrite Escan in Hin'. apply in_app_or in Hin'.
    destruct Hin' as [Hin'|[E|Hin']].
    + specialize (Hpre _ Hin'). cbn [fst snd] in Hpre.
      rewrite Hz, Z.eqb_refl in Hpre. discriminate.
    + left. symmetry. exact E.
    + right. pose proof (scan_cells_sorted cfg) as Hsorted.
      rewrite Escan in Hsorted. apply sorted_suffix in Hsorted.
      rewrite Forall_forall in Hsorted. apply Hsorted. exact Hin'.
  - exfalso. destruct c as [x y]. destruct Hc as [Hp Hz].
    cbn [fst snd] in *.
    pose proof (find_none _ _ Ef (x, y)) as Hn. cbn [fst snd] in Hn.
    rewrite Hz, Z.eqb_refl in Hn. discriminate Hn.
    apply scan_cells_In. exact Hp.
Qed.

Lemma flood_fill_starts_at_the_first_cell_witness :
  bears overlap_cfg overlap_zone_grid 1 (3, 3)
  /\ exists s rest,
       find_connected_cells overlap_cfg overlap_zone_grid 1 = Ok (s :: rest)
       /\ s = (2, 0)
       /\ bears overlap_cfg overlap_zone_grid 1 s
       /\ forall c',
            bears overlap_cfg overlap_zone_grid 1 c' ->
            c' = s \/ scan_lt s c'.
Proof.
  assert (Hb : bears overlap_cfg overlap_zone_grid 1 (3, 3)).
  { split; [cbn; lia | vm_compute; reflexivity]. }
  split; [exact Hb|].
  destruct (flood_fill_starts_at_the_first_cell overlap_cfg _ 1 (3, 3) Hb)
    as (s & rest & Hr & Hrest).
  exists s, rest. split; [exact Hr|].
  split; [|exact Hrest].
  vm_compute in Hr. inversion Hr. reflexivity.
Defined.

(** ** The line has no gap *)

(** The loop on x sets a cell in every column it passes. *)
Lemma draw_major_x_covers (cfg : CityConfig) (x1 y1 dx dy sx sy : Z)
  (width : Q) :
  0 <= dy <= dx -> (sx = 1 \/ sx = -1) -> (sy = 1 \/ sy = -1) ->
  (0 <= width)%Q ->
  forall (fuel : nat) (x y : Z) (err : Q) (g : list (list bool))
         (k r e2 : Z),
    grid_shape cfg g ->
    x1 = x + sx * k -> 0 <= k <= Z.of_nat fuel ->
    y1 = y + sy * r ->
    (2 * err == inject_Z e2)%Q -> 0 <= e2 < 2 * dx ->
    e2 - 2 * k * dy + 2 * r * dx = dx ->
    exists g',
      draw_major_x fuel cfg x1 dx dy sx sy width x y err g = Ok (x1, y1, g')
      /\ grid_shape cfg g' /\ grid_le cfg g g'
      /\ forall j, 0 <= j < k ->
           exists yj, between y y1 yj
                      /\ (in_bounds cfg (x + sx * j, yj) = true ->
                          grid_value g' (x + sx * j, yj) = true).
Proof.
  intros Hd Hsx Hsy Hw.
  induction fuel as [|fuel IH];
    intros x y err g k r e2 Hg Hx Hk Hy He He2 Hinv; cbn [draw_major_x].
  - assert (k = 0) by lia. subst k.
    assert (r = 0) by nia. subst r.
    replace (x =? x1) with true by (symmetry; apply Z.eqb_eq; lia).
    exists g. replace y1 with y by lia. replace x1 with x by lia.
    split; [reflexivity|]. split; [exact Hg|].
    split; [apply grid_le_refl | intros j Hj; lia].
  - destruct (Z.eqb_spec x x1) as [Ex|Ex].
    + assert (k = 0) by nia. subst k.
      assert (r = 0) by nia. subst r.
      exists g. replace y1 with y by lia. rewrite <- Ex.
      split; [reflexivity|]. split; [exact Hg|].
      split; [apply grid_le_refl | intros j Hj; lia].
    + assert (Hk0 : 0 < k) by (destruct (Z.eq_dec k 0); [subst; lia | lia]).
      pose proof (half_step err e2 dy He) as He'.
      rewrite (half_negative _ _ He').
      pose proof (mark_road_point_shape cfg x y width g Hg) as Hg1.
      pose proof (mark_road_point_le cfg x y width g Hg) as Hle1.
      assert (Hcover : forall y' g',
        between y y1 y' ->
        grid_le cfg (mark_road_point cfg x y width g) g' ->
        (forall j, 0 <= j < k - 1 ->
           exists yj, between y' y1 yj
                      /\ (in_bounds cfg (x + sx + sx * j, yj) = true ->
                          grid_value g' (x + sx + sx * j, yj) = true)) ->
        forall j, 0 <= j < k ->
          exists yj, between y y1 yj
                     /\ (in_bounds cfg (x + sx * j, yj) = true ->
                         grid_value g' (x + sx * j, yj) = true)).
      { intros y' g' Hy' Hle Hrest j Hj.
        destruct (Z.eq_dec j 0) as [->|Hj0].
        - exists y. split; [unfold between; lia|].
          replace (x + sx * 0) with x by lia. intros Hb.
          apply (Hle (x, y) Hb). apply mark_road_point_center; assumption.
        - destruct (Hrest (j - 1)) as (yj & Hyj & Hv); [lia|].
          exists yj. split; [unfold between in *; lia|].
          replace (x + sx * j) with (x + sx + sx * (j - 1)) by lia.
          exact Hv. }
      destruct (e2 - 2 * dy <? 0) eqn:Eneg.
      * apply Z.ltb_lt in Eneg.
        assert (Hr1 : 1 <= r) by nia.
        destruct (IH (x + sx) (y + sy) (err - inject_Z dy + inject_Z dx)%Q
                    (mark_road_point cfg x y width g) (k - 1) (r - 1)
                    (e2 - 2 * dy + 2 * dx) Hg1)
          as (g' & Hr & Hs & Hle & Hrest);
          try (apply half_back; exact He'); try lia; try nia.
        exists g'. split; [exact Hr|]. split; [exact Hs|].
        split; [eapply grid_le_trans; eauto|].
        apply (Hcover (y + sy) g'); [unfold between; nia | exact Hle|].
        exact Hrest.
      * apply Z.ltb_ge in Eneg.
        destruct (IH (x + sx) y (err - inject_Z dy)%Q
                    (mark_road_point cfg x y width g) (k - 1) r
                    (e2 - 2 * dy) Hg1)
          as (g' & Hr & Hs & Hle & Hrest);
          try exact He'; try lia; try nia.
        exists g'. split; [exact Hr|]. split; [exact Hs|].
        split; [eapply grid_le_trans; eauto|].
        apply (Hcover y g'); [unfold between; lia | exact Hle | exact Hrest].
Qed.

(** The loop on y sets a cell in every row it passes. *)
Lemma draw_major_y_covers (cfg : CityConfig) (x1 y1 dx dy sx sy : Z)
  (width : Q) :
  0 <= dx <= dy -> (sx = 1 \/ sx = -1) -> (sy = 1 \/ sy = -1) ->
  (0 <= width)%Q ->
  forall (fuel : nat) (x y : Z) (err : Q) (g : list (list bool))
         (k r e2 : Z),
    grid_shape cfg g ->
    y1 = y + sy * k -> 0 <= k <= Z.of_nat fuel ->
    x1 = x + sx * r ->
    (2 * err == inject_Z e2)%Q -> 0 <= e2 < 2 * dy ->
    e2 - 2 * k * dx + 2 * r * dy = dy ->
    exists g',
      draw_major_y fuel cfg y1 dx dy sx sy width x y err g = Ok (x1, y1, g')
      /\ grid_shape cfg g' /\ grid_le cfg g g'
      /\ forall j, 0 <= j < k ->
           exists xj, between x x1 xj
                      /\ (in_bounds cfg (xj, y + sy * j) = true ->
                          grid_value g' (xj, y + sy * j) = true).
Proof.
  intros Hd Hsx Hsy Hw.
  induction fuel as [|fuel IH];
    intros x y err g k r e2 Hg Hy Hk Hx He He2 Hinv; cbn [draw_major_y].
  - assert (k = 0) by lia. subst k.
    assert (r = 0) by nia. subst r.
    replace (y =? y1) with true by (symmetry; apply Z.eqb_eq; lia).
    exists g. replace y1 with y by lia. replace x1 with x by lia.
    split; [reflexivity|]. split; [exact Hg|].
    split; [apply grid_le_refl | intros j Hj; lia].
  - destruct (Z.eqb_spec y y1) as [Ey|Ey].
    + assert (k = 0) by nia. subst k.
      assert (r = 0) by nia. subst r.
      exists g. replace x1 with x by lia. rewrite <- Ey.
      split; [reflexivity|]. split; [exact Hg|].
      split; [apply grid_le_refl | intros j Hj; lia].
    + assert (Hk0 : 0 < k) by (destruct (Z.eq_dec k 0); [subst; lia | lia]).
      pose proof (half_step err e2 dx He) as He'.
      rewrite (half_negative _ _ He').
      pose proof (mark_road_point_shape cfg x y width g Hg) as Hg1.
      pose proof (mark_road_point_le cfg x y width g Hg) as Hle1.
      assert (Hcover : forall x' g',
        between x x1 x' ->
        grid_le cfg (mark_road_point cfg x y width g) g' ->
        (forall j, 0 <= j < k - 1 ->
           exists xj, between x' x1 xj
                      /\ (in_bounds cfg (xj, y + sy + sy * j) = true ->
                          grid_value g' (xj, y + sy + sy * j) = true)) ->
        forall j, 0 <= j < k ->
          exists xj, between x x1 xj
                     /\ (in_bounds cfg (xj, y + sy * j) = true ->
                         grid_value g' (xj, y + sy * j) = true)).
      { intros x' g' Hx' Hle Hrest j Hj.
        destruct (Z.eq_dec j 0) as [->|Hj0].
        - exists x. split; [unfold between; lia|].
          replace (y + sy * 0) with y by lia. intros Hb.
          apply (Hle (x, y) Hb). apply mark_road_point_center; assumption.
        - destruct (Hrest (j - 1)) as (xj & Hxj & Hv); [lia|].
          exists xj. split; [unfold between in *; lia|].
          replace (y + sy * j) with (y + sy + sy * (j - 1)) by lia.
          exact Hv. }
      destruct (e2 - 2 * dx <? 0) eqn:Eneg.
      * apply Z.ltb_lt in Eneg.
        assert (Hr1 : 1 <= r) by nia.
        destruct (IH (x + sx) (y + sy) (err - inject_Z dx + inject_Z dy)%Q
                    (mark_road_point cfg x y width g) (k - 1) (r - 1)
                    (e2 - 2 * dx + 2 * dy) Hg1)
          as (g' & Hr & Hs & Hle & Hrest);
          try (apply half_back; exact He'); try lia; try nia.
        exists g'. split; [exact Hr|]. split; [exact Hs|].
        split; [eapply grid_le_trans; eauto|].
        apply (Hcover (x + sx) g'); [unfold between; nia | exact Hle|].
        exact Hrest.
      * apply Z.ltb_ge in Eneg.
        destruct (IH x (y + sy) (err - inject_Z dx)%Q
                    (mark_road_point cfg x y width g) (k - 1) r
                    (e2 - 2 * dx) Hg1)
          as (g' & Hr & Hs & Hle & Hrest);
          try exact He'; try lia; try nia.
        exists g'. split; [exact Hr|]. split; [exact Hs|].
        split; [eapply grid_le_trans; eauto|].
        apply (Hcover x g'); [unfold between; lia | exact Hle | exact Hrest].
Qed.

Lemma gapless_le (cfg : CityConfig) (start end_ : cell)
  (g g' : list (list bool)) :
  grid_le cfg g g' -> gapless cfg start end_ g -> gapless cfg start end_ g'.
Proof.
  intros Hle [H1 H2]. split.
  - intros Hd x Hx. destruct (H1 Hd x Hx) as (y & Hy & Hv).
    exists y. split; [exact Hy|]. intros Hb. apply (Hle _ Hb). auto.
  - intros Hd y Hy. destruct (H2 Hd y Hy) as (x & Hx & Hv).
    exists x. split; [exact Hx|]. intros Hb. apply (Hle _ Hb). auto.
Qed.

Lemma draw_line_on_grid_covers (cfg : CityConfig) (start end_ : cell)
  (width : Q) (g g' : list (list bool)) :
  grid_shape cfg g -> (0 <= width)%Q ->
  draw_line_on_grid cfg start end_ width g = Ok g' ->
  gapless cfg start end_ g'.
Proof.
  intros Hg Hw. destruct start as [x0 y0], end_ as [x1 y1].
  unfold draw_line_on_grid, gapless. cbn [fst snd].
  remember (Z.abs (x1 - x0)) as dx eqn:Edx.
  remember (Z.abs (y1 - y0)) as dy eqn:Edy.
  remember (if x0 <? x1 then 1 else -1) as sx eqn:Esx.
  remember (if y0 <? y1 then 1 else -1) as sy eqn:Esy.
  assert (Hsx : sx = 1 \/ sx = -1) by (subst sx; destruct (x0 <? x1); auto).
  assert (Hsy : sy = 1 \/ sy = -1) by (subst sy; destruct (y0 <? y1); auto).
  assert (Hx : x1 = x0 + sx * dx)
    by (subst sx dx; destruct (Z.ltb_spec x0 x1); lia).
  assert (Hy : y1 = y0 + sy * dy)
    by (subst sy dy; destruct (Z.ltb_spec y0 y1); lia).
  assert (Hdx : 0 <= dx) by lia.
  assert (Hdy : 0 <= dy) by lia.
  clear Edx Edy Esx Esy.
  destruct (Z.ltb_spec dy dx) as [E|E].
  - destruct (draw_major_x_covers cfg x1 y1 dx dy sx sy width
                ltac:(lia) Hsx Hsy Hw (Z.to_nat dx) x0 y0
                (inject_Z dx / 2)%Q g
                dx dy dx Hg Hx ltac:(lia) Hy (half_start dx)
                ltac:(lia) ltac:(lia))
      as (g1 & Hr & Hs & Hle & Hcov).
    rewrite Hr. cbn [rbind]. intros Eg. inversion Eg; subst g'; clear Eg.
    pose proof (mark_road_point_le cfg x1 y1 width g1 Hs) as Hle1.
    split; [|intros Hd; lia].
    intros _ x Hbx. unfold between in Hbx.
    destruct (Z.eq_dec x x1) as [->|Hne].
    + exists y1. split; [unfold between; lia|]. intros Hb.
      apply mark_road_point_center; assumption.
    + destruct (Hcov (sx * (x - x0))) as (y & Hby & Hv);
        [destruct Hsx; subst sx; lia|].
      exists y. split; [exact Hby|].
      replace (x0 + sx * (sx * (x - x0))) with x in Hv
        by (destruct Hsx; subst sx; lia).
      intros Hb. apply (Hle1 _ Hb). auto.
  - destruct (Z.eq_dec dy 0) as [E0|E0].
    + assert (dx = 0) by lia.
      assert (Ex : x1 = x0) by lia. assert (Ey : y1 = y0) by lia.
      rewrite Ex, Ey, E0. cbn [Z.to_nat draw_major_y]. rewrite Z.eqb_refl.
      cbn [rbind]. intros Eg. inversion Eg; subst g'; clear Eg.
      split; [intros Hd; lia|].
      intros _ y Hby. unfold between in Hby.
      exists x0. split; [unfold between; lia|].
      replace y with y0 by lia. intros Hb.
      apply mark_road_point_center; assumption.
    + destruct (draw_major_y_covers cfg x1 y1 dx dy sx sy width
                  ltac:(lia) Hsx Hsy Hw (Z.to_nat dy) x0 y0
                  (inject_Z dy / 2)%Q g
                  dy dx dy Hg Hy ltac:(lia) Hx (half_start dy)
                  ltac:(lia) ltac:(lia))
        as (g1 & Hr & Hs & Hle & Hcov).
      rewrite Hr. cbn [rbind]. intros Eg. inversion Eg; subst g'; clear Eg.
      pose proof (mark_road_point_le cfg x1 y1 width g1 Hs) as Hle1.
      split; [intros Hd; lia|].
      intros _ y Hby. unfold between in Hby.
      destruct (Z.eq_dec y y1) as [->|Hne].
      * exists x1. split; [unfold between; lia|]. intros Hb.
        apply mark_road_point_center; assumption.
      * destruct (Hcov (sy * (y - y0))) as (x & Hbx & Hv);
          [destruct Hsy; subst sy; lia|].
        exists x. split; [exact Hbx|].
        replace (y0 + sy * (sy * (y - y0))) with y in Hv
          by (destruct Hsy; subst sy; lia).
        intros Hb. apply (Hle1 _ Hb). auto.
Qed.

(** X25: for a width that is not negative [_draw_line_on_grid] leaves no gap
    in its line: a line wider than tall gets a cell in every column between
    its two ends, any other line a cell in every row, the cell lying between
    the ends and being set whenever it is in the plane. *)
Theorem lines_have_no_gap (cfg : CityConfig) (start end_ : cell)
  (width : Q) (g : list (list bool)) :
  grid_shape cfg g -> (0 <= width)%Q ->
  exists g',
    draw_line_on_grid cfg start end_ width g = Ok g'
    /\ gapless cfg start end_ g'.
Proof.
  intros Hg Hw.
  destruct (draw_line_on_grid_marks cfg start end_ width g Hg)
    as (g' & Hr & _).
  exists g'. split; [exact Hr|].
  apply (draw_line_on_grid_covers cfg start end_ width g g' Hg Hw Hr).
Qed.

Lemma lines_have_no_gap_witness :
  grid_shape village_cfg village_grid /\ (0 <= 1)%Q
  /\ exists g',
       draw_line_on_grid village_cfg (2, 3) (9, 6) 1 village_grid = Ok g'
       /\ grid_value g' (5, 4) = true
       /\ gapless village_cfg (2, 3) (9, 6) g'.
Proof.
  assert (Hg : grid_shape village_cfg village_grid) by apply new_grid_shape.
  assert (Hw : (0 <= 1)%Q) by discriminate.
  split; [exact Hg|]. split; [exact Hw|].
  destruct (lines_have_no_gap village_cfg (2, 3) (9, 6) 1 village_grid Hg Hw)
    as (g' & Hr & Hgap).
  exists g'. split; [exact Hr|]. split; [|exact Hgap].
  assert (E : Ok g'
              = draw_line_on_grid village_cfg (2, 3) (9, 6) 1 village_grid)
    by (symmetry; exact Hr).
  vm_compute in E. inversion E. vm_compute. reflexivity.
Defined.

Lemma gapless_straight (cfg : CityConfig) (r : Road) (g : list (list bool)) :
  straight r -> gapless cfg (r_start r) (r_end r) g ->
  forall p, along r p -> in_bounds cfg p = true -> grid_value g p = true.
Proof.
  intros Hst [H1 H2] [x y] [Hx Hy] Hb. cbn [fst snd] in *.
  unfold between in *.
  destruct (Z_lt_le_dec (Z.abs (snd (r_end r) - snd (r_start r)))
                        (Z.abs (fst (r_end r) - fst (r_start r))))
    as [Hd|Hd].
  - destruct (H1 Hd x Hx) as (y' & Hy' & Hv).
    assert (snd (r_start r) = snd (r_end r)) by (destruct Hst; lia).
    unfold between in Hy'. replace y' with y in Hv by lia. auto.
  - destruct (H2 Hd y Hy) as (x' & Hx' & Hv).
    assert (fst (r_start r) = fst (r_end r)) by (destruct Hst; lia).
    unfold between in Hx'. replace x' with x in Hv by lia. auto.
Qed.

Lemma update_road_grid_loop_covers (cfg : CityConfig) (rs : list Road) :
  forall g, grid_shape cfg g ->
    exists g',
      update_road_grid_loop cfg rs g = Ok g'
      /\ grid_shape cfg g' /\ grid_le cfg g g'
      /\ forall r, In r rs -> (0 <= r_width r)%Q ->
           gapless cfg (r_start r) (r_end r) g'.
Proof.
  induction rs as [|road rest IH]; intros g Hg; cbn [update_road_grid_loop].
  - exists g. split; [reflexivity|]. split; [exact Hg|].
    split; [apply grid_le_refl | intros r []].
  - destruct (draw_line_on_grid_marks cfg (r_start road) (r_end road)
                (r_width road) g Hg) as (g1 & Hr & Hs & Hle & _).
    rewrite Hr. cbn [rbind].
    destruct (IH g1 Hs) as (g' & Hr' & Hs' & Hle' & Hall).
    exists g'. split; [exact Hr'|]. split; [exact Hs'|].
    split; [eapply grid_le_trans; eauto|].
    intros r [<-|Hin] Hw; [|apply Hall; assumption].
    apply (gapless_le cfg _ _ g1 g' Hle').
    apply (draw_line_on_grid_covers cfg _ _ _ g g1 Hg Hw Hr).
Qed.

(** X26: in a generated city whose three road widths are not negative every
    cell of the plane on a horizontal or vertical road is a road cell:
    [is_road] answers [True] all along the road. *)
Theorem straight_roads_are_road_cells (numpy noise : bool)
  (md : Z -> Z -> Seed -> fval) (seeds : list (Z * Seed)) (cfg : CityConfig)
  (rng rng' : Rng) (city : CityGenerator) :
  valid_config cfg -> widths_nonneg cfg ->
  generate_city numpy noise md seeds cfg rng = Ok (city, rng') ->
  forall r, In r (roads (road_network city)) -> straight r ->
  forall p, along r p -> in_bounds cfg p = true ->
    is_road cfg (road_network city) (fst p) (snd p) = Ok true.
Proof.
  intros _ Hw Hgen r Hin Hst p Hp Hb.
  apply generate_city_inv in Hgen.
  destruct Hgen as (zs & net & out & _ & Hn & _ & ->).
  cbn [road_network] in *.
  unfold generate_road_network, update_road_grid in Hn.
  set (net0 := generate_roads cfg zs (new_RoadNetwork cfg)) in *.
  assert (Hg0 : road_grid net0 = road_grid (new_RoadNetwork cfg))
    by apply generate_roads_grid.
  destruct (update_road_grid_loop_covers cfg (roads net0) (road_grid net0))
    as (g' & Hr & Hs & _ & Hall).
  { rewrite Hg0. apply new_grid_shape. }
  rewrite Hr in Hn. cbn [rbind] in Hn. inversion Hn; subst net; clear Hn.
  cbn [roads road_grid] in *.
  match goal with
  | |- is_road cfg ?n _ _ = _ =>
    rewrite (is_road_value cfg n (fst p) (snd p) Hs)
  end.
  cbn [road_grid]. rewrite <- surjective_pairing, Hb.
  rewrite (gapless_straight cfg r g' Hst); [reflexivity| |exact Hp|exact Hb].
  apply Hall; [exact Hin|].
  destruct (generate_roads_widths cfg zs (new_RoadNetwork cfg) Hw)
    as (_ & added & Hroads & Hadded).
  fold net0 in Hroads. cbn [roads new_RoadNetwork app] in Hroads.
  rewrite Hroads in Hin. rewrite Forall_forall in Hadded. auto.
Qed.

Lemma straight_roads_are_road_cells_witness :
  valid_config village_cfg /\ widths_nonneg village_cfg /\
  exists city rng',
    generate_city true true squared_distance village_seeds village_cfg rng0
    = Ok (city, rng')
    /\ In (new_Road (0, 0) (0, 19) 1 "main") (roads (road_network city))
    /\ forall r, In r (roads (road_network city)) -> straight r ->
       forall p, along r p -> in_bounds village_cfg p = true ->
         is_road village_cfg (road_network city) (fst p) (snd p) = Ok true.
Proof.
  assert (Hc : valid_config village_cfg) by (unfold valid_config; simpl; lia).
  assert (Hw : widths_nonneg village_cfg)
    by (unfold widths_nonneg; simpl; repeat split; discriminate).
  split; [exact Hc|]. split; [exact Hw|].
  eexists. eexists. split; [vm_compute; reflexivity|].
  split; [left; reflexivity|].
  eapply (straight_roads_are_road_cells true true squared_distance village_seeds
            village_cfg rng0);
    [exact Hc | exact Hw | vm_compute; reflexivity].
Defined.
